(* ===== verification/_CoqProject ===== *)
-Q . S2P
Prelude.v
CInt.v
CString.v
Config.v
Fmt.v
Binlog.v
Common.v
Expand.v
Clock.v
Logd.v
Collect.v
Plugin.v
Psql.v
Mysql.v
Http.v
X11.v
Fcgi.v
Vbuf.v
Feed.v
Conv.v
Session.v
Getservice.v
PpId.v
Report.v
Shown.v
Vfd.v
Requests.v
Server.v
Client.v
Multiplex.v
Select.v
Env.v
Trace.v
Poll.v
Min.v
Exec.v
Wrap.v
PfduraMod.v
Pf.v
Pfdura.v
Threads.v
PerTid.v
System.v
