(* ===== verification/Prelude.v ===== *)
(** BorderPatrol: a verification library.

    BorderPatrol traces requests through unmodified programs.  A library preloaded
    into every program (src/src/trace) interposes the calls that move data between
    processes, shows the bytes to protocol plugins and logs what happened; the
    records are buffered per thread and written to a collector (src/src/logd/logd.c)
    that merges them into one file; expand (src/src/logd/expand.c) prints the file.

    ** How the C code is modelled

    A function is a computation in the [run] monad of this file: it emits effects
    in order and returns, or stops with a [crash] (exit, a failed assert, undefined
    behaviour, or waiting for the kernel).  Memory is a list of bytes and a load or
    a store outside the object is [Undef] (CInt.v); C strings are read from memory
    up to their terminator (CString.v); machine integers are [Z] with the wrap-around
    written where the code has it.  What the kernel answers is an argument.  A pointer that
    a wrapper only passes on is a number among the arguments of the real call.

    ** The files

    - Prelude.v: the monad, its laws and tactics, lists indexed by [Z], read(2).
      CInt.v: bytes, words, memory.  CString.v: string.h and stdlib.h.
    - Config.v: config.h, protocol.h and vfd.h's constants; the LOGBIN entry points
      of binlog.c as events ([log_op]), so that the traced program's side of the
      library emits events and Binlog.v gives them their bytes.  An entry point that takes a
      string ends the process when the record is longer than PIPE_BUF ([LOGBIN_event]).
    - Fmt.v: fmt.c, the record format.  Binlog.v: binlog.c, the thread's buffer.
      Common.v and Expand.v: common.c and expand.c, reading the file back.
      Logd.v: logd.c, the collector as a state machine over its channels.
      Collect.v: several clients of the collector, as an interleaving of their steps
      ([sessions], [merged]).  Threads.v: the threads' contexts and the interleaving of
      their steps.  PerTid.v: the threads' descriptor tables of TRACK_PER_TID, which is
      never set.  System.v puts threads, collector and expand together.
    - Plugin.v: protocol.c's plugin interface.  [PpLaw] is what vfd.c needs of a
      plugin, [pp_calls] the sequences of calls it makes.  Psql.v, Mysql.v, Http.v,
      X11.v and Fcgi.v: the plugins, with their [PpLaw] instances.
    - Vbuf.v: vfd.c's buffers, proved against [PpLaw].  Feed.v: what a plugin sees of
      a descriptor's stream.  Conv.v: [PpConv], what a plugin promises of a conversation
      it understands, and what an application that writes or reads one logs then;
      Session.v has the instances (PostgreSQL, MySQL, the trivial protocol).  Report.v
      puts the thread's buffer, the collector and expand behind that ([delivered]);
      Shown.v: what a traced program logs fits the records.
    - Getservice.v: getservice.c, the services files.  PpId.v: the identification
      of protocols by address.
    - Vfd.v: vfd.c's interposed descriptor calls over the descriptor table.
      Requests.v: their properties, one by one and in sequence ([run_requests]).
      Server.v: a server's connection from accept to the report.  Client.v: a client's,
      from socket and connect.  Multiplex.v: a process with many connections.
    - Select.v: select and poll over the cache of ready descriptors.  Env.v: the
      environment calls.  Exec.v: the start of the library, exit, fork, exec and
      threads.  Wrap.v: wrap.h and the lookups of the functions a library stands in for.
    - Trace.v, Poll.v and Min.v: the earlier libraries, trace.c (Poll.v is its poll,
      which hands events over one by one) and min.c, which trace as text.  Nothing builds
      trace.c, and min.c no longer compiles: the functions they call that are gone are
      effects.  Clock.v: cycles.h and gtod.c.
    - PfduraMod.v: pfdura-mod.c, the kernel module that reports page faults, as a
      state machine over its files and probes ([serve_mod]); [KernelLaw] is what it
      needs of the kernel.  Pf.v: pf.c, which turns its reports into log records.
      Pfdura.v: pfdura.c and the two ways the module is switched.

    ** What the theorems show

    - The path of a record: freeze and thaw are inverse on the wire format; any
      sequence of logged events reaches the kernel as exactly its records, in order;
      expand prints exactly the records of a file; both composed.  However threads
      interleave, the log is a sequence of whole records, each thread's in order.
    - The collector relays each connection's records, restamped with its clock,
      counts its buffers exactly and keeps connections apart; whatever the interleaving
      of its clients, its file has each one's records, whole and in order.
    - All of it together: threads of several processes, the collector's rounds of select,
      and expand (System.v); the queries of PostgreSQL clients and servers, the packets of
      MySQL clients, from the program's calls to the lines of the report, text by text
      (Report.v, Client.v, Server.v).
    - The buffers are transparent: reading through them gives the kernel's bytes in
      order, writing shows the plugin the application's bytes in order, the plugin
      sees the kernel's stream without a gap, and nothing fails but what a plugin
      does: all of that for a plugin with its [PpLaw], which https's read function and
      perlp's client side do not have.
    - The plugins log one event per protocol message however the bytes are split;
      a server's accept, its identification by port and its reads end in exactly
      the messages' events.
    - However a process interleaves its connections, each is traced as if it were alone
      (Multiplex.v).
    - The calls that make, name, connect, write to and close descriptors, with paths
      whose record fits, make the call they stand for and return its answer, and any
      sequence of them keeps the descriptor table sound; reads, select, poll and exec
      have theorems of their own.  The first library's calls are transparent too, and
      its poll gives a program each event of the kernel once.
    - Names are looked up in services files as documented, and the lookup ends on any
      file; descriptors get the plugin of their address; select answers from its
      cache; the environment stays traced, the arguments of exec arrive, the calling
      thread's records are flushed before a process changes, and a program's children know the thread
      that executed them.
    - The kernel module is a set of pids, gives back all it takes, and with pf.c logs
      exactly the long page faults of the tracked processes; pfdura.c prints its reports.
    - Where the code fails, the failure is a theorem: a record that does not fit ends
      the program, a full buffer reads as the end of the stream, exit loses its
      status, a function that is not found makes exit recurse; others are ordinary
      theorems next to the definitions they are about.

    ** Bounds and fuel

    Loops over lists are structural.  fill_loop and expand_loop consume an answer
    or a byte in every turn; vwrite_loop consumes a byte per turn but the last, and
    gets one turn more than there are bytes; scan_lines moves past a byte per turn;
    getservent_loop and servbyname_loop consume a byte of the file per turn and alias_loop
    a byte of its line; out of turns they are [None], which is not their answer, and the
    lookups never are.  The theorems about these functions cover the fuel given:
    they return.  pthread_atfork calls itself for ever while the library is disabled;
    its fuel is arbitrary and no amount is enough, which is the theorem about it; the
    same holds of init_reals when a function is missing, and one turn is enough when
    none is.  serve_round gives its loop FD_SETSIZE turns, one per descriptor.
    Loops that wait for the kernel (serve_rounds, reader_loop, signal_loop) run over the
    answers and end in [Pending] when there are no more.

    ** Not modelled

    Locks and the interleaving of threads inside a call (a call is one step; what a
    failing lock does is modelled), dlsym itself and the PROF macros (empty as the
    headers are set), the usleep calls of the plugins, error texts on stderr, syscalls.h
    and sysrender.h (generated; their numbers and names are arguments), the kernel
    module's tables of callbacks (the functions in them are modelled), malloc and free (a
    buffer is a value; free_le frees the string when there is one), and the OCaml and
    Perl analysis under src/src/agg. *)
From Stdlib Require Export ZArith Lia.
From Stdlib Require Import Strings.Byte.
From stdpp Require Export base tactics option list gmap numbers.
#[global] Open Scope Z_scope.

(** ** How a C computation ends

    [Ok] returns a value.  [Exit] is a call of exit(2) with its status,
    [AssertFail] a failed assert(3), [Undef] an access C leaves undefined
    (outside an object, through NULL, a negative length), and [Pending] a
    computation still waiting for an answer of the kernel. *)

Inductive crash := Exit (status : Z) | AssertFail | Undef | Pending.

#[global] Instance crash_eq_dec : EqDecision crash.
Proof. solve_decision. Defined.

Inductive outcome (A : Type) :=
| Ok (a : A)
| Crash (c : crash).
Arguments Ok {A} a.
Arguments Crash {A} c.

(** A run emits a list of effects of type [W] (log records, bytes written to a
    descriptor, lines of text) and then ends.  The effects made before a crash
    are kept. *)

Definition run (W A : Type) : Type := list W * outcome A.

Definition ret {W A} (a : A) : run W A := ([], Ok a).
Definition stop {W A} (c : crash) : run W A := ([], Crash c).
Definition emit {W} (w : W) : run W unit := ([w], Ok tt).
Definition bind {W A B} (m : run W A) (k : A -> run W B) : run W B :=
  match m with
  | (w, Ok a) => match k a with (w', r) => (w ++ w', r) end
  | (w, Crash c) => (w, Crash c)
  end.

(** assert(3) and an access check. *)
Definition assert {W} (b : bool) : run W unit := if b then ret tt else stop AssertFail.
Definition check {W} (b : bool) : run W unit := if b then ret tt else stop Undef.

Definition of_opt {W A} (o : option A) : run W A :=
  match o with Some a => ret a | None => stop Undef end.

Declare Scope run_scope.
Delimit Scope run_scope with run.
Notation "'let!' p ':=' m 'in' k" := (bind m (fun p => k))
  (at level 10, p pattern, m at level 200, k at level 200,
   format "'[v' 'let!'  p  ':='  m  'in' '/' k ']'") : run_scope.
Notation "m ;;; k" := (bind m (fun _ => k))
  (at level 199, right associativity) : run_scope.
#[global] Open Scope run_scope.

(** ** Laws of the run monad *)

Lemma bind_ret_l {W A B} (a : A) (k : A -> run W B) : bind (ret a) k = k a.
Proof. unfold bind, ret. simpl. by destruct (k a). Qed.

Lemma bind_ret_r {W A} (m : run W A) : bind m ret = m.
Proof. destruct m as [w [a | c]]; simpl; [by rewrite app_nil_r | done]. Qed.

Lemma bind_assoc {W A B C} (m : run W A) (f : A -> run W B) (g : B -> run W C) :
  bind (bind m f) g = bind m (fun a => bind (f a) g).
Proof.
  destruct m as [w [a | c]]; simpl; [| done].
  destruct (f a) as [w' [b | c]]; simpl; [| done].
  destruct (g b) as [w'' r]. by rewrite app_assoc.
Qed.

(** What a computation returns, whatever it logs. *)
Lemma bind_snd {W A B} (m : run W A) (k : A -> run W B) a : m.2 = Ok a -> (bind m k).2 = (k a).2.
Proof. destruct m as [w r]. cbn [snd]. intros ->. cbn [bind]. by destruct (k a). Qed.

Lemma bind_stop {W A B} c (k : A -> run W B) : bind (stop c) k = stop c.
Proof. done. Qed.

Lemma bind_ok {W A B} (m : run W A) (k : A -> run W B) w a :
  m = (w, Ok a) -> bind m k = (w ++ (k a).1, (k a).2).
Proof. intros ->. simpl. by destruct (k a). Qed.

Lemma bind_ok_nil {W A B} (m : run W A) (k : A -> run W B) a :
  m = ret a -> bind m k = k a.
Proof. intros ->. apply bind_ret_l. Qed.

(** Inversion: a sequence that returns ran both halves. *)
Lemma bind_inv {W A B} (m : run W A) (k : A -> run W B) w b :
  bind m k = (w, Ok b) ->
  exists a w1 w2, m = (w1, Ok a) /\ k a = (w2, Ok b) /\ w = w1 ++ w2.
Proof.
  destruct m as [w1 [a | c]]; simpl; intros H; [| done].
  destruct (k a) as [w2 r] eqn:E. simpl in H. simplify_eq. eauto 10.
Qed.

Lemma ret_inv {W A} (a b : A) w : ret (W:=W) a = (w, Ok b) -> a = b /\ w = [].
Proof. unfold ret. naive_solver. Qed.

Lemma emit_inv {W} (x : W) w u : emit x = (w, Ok u) -> w = [x].
Proof. unfold emit. naive_solver. Qed.

Lemma check_inv {W} b w u : check (W:=W) b = (w, Ok u) -> b = true /\ w = [].
Proof. unfold check, ret, stop. destruct b; naive_solver. Qed.

Lemma assert_inv {W} b w u : assert (W:=W) b = (w, Ok u) -> b = true /\ w = [].
Proof. unfold assert, ret, stop. destruct b; naive_solver. Qed.

Lemma of_opt_inv {W A} (o : option A) w a :
  of_opt (W:=W) o = (w, Ok a) -> o = Some a /\ w = [].
Proof. unfold of_opt, ret, stop. destruct o; naive_solver. Qed.

(** What holds of the outcome of a run, whatever it emits. *)
Definition post {W A} (m : run W A) (Q : outcome A -> Prop) : Prop := Q m.2.

Lemma post_ret {W A} (a : A) (Q : outcome A -> Prop) : Q (Ok a) -> post (ret (W:=W) a) Q.
Proof. done. Qed.
Lemma post_stop {W A} c (Q : outcome A -> Prop) : Q (Crash c) -> post (stop (W:=W) c) Q.
Proof. done. Qed.
Lemma post_emit {W} (w : W) (Q : outcome unit -> Prop) : Q (Ok tt) -> post (emit w) Q.
Proof. done. Qed.
Lemma post_bind {W A B} (m : run W A) (k : A -> run W B) (Q : outcome B -> Prop) :
  post m (fun o => match o with Ok a => post (k a) Q | Crash c => Q (Crash c) end) ->
  post (bind m k) Q.
Proof.
  unfold post. destruct m as [w [a | c]]; simpl; [| done]. by destruct (k a).
Qed.
Lemma post_mono {W A} (m : run W A) (P Q : outcome A -> Prop) :
  post m P -> (forall o, P o -> Q o) -> post m Q.
Proof. unfold post. auto. Qed.
Lemma post_ok {W A} (m : run W A) (Q : outcome A -> Prop) w o : m = (w, o) -> post m Q -> Q o.
Proof. by intros ->. Qed.
Lemma post_assert {W} b (Q : outcome unit -> Prop) :
  b = true -> Q (Ok tt) -> post (assert (W:=W) b) Q.
Proof. by intros ->. Qed.

(** A run that returns. *)
Definition returns {W A} (m : run W A) : Prop := exists w a, m = (w, Ok a).

Lemma returns_ret {W A} (a : A) : returns (ret (W:=W) a).
Proof. by exists [], a. Qed.
Lemma returns_emit {W} (w : W) : returns (emit w).
Proof. by exists [w], tt. Qed.
Lemma returns_bind {W A B} (m : run W A) (k : A -> run W B) :
  returns m -> (forall w a, m = (w, Ok a) -> returns (k a)) -> returns (bind m k).
Proof.
  intros (w & a & E) Hk. destruct (Hk w a E) as (w2 & b & E2). exists (w ++ w2), b.
  rewrite E. cbn [bind]. by rewrite E2.
Qed.
Lemma returns_check {W} b : b = true -> returns (check (W:=W) b).
Proof. intros ->. apply returns_ret. Qed.

Create HintDb returns discriminated.
#[export] Hint Resolve returns_ret returns_emit returns_check : returns.

(** All that a run logs satisfies [P], whether it returns or not. *)
Definition logs {W A} (P : W -> Prop) (m : run W A) : Prop := Forall P m.1.

Lemma logs_ret {W A} (P : W -> Prop) (a : A) : logs P (ret a).
Proof. constructor. Qed.
Lemma logs_stop {W A} (P : W -> Prop) c : logs P (stop (A:=A) c).
Proof. constructor. Qed.
Lemma logs_emit {W} (P : W -> Prop) w : P w -> logs P (emit w).
Proof. by repeat constructor. Qed.
Lemma logs_bind {W A B} (P : W -> Prop) (m : run W A) (k : A -> run W B) :
  logs P m -> (forall w a, m = (w, Ok a) -> logs P (k a)) -> logs P (bind m k).
Proof.
  unfold logs. destruct m as [w [a | c]]; cbn [bind fst]; intros Hm Hk; [| done].
  specialize (Hk w a eq_refl). destruct (k a) as [w2 r]. by apply Forall_app.
Qed.
Lemma logs_check {W} (P : W -> Prop) b : logs P (check b).
Proof. destruct b; constructor. Qed.
Lemma logs_assert {W} (P : W -> Prop) b : logs P (assert b).
Proof. destruct b; constructor. Qed.
Lemma logs_of_opt {W A} (P : W -> Prop) (o : option A) : logs P (of_opt o).
Proof. destruct o; constructor. Qed.
Lemma logs_weaken {W A} (P Q : W -> Prop) (m : run W A) : (forall w, P w -> Q w) -> logs P m -> logs Q m.
Proof. intros H. apply List.Forall_impl, H. Qed.

Create HintDb logs discriminated.
#[export] Hint Resolve logs_ret logs_stop logs_check logs_assert logs_of_opt : logs.

(** Branch by branch through the code of a run. *)
Ltac go_logs :=
  repeat first
  [ progress intros
  | progress cbv zeta
  | solve [eauto 2 with logs nocore]
  | match goal with |- logs _ (bind _ _) => apply logs_bind end
  | match goal with |- logs _ (match ?x with _ => _ end) => destruct x end ].

Lemma check_true {W} b : b = true -> check (W:=W) b = ret tt.
Proof. by intros ->. Qed.
Lemma assert_true {W} b : b = true -> assert (W:=W) b = ret tt.
Proof. by intros ->. Qed.

(** ** Tactics of the development *)

(** One step of inversion on a hypothesis "this run returned"; later files add the
    primitives they define. *)
Ltac inv_run_hook := fail.
Ltac inv_run_step :=
  first [ inv_run_hook |
  match goal with
  | H : bind _ _ = (_, Ok _) |- _ =>
      apply bind_inv in H; destruct H as (?a & ?w & ?w & ?Hm & H & ?); subst
  | H : ret _ = (_, Ok _) |- _ => apply ret_inv in H; destruct H as [? ?]; subst
  | H : emit _ = (_, Ok _) |- _ => apply emit_inv in H; subst
  | H : check _ = (_, Ok _) |- _ => apply check_inv in H; destruct H as [?Hc ?]; subst
  | H : assert _ = (_, Ok _) |- _ => apply assert_inv in H; destruct H as [?Ha ?]; subst
  | H : of_opt _ = (_, Ok _) |- _ => apply of_opt_inv in H; destruct H as [?Ho ?]; subst
  | H : stop _ = (_, Ok _) |- _ => discriminate H
  | H : (_, Crash _) = (_, Ok _) |- _ => discriminate H
  | H : ?x = ?x |- _ => clear H
  end ].
Ltac inv_run := repeat inv_run_step.

(** The same, opening the tuples that are passed along. *)
Ltac inv_runs :=
  repeat (progress inv_run; repeat match goal with x : (_ * _)%type |- _ => destruct x end).

(** A decidable proposition by evaluation. *)
Ltac by_eval := match goal with |- ?P =>
  let H := fresh in assert (H : bool_decide P = true) by (vm_compute; reflexivity);
  exact (bool_decide_eq_true_1 P H) end.

(** Boolean tests of the code as propositions. *)
Ltac zbool :=
  repeat match goal with
  | H : (_ && _) = true |- _ => apply andb_prop in H; destruct H
  | H : (_ || _) = false |- _ => apply orb_false_elim in H; destruct H
  | H : (_ || _) = true |- _ => apply orb_prop in H
  | H : negb _ = true |- _ => apply negb_true_iff in H
  | H : negb _ = false |- _ => apply negb_false_iff in H
  | H : (_ <? _) = true |- _ => apply Z.ltb_lt in H
  | H : (_ <? _) = false |- _ => apply Z.ltb_ge in H
  | H : (_ <=? _) = true |- _ => apply Z.leb_le in H
  | H : (_ <=? _) = false |- _ => apply Z.leb_gt in H
  | H : (_ =? _) = true |- _ => apply Z.eqb_eq in H
  | H : (_ =? _) = false |- _ => apply Z.eqb_neq in H
  end.

(** Case split on a Boolean comparison of the goal, with its meaning. *)
Ltac case_z :=
  match goal with
  | |- context [?a <? ?b] => destruct (Z.ltb_spec a b)
  | |- context [?a <=? ?b] => destruct (Z.leb_spec a b)
  | |- context [?a =? ?b] => destruct (Z.eqb_spec a b)
  | H : context [?a <? ?b] |- _ => destruct (Z.ltb_spec a b)
  | H : context [?a <=? ?b] |- _ => destruct (Z.leb_spec a b)
  | H : context [?a =? ?b] |- _ => destruct (Z.eqb_spec a b)
  end.

(** A Boolean comparison that holds. *)
Ltac zt :=
  repeat match goal with
  | |- (_ && _) = true => apply andb_true_intro; split
  | |- negb _ = true => apply negb_true_iff
  end;
  match goal with
  | |- (_ =? _) = true => apply Z.eqb_eq
  | |- (_ <=? _) = true => apply Z.leb_le
  | |- (_ <? _) = true => apply Z.ltb_lt
  | |- (_ =? _) = false => apply Z.eqb_neq
  | |- (_ <=? _) = false => apply Z.leb_gt
  | |- (_ <? _) = false => apply Z.ltb_ge
  end; lia.

(** Equalities of concatenations, up to associativity. *)
Ltac lapp := repeat (progress (rewrite <- ?app_assoc; cbn [app])); done.

(** ** Hint databases *)

Create HintDb bp discriminated.
#[export] Hint Resolve check_true assert_true : bp.
Create Rewrite HintDb bp_len.
Create Rewrite HintDb bp_run.
#[export] Hint Rewrite @bind_ret_l @bind_stop : bp_run.

(** ** Lists addressed by machine integers *)

Definition zlen {A} (l : list A) : Z := Z.of_nat (length l).
Definition ztake {A} (n : Z) (l : list A) : list A := take (Z.to_nat n) l.
Definition zdrop {A} (n : Z) (l : list A) : list A := drop (Z.to_nat n) l.

Lemma zlen_nonneg {A} (l : list A) : 0 <= zlen l.
Proof. unfold zlen. lia. Qed.
Lemma zlen_nil {A} : zlen (@nil A) = 0.
Proof. done. Qed.
Lemma zlen_cons {A} (x : A) l : zlen (x :: l) = 1 + zlen l.
Proof. unfold zlen. simpl. lia. Qed.
Lemma zlen_app {A} (l k : list A) : zlen (l ++ k) = zlen l + zlen k.
Proof. unfold zlen. rewrite length_app. lia. Qed.
Lemma zlen_ztake {A} n (l : list A) : zlen (ztake n l) = Z.max 0 (Z.min n (zlen l)).
Proof. unfold zlen, ztake. rewrite length_take. lia. Qed.
Lemma zlen_zdrop {A} n (l : list A) : zlen (zdrop n l) = Z.max 0 (zlen l - Z.max 0 n).
Proof. unfold zlen, zdrop. rewrite length_drop. lia. Qed.
Lemma zlen_replicate {A} n (x : A) : zlen (replicate n x) = Z.of_nat n.
Proof. unfold zlen. by rewrite length_replicate. Qed.
Lemma zlen_fmap {A B} (f : A -> B) l : zlen (f <$> l) = zlen l.
Proof. unfold zlen. by rewrite length_fmap. Qed.
Lemma zlen_0_inv {A} (l : list A) : zlen l = 0 -> l = [].
Proof. unfold zlen. destruct l; simpl; [done | lia]. Qed.
#[export] Hint Rewrite @zlen_nil @zlen_cons @zlen_app @zlen_ztake @zlen_zdrop
  @zlen_replicate @zlen_fmap : bp_len.
#[export] Hint Resolve zlen_nonneg : bp.

(** Length goals. *)
Ltac zl :=
  autorewrite with bp_len in *;
  repeat match goal with
  | |- context [zlen ?l] =>
      lazymatch goal with
      | _ : 0 <= zlen l |- _ => fail
      | _ => pose proof (zlen_nonneg l)
      end
  | _ : context [zlen ?l] |- _ =>
      lazymatch goal with
      | _ : 0 <= zlen l |- _ => fail
      | _ => pose proof (zlen_nonneg l)
      end
  end; lia.

Lemma ztake_zdrop {A} n (l : list A) : ztake n l ++ zdrop n l = l.
Proof. apply take_drop. Qed.
Lemma ztake_app_le {A} n (l k : list A) : n <= zlen l -> ztake n (l ++ k) = ztake n l.
Proof. intros. unfold ztake. apply take_app_le. unfold zlen in *. lia. Qed.
Lemma zdrop_app_le {A} n (l k : list A) : n <= zlen l -> zdrop n (l ++ k) = zdrop n l ++ k.
Proof. intros. unfold zdrop. apply drop_app_le. unfold zlen in *. lia. Qed.
Lemma ztake_app_exact {A} n (l k : list A) : n = zlen l -> ztake n (l ++ k) = l.
Proof. intros ->. unfold ztake, zlen. apply take_app_length'. lia. Qed.
Lemma zdrop_app_exact {A} n (l k : list A) : n = zlen l -> zdrop n (l ++ k) = k.
Proof. intros ->. unfold zdrop, zlen. apply drop_app_length'. lia. Qed.
Lemma zdrop_app_ge {A} n (l k : list A) :
  zlen l <= n -> zdrop n (l ++ k) = zdrop (n - zlen l) k.
Proof.
  intros. unfold zdrop, zlen in *. rewrite drop_app_ge by lia. f_equal. lia.
Qed.
Lemma ztake_all {A} n (l : list A) : zlen l <= n -> ztake n l = l.
Proof. intros. unfold ztake, zlen in *. apply take_ge. lia. Qed.
Lemma zdrop_all {A} n (l : list A) : zlen l <= n -> zdrop n l = [].
Proof. intros. unfold zdrop, zlen in *. apply drop_ge. lia. Qed.
Lemma zdrop_0 {A} (l : list A) : zdrop 0 l = l.
Proof. done. Qed.
Lemma ztake_0 {A} (l : list A) : ztake 0 l = [].
Proof. done. Qed.
Lemma zdrop_zdrop {A} n m (l : list A) :
  0 <= n -> 0 <= m -> zdrop n (zdrop m l) = zdrop (m + n) l.
Proof. intros. unfold zdrop. rewrite drop_drop. f_equal. lia. Qed.
Lemma ztake_ztake {A} n m (l : list A) : ztake n (ztake m l) = ztake (Z.min n m) l.
Proof. unfold ztake. rewrite take_take. f_equal. lia. Qed.
Lemma zdrop_ztake {A} n m (l : list A) :
  0 <= n -> zdrop n (ztake m l) = ztake (m - n) (zdrop n l).
Proof. intros. unfold zdrop, ztake. rewrite skipn_firstn_comm. f_equal. lia. Qed.
Lemma ztake_add {A} n m (l : list A) :
  0 <= n -> 0 <= m -> ztake (n + m) l = ztake n l ++ ztake m (zdrop n l).
Proof.
  intros. rewrite <- (ztake_zdrop n (ztake (n + m) l)), ztake_ztake, zdrop_ztake by lia.
  f_equal; f_equal; lia.
Qed.
Lemma ztake_app_ge {A} n (l k : list A) :
  zlen l <= n -> ztake n (l ++ k) = l ++ ztake (n - zlen l) k.
Proof.
  intros. unfold ztake, zlen in *. rewrite take_app_ge by lia. do 2 f_equal. lia.
Qed.

(** Two decompositions of one list, cut at the end of the shorter front part. *)
Lemma zapp_cut {A} (u c d r : list A) :
  u ++ c = d ++ r -> zlen d <= zlen u ->
  d = ztake (zlen d) u /\ r = zdrop (zlen d) u ++ c.
Proof.
  intros E H. split.
  - rewrite <- (ztake_app_le _ u c), E by done. symmetry. by apply ztake_app_exact.
  - rewrite <- zdrop_app_le, E by done. symmetry. by apply zdrop_app_exact.
Qed.

(** ** read(2)

    The kernel's answers to reads: [None] is -1, [Some []] the end of the stream,
    [Some l] delivers the first bytes of [l], at most as many as were asked for. *)
Abbreviation answers := (list (option (list Byte.byte))).
Definition kread (r : option (list Byte.byte)) (n : Z) : option (list Byte.byte) :=
  (fun l => ztake n l) <$> r.
