(* ===== verification/CInt.v ===== *)
(** C integers and bytes.

    Machine integers are [Z] values; [wrapu w] and [wraps w] are the conversions
    to the unsigned and signed type of [w] bits (two's complement, the x86 ABI
    the program is compiled for).  A byte is Stdlib's [byte]; [le_bytes] and
    [le_val] are the little-endian object representation memcpy(3) copies. *)
From Stdlib Require Export Strings.Byte.
From S2P Require Import Prelude.

Definition wrapu (w z : Z) : Z := z mod 2 ^ w.
Definition wraps (w z : Z) : Z := (z + 2 ^ (w - 1)) mod 2 ^ w - 2 ^ (w - 1).

Abbreviation u8 := (wrapu 8).
Abbreviation u16 := (wrapu 16).
Abbreviation u32 := (wrapu 32).
Abbreviation u64 := (wrapu 64).
Abbreviation s8 := (wraps 8).
Abbreviation s16 := (wraps 16).
Abbreviation s32 := (wraps 32).
Abbreviation s64 := (wraps 64).

Definition is_u (w z : Z) : Prop := 0 <= z < 2 ^ w.
Definition is_s (w z : Z) : Prop := - 2 ^ (w - 1) <= z < 2 ^ (w - 1).

Lemma pow_pred w : 0 < w -> 2 ^ w = 2 * 2 ^ (w - 1).
Proof. intros. replace w with (1 + (w - 1)) at 1 by lia. rewrite Z.pow_add_r; lia. Qed.

Lemma pow_pos2 w : 0 <= w -> 0 < 2 ^ w.
Proof. intros. apply Z.pow_pos_nonneg; lia. Qed.

Lemma wrapu_range w z : 0 <= w -> is_u w (wrapu w z).
Proof. intros. apply Z.mod_pos_bound. by apply pow_pos2. Qed.

Lemma wraps_range w z : 0 < w -> is_s w (wraps w z).
Proof.
  intros H. unfold is_s, wraps. pose proof (pow_pred w H) as E.
  pose proof (Z.mod_pos_bound (z + 2 ^ (w - 1)) (2 ^ w) (pow_pos2 w ltac:(lia))). lia.
Qed.

Lemma wrapu_small w z : is_u w z -> wrapu w z = z.
Proof. apply Z.mod_small. Qed.

Lemma wraps_small w z : 0 < w -> is_s w z -> wraps w z = z.
Proof.
  intros H [? ?]. pose proof (pow_pred w H). unfold wraps. rewrite Z.mod_small; lia.
Qed.

Lemma wraps_wrapu w z : 0 < w -> wraps w (wrapu w z) = wraps w z.
Proof.
  intros. unfold wraps, wrapu. rewrite Zplus_mod_idemp_l. done.
Qed.

Lemma wrapu_wraps w z : 0 < w -> wrapu w (wraps w z) = wrapu w z.
Proof.
  intros. unfold wraps, wrapu. rewrite Zminus_mod_idemp_l. f_equal. lia.
Qed.

Lemma wraps_wrapu_id w z : 0 < w -> is_s w z -> wraps w (wrapu w z) = z.
Proof. intros. rewrite wraps_wrapu by done. by apply wraps_small. Qed.

Lemma wraps_idem w z : 0 < w -> wraps w (wraps w z) = wraps w z.
Proof. intros. apply wraps_small; [done | by apply wraps_range]. Qed.

Lemma wrapu_add_l w a b : wrapu w (wrapu w a + b) = wrapu w (a + b).
Proof. apply Zplus_mod_idemp_l. Qed.
Lemma wrapu_add_r w a b : wrapu w (a + wrapu w b) = wrapu w (a + b).
Proof. apply Zplus_mod_idemp_r. Qed.
Lemma wrapu_mul_l w a b : wrapu w (wrapu w a * b) = wrapu w (a * b).
Proof. apply Zmult_mod_idemp_l. Qed.
Lemma wrapu_sub_l w a b : wrapu w (wrapu w a - b) = wrapu w (a - b).
Proof. apply Zminus_mod_idemp_l. Qed.
Lemma wrapu_sub_r w a b : wrapu w (a - wrapu w b) = wrapu w (a - b).
Proof. apply Zminus_mod_idemp_r. Qed.

Lemma wraps_add_l w a b : 0 < w -> wraps w (wraps w a + b) = wraps w (a + b).
Proof.
  intros. rewrite <- (wraps_wrapu w (wraps w a + b)), <- wrapu_add_l, wrapu_wraps,
    wrapu_add_l, wraps_wrapu by done. done.
Qed.

Lemma wrapu_narrow v w z : 0 <= v <= w -> wrapu v (wrapu w z) = wrapu v z.
Proof.
  intros. unfold wrapu.
  replace (2 ^ w) with (2 ^ v * 2 ^ (w - v)) by (rewrite <- Z.pow_add_r by lia; f_equal; lia).
  pose proof (pow_pos2 v). pose proof (pow_pos2 (w - v)).
  rewrite Z.rem_mul_r by lia. rewrite Z.mul_comm, Z.mod_add by lia.
  apply Z.mod_mod. lia.
Qed.

Lemma wraps_narrow v w z : 0 < v <= w -> wraps v (wrapu w z) = wraps v z.
Proof.
  intros. rewrite <- (wraps_wrapu v (wrapu w z)), wrapu_narrow by lia.
  apply wraps_wrapu. lia.
Qed.

(** The fixed widths, with the bounds as numerals for [lia]. *)
Lemma u32_eq z : u32 z = z mod 4294967296.
Proof. done. Qed.
Lemma u32_small z : 0 <= z < 4294967296 -> u32 z = z.
Proof. intros. by apply wrapu_small. Qed.
Lemma s32_small z : -2147483648 <= z < 2147483648 -> s32 z = z.
Proof. intros. by apply wraps_small. Qed.
Lemma s16_small z : -32768 <= z < 32768 -> s16 z = z.
Proof. intros. by apply wraps_small. Qed.
Lemma s8_small z : -128 <= z < 128 -> s8 z = z.
Proof. intros. by apply wraps_small. Qed.
Lemma u64_small z : 0 <= z < 18446744073709551616 -> u64 z = z.
Proof. intros. by apply wrapu_small. Qed.
Lemma u32_range z : 0 <= u32 z < 4294967296.
Proof. apply (wrapu_range 32); lia. Qed.
Lemma s32_range z : -2147483648 <= s32 z < 2147483648.
Proof. apply (wraps_range 32); lia. Qed.

(** ** Bytes *)

Definition bz (b : byte) : Z := Z.of_N (Byte.to_N b).
Definition zb (z : Z) : byte :=
  match Byte.of_N (Z.to_N (z mod 256)) with Some b => b | None => Byte.x00 end.

#[global] Instance byte_eq_decision : EqDecision byte := Byte.byte_eq_dec.

Lemma bz_range b : 0 <= bz b < 256.
Proof. unfold bz. pose proof (Byte.to_N_bounded b). lia. Qed.

Lemma bz_zb z : bz (zb z) = z mod 256.
Proof.
  unfold bz, zb. pose proof (Z.mod_pos_bound z 256 eq_refl).
  destruct (Byte.of_N _) as [b |] eqn:E.
  - apply Byte.to_of_N in E. rewrite E. lia.
  - apply Byte.of_N_None_iff in E. lia.
Qed.

Lemma bz_inj a b : bz a = bz b -> a = b.
Proof.
  unfold bz. intros H. apply N2Z.inj in H.
  pose proof (Byte.of_to_N a) as Ha. pose proof (Byte.of_to_N b) as Hb. congruence.
Qed.

Lemma zb_bz b : zb (bz b) = b.
Proof. apply bz_inj. rewrite bz_zb. apply Z.mod_small, bz_range. Qed.

Lemma zb_mod z : zb (z mod 256) = zb z.
Proof. apply bz_inj. rewrite !bz_zb. by rewrite Zmod_mod. Qed.

Lemma zb_small_inj a b : 0 <= a < 256 -> 0 <= b < 256 -> zb a = zb b -> a = b.
Proof.
  intros ?? H. apply (f_equal bz) in H. rewrite !bz_zb in H.
  rewrite !Z.mod_small in H by lia. done.
Qed.

(** A [char] of the source is signed. *)
Definition char_val (b : byte) : Z := s8 (bz b).

(** ** Little-endian object representation *)

Fixpoint le_bytes (n : nat) (z : Z) : list byte :=
  match n with
  | O => []
  | S n' => zb z :: le_bytes n' (z / 256)
  end.

Fixpoint le_val (l : list byte) : Z :=
  match l with
  | [] => 0
  | b :: l' => bz b + 256 * le_val l'
  end.

Lemma length_le_bytes n z : length (le_bytes n z) = n.
Proof. revert z; induction n as [| n IH]; intros; simpl; [done | by rewrite IH]. Qed.
Lemma zlen_le_bytes n z : zlen (le_bytes n z) = Z.of_nat n.
Proof. unfold zlen. by rewrite length_le_bytes. Qed.
#[export] Hint Rewrite zlen_le_bytes : bp_len.

Lemma pow256_S n : 256 ^ Z.of_nat (S n) = 256 * 256 ^ Z.of_nat n.
Proof. rewrite Nat2Z.inj_succ, Z.pow_succ_r; lia. Qed.

Lemma le_val_bytes n z : le_val (le_bytes n z) = z mod 256 ^ Z.of_nat n.
Proof.
  revert z; induction n as [| n IH]; intros z; [by rewrite Z.mod_1_r |].
  cbn [le_bytes le_val]. rewrite IH, bz_zb, pow256_S.
  rewrite (Z.rem_mul_r z 256) by lia. lia.
Qed.

Lemma le_val_range l : 0 <= le_val l < 256 ^ zlen l.
Proof.
  unfold zlen. induction l as [| b l IH]; [simpl; lia |].
  cbn [le_val length]. rewrite pow256_S. pose proof (bz_range b). lia.
Qed.

Lemma le_bytes_val l : le_bytes (length l) (le_val l) = l.
Proof.
  induction l as [| b l IH]; [done |]. cbn [le_val length le_bytes].
  pose proof (bz_range b). f_equal.
  - apply bz_inj. rewrite bz_zb, (Z.mul_comm 256), Z.mod_add by lia.
    by apply Z.mod_small.
  - rewrite (Z.mul_comm 256), Z.div_add, Z.div_small by lia. exact IH.
Qed.

Lemma le_bytes_val_len n l : length l = n -> le_bytes n (le_val l) = l.
Proof. intros <-. apply le_bytes_val. Qed.

Lemma le_bytes_mod n z : le_bytes n (z mod 256 ^ Z.of_nat n) = le_bytes n z.
Proof.
  rewrite <- le_val_bytes. apply le_bytes_val_len. apply length_le_bytes.
Qed.

(** Reading back a field of [n] bytes at its C type. *)
Lemma le_val_u n w z :
  w = 8 * Z.of_nat n -> is_u w z -> le_val (le_bytes n z) = z.
Proof.
  intros -> H. rewrite le_val_bytes. apply Z.mod_small. unfold is_u in H.
  rewrite Z.pow_mul_r in H by lia. done.
Qed.

Lemma le_val_wrapu n w z :
  w = 8 * Z.of_nat n -> le_val (le_bytes n z) = wrapu w z.
Proof.
  intros ->. rewrite le_val_bytes. unfold wrapu. rewrite Z.pow_mul_r by lia. done.
Qed.

Lemma le_val_s n w z :
  w = 8 * Z.of_nat n -> 0 < w -> is_s w z -> wraps w (le_val (le_bytes n z)) = z.
Proof.
  intros E ? ?. rewrite (le_val_wrapu n w z E). by apply wraps_wrapu_id.
Qed.

Lemma le_bytes_wraps n w z :
  w = 8 * Z.of_nat n -> 0 < w -> le_bytes n (wraps w z) = le_bytes n z.
Proof.
  intros E ?. rewrite <- le_bytes_mod, <- (le_bytes_mod n z). f_equal.
  assert (256 ^ Z.of_nat n = 2 ^ w) as ->.
  { rewrite E, Z.pow_mul_r by lia. done. }
  apply (wrapu_wraps w z). done.
Qed.

Lemma le_bytes_wrapu n w z :
  w = 8 * Z.of_nat n -> le_bytes n (wrapu w z) = le_bytes n z.
Proof.
  intros E. rewrite <- (le_bytes_mod n z). unfold wrapu. f_equal. f_equal.
  rewrite E, Z.pow_mul_r by lia. done.
Qed.

Arguments le_bytes : simpl never.
Arguments le_val : simpl never.

(** Network (big-endian) order, as ntohl(3) applied to a loaded word gives. *)
Definition be_val (l : list byte) : Z := le_val (rev l).

Lemma be_val_range l : 0 <= be_val l < 256 ^ zlen l.
Proof.
  unfold be_val. pose proof (le_val_range (rev l)) as H.
  unfold zlen in *. by rewrite length_rev in H.
Qed.

Definition be_bytes (n : nat) (z : Z) : list byte := rev (le_bytes n z).

Lemma be_val_bytes n w z : w = 8 * Z.of_nat n -> is_u w z -> be_val (be_bytes n z) = z.
Proof. intros. unfold be_val, be_bytes. rewrite rev_involutive. by eapply le_val_u. Qed.

Lemma zlen_be_bytes n z : zlen (be_bytes n z) = Z.of_nat n.
Proof. unfold zlen, be_bytes. by rewrite length_rev, length_le_bytes. Qed.
#[export] Hint Rewrite zlen_be_bytes : bp_len.

(** ** Memory: an object is the list of its bytes *)

(** Read [n] bytes at offset [off]. *)
Definition load {W} (mem : list byte) (off n : Z) : run W (list byte) :=
  check ((0 <=? off) && (0 <=? n) && (off + n <=? zlen mem)) ;;;
  ret (ztake n (zdrop off mem)).

(** Write [bs] at offset [off]. *)
Definition store {W} (mem : list byte) (off : Z) (bs : list byte) : run W (list byte) :=
  check ((0 <=? off) && (off + zlen bs <=? zlen mem)) ;;;
  ret (ztake off mem ++ bs ++ zdrop (off + zlen bs) mem).

Lemma logs_load {W} (P : W -> Prop) mem off n : logs P (load mem off n).
Proof. unfold load. go_logs. Qed.
Lemma logs_store {W} (P : W -> Prop) mem off bs : logs P (store mem off bs).
Proof. unfold store. go_logs. Qed.
#[export] Hint Resolve logs_load logs_store : logs.

Lemma load_ok {W} mem off n :
  0 <= off -> 0 <= n -> off + n <= zlen mem ->
  load (W:=W) mem off n = ret (ztake n (zdrop off mem)).
Proof. intros. unfold load. rewrite check_true by zt. by rewrite bind_ret_l. Qed.

Lemma load_inv {W} mem off n w r :
  load (W:=W) mem off n = (w, Ok r) ->
  0 <= off /\ 0 <= n /\ off + n <= zlen mem /\ r = ztake n (zdrop off mem) /\ w = [].
Proof. unfold load. intros H. inv_run. zbool. split_and!; done || lia. Qed.

Lemma store_ok {W} mem off bs :
  0 <= off -> off + zlen bs <= zlen mem ->
  store (W:=W) mem off bs = ret (ztake off mem ++ bs ++ zdrop (off + zlen bs) mem).
Proof. intros. unfold store. rewrite check_true by zt. by rewrite bind_ret_l. Qed.

Lemma store_inv {W} mem off bs w r :
  store (W:=W) mem off bs = (w, Ok r) ->
  0 <= off /\ off + zlen bs <= zlen mem /\ zlen r = zlen mem /\
  r = ztake off mem ++ bs ++ zdrop (off + zlen bs) mem /\ w = [].
Proof.
  unfold store. intros H. inv_run. zbool. pose proof (zlen_nonneg bs).
  split_and!; try done; zl.
Qed.

(** Writing exactly over the middle of a decomposed object. *)
Lemma store_mid {W} l m k bs off :
  off = zlen l -> zlen bs = zlen m ->
  store (W:=W) (l ++ m ++ k) off bs = ret (l ++ bs ++ k).
Proof.
  intros -> E. rewrite store_ok by zl.
  rewrite ztake_app_exact by done.
  rewrite zdrop_app_ge by zl.
  rewrite zdrop_app_exact by lia. done.
Qed.

Lemma load_mid {W} l m k off n :
  off = zlen l -> n = zlen m ->
  load (W:=W) (l ++ m ++ k) off n = ret m.
Proof.
  intros -> ->. rewrite load_ok by zl.
  rewrite zdrop_app_exact by done. by rewrite ztake_app_exact.
Qed.
