(* ===== verification/CString.v ===== *)
(** The C string and number routines the program calls (string.h, stdlib.h,
    printf(3) of integers), over the bytes readable from a pointer.

    A [const char *] argument is the list of bytes from the pointer to the end of
    the object it points into.  A routine that would run past that end returns
    [None] (undefined behaviour), which is what happens when a terminator is
    missing. *)
From Stdlib Require Import String.
Export StringSyntax.
From S2P Require Import Prelude CInt.

Definition NUL : byte := Byte.x00.
Definition LF : byte := Byte.x0a.
Definition CR : byte := Byte.x0d.
Definition TAB : byte := Byte.x09.
Definition SPC : byte := Byte.x20.

(** The bytes of a string literal, without its terminator. *)
Definition bs (s : String.string) : list byte := String.list_byte_of_string s.
Arguments bs s%_string.

Definition byte_in (b : byte) (l : list byte) : bool := existsb (Byte.eqb b) l.

(** ** Scanning *)

(** Offset of the first byte that is NUL or satisfies [p]. *)
Fixpoint c_scan (p : byte -> bool) (mem : list byte) : option nat :=
  match mem with
  | [] => None
  | b :: m => if Byte.eqb b NUL || p b then Some O else S <$> c_scan p m
  end.

Definition strlen (mem : list byte) : option nat := c_scan (fun _ => false) mem.
Definition cstr (mem : list byte) : option (list byte) :=
  (fun n => take n mem) <$> strlen mem.

(** strpbrk(3): offset of the first byte of [accept], [None] inside for NULL. *)
Definition strpbrk (mem accept : list byte) : option (option nat) :=
  n ← c_scan (fun b => byte_in b accept) mem;
  Some (if decide (mem !! n = Some NUL) then None else Some n).

(** Does [needle] start here?  Reading stops at the first difference. *)
Fixpoint c_prefix (needle mem : list byte) : option bool :=
  match needle, mem with
  | [], _ => Some true
  | _, [] => None
  | c :: n, d :: m => if Byte.eqb c d then c_prefix n m else Some false
  end.

(** strstr(3) for a needle that is not empty. *)
Fixpoint strstr (mem needle : list byte) : option (option nat) :=
  match mem with
  | [] => None
  | b :: m =>
      match c_prefix needle mem with
      | None => None
      | Some true => Some (Some O)
      | Some false =>
          if Byte.eqb b NUL then Some None
          else (fun o : option nat => S <$> o) <$> strstr m needle
      end
  end.

Definition strcmp_eq (a b : list byte) : option bool :=
  x ← cstr a; y ← cstr b; Some (bool_decide (x = y)).

(** strncpy(dst, src, n): the [n] bytes written to [dst]. *)
Fixpoint strncpy (n : nat) (src : list byte) : option (list byte) :=
  match n, src with
  | O, _ => Some []
  | S _, [] => None
  | S n', b :: s =>
      if Byte.eqb b NUL then Some (replicate n NUL)
      else cons b <$> strncpy n' s
  end.

(** strtok(3).  The object and the saved position are explicit: the call returns
    the offset of the token ([None] for NULL), the object with the delimiter
    after the token overwritten by NUL, and the new saved position. *)
Definition strtok (mem : list byte) (pos : nat) (delim : list byte) :
    option (option nat * list byte * nat) :=
  skip ← c_scan (fun b => negb (byte_in b delim)) (drop pos mem);
  let start := (pos + skip)%nat in
  if decide (mem !! start = Some NUL) then Some (None, mem, start) else
  tok ← c_scan (fun b => byte_in b delim) (drop start mem);
  let stop := (start + tok)%nat in
  if decide (mem !! stop = Some NUL) then Some (Some start, mem, stop)
  else Some (Some start, <[stop := NUL]> mem, S stop).

Lemma c_scan_lookup p mem n :
  c_scan p mem = Some n ->
  (n < length mem)%nat /\
  (exists b, mem !! n = Some b /\ (b = NUL \/ p b = true)) /\
  (forall i b, (i < n)%nat -> mem !! i = Some b -> b <> NUL /\ p b = false).
Proof.
  revert n; induction mem as [| b m IH]; intros n H; simpl in H; [done |].
  destruct (Byte.eqb b NUL || p b) eqn:E.
  - simplify_eq. split_and!; [simpl; lia | | intros; lia].
    exists b. split; [done |]. apply orb_prop in E as [E | E]; [left | by right].
    by apply Byte.byte_dec_bl in E.
  - apply fmap_Some in H as (k & Hk & ->). destruct (IH _ Hk) as (Hl & (c & Hc & Hp) & Hb).
    split_and!; [simpl; lia | by exists c |].
    apply orb_false_elim in E as [E1 E2].
    intros [| i] x Hi Hx; simpl in Hx; [simplify_eq; split; [| done] | apply (Hb i); [lia | done]].
    intros ->. by rewrite (Byte.byte_dec_lb (eq_refl NUL)) in E1.
Qed.

(** A C string: no NUL inside, one right after. *)
Definition nul_free (s : list byte) : Prop := Forall (fun b => b <> NUL) s.

Lemma byte_eqb_false a b : a <> b -> Byte.eqb a b = false.
Proof.
  intros H. destruct (Byte.eqb a b) eqn:E; [| done]. by apply Byte.byte_dec_bl in E.
Qed.
Lemma byte_eqb_refl a : Byte.eqb a a = true.
Proof. by apply Byte.byte_dec_lb. Qed.

Lemma strlen_app s rest : nul_free s -> strlen (s ++ NUL :: rest) = Some (length s).
Proof.
  unfold strlen. induction 1 as [| b s Hb Hs IH]; simpl; [done |].
  rewrite byte_eqb_false by done. simpl. by rewrite IH.
Qed.

Lemma cstr_app s rest : nul_free s -> cstr (s ++ NUL :: rest) = Some s.
Proof. intros. unfold cstr. rewrite strlen_app by done. simpl. by rewrite take_app_length. Qed.

Lemma cstr_nul_free mem s : cstr mem = Some s -> nul_free s.
Proof.
  unfold cstr, strlen. intros H. apply fmap_Some in H as (n & Hn & ->).
  apply c_scan_lookup in Hn as (Hl & _ & Hb). apply Forall_lookup. intros i b Hi.
  apply lookup_take_Some in Hi as [Hi Hlt]. by destruct (Hb i b).
Qed.

(** Memory without a terminator is read beyond its end. *)
Lemma cstr_unterminated s : nul_free s -> cstr s = None.
Proof.
  intros Hs. unfold cstr. replace (strlen s) with (@None nat); [done |]. symmetry. unfold strlen.
  induction Hs as [| b s Hb Hs IH]; simpl; [done |]. rewrite byte_eqb_false by done. simpl. by rewrite IH.
Qed.

Lemma c_prefix_true needle mem :
  c_prefix needle mem = Some true -> exists rest, mem = needle ++ rest.
Proof.
  revert mem; induction needle as [| c n IH]; intros mem H; [by exists mem |].
  destruct mem as [| d m]; simpl in H; [done |].
  destruct (Byte.eqb c d) eqn:E; [| done]. apply Byte.byte_dec_bl in E as ->.
  destruct (IH _ H) as [r ->]. by exists r.
Qed.

Lemma c_prefix_app needle rest : c_prefix needle (needle ++ rest) = Some true.
Proof. induction needle; simpl; [done |]. by rewrite byte_eqb_refl. Qed.

(** strstr returns an offset where the needle stands, before any NUL. *)
Lemma strstr_some mem needle n :
  strstr mem needle = Some (Some n) ->
  exists rest, drop n mem = needle ++ rest /\ nul_free (take n mem).
Proof.
  revert n; induction mem as [| b m IH]; intros n H; simpl in H; [done |].
  destruct (c_prefix needle (b :: m)) as [[|] |] eqn:E; [| | done].
  - simplify_eq. apply c_prefix_true in E as [r E]. exists r. split; [done | constructor].
  - destruct (Byte.eqb b NUL) eqn:Eb; [done |].
    apply fmap_Some in H as (o & Ho & Eo). destruct o as [k |]; simpl in Eo; [| done].
    simplify_eq. destruct (IH _ Ho) as (r & Hr & Hf). exists r. split; [done |].
    simpl. constructor; [| done]. intros ->. by rewrite byte_eqb_refl in Eb.
Qed.

(** ** Numbers *)

Definition is_digit (b : byte) : bool := (48 <=? bz b) && (bz b <=? 57).
Definition is_space (b : byte) : bool := (bz b =? 32) || ((9 <=? bz b) && (bz b <=? 13)).

Fixpoint digits_val (acc : Z) (l : list byte) : Z :=
  match l with
  | b :: l' => if is_digit b then digits_val (10 * acc + (bz b - 48)) l' else acc
  | [] => acc
  end.

Fixpoint skip_space (l : list byte) : list byte :=
  match l with
  | b :: l' => if is_space b then skip_space l' else l
  | [] => []
  end.

Definition strip_sign (l : list byte) : bool * list byte :=
  match l with
  | b :: l' =>
      if Byte.eqb b "-"%byte then (true, l')
      else if Byte.eqb b "+"%byte then (false, l') else (false, l)
  | [] => (false, [])
  end.

(** The value strtol(3) reads in base 10, before it is clamped. *)
Definition dec_value (s : list byte) : Z :=
  let '(neg, l) := strip_sign (skip_space s) in
  if neg then - digits_val 0 l else digits_val 0 l.

Definition LONG_MAX : Z := 2 ^ 63 - 1.
Definition strtol10 (s : list byte) : Z := Z.max (- LONG_MAX - 1) (Z.min LONG_MAX (dec_value s)).
Definition atoi (s : list byte) : Z := s32 (strtol10 s).

Definition ULLONG_MAX : Z := 2 ^ 64 - 1.
(** strtoull(3) in base 10: a leading minus negates in the unsigned type. *)
Definition strtoull10 (s : list byte) : Z :=
  let '(neg, l) := strip_sign (skip_space s) in
  let v := digits_val 0 l in
  if ULLONG_MAX <? v then ULLONG_MAX else if neg then u64 (- v) else v.

(** printf of an unsigned decimal; 20 digits hold any 64-bit value. *)
Fixpoint dec_digits (fuel : nat) (n : Z) : list byte :=
  match fuel with
  | O => []
  | S f => (if n <? 10 then [] else dec_digits f (n / 10)) ++ [zb (48 + n mod 10)]
  end.
Definition fmt_u (n : Z) : list byte := dec_digits 20 n.
Definition fmt_d (n : Z) : list byte := if n <? 0 then "-"%byte :: fmt_u (- n) else fmt_u n.
(** %0[w]li *)
Definition fmt_0 (w : nat) (n : Z) : list byte :=
  let d := fmt_u (Z.abs n) in
  let sign := if n <? 0 then ["-"%byte] else [] in
  sign ++ replicate (w - length sign - length d) "0"%byte ++ d.

Lemma digit_of z : 0 <= z < 10 -> is_digit (zb (48 + z)) = true /\ bz (zb (48 + z)) = 48 + z.
Proof.
  intros. assert (bz (zb (48 + z)) = 48 + z) as E.
  { rewrite bz_zb. apply Z.mod_small. lia. }
  split; [| done]. unfold is_digit. rewrite E. lia.
Qed.

Lemma digits_val_app acc l z :
  Forall (fun b => is_digit b = true) l -> 0 <= z < 10 ->
  digits_val acc (l ++ [zb (48 + z)]) = 10 * digits_val acc l + z.
Proof.
  intros Hl Hz. revert acc. induction Hl as [| b l Hb Hl IH]; intros acc; simpl.
  - destruct (digit_of z Hz) as [-> ->]. lia.
  - rewrite Hb. apply IH.
Qed.

Lemma dec_digits_ok fuel n :
  0 <= n < 10 ^ Z.of_nat fuel -> (0 < fuel)%nat ->
  Forall (fun b => is_digit b = true) (dec_digits fuel n) /\
  digits_val 0 (dec_digits fuel n) = n.
Proof.
  revert n; induction fuel as [| f IH]; intros n Hn Hf; [lia |].
  cbn [dec_digits]. pose proof (Z.mod_pos_bound n 10 eq_refl) as Hm.
  destruct (digit_of _ Hm) as [Hd Hv].
  destruct (Z.ltb_spec n 10) as [Hlt | Hge].
  - split; [by constructor |]. rewrite digits_val_app; [simpl | constructor | lia].
    rewrite Z.mod_small; lia.
  - rewrite Nat2Z.inj_succ, Z.pow_succ_r in Hn by lia.
    destruct (IH (n / 10)) as [Hall Hval].
    { split; [apply Z.div_pos; lia | apply Z.div_lt_upper_bound; lia]. }
    { destruct f; [simpl in Hn; lia | lia]. }
    split; [apply Forall_app; split; [done | by constructor] |].
    rewrite digits_val_app, Hval by done. pose proof (Z.div_mod n 10). lia.
Qed.

Lemma dec_digits_head fuel n :
  (0 < fuel)%nat -> exists b l, dec_digits fuel n = b :: l.
Proof.
  intros. destruct fuel as [| f]; [lia |]. cbn [dec_digits].
  destruct (if n <? 10 then [] else dec_digits f (n / 10)); simpl; eauto.
Qed.

Lemma zlen_dec_digits fuel n k :
  (0 < k)%nat -> 0 <= n < 10 ^ Z.of_nat k -> zlen (dec_digits fuel n) <= Z.of_nat k.
Proof.
  revert n k; induction fuel as [| f IH]; intros n k Hk Hn; cbn [dec_digits]; [zl |].
  destruct (Z.ltb_spec n 10); [zl |]. destruct k as [| [| k]]; [lia | simpl in Hn; lia |].
  rewrite Nat2Z.inj_succ, Z.pow_succ_r in Hn by lia.
  specialize (IH (n / 10) (S k) ltac:(lia)).
  assert (zlen (dec_digits f (n / 10)) <= Z.of_nat (S k)).
  { apply IH. split; [apply Z.div_pos; lia | apply Z.div_lt_upper_bound; lia]. }
  zl.
Qed.

Lemma zlen_fmt_int n : is_s 32 n -> 0 < zlen (fmt_d n) <= 11.
Proof.
  unfold is_s. simpl. intros H. unfold fmt_d.
  assert (forall m, 0 < zlen (fmt_u m)) as Hp.
  { intros m. unfold fmt_u. destruct (dec_digits_head 20 m) as (b & l & ->); [lia | zl]. }
  destruct (Z.ltb_spec n 0).
  - specialize (Hp (- n)). pose proof (zlen_dec_digits 20 (- n) 10 ltac:(lia) ltac:(simpl; lia)).
    unfold fmt_u in *. zl.
  - specialize (Hp n). pose proof (zlen_dec_digits 20 n 10 ltac:(lia) ltac:(simpl; lia)).
    unfold fmt_u in *. zl.
Qed.

Lemma digit_not_special b :
  is_digit b = true ->
  is_space b = false /\ Byte.eqb b "-"%byte = false /\ Byte.eqb b "+"%byte = false.
Proof. destruct b; vm_compute; naive_solver. Qed.

Lemma fmt_u_read n :
  0 <= n < 2 ^ 64 ->
  strip_sign (skip_space (fmt_u n)) = (false, fmt_u n) /\ digits_val 0 (fmt_u n) = n.
Proof.
  intros Hn. unfold fmt_u.
  destruct (dec_digits_ok 20 n) as [Hall Hval]; [simpl; lia | lia |].
  split; [| done]. destruct (dec_digits_head 20 n) as (b & l & E); [lia |].
  rewrite E in *. apply Forall_inv in Hall.
  destruct (digit_not_special b Hall) as (H1 & H2 & H3).
  simpl. rewrite H1. simpl. by rewrite H2, H3.
Qed.

(** Reading back what printf wrote. *)
Lemma strtoull10_fmt_u n : 0 <= n < 2 ^ 64 -> strtoull10 (fmt_u n) = n.
Proof.
  intros Hn. unfold strtoull10. destruct (fmt_u_read n Hn) as [-> ->].
  unfold ULLONG_MAX. destruct (Z.ltb_spec (2 ^ 64 - 1) n); [lia | done].
Qed.

Lemma atoi_fmt_d n : -2147483648 <= n < 2147483648 -> atoi (fmt_d n) = n.
Proof.
  intros Hn. unfold atoi, strtol10, fmt_d, dec_value.
  destruct (Z.ltb_spec n 0) as [H | H].
  - cbn [skip_space]. change (is_space "-"%byte) with false. cbn iota. cbn [strip_sign].
    change (Byte.eqb "-"%byte "-"%byte) with true. cbn iota.
    destruct (fmt_u_read (- n)) as [_ ->]; [lia |].
    unfold LONG_MAX. rewrite Z.min_r, Z.max_r by lia. rewrite s32_small; lia.
  - destruct (fmt_u_read n) as [-> ->]; [lia |].
    unfold LONG_MAX. rewrite Z.min_r, Z.max_r by lia. rewrite s32_small; lia.
Qed.

(** ** Lengths of numbers *)

Lemma zlen_fmt_u n : zlen (fmt_u n) <= 20.
Proof.
  unfold fmt_u. assert (forall k m, zlen (dec_digits k m) <= Z.of_nat k) as H; [| apply (H 20%nat)].
  intros k; induction k as [| k IH]; intros m; [done |]. cbn [dec_digits]. rewrite zlen_app.
  specialize (IH (m / 10)). destruct (m <? 10); zl.
Qed.

Lemma zlen_fmt_d n : zlen (fmt_d n) <= 21.
Proof.
  unfold fmt_d. pose proof (zlen_fmt_u (- n)). pose proof (zlen_fmt_u n). destruct (n <? 0); zl.
Qed.
