(* ===== verification/Config.v ===== *)
(** src/src/trace/config.h, protocol.h and the event vocabulary.

    The SYS_ numbers are in syscalls.h, which the build generates; here they are
    the names, and every definition that needs the number of a name takes the
    numbering as an argument. *)
From S2P Require Import Prelude CInt CString.

(** config.h *)
Definition MAX_LOG_LINE : Z := 1023.
Definition LOGD_PORT : Z := 7070.
Definition PIPE_BUF : Z := 4096.

Definition PP_NULL_ID : Z := 0.
Definition PP_PERLS_ID : Z := 1.
Definition PP_PERLC_ID : Z := 2.
Definition PP_HTTPS_ID : Z := 3.
Definition PP_HTTPC_ID : Z := 4.
Definition PP_PSQLS_ID : Z := 5.
Definition PP_PSQLC_ID : Z := 6.
Definition PP_FCGIS_ID : Z := 7.
Definition PP_FCGIC_ID : Z := 8.
Definition PP_XS_ID : Z := 9.
Definition PP_XC_ID : Z := 10.
Definition PP_MYSQLS_ID : Z := 11.
Definition PP_MYSQLC_ID : Z := 12.
Definition PP_TRIVIAL_ID : Z := 99.

(** protocol.h *)
Inductive pp_direction := PP_READ | PP_WRITE.
#[global] Instance pp_direction_eq_dec : EqDecision pp_direction.
Proof. solve_decision. Defined.

(** vfd.h *)
Definition MAX_FDS : Z := 1024.
Definition VBUFSIZE : Z := 65536.

Inductive vfd_types := VFD_NONE | VFD_SOCK | VFD_PIPE | VFD_DUP | VFD_FILE.
#[global] Instance vfd_types_eq_dec : EqDecision vfd_types.
Proof. solve_decision. Defined.

(** The event names of vfd.c, protocol.c and pf.c; [SYS_FATAL] is the [-1] of
    LOGBINfatal. *)
Inductive syscall :=
| SYS_FATAL
| SYS_ACCEPT | SYS_ACCEPT_BEGIN | SYS_BIND | SYS_BUF_MOVED | SYS_BUF_PPOFS
| SYS_BUF_PRE | SYS_BUF_REFILLED | SYS_BUF_RETURNED | SYS_BUF_SHORT1
| SYS_BUF_SHORT2 | SYS_CLEARENV | SYS_CLOSE | SYS_CONNECT | SYS_CONNECT_BEGIN
| SYS_CREATE | SYS_DEBUG | SYS_DUP | SYS_DUP_FCNTL | SYS_EXEC | SYS_EXECL
| SYS_EXECLE | SYS_EXECLP | SYS_EXECV | SYS_EXECVP | SYS_EXEC_CHILD | SYS_EXIT
| SYS_FORK | SYS_FORK_BEGIN | SYS_GETENV | SYS_HTTPS_READ | SYS_LISTEN | SYS_OPEN
| SYS_PAGEFAULT_BEGIN | SYS_PAGEFAULT_END | SYS_PIPE | SYS_POLL | SYS_POLL_BEGIN
| SYS_PP_DATA | SYS_PP_FCGI_HMM | SYS_PP_ID | SYS_PP_INIT | SYS_PP_ISO_POLL
| SYS_PP_ISO_READ | SYS_PP_MSG_RECV | SYS_PP_MSG_SEND | SYS_PP_PROP
| SYS_PP_REQ_BEGIN | SYS_PP_SHUTDOWN | SYS_PTH_CREATE_BEGIN
| SYS_PTH_CREATE_CHILD | SYS_PTH_CREATE_PARENT | SYS_READ | SYS_READ_BEGIN
| SYS_RECV | SYS_RECVFROM | SYS_RECVFROM_BEGIN | SYS_RECV_BEGIN | SYS_SELECT
| SYS_SELECT_BEGIN | SYS_SEND | SYS_SENDFILE | SYS_SENDFILE64
| SYS_SENDFILE64_BEGIN | SYS_SENDFILE_BEGIN | SYS_SENDTO | SYS_SENDTO_BEGIN
| SYS_SEND_BEGIN | SYS_SHUTDOWN | SYS_SOCKET | SYS_UNSETENV | SYS_WRITE
| SYS_WRITEV | SYS_WRITEV_BEGIN | SYS_WRITE_BEGIN.
#[global] Instance syscall_eq_dec : EqDecision syscall.
Proof. solve_decision. Defined.

(** One call of a LOGBIN function: its record, with the [arg_len] arguments in
    order and the string when one is passed.  [LFlush] is a call of lb_flush. *)
Record event := mk_event {
  ev_sc : syscall;
  ev_rv : Z;
  ev_args : list Z;
  ev_str : option (list byte)
}.

Inductive log_op := LLog (e : event) | LFlush.

#[global] Instance event_eq_dec : EqDecision event.
Proof. solve_decision. Defined.
#[global] Instance log_op_eq_dec : EqDecision log_op.
Proof. solve_decision. Defined.

(** What the traced program's side of the library runs in: it emits log calls. *)
Abbreviation logged := (run log_op).

(** A record is 32 bytes, four for each argument, and the string; one that is longer
    than PIPE_BUF makes lb_alloc_bytes end the process (Binlog.LOGBIN_oversize_exits). *)
Definition event_size (e : event) : Z :=
  32 + 4 * zlen (ev_args e) + zlen (default [] (ev_str e)).
Definition LOGBIN_event (e : event) : logged unit :=
  if PIPE_BUF <? event_size e then stop (Exit 1) else emit (LLog e).

(** The LOGBIN entry points, as the callers use them (binlog.c maps each to
    LOGBIN_gen with this argument list).  Without a string a record has 44 bytes at
    most. *)
Definition LOGBIN0 (sc : syscall) (rv : Z) : logged unit :=
  emit (LLog (mk_event sc rv [] None)).
Definition LOGBINs (sc : syscall) (rv : Z) (s : list byte) : logged unit :=
  LOGBIN_event (mk_event sc rv [] (Some s)).
Definition LOGBINi (sc : syscall) (rv i1 : Z) : logged unit :=
  emit (LLog (mk_event sc rv [i1] None)).
Definition LOGBINis (sc : syscall) (rv i1 : Z) (s : list byte) : logged unit :=
  LOGBIN_event (mk_event sc rv [i1] (Some s)).
Definition LOGBINii (sc : syscall) (rv i1 i2 : Z) : logged unit :=
  emit (LLog (mk_event sc rv [i1; i2] None)).
Definition LOGBINiis (sc : syscall) (rv i1 i2 : Z) (s : list byte) : logged unit :=
  LOGBIN_event (mk_event sc rv [i1; i2] (Some s)).
Definition LOGBINiii (sc : syscall) (rv i1 i2 i3 : Z) : logged unit :=
  emit (LLog (mk_event sc rv [i1; i2; i3] None)).
Definition LOGBINiiis (sc : syscall) (rv i1 i2 i3 : Z) (s : list byte) : logged unit :=
  LOGBIN_event (mk_event sc rv [i1; i2; i3] (Some s)).
Definition LOGBINfatal (s : list byte) : logged unit := LOGBINs SYS_FATAL (-1) s.
(** LOGBINli prints the thread id with "%llu" and logs the parent's pid. *)
Definition LOGBINli (sc : syscall) (rv ptid ppid : Z) : logged unit :=
  LOGBIN_event (mk_event sc rv [ppid] (Some (fmt_u (u64 ptid)))).
(** LOGBINss logs "key=-=value". *)
Definition LOGBINss (sc : syscall) (rv : Z) (s1 s2 : list byte) : logged unit :=
  LOGBINs sc rv (s1 ++ bs "=-=" ++ s2).
Definition log_flush : logged unit := emit LFlush.

Lemma LOGBIN_ints sc rv i1 i2 i3 :
  LOGBIN0 sc rv = LOGBIN_event (mk_event sc rv [] None) /\
  LOGBINi sc rv i1 = LOGBIN_event (mk_event sc rv [i1] None) /\
  LOGBINii sc rv i1 i2 = LOGBIN_event (mk_event sc rv [i1; i2] None) /\
  LOGBINiii sc rv i1 i2 i3 = LOGBIN_event (mk_event sc rv [i1; i2; i3] None).
Proof. done. Qed.

Lemma LOGBIN_fits e : event_size e <= PIPE_BUF -> LOGBIN_event e = emit (LLog e).
Proof. intros H. unfold LOGBIN_event. destruct (Z.ltb_spec PIPE_BUF (event_size e)); [lia | done]. Qed.
Lemma LOGBIN_oversize e : PIPE_BUF < event_size e -> LOGBIN_event e = stop (Exit 1).
Proof. intros H. unfold LOGBIN_event. destruct (Z.ltb_spec PIPE_BUF (event_size e)); [done | lia]. Qed.

Lemma LOGBIN_event_inv e w u :
  LOGBIN_event e = (w, Ok u) -> event_size e <= PIPE_BUF /\ w = [LLog e].
Proof.
  unfold LOGBIN_event. destruct (Z.ltb_spec PIPE_BUF (event_size e)); intros H'; [done |].
  by apply emit_inv in H' as ->.
Qed.
Lemma logs_LOGBIN (P : log_op -> Prop) e : P (LLog e) -> logs P (LOGBIN_event e).
Proof. intros H. unfold LOGBIN_event. destruct (_ <? _); [apply logs_stop | by apply logs_emit]. Qed.

(** A record whose string is short, whatever its arguments. *)
Lemma event_short sc rv args s :
  zlen args <= 3 -> zlen s <= 4052 -> event_size (mk_event sc rv args (Some s)) <= PIPE_BUF.
Proof. intros. unfold event_size, PIPE_BUF. cbn [ev_args ev_str default from_option id]. lia. Qed.

(** The longest strings that fit. *)
Lemma event_size_le sc rv args s n :
  zlen s <= n -> 32 + 4 * zlen args + n <= PIPE_BUF -> event_size (mk_event sc rv args (Some s)) <= PIPE_BUF.
Proof. intros. unfold event_size. cbn [ev_args ev_str default from_option id]. lia. Qed.
Lemma LOGBINs_short sc rv s :
  zlen s <= 4064 -> LOGBINs sc rv s = emit (LLog (mk_event sc rv [] (Some s))).
Proof. intros. apply LOGBIN_fits. by eapply event_size_le. Qed.
Lemma LOGBINis_short sc rv i1 s :
  zlen s <= 4060 -> LOGBINis sc rv i1 s = emit (LLog (mk_event sc rv [i1] (Some s))).
Proof. intros. apply LOGBIN_fits. by eapply event_size_le. Qed.
Lemma LOGBINiis_short sc rv i1 i2 s :
  zlen s <= 4056 -> LOGBINiis sc rv i1 i2 s = emit (LLog (mk_event sc rv [i1; i2] (Some s))).
Proof. intros. apply LOGBIN_fits. by eapply event_size_le. Qed.
Lemma LOGBINiiis_short sc rv i1 i2 i3 s :
  zlen s <= 4052 -> LOGBINiiis sc rv i1 i2 i3 s = emit (LLog (mk_event sc rv [i1; i2; i3] (Some s))).
Proof. intros. apply LOGBIN_fits. by eapply event_size_le. Qed.
Lemma LOGBINss_short sc rv s1 s2 :
  zlen s1 + zlen s2 <= 4061 ->
  LOGBINss sc rv s1 s2 = emit (LLog (mk_event sc rv [] (Some (s1 ++ bs "=-=" ++ s2)))).
Proof. intros. apply LOGBINs_short. rewrite !zlen_app. change (zlen (bs "=-=")) with 3. lia. Qed.

Lemma LOGBINfatal_short s :
  zlen s <= 4064 -> LOGBINfatal s = emit (LLog (mk_event SYS_FATAL (-1) [] (Some s))).
Proof. apply LOGBINs_short. Qed.
Lemma LOGBINli_emit sc rv ptid ppid :
  LOGBINli sc rv ptid ppid = emit (LLog (mk_event sc rv [ppid] (Some (fmt_u (u64 ptid))))).
Proof. apply LOGBIN_fits. eapply event_size_le; [apply zlen_fmt_u | by_eval]. Qed.
Lemma returns_LOGBIN e : event_size e <= PIPE_BUF -> returns (LOGBIN_event e).
Proof. intros H. rewrite LOGBIN_fits by done. apply returns_emit. Qed.

(** The LOGBIN calls of the goal whose string is a short constant, or a choice
    between two. *)
Ltac log_bound := repeat case_match; first [lia | by_eval].
Ltac log_short :=
  repeat first
  [ rewrite LOGBINfatal_short by log_bound | rewrite LOGBINs_short by log_bound
  | rewrite LOGBINis_short by log_bound | rewrite LOGBINiis_short by log_bound
  | rewrite LOGBINiiis_short by log_bound ].

Ltac inv_run_hook ::=
  match goal with
  | H : LOGBIN_event _ = (_, Ok _) |- _ => apply LOGBIN_event_inv in H; destruct H as [?Hsize ?]; subst
  end.

(** The process-wide flags of vfd.c and binlog.c, and what pthread_mutex_lock(3)
    returns. *)
Record flags := mk_flags {
  debug_events : Z;
  bb_disable_pp : Z;
  bb_disable_all : Z;
  bb_disable_log : Z;
  lock_rv : Z
}.

(** ** The library's calls

    A wrapper logs and calls the function it stands for.  [AReal f args strs] is a
    call of the real [f]; the kernel's answer is an argument of the wrapper.
    [ACtx pid fd] is a call of alloc_ctx: the thread goes on with an empty buffer. *)
Inductive act :=
| ALog (o : log_op)
| AReal (f : list byte) (args : list Z) (strs : list (list byte))
| ACtx (pid fd : Z).

Abbreviation acts := (run act).

Definition lift {A} (m : logged A) : acts A := (ALog <$> m.1, m.2).
Definition real (f : list byte) (args : list Z) : acts unit := emit (AReal f args []).

Lemma lift_ret {A} (a : A) : lift (ret a) = ret a.
Proof. done. Qed.

Lemma lift_bind {A B} (m : logged A) (k : A -> logged B) :
  lift (bind m k) = bind (lift m) (fun a => lift (k a)).
Proof.
  destruct m as [w [a | c]]; [| done]. unfold lift. cbn [bind fst snd].
  destruct (k a) as [w' o]. cbn [fst snd]. by rewrite fmap_app.
Qed.

Lemma lift_inv {A} (m : logged A) w o :
  lift m = (w, o) -> exists l, m = (l, o) /\ w = ALog <$> l.
Proof. destruct m as [l o']. unfold lift. intros [= <- <-]. eauto. Qed.

(** The real calls of a trace, and its log. *)
Definition is_real (a : act) : bool := if a is AReal _ _ _ then true else false.
Definition reals (w : list act) : list act := List.filter is_real w.
Definition log_of (w : list act) : list log_op :=
  omap (fun a => match a with ALog o => Some o | _ => None end) w.

Lemma reals_app w1 w2 : reals (w1 ++ w2) = reals w1 ++ reals w2.
Proof. apply filter_app. Qed.
Lemma reals_log l : reals (ALog <$> l) = [].
Proof. induction l; done. Qed.
Lemma log_of_app w1 w2 : log_of (w1 ++ w2) = log_of w1 ++ log_of w2.
Proof. apply omap_app. Qed.
Lemma log_of_log l : log_of (ALog <$> l) = l.
Proof. unfold log_of. induction l as [| o l IH]; [done |]. cbn. by rewrite IH. Qed.
