(* ===== verification/Fmt.v ===== *)
(** src/src/logd/fmt.c and fmt.h: the log record and its wire format.

    A record is a fixed 32-byte header ([logentry_frozen_t]), up to three
    4-byte arguments and a string; the header says how many of each.  [freeze]
    writes a record into a buffer; [thaw1] and [thaw2] read it back. *)
From S2P Require Import Prelude CInt CString Config.

Record logentry_frozen := mk_frozen {
  fz_tid : Z;          (* uint64_t *)
  fz_pid : Z;          (* uint32_t *)
  fz_cycle_high : Z;   (* uint32_t *)
  fz_cycle_low : Z;    (* uint32_t *)
  fz_sc : Z;           (* short *)
  fz_rv : Z;           (* short *)
  fz_nm : Z;           (* char *)
  fz_arg_len : Z;      (* char *)
  fz_str_len : Z;      (* short *)
  fz_padding : list byte  (* char[4] *)
}.

(** [str] is [None] while the pointer is not set; otherwise the object it points
    to.  [arg] is the int[3]. *)
Record logentry_thaw := mk_thaw {
  th_fz : logentry_frozen;
  th_str : option (list byte);
  th_arg : list Z
}.

Definition sizeof_frozen : Z := 32.
Definition sizeof_int : Z := 4.

Definition wf_frozen (f : logentry_frozen) : Prop :=
  is_u 64 (fz_tid f) /\ is_u 32 (fz_pid f) /\ is_u 32 (fz_cycle_high f) /\
  is_u 32 (fz_cycle_low f) /\ is_s 16 (fz_sc f) /\ is_s 16 (fz_rv f) /\
  is_s 8 (fz_nm f) /\ is_s 8 (fz_arg_len f) /\ is_s 16 (fz_str_len f) /\
  zlen (fz_padding f) = 4.

(** The object representation of the header. *)
Definition frozen_bytes (f : logentry_frozen) : list byte :=
  le_bytes 8 (fz_tid f) ++ le_bytes 4 (fz_pid f) ++ le_bytes 4 (fz_cycle_high f) ++
  le_bytes 4 (fz_cycle_low f) ++ le_bytes 2 (fz_sc f) ++ le_bytes 2 (fz_rv f) ++
  le_bytes 1 (fz_nm f) ++ le_bytes 1 (fz_arg_len f) ++ le_bytes 2 (fz_str_len f) ++
  fz_padding f.

Arguments frozen_bytes : simpl never.

Definition fld (mem : list byte) (off n : Z) : list byte := ztake n (zdrop off mem).

(** The header stored at the start of [mem]. *)
Definition frozen_of (mem : list byte) : logentry_frozen := {|
  fz_tid := le_val (fld mem 0 8);
  fz_pid := le_val (fld mem 8 4);
  fz_cycle_high := le_val (fld mem 12 4);
  fz_cycle_low := le_val (fld mem 16 4);
  fz_sc := s16 (le_val (fld mem 20 2));
  fz_rv := s16 (le_val (fld mem 22 2));
  fz_nm := s8 (le_val (fld mem 24 1));
  fz_arg_len := s8 (le_val (fld mem 25 1));
  fz_str_len := s16 (le_val (fld mem 26 2));
  fz_padding := fld mem 28 4
|}.

(** ** The operations of fmt.c *)

(** size_t arithmetic, converted back to int. *)
Definition predict_size (arg_len str_len : Z) : Z :=
  s32 (u64 (u64 (sizeof_frozen + u64 (u64 arg_len * sizeof_int)) + u64 str_len)).

Definition frozen_size (fz : logentry_frozen) : Z :=
  predict_size (fz_arg_len fz) (fz_str_len fz).

(** The argument loop of freeze: [n] iterations left, [i] the loop variable. *)
Fixpoint freeze_args {W} (n i : nat) (buf : list byte) (arg : list Z) (cur : Z) :
    run W (list byte * Z) :=
  match n with
  | O => ret (buf, cur)
  | S n' =>
      let! a := of_opt (arg !! i) in
      let! buf := store buf cur (le_bytes 4 a) in
      freeze_args n' (S i) buf arg (cur + sizeof_int)
  end.

Definition freeze {W} (buf : list byte) (le : logentry_thaw) (size : Z) :
    run W (list byte) :=
  let! buf := store buf 0 (frozen_bytes (th_fz le)) in
  let! (buf, cur) :=
    freeze_args (Z.to_nat (fz_arg_len (th_fz le))) 0 buf (th_arg le) sizeof_frozen in
  let! (buf, cur) :=
    (if fz_str_len (th_fz le) =? 0 then ret (buf, cur) else
       let! str := of_opt (th_str le) in
       let! s := load str 0 (fz_str_len (th_fz le)) in
       let! buf := store buf cur s in
       ret (buf, cur + fz_str_len (th_fz le))) in
  assert (size =? cur) ;;;
  ret buf.

Definition thaw1 {W} (buf : list byte) : run W logentry_frozen :=
  let! b := load buf 0 sizeof_frozen in ret (frozen_of b).

(** The argument loop of thaw2. *)
Fixpoint thaw_args {W} (n i : nat) (buf : list byte) (arg : list Z) (cur : Z) :
    run W (list Z * Z) :=
  match n with
  | O => ret (arg, cur)
  | S n' =>
      let! b := load buf cur sizeof_int in
      check (Nat.ltb i (length arg)) ;;;
      thaw_args n' (S i) buf (<[i := s32 (le_val b)]> arg) (cur + sizeof_int)
  end.

Definition thaw2 {W} (buf : list byte) (le : logentry_frozen) (rest_sz : Z) :
    run W logentry_thaw :=
  (* malloc leaves out->arg unset; the two loops set all three entries *)
  let! (arg, cur) :=
    thaw_args (Z.to_nat (fz_arg_len le)) 0 buf [0; 0; 0] 0 in
  let! (str, cur) :=
    (if fz_str_len le =? 0 then ret (None, cur) else
       let! s := load buf cur (fz_str_len le) in
       ret (Some (s ++ [NUL]), cur + fz_str_len le)) in
  assert (rest_sz =? cur) ;;;
  ret (mk_thaw le str arg).

(** check_le: the sanity test of a record; [Exit 1] when it fails. *)
Definition check_le {W} (le : logentry_thaw) : run W unit :=
  let fz := th_fz le in
  if (fz_pid fz <? 200) || (99999 <? fz_pid fz) then stop (Exit 1)
  else if fz_tid fz <? 200 then stop (Exit 1)
  else if (fz_sc fz <? 0) || (200 <? fz_sc fz) then stop (Exit 1)
  else ret tt.

(** output_le: one text line.  [syscall2string] is generated by the build. *)
Definition output_le (syscall2string : Z -> list byte) (l : logentry_thaw) :
    option (list byte) :=
  let fz := th_fz l in
  let a i := default 0 (th_arg l !! i) in
  str ← (if 0 <? fz_str_len fz then s ← th_str l; cstr s else Some []);
  Some (fmt_u (fz_tid fz) ++ bs "|" ++ fmt_d (s32 (fz_pid fz)) ++ bs "|" ++
        fmt_u (fz_cycle_high fz) ++ bs "," ++ fmt_u (fz_cycle_low fz) ++ bs "|" ++
        syscall2string (fz_sc fz) ++ bs "|" ++ fmt_d (fz_rv fz) ++ bs "|" ++
        [zb (fz_nm fz)] ++ bs "|arg(" ++ fmt_d (a 0%nat) ++ bs "," ++
        fmt_d (a 1%nat) ++ bs "," ++ fmt_d (a 2%nat) ++ bs "),str(" ++
        fmt_d (fz_str_len fz) ++ bs ":" ++ str ++ bs ")" ++ [LF]).

(** debug_le and debug_ls_fz print to standard error; the latter has no string. *)
Definition debug_le := output_le.
Definition debug_ls_fz (syscall2string : Z -> list byte) (l : option logentry_frozen) : option (list byte) :=
  match l with
  | None => Some []
  | Some fz => debug_le syscall2string (mk_thaw fz None [0; 0; 0])
  end.

(** ** What a record is *)

(** The records the library makes: at most three arguments, a string of the
    announced length. *)
Definition wf_entry (le : logentry_thaw) : Prop :=
  wf_frozen (th_fz le) /\
  0 <= fz_arg_len (th_fz le) <= 3 /\ 0 <= fz_str_len (th_fz le) /\
  length (th_arg le) = 3%nat /\ Forall (is_s 32) (th_arg le) /\
  (fz_str_len (th_fz le) <> 0 ->
   exists s, th_str le = Some s /\ fz_str_len (th_fz le) <= zlen s).

Definition args_bytes (args : list Z) : list byte := concat (le_bytes 4 <$> args).

Definition entry_str (le : logentry_thaw) : list byte :=
  ztake (fz_str_len (th_fz le)) (default [] (th_str le)).

Definition entry_args (le : logentry_thaw) : list Z :=
  ztake (fz_arg_len (th_fz le)) (th_arg le).

(** The wire format. *)
Definition entry_bytes (le : logentry_thaw) : list byte :=
  frozen_bytes (th_fz le) ++ args_bytes (entry_args le) ++ entry_str le.

(** The record as thaw2 rebuilds it: unused arguments zero, the string copied
    and terminated. *)
Definition canon (le : logentry_thaw) : logentry_thaw := {|
  th_fz := th_fz le;
  th_str := if fz_str_len (th_fz le) =? 0 then None else Some (entry_str le ++ [NUL]);
  th_arg := entry_args le ++ replicate (3 - Z.to_nat (fz_arg_len (th_fz le))) 0
|}.

(** ** The header *)

Lemma fld_here l r n : n = zlen l -> fld (l ++ r) 0 n = l.
Proof. intros. unfold fld. rewrite zdrop_0. by apply ztake_app_exact. Qed.

Lemma fld_skip l r off n : zlen l <= off -> fld (l ++ r) off n = fld r (off - zlen l) n.
Proof. intros. unfold fld. by rewrite zdrop_app_ge. Qed.

Lemma zlen_fld mem off n :
  0 <= off -> 0 <= n -> off + n <= zlen mem -> zlen (fld mem off n) = n.
Proof. intros. unfold fld. zl. Qed.

Lemma zlen_frozen_bytes f : wf_frozen f -> zlen (frozen_bytes f) = 32.
Proof. intros (_&_&_&_&_&_&_&_&_&H). unfold frozen_bytes. autorewrite with bp_len. lia. Qed.

Ltac fld_norm :=
  repeat (rewrite fld_skip by (rewrite zlen_le_bytes; lia); rewrite zlen_le_bytes);
  rewrite ?fld_here by (autorewrite with bp_len; lia).

Lemma frozen_of_bytes f rest : wf_frozen f -> frozen_of (frozen_bytes f ++ rest) = f.
Proof.
  intros (H1&H2&H3&H4&H5&H6&H7&H8&H9&H10). destruct f. cbn in H10.
  unfold frozen_of, frozen_bytes. cbn [fz_tid fz_pid fz_cycle_high fz_cycle_low fz_sc fz_rv
    fz_nm fz_arg_len fz_str_len fz_padding]. rewrite <- !app_assoc.
  f_equal.
  - rewrite fld_here by (by rewrite zlen_le_bytes). by apply le_val_u with 64.
  - fld_norm. by apply le_val_u with 32.
  - fld_norm. by apply le_val_u with 32.
  - fld_norm. by apply le_val_u with 32.
  - fld_norm. by apply le_val_s.
  - fld_norm. by apply le_val_s.
  - fld_norm. by apply le_val_s.
  - fld_norm. by apply le_val_s.
  - fld_norm. by apply le_val_s.
  - fld_norm. done.
Qed.

Lemma le_val_is_u n w l : w = 8 * Z.of_nat n -> zlen l = Z.of_nat n -> is_u w (le_val l).
Proof.
  intros -> H. pose proof (le_val_range l) as Hr. rewrite H in Hr. unfold is_u.
  rewrite Z.pow_mul_r by lia. done.
Qed.

Lemma wf_frozen_of b : zlen b = 32 -> wf_frozen (frozen_of b).
Proof.
  intros H. unfold wf_frozen, frozen_of. simpl.
  split_and!; try (by apply wraps_range); try (by rewrite zlen_fld; lia).
  - apply le_val_is_u with 8%nat; [done | by rewrite zlen_fld; lia].
  - apply le_val_is_u with 4%nat; [done | by rewrite zlen_fld; lia].
  - apply le_val_is_u with 4%nat; [done | by rewrite zlen_fld; lia].
  - apply le_val_is_u with 4%nat; [done | by rewrite zlen_fld; lia].
Qed.

Lemma fld_split mem off n m :
  0 <= off -> 0 <= n -> 0 <= m -> fld mem off n ++ fld mem (off + n) m = fld mem off (n + m).
Proof.
  intros. unfold fld. rewrite ztake_add, zdrop_zdrop by lia. done.
Qed.

Lemma length_fld mem off n k :
  0 <= off -> 0 <= n -> off + n <= zlen mem -> n = Z.of_nat k -> length (fld mem off n) = k.
Proof. intros. pose proof (zlen_fld mem off n). unfold zlen in *. lia. Qed.

Lemma frozen_bytes_of b : zlen b = 32 -> frozen_bytes (frozen_of b) = b.
Proof.
  intros H. unfold frozen_bytes, frozen_of. simpl fz_tid. cbn [fz_tid fz_pid
    fz_cycle_high fz_cycle_low fz_sc fz_rv fz_nm fz_arg_len fz_str_len fz_padding].
  rewrite !(le_bytes_wraps 2 16), !(le_bytes_wraps 1 8) by (done || lia).
  rewrite !le_bytes_val_len by (apply length_fld; lia).
  repeat (rewrite fld_split by lia; simpl Z.add).
  transitivity (fld b 0 32).
  { repeat (match goal with |- context [fld b ?o ?n ++ fld b ?p ?m] =>
      change p with (o + n); rewrite (fld_split b o n m) by lia end; simpl Z.add).
    done. }
  unfold fld. rewrite zdrop_0. apply ztake_all. lia.
Qed.

(** ** Sizes *)

Lemma predict_size_wide a s :
  is_s 8 a -> is_s 32 (32 + 4 * a + s) -> predict_size a s = 32 + 4 * a + s.
Proof.
  unfold is_s. intros Ha Hs. unfold predict_size, sizeof_frozen, sizeof_int.
  rewrite wrapu_mul_l, !wrapu_add_r, !wrapu_add_l, wraps_narrow by lia.
  rewrite s32_small; lia.
Qed.
Lemma predict_size_val a s :
  is_s 8 a -> is_s 16 s -> predict_size a s = 32 + 4 * a + s.
Proof. intros Ha Hs. apply predict_size_wide; [done |]. unfold is_s in *. lia. Qed.

Lemma frozen_size_val f :
  wf_frozen f -> frozen_size f = 32 + 4 * fz_arg_len f + fz_str_len f.
Proof. intros (_&_&_&_&_&_&_&?&?&_). by apply predict_size_val. Qed.

Lemma args_bytes_cons a l : args_bytes (a :: l) = le_bytes 4 a ++ args_bytes l.
Proof. done. Qed.

Lemma zlen_args_bytes args : zlen (args_bytes args) = 4 * zlen args.
Proof.
  induction args as [| a l IH]; [done |].
  rewrite args_bytes_cons, zlen_app, zlen_le_bytes, IH. zl.
Qed.
#[export] Hint Rewrite zlen_args_bytes : bp_len.

Lemma zlen_entry_args le :
  0 <= fz_arg_len (th_fz le) <= 3 -> length (th_arg le) = 3%nat ->
  zlen (entry_args le) = fz_arg_len (th_fz le).
Proof. intros. unfold entry_args. rewrite zlen_ztake. unfold zlen. lia. Qed.

Lemma zlen_entry_str le : wf_entry le -> zlen (entry_str le) = fz_str_len (th_fz le).
Proof.
  intros (_&_&Hn&_&_&Hs). unfold entry_str. rewrite zlen_ztake.
  destruct (decide (fz_str_len (th_fz le) = 0)) as [E | E]; [rewrite E; zl |].
  destruct (Hs E) as (s & -> & ?). simpl. lia.
Qed.

Lemma zlen_entry_bytes le : wf_entry le -> zlen (entry_bytes le) = frozen_size (th_fz le).
Proof.
  intros H. pose proof (zlen_entry_str le H). destruct H as (Hf&Ha&Hn&Hl&_&_).
  rewrite frozen_size_val by done. unfold entry_bytes.
  rewrite !zlen_app, zlen_frozen_bytes, zlen_args_bytes, zlen_entry_args by done. lia.
Qed.

(** ** freeze writes the wire format *)

Lemma freeze_args_ok {W} n i pre mid post arg :
  (i + n <= length arg)%nat -> zlen mid = 4 * Z.of_nat n ->
  freeze_args (W:=W) n i (pre ++ mid ++ post) arg (zlen pre) =
  ret (pre ++ args_bytes (take n (drop i arg)) ++ post, zlen pre + 4 * Z.of_nat n).
Proof.
  revert i pre mid; induction n as [| n IH]; intros i pre mid Hn Hm.
  - apply zlen_0_inv in Hm as ->. simpl. rewrite Z.add_0_r. done.
  - destruct (lookup_lt_is_Some_2 arg i) as [a Ha]; [lia |].
    simpl freeze_args. rewrite Ha. simpl of_opt. rewrite bind_ret_l.
    rewrite <- (ztake_zdrop 4 mid), <- app_assoc.
    erewrite bind_ok_nil by (apply store_mid; [done | rewrite zlen_le_bytes; zl]).
    replace (zlen pre + sizeof_int) with (zlen (pre ++ le_bytes 4 a))
      by (rewrite zlen_app, zlen_le_bytes; done).
    rewrite app_assoc, IH by (lia || zl).
    erewrite (drop_S arg a i) by done. simpl take. rewrite args_bytes_cons.
    rewrite <- !app_assoc. do 2 f_equal. rewrite zlen_app, zlen_le_bytes. lia.
Qed.

Lemma freeze_ok {W} buf le size :
  wf_entry le -> zlen buf = frozen_size (th_fz le) -> size = frozen_size (th_fz le) ->
  freeze (W:=W) buf le size = ret (entry_bytes le).
Proof.
  intros H Hb ->. pose proof (zlen_entry_str le H) as Hes.
  destruct H as (Hf&Ha&Hn&Hl&Hr&Hs). rewrite frozen_size_val in * by done.
  set (fz := th_fz le) in *. unfold freeze. fold fz.
  pose proof (zlen_frozen_bytes fz Hf) as H32.
  rewrite <- (ztake_zdrop 32 buf). set (rest := zdrop 32 buf).
  assert (zlen rest = 4 * fz_arg_len fz + fz_str_len fz) as Hrest by (unfold rest; zl).
  erewrite bind_ok_nil by (apply (store_mid [] (ztake 32 buf) rest); zl).
  rewrite app_nil_l, <- (ztake_zdrop (4 * fz_arg_len fz) rest).
  change sizeof_frozen with 32. rewrite <- H32 at 1.
  erewrite bind_ok_nil by (apply freeze_args_ok; [lia | zl]).
  cbn beta iota. rewrite drop_0.
  change (take (Z.to_nat (fz_arg_len fz)) (th_arg le)) with (entry_args le).
  set (tail := zdrop (4 * fz_arg_len fz) rest).
  assert (zlen tail = fz_str_len fz) as Htail by (unfold tail; zl).
  pose proof (zlen_entry_args le Ha Hl) as Hea. fold fz in Hea.
  destruct (Z.eqb_spec (fz_str_len fz) 0) as [E | E].
  - rewrite bind_ret_l. rewrite assert_true by zt. rewrite bind_ret_l.
    unfold entry_bytes. fold fz. rewrite E in Hes, Htail.
    apply zlen_0_inv in Hes as ->. apply zlen_0_inv in Htail as ->. done.
  - destruct (Hs E) as (s & Es & Hle). fold fz in Hle. rewrite Es. simpl of_opt.
    rewrite bind_ret_l, bind_assoc.
    rewrite load_ok by lia. rewrite bind_ret_l, bind_assoc, zdrop_0.
    replace (ztake (fz_str_len fz) s) with (entry_str le)
      by (unfold entry_str; fold fz; by rewrite Es).
    rewrite app_assoc, <- (app_nil_r tail).
    erewrite bind_ok_nil by (apply store_mid; zl).
    rewrite !bind_ret_l, assert_true by zt. rewrite bind_ret_l.
    unfold entry_bytes. fold fz. by rewrite app_nil_r, <- app_assoc.
Qed.

(** ** thaw1 and thaw2 read it back *)

Lemma thaw1_ok {W} le rest :
  wf_entry le -> thaw1 (W:=W) (entry_bytes le ++ rest) = ret (th_fz le).
Proof.
  intros [Hf _]. pose proof (zlen_frozen_bytes _ Hf). unfold thaw1, entry_bytes.
  rewrite <- app_assoc.
  erewrite bind_ok_nil by (apply (load_mid [] (frozen_bytes (th_fz le))); done || lia).
  f_equal. rewrite <- (app_nil_r (frozen_bytes _)). by apply frozen_of_bytes.
Qed.

Lemma thaw1_inv {W} buf w f :
  thaw1 (W:=W) buf = (w, Ok f) ->
  wf_frozen f /\ frozen_bytes f = ztake 32 buf /\ 32 <= zlen buf /\ w = [].
Proof.
  unfold thaw1. intros H. inv_run.
  apply load_inv in Hm as (_ & _ & Hl & -> & ->). rewrite zdrop_0.
  unfold sizeof_frozen in *. assert (zlen (ztake 32 buf) = 32) by zl.
  split_and!; [by apply wf_frozen_of | by apply frozen_bytes_of | lia | done].
Qed.

Lemma insert_mid {A} (l : list A) x y k : <[length l := y]> (l ++ x :: k) = l ++ y :: k.
Proof. induction l; simpl; [done | by f_equal]. Qed.

(** The loop fills [arg] from index [i]; [done] are the entries already read. *)
Lemma thaw_args_ok {W} pre args post dn tl :
  Forall (is_s 32) args -> length tl = length args ->
  forall k,
  thaw_args (W:=W) (length args) (length dn) (pre ++ args_bytes args ++ post)
    (dn ++ tl ++ k) (zlen pre) =
  ret (dn ++ args ++ k, zlen pre + 4 * zlen args).
Proof.
  intros Hs. revert pre dn tl; induction Hs as [| a l Ha Hs IH]; intros pre dn tl Ht k.
  - destruct tl; [| done]. simpl. by rewrite Z.add_0_r.
  - destruct tl as [| t tl]; [done |]. simpl length. cbn [thaw_args].
    rewrite args_bytes_cons, <- app_assoc.
    erewrite bind_ok_nil by (apply load_mid; [done | by rewrite zlen_le_bytes]).
    rewrite check_true by (apply Nat.ltb_lt; rewrite !length_app; simpl; lia).
    rewrite bind_ret_l. rewrite (le_val_s 4 32) by done. rewrite <- app_comm_cons, insert_mid.
    replace (zlen pre + sizeof_int) with (zlen (pre ++ le_bytes 4 a))
      by (rewrite zlen_app, zlen_le_bytes; done).
    replace (S (length dn)) with (length (dn ++ [a])) by (rewrite length_app; simpl; lia).
    rewrite (app_assoc pre), (cons_middle a dn (tl ++ k)), (app_assoc dn [a] (tl ++ k)).
    rewrite IH by (simpl in Ht; lia). rewrite <- app_assoc. do 2 f_equal.
    rewrite zlen_app, zlen_le_bytes, zlen_cons. lia.
Qed.

Lemma thaw2_ok {W} le rest :
  wf_entry le ->
  thaw2 (W:=W) (args_bytes (entry_args le) ++ entry_str le ++ rest) (th_fz le)
    (frozen_size (th_fz le) - 32) = ret (canon le).
Proof.
  intros H. pose proof (zlen_entry_str le H) as Hes.
  destruct H as (Hf&Ha&Hn&Hl&Hr&Hs). rewrite frozen_size_val by done.
  pose proof (zlen_entry_args le Ha Hl) as Hea. set (fz := th_fz le) in *.
  assert (length (entry_args le) = Z.to_nat (fz_arg_len fz)) as Hlen by (unfold zlen in Hea; lia).
  unfold thaw2. rewrite <- Hlen.
  assert ([0; 0; 0] = [] ++ replicate (length (entry_args le)) 0 ++
    replicate (3 - Z.to_nat (fz_arg_len fz)) 0) as ->.
  { rewrite app_nil_l, <- replicate_add, Hlen.
    by replace (_ + _)%nat with 3%nat by lia. }
  erewrite bind_ok_nil.
  2:{ apply (thaw_args_ok [] (entry_args le) _ []);
        [by apply Forall_take | by rewrite length_replicate]. }
  cbn beta iota. change (zlen (@nil byte)) with 0. rewrite Hea, Z.add_0_l.
  destruct (Z.eqb_spec (fz_str_len fz) 0) as [E | E].
  - rewrite bind_ret_l, assert_true by zt. rewrite bind_ret_l.
    unfold canon. fold fz. by rewrite E, app_nil_l.
  - rewrite bind_assoc. erewrite bind_ok_nil by (apply load_mid; zl).
    rewrite !bind_ret_l, assert_true by zt. rewrite bind_ret_l.
    unfold canon. fold fz. destruct (Z.eqb_spec (fz_str_len fz) 0); [lia |].
    by rewrite app_nil_l.
Qed.

Lemma thaw_args_inv {W} n i buf arg cur w arg' cur' :
  thaw_args (W:=W) n i buf arg cur = (w, Ok (arg', cur')) -> 0 <= cur <= zlen buf ->
  w = [] /\ cur' = cur + 4 * Z.of_nat n /\ cur' <= zlen buf /\
  length arg' = length arg /\ (n = 0%nat \/ i + n <= length arg)%nat /\
  take i arg' = take i arg /\ drop (i + n) arg' = drop (i + n) arg /\
  Forall (is_s 32) (take n (drop i arg')) /\
  args_bytes (take n (drop i arg')) = ztake (4 * Z.of_nat n) (zdrop cur buf).
Proof.
  revert i arg cur w; induction n as [| n IH]; intros i arg cur w H Hc; cbn [thaw_args] in H.
  - inv_run. simplify_eq. rewrite Nat.add_0_r.
    split_and!; first [done | lia | by constructor].
  - inv_run. apply load_inv in Hm as (_ & _ & Hl & -> & ->).
    apply Nat.ltb_lt in Hc0. unfold sizeof_int in *.
    apply IH in H as (-> & -> & ? & Hlen & Hi & Htk & Hdr & Hall & Hb); [| lia].
    rewrite length_insert in *. set (v := s32 _) in *.
    assert (arg' !! i = Some v) as Hv.
    { rewrite <- (lookup_take_lt arg' (S i)), Htk, lookup_take_lt by lia.
      by apply list_lookup_insert_eq. }
    rewrite (drop_S arg' v i Hv). cbn [take].
    split_and!; try first [done | lia].
    + transitivity (take i (take (S i) arg')); [rewrite take_take; f_equal; lia |].
      rewrite Htk, take_take. rewrite Nat.min_l by lia. by rewrite take_insert_ge.
    + replace (i + S n)%nat with (S i + n)%nat by lia. rewrite Hdr.
      by rewrite drop_insert_lt by lia.
    + constructor; [by apply wraps_range | done].
    + rewrite args_bytes_cons, Hb. unfold v.
      rewrite (le_bytes_wraps 4 32) by done.
      rewrite le_bytes_val_len by (unfold ztake, zdrop, zlen in *; rewrite length_take, length_drop; lia).
      replace (4 * Z.of_nat (S n)) with (4 + 4 * Z.of_nat n) by lia.
      rewrite ztake_add, zdrop_zdrop by lia. done.
Qed.

(** The string part of thaw2. *)
Lemma thaw_str_inv {W} buf n cur w str cur' :
  0 <= cur <= zlen buf ->
  (if n =? 0 then ret (None, cur) else
     let! s := load buf cur n in ret (Some (s ++ [NUL]), cur + n)) = (w, Ok (str, cur')) ->
  w = @nil W /\ 0 <= n /\ cur' = cur + n /\ cur' <= zlen buf /\
  str = (if n =? 0 then None else Some (ztake n (zdrop cur buf) ++ [NUL])).
Proof.
  intros Hc H. destruct (Z.eqb_spec n 0) as [-> | E]; inv_run; simplify_eq.
  - split_and!; done || lia.
  - apply load_inv in Hm as (_ & ? & ? & -> & ->). split_and!; done || lia.
Qed.

Lemma thaw_arg_shape arg n :
  length arg = 3%nat -> (n = 0 \/ n <= 3)%nat ->
  drop n arg = drop n [0; 0; 0] -> Forall (is_s 32) (take n arg) ->
  arg = take n arg ++ replicate (3 - n) 0 /\ Forall (is_s 32) arg.
Proof.
  intros Hl Hn Hd Hall.
  assert (drop n [0; 0; 0] = replicate (3 - n) 0) as E.
  { change [0; 0; 0] with (replicate 3 0). by rewrite drop_replicate. }
  assert (arg = take n arg ++ replicate (3 - n) 0) as Harg.
  { rewrite <- E, <- Hd. by rewrite take_drop. }
  split; [done |]. rewrite Harg. apply Forall_app. split; [done |].
  apply Forall_replicate. split; lia.
Qed.

Lemma thaw2_inv {W} buf fz w le :
  wf_frozen fz -> thaw2 (W:=W) buf fz (frozen_size fz - 32) = (w, Ok le) ->
  w = [] /\ th_fz le = fz /\ wf_entry le /\ canon le = le /\
  frozen_size fz - 32 <= zlen buf /\
  ztake (frozen_size fz - 32) buf = args_bytes (entry_args le) ++ entry_str le.
Proof.
  intros Hf H. rewrite frozen_size_val in * by done. unfold thaw2 in H. inv_run.
  destruct a as [arg cur]. pose proof (zlen_nonneg buf).
  apply thaw_args_inv in Hm as (-> & -> & Hc & Hlen & Hi & _ & Hdr & Hall & Hb); [| lia].
  rewrite drop_0 in Hall, Hb. inv_run. destruct a as [str cur']. inv_run. zbool.
  apply thaw_str_inv in Hm as (-> & Hn & -> & Hle & ->); [| lia].
  simpl in Hlen, Hi. assert (0 <= fz_arg_len fz <= 3) as Ha' by lia.
  destruct (thaw_arg_shape arg (Z.to_nat (fz_arg_len fz))) as [Harg Hs32]; try done.
  replace (0 + 4 * Z.of_nat (Z.to_nat (fz_arg_len fz))) with (4 * fz_arg_len fz) in * by lia.
  set (sb := ztake (fz_str_len fz) (zdrop (4 * fz_arg_len fz) buf)) in *.
  assert (zlen sb = fz_str_len fz) as Hsb by (unfold sb; zl).
  set (le := mk_thaw fz _ arg). assert (entry_str le = sb) as Hes.
  { unfold entry_str, le. cbn [th_fz th_str].
    destruct (Z.eqb_spec (fz_str_len fz) 0) as [E | E].
    - rewrite E in *. by apply zlen_0_inv in Hsb as ->.
    - by apply ztake_app_exact. }
  split_and!; try done; unfold le; cbn [th_fz th_arg th_str]; try lia.
  - unfold wf_entry. cbn [th_fz th_arg th_str]. split_and!; try done; try lia.
    intros E. destruct (Z.eqb_spec (fz_str_len fz) 0); [lia |]. eexists. split; [done | zl].
  - unfold canon. fold le. rewrite Hes. cbn [th_fz]. f_equal. symmetry. exact Harg.
  - fold le. rewrite Hes. unfold entry_args. cbn [th_fz th_arg le].
    replace (32 + _ + _ - 32) with (4 * fz_arg_len fz + fz_str_len fz) by lia.
    rewrite ztake_add by lia. f_equal. symmetry.
    etransitivity; [exact Hb | f_equal; lia].
Qed.

(** ** canon *)

Lemma canon_wf le : wf_entry le -> wf_entry (canon le).
Proof.
  intros H. pose proof (zlen_entry_str le H) as Hs. pose proof H as (Hf&Ha&Hn&Hl&Hr&_).
  pose proof (zlen_entry_args le Ha Hl) as Hea. unfold wf_entry. cbn [canon th_fz th_str th_arg].
  refine (conj Hf (conj Ha (conj Hn (conj _ (conj _ _))))).
  - rewrite length_app, length_replicate. unfold zlen in Hea. lia.
  - apply Forall_app. split; [by apply Forall_take |]. apply Forall_replicate. split; lia.
  - intros E. destruct (Z.eqb_spec (fz_str_len (th_fz le)) 0); [lia |].
    eexists. split; [done |]. rewrite zlen_app. pose proof (zlen_nonneg [NUL]). lia.
Qed.

Lemma entry_bytes_canon le : wf_entry le -> entry_bytes (canon le) = entry_bytes le.
Proof.
  intros H. pose proof (zlen_entry_str le H) as Hs. pose proof H as (Hf&Ha&Hn&Hl&_&_).
  pose proof (zlen_entry_args le Ha Hl) as Hea. unfold entry_bytes. cbn [canon th_fz].
  do 2 f_equal.
  - unfold entry_args at 1. cbn [canon th_fz th_arg]. by rewrite ztake_app_exact.
  - unfold entry_str at 1. cbn [canon th_fz th_str].
    destruct (Z.eqb_spec (fz_str_len (th_fz le)) 0) as [E | E].
    + rewrite E in *. simpl. unfold ztake. rewrite take_nil. symmetry. by apply zlen_0_inv.
    + simpl. by apply ztake_app_exact.
Qed.

(** A record for concrete checks. *)
Definition demo_entry : logentry_thaw :=
  mk_thaw (mk_frozen 3000 300 1 2 5 (-1) 120 1 2 [NUL; NUL; NUL; NUL]) (Some (bs "ab")) [-9; 0; 0].

Lemma demo_entry_wf : wf_entry demo_entry.
Proof.
  unfold wf_entry, wf_frozen, is_u, is_s. cbn. split_and!; try lia; try done.
  - repeat constructor; lia.
  - intros _. eexists. split; [reflexivity | vm_compute; congruence].
Qed.

(** Only a record without a string can be shown so: output_le prints str when str_len
    is positive, and debug_ls_fz has set it to NULL. *)
Theorem debug_needs_no_string syscall2string fz :
  (exists line, debug_ls_fz syscall2string (Some fz) = Some line) <-> fz_str_len fz <= 0.
Proof.
  unfold debug_ls_fz, debug_le, output_le. cbn [th_fz th_str th_arg].
  destruct (Z.ltb_spec 0 (fz_str_len fz)); split; intros H'; try lia; [by destruct H' | by eexists].
Qed.

(** ** Properties *)

(** C22: freeze then thaw.  A record the library can make freezes into a buffer of
    its size without an assertion failing, and thaw1 and thaw2 read back the same
    header, arguments and string. *)
Theorem freeze_thaw buf le :
  wf_entry le -> zlen buf = frozen_size (th_fz le) ->
  exists b, freeze (W:=unit) buf le (frozen_size (th_fz le)) = ret b /\
    thaw1 (W:=unit) b = ret (th_fz le) /\
    thaw2 (W:=unit) (zdrop sizeof_frozen b) (th_fz le) (frozen_size (th_fz le) - sizeof_frozen) =
      ret (canon le).
Proof.
  intros H Hb. exists (entry_bytes le). split_and!.
  - by apply freeze_ok.
  - rewrite <- (app_nil_r (entry_bytes le)). by apply thaw1_ok.
  - unfold entry_bytes. rewrite zdrop_app_exact by (by rewrite zlen_frozen_bytes by apply H).
    rewrite <- (app_nil_r (entry_str le)). by apply thaw2_ok.
Qed.

Lemma freeze_thaw_witness :
  let le := mk_thaw (mk_frozen 7 300 1 2 5 (-1) 120 2 3 [NUL; NUL; NUL; NUL])
    (Some (bs "abc")) [4; -5; 0] in
  exists b, freeze (W:=unit) (replicate 43 NUL) le 43 = ret b /\
    thaw1 (W:=unit) b = ret (th_fz le) /\
    thaw2 (W:=unit) (zdrop sizeof_frozen b) (th_fz le) (43 - 32) = ret (canon le).
Proof.
  apply (freeze_thaw (replicate 43 NUL) (mk_thaw (mk_frozen 7 300 1 2 5 (-1) 120 2 3
    [NUL; NUL; NUL; NUL]) (Some (bs "abc")) [4; -5; 0])); [| reflexivity].
  unfold wf_entry, wf_frozen, is_u, is_s. cbn. split_and!; try lia; try done.
  - repeat constructor; lia.
  - intros _. eexists. split; [reflexivity | vm_compute; congruence].
Defined.

(** C23: thaw then freeze is byte-exact.  Whatever bytes thaw1 and thaw2 accept
    (the size asserted to be the one the header announces), freezing the record
    again writes those very bytes, padding included. *)
Theorem thaw_freeze b fz le buf w1 w2 :
  thaw1 (W:=unit) b = (w1, Ok fz) ->
  thaw2 (W:=unit) (zdrop sizeof_frozen b) fz (frozen_size fz - sizeof_frozen) = (w2, Ok le) ->
  zlen buf = frozen_size fz ->
  freeze (W:=unit) buf le (frozen_size fz) = ret (ztake (frozen_size fz) b).
Proof.
  intros H1 H2 Hb. apply thaw1_inv in H1 as (Hf & E1 & Hl & _).
  apply thaw2_inv in H2 as (_ & Efz & Hwf & _ & Hsz & E2); [| done]. subst fz.
  rewrite freeze_ok by done. f_equal. unfold entry_bytes. rewrite <- E2, E1.
  unfold sizeof_frozen in *. pose proof (frozen_size_val _ Hf). destruct Hwf as (_ & ? & ? & _).
  replace (frozen_size (th_fz le)) with (32 + (frozen_size (th_fz le) - 32)) at 2 by lia.
  by rewrite ztake_add by lia.
Qed.

Lemma thaw_freeze_witness :
  let fz := mk_frozen 7 300 1 2 5 (-1) 120 1 2 [NUL; NUL; NUL; NUL] in
  let b := frozen_bytes fz ++ le_bytes 4 (-9) ++ bs "ab" in
  freeze (W:=unit) (replicate 38 NUL) (mk_thaw fz (Some (bs "ab" ++ [NUL])) [-9; 0; 0]) 38 = ret b.
Proof.
  apply (thaw_freeze
    (frozen_bytes (mk_frozen 7 300 1 2 5 (-1) 120 1 2 [NUL; NUL; NUL; NUL]) ++
       le_bytes 4 (-9) ++ bs "ab")
    (mk_frozen 7 300 1 2 5 (-1) 120 1 2 [NUL; NUL; NUL; NUL])
    (mk_thaw (mk_frozen 7 300 1 2 5 (-1) 120 1 2 [NUL; NUL; NUL; NUL])
      (Some (bs "ab" ++ [NUL])) [-9; 0; 0]) (replicate 38 NUL) [] []); vm_compute; reflexivity.
Defined.
