(* ===== verification/Binlog.v ===== *)
(** src/src/logd/binlog.c and binlog.h: the per-thread log buffer.

    Each thread owns a [thread_ctx]: its ids, the log descriptor and a PIPE_BUF
    byte buffer [lb] filled up to [lbptr].  A LOGBIN call builds one record in
    place in the buffer; lb_flush writes the buffer to the descriptor.

    The effects of a run are the writes the kernel accepted, as (descriptor,
    bytes).  The kernel's answers are an argument: an answer [w] to a write of
    [amt] bytes makes it return [min w amt], or -1 when [w] is negative. *)
From S2P Require Import Prelude CInt CString Config Fmt.

Abbreviation writes := (run (Z * list byte)).

Record thread_ctx := mk_ctx {
  ctx_pid : Z;
  ctx_logfd : Z;
  ctx_tid : Z;
  lbptr : Z;
  lb : list byte;
  lbcnt : Z;
  ctx_fz_high : Z;
  ctx_fz_low : Z
}.

Definition set_lbptr (c : thread_ctx) (p : Z) : thread_ctx :=
  mk_ctx (ctx_pid c) (ctx_logfd c) (ctx_tid c) p (lb c) (lbcnt c) (ctx_fz_high c) (ctx_fz_low c).
Definition set_lb (c : thread_ctx) (m : list byte) : thread_ctx :=
  mk_ctx (ctx_pid c) (ctx_logfd c) (ctx_tid c) (lbptr c) m (lbcnt c) (ctx_fz_high c) (ctx_fz_low c).
Definition set_frozen (c : thread_ctx) (h l : Z) : thread_ctx :=
  mk_ctx (ctx_pid c) (ctx_logfd c) (ctx_tid c) (lbptr c) (lb c) (lbcnt c) h l.

(** The time gettimeofday(2) reports. *)
Record timeval := mk_tv { tv_sec : Z; tv_usec : Z }.
Definition micros (t : timeval) : Z := tv_sec t * 1000000 + tv_usec t.
Definition normal (t : timeval) : Prop := 0 <= tv_usec t < 1000000.

(** The first statement of bb_disable_log_check is [return 0]. *)
Definition bb_disable_log_check : bool := false.

(** alloc_ctx: [junk] is what malloc(3) leaves in [lb]. *)
Definition alloc_ctx (self pid lfd : Z) (junk : list byte) : thread_ctx :=
  mk_ctx pid lfd (u64 self) 0 junk 0 0 0.

(** write(2) of [amt] bytes, for the answer [w]. *)
Definition kwrite (w amt : Z) : Z := if w <? 0 then -1 else Z.min w amt.

(** The loop of lb_flush. *)
Fixpoint flush_loop (ans : list Z) (fd : Z) (buf : list byte) (ptr start : Z) :
    writes (list Z) :=
  if start <? ptr then
    match ans with
    | [] => stop Pending
    | w :: ans' =>
        let amt := ptr - start in
        let r := kwrite w amt in
        if r =? -1 then stop (Exit 1)
        else
          emit (fd, ztake r (zdrop start buf)) ;;;
          flush_loop ans' fd buf ptr (start + r)
    end
  else ret ans.

Definition lb_flush (c : thread_ctx) (ans : list Z) : writes (thread_ctx * list Z) :=
  if bb_disable_log_check then ret (c, ans) else
  let! ans := flush_loop ans (ctx_logfd c) (lb c) (lbptr c) 0 in
  ret (set_lbptr c 0, ans).

(** Returns the offset in [lb] of the allocated bytes. *)
Definition lb_alloc_bytes (c : thread_ctx) (ans : list Z) (bytes : Z) :
    writes (Z * thread_ctx * list Z) :=
  if PIPE_BUF <? bytes then stop (Exit 1) else
  let! (c, ans) :=
    (if PIPE_BUF - 1 <? lbptr c + bytes then lb_flush c ans else ret (c, ans)) in
  ret (lbptr c, set_lbptr c (lbptr c + bytes), ans).

Definition lb_alloc_entry (c : thread_ctx) (ans : list Z) (arg_len str_len : Z) :
    writes (Z * thread_ctx * list Z) :=
  lb_alloc_bytes c ans (predict_size arg_len str_len).

(** Writes through the record pointer: [th] is its offset in [m]. *)
Definition SETARG (m : list byte) (th arg val : Z) : writes (list byte) :=
  store m (th + sizeof_frozen + (arg - 1) * sizeof_int) (le_bytes 4 val).

Definition underscore_lf (b : byte) : byte := if Byte.eqb b LF then "_"%byte else b.

Definition SETSTR (m : list byte) (th : Z) (s : list byte) (slen : Z) :
    writes (list byte) :=
  let! al := load m (th + 25) 1 in
  store m (th + sizeof_frozen + s8 (le_val al) * sizeof_int)
    (underscore_lf <$> ztake slen s).

Definition lb_freeze_current_time (c : thread_ctx) (now : timeval) : thread_ctx :=
  set_frozen c (u64 (tv_sec now)) (u64 (tv_usec now)).
Definition lb_thaw_current_time (c : thread_ctx) : thread_ctx := set_frozen c 0 0.

(** lb_populate: one store per field; the padding is left as it was. *)
Definition lb_populate (c : thread_ctx) (nm : byte) (now : timeval)
    (m : list byte) (th sc rv : Z) : writes (list byte) :=
  let high := if ctx_fz_high c =? 0 then u64 (tv_sec now) else ctx_fz_high c in
  let low := if ctx_fz_low c =? 0 then u64 (tv_usec now) else ctx_fz_low c in
  let! m := store m (th + 24) (le_bytes 1 (char_val nm)) in
  let! m := store m (th + 12) (le_bytes 4 high) in
  let! m := store m (th + 16) (le_bytes 4 low) in
  let! m := store m (th + 8) (le_bytes 4 (ctx_pid c)) in
  let! m := store m (th + 0) (le_bytes 8 (ctx_tid c)) in
  let! m := store m (th + 20) (le_bytes 2 sc) in
  let! m := store m (th + 22) (le_bytes 2 rv) in
  let! m := store m (th + 25) (le_bytes 1 0) in
  store m (th + 26) (le_bytes 2 0).

(** The part of LOGBIN_gen after the allocation: the record is built at [th]. *)
Definition fill_entry (nm : byte) (now : timeval) (c : thread_ctx) (m : list byte)
    (th sc rv i1 i2 i3 num : Z) (s : list byte) (slen : Z) : writes (list byte) :=
  let! m := lb_populate c nm now m th sc rv in
  let! m := store m (th + 25) (le_bytes 1 num) in
  let! m := store m (th + 26) (le_bytes 2 slen) in
  let! m := SETSTR m th s slen in
  let! m := (if 1 <=? num then SETARG m th 1 i1 else ret m) in
  let! m := (if 2 <=? num then SETARG m th 2 i2 else ret m) in
  (if 3 <=? num then SETARG m th 3 i3 else ret m).

(** LOGBIN_gen.  [nm] is prog_name[0], [now] what gettimeofday answers; the
    string is the C string's bytes, [None] for NULL. *)
Definition LOGBIN_gen (nm : byte) (now : timeval) (c : thread_ctx) (ans : list Z)
    (sc rv i1 i2 i3 num : Z) (s : option (list byte)) : writes (thread_ctx * list Z) :=
  if bb_disable_log_check then ret (c, ans) else
  let slen := match s with None => 0 | Some s => s32 (zlen s) end in
  let! (th, c, ans) := lb_alloc_entry c ans num slen in
  let! m := fill_entry nm now c (lb c) th sc rv i1 i2 i3 num (default [] s) slen in
  ret (set_lb c m, ans).

(** A call of a LOGBIN function, as LOGBIN_gen gets it. *)
Definition run_event (sysno : syscall -> Z) (nm : byte) (now : timeval) (e : event)
    (c : thread_ctx) (ans : list Z) : writes (thread_ctx * list Z) :=
  let a i := default 0 (ev_args e !! i) in
  LOGBIN_gen nm now c ans (sysno (ev_sc e)) (ev_rv e) (a 0%nat) (a 1%nat) (a 2%nat)
    (zlen (ev_args e)) (ev_str e).

(** The log calls a thread makes, each with the time it happens at. *)
Fixpoint run_log (sysno : syscall -> Z) (nm : byte) (l : list (log_op * timeval))
    (c : thread_ctx) (ans : list Z) : writes (thread_ctx * list Z) :=
  match l with
  | [] => ret (c, ans)
  | (LFlush, _) :: l' =>
      let! (c, ans) := lb_flush c ans in run_log sysno nm l' c ans
  | (LLog e, now) :: l' =>
      let! (c, ans) := run_event sysno nm now e c ans in run_log sysno nm l' c ans
  end.

(** LOGBINss builds its string in a malloc'd object of [slen] bytes. *)
Definition LOGBINss_string (junk s1 s2 : list byte) : writes (list byte) :=
  let s1len := zlen s1 + 1 in
  let s2len := zlen s2 + 1 in
  let slen := s1len + s2len + 4 in
  let m := ztake slen junk in
  let! a := of_opt (strncpy (Z.to_nat (s1len + 1)) (s1 ++ [NUL])) in
  let! m := store m 0 a in
  let! n := of_opt (strlen m) in
  let! m := store m (Z.of_nat n) (bs "=-=" ++ [NUL]) in
  let! n := of_opt (strlen m) in
  let! m := store m (Z.of_nat n) (s2 ++ [NUL]) in
  of_opt (cstr m).

(** ** lb_flush *)

(** The bytes the kernel took, in order. *)
Definition payload (out : list (Z * list byte)) : list byte := concat (out.*2).

Lemma payload_cons p out : payload (p :: out) = p.2 ++ payload out.
Proof. done. Qed.
Lemma payload_app o1 o2 : payload (o1 ++ o2) = payload o1 ++ payload o2.
Proof. unfold payload. by rewrite fmap_app, concat_app. Qed.
Lemma payload_nil : payload [] = [].
Proof. done. Qed.
#[export] Hint Rewrite payload_nil payload_cons payload_app : bp_run.

Lemma kwrite_range w amt : 0 <= amt -> kwrite w amt = -1 \/ 0 <= kwrite w amt <= amt.
Proof. unfold kwrite. destruct (Z.ltb_spec w 0); lia. Qed.

Lemma flush_step_bytes (buf : list byte) ptr start r :
  0 <= start -> 0 <= r <= ptr - start ->
  ztake (ptr - start) (zdrop start buf) =
  ztake r (zdrop start buf) ++ ztake (ptr - (start + r)) (zdrop (start + r) buf).
Proof.
  intros. replace (ptr - start) with (r + (ptr - (start + r))) by lia.
  rewrite ztake_add, zdrop_zdrop by lia. done.
Qed.

(** Whatever the kernel answers: what was written is a prefix of what was to be
    written, all of it when the loop returns, and every write went to the log. *)
Lemma flush_loop_prefix ans fd buf ptr start out o :
  flush_loop ans fd buf ptr start = (out, o) -> 0 <= start ->
  payload out `prefix_of` ztake (ptr - start) (zdrop start buf) /\
  Forall (fun p => p.1 = fd) out /\
  (forall ans', o = Ok ans' ->
     payload out = ztake (ptr - start) (zdrop start buf) /\ suffix ans' ans) /\
  (forall c, o = Crash c -> c = Exit 1 \/ c = Pending).
Proof.
  revert start out o; induction ans as [| w ans IH]; intros start out o H Hs;
    cbn [flush_loop] in H; unfold stop, ret in H.
  - destruct (Z.ltb_spec start ptr); simplify_eq; split_and!; try done.
    + apply prefix_nil.
    + intros c [= <-]. by right.
    + apply prefix_nil.
    + intros ? [= <-]. unfold ztake. by replace (Z.to_nat _) with 0%nat by lia.
  - destruct (Z.ltb_spec start ptr) as [Hlt | Hge].
    2:{ simplify_eq; split_and!; try done; [apply prefix_nil |].
        intros ? [= <-]. unfold ztake. by replace (Z.to_nat _) with 0%nat by lia. }
    destruct (kwrite_range w (ptr - start)) as [E | Hr]; [lia | |].
    { rewrite E in H. change (-1 =? -1) with true in H. cbn iota in H.
      simplify_eq. split_and!; try done; [apply prefix_nil |].
      intros c [= <-]. by left. }
    set (r := kwrite w (ptr - start)) in *.
    destruct (Z.eqb_spec r (-1)); [lia |]. simpl in H.
    destruct (flush_loop ans fd buf ptr (start + r)) as [out1 o1] eqn:E1.
    simpl in H. simplify_eq. destruct (IH _ _ _ E1) as (Hp & Hf & Hok & Hc); [lia |].
    rewrite (flush_step_bytes buf ptr start r) by lia. rewrite payload_cons.
    split_and!; [by apply prefix_app | by constructor | | done].
    intros ans' ->. destruct (Hok _ eq_refl) as [-> Hsuf].
    split; [done | by apply suffix_cons_r].
Qed.

(** The loop stops early only before the last byte: at an error, or for want of an
    answer. *)
Lemma flush_loop_stops ans fd buf ptr start out o :
  flush_loop ans fd buf ptr start = (out, o) -> 0 <= start -> ptr <= zlen buf ->
  forall e, o = Crash e ->
    (e = Exit 1 \/ e = Pending) /\ zlen (payload out) < ptr - start /\
    (e = Exit 1 -> Exists (fun w => w < 0) ans).
Proof.
  revert start out o; induction ans as [| w ans IH]; intros start out o H Hs Hb e ->;
    cbn [flush_loop] in H; unfold stop, ret in H; destruct (Z.ltb_spec start ptr) as [Hlt | ?]; try done.
  - simplify_eq. change (zlen (payload [])) with 0. split_and!; [by right | lia | done].
  - unfold kwrite in H. destruct (Z.ltb_spec w 0) as [Hw | Hw].
    + change (-1 =? -1) with true in H. cbn iota in H. simplify_eq. change (zlen (payload [])) with 0.
      split_and!; [by left | lia | intros _; by constructor].
    + destruct (Z.eqb_spec (Z.min w (ptr - start)) (-1)); [lia |]. simpl in H.
      destruct (flush_loop ans fd buf ptr (start + Z.min w (ptr - start))) as [out1 o1] eqn:E1. simplify_eq.
      destruct (IH _ _ _ E1 ltac:(lia) Hb e eq_refl) as (He & Hz & Hx). rewrite payload_cons, zlen_app.
      split_and!; [done | | intros Ee; apply Exists_cons; right; auto].
      cbn [snd]. zl.
Qed.

(** Enough positive answers: the loop returns. *)
Lemma flush_loop_returns ans fd buf ptr start :
  Forall (fun w => 1 <= w) ans -> ptr - start <= zlen ans -> 0 <= start ->
  exists out ans', flush_loop ans fd buf ptr start = (out, Ok ans') /\
    zlen ans - zlen ans' <= Z.max 0 (ptr - start).
Proof.
  intros Hall; revert start; induction Hall as [| w ans Hw Hall IH]; intros start Hn Hs;
    cbn [flush_loop].
  - destruct (Z.ltb_spec start ptr) as [H | H]; [zl | do 2 eexists; split; [done | lia]].
  - destruct (Z.ltb_spec start ptr) as [H | H]; [| do 2 eexists; split; [done | lia]].
    unfold kwrite. destruct (Z.ltb_spec w 0); [lia |].
    destruct (Z.eqb_spec (Z.min w (ptr - start)) (-1)); [lia |].
    destruct (IH (start + Z.min w (ptr - start))) as (out & ans' & E & Hl); [zl | lia |].
    simpl. rewrite E. do 2 eexists. split; [done |]. zl.
Qed.

Lemma lb_flush_inv c ans out c' ans' :
  lb_flush c ans = (out, Ok (c', ans')) ->
  payload out = ztake (lbptr c) (lb c) /\ c' = set_lbptr c 0 /\ suffix ans' ans /\
  Forall (fun p => p.1 = ctx_logfd c) out.
Proof.
  unfold lb_flush, bb_disable_log_check. intros H. inv_run. simplify_eq.
  apply flush_loop_prefix in Hm as (_ & Hf & Hok & _); [| lia].
  destruct (Hok _ eq_refl) as [Hp Hs]. rewrite app_nil_r, Hp, Z.sub_0_r. done.
Qed.

Lemma lb_flush_returns c ans :
  Forall (fun w => 1 <= w) ans -> lbptr c <= zlen ans ->
  exists out ans', lb_flush c ans = (out, Ok (set_lbptr c 0, ans')) /\
    zlen ans - zlen ans' <= Z.max 0 (lbptr c).
Proof.
  intros Hall Hn. unfold lb_flush, bb_disable_log_check.
  destruct (flush_loop_returns ans (ctx_logfd c) (lb c) (lbptr c) 0) as (out & ans' & E & Hl);
    [done | lia | lia |].
  rewrite E. simpl. rewrite app_nil_r. do 2 eexists. split; [done | lia].
Qed.

(** ** Building a record in place *)

Definition ctx_wf (c : thread_ctx) : Prop :=
  zlen (lb c) = PIPE_BUF /\ 0 <= lbptr c <= PIPE_BUF /\
  is_u 64 (ctx_tid c) /\ is_s 32 (ctx_pid c) /\
  is_u 64 (ctx_fz_high c) /\ is_u 64 (ctx_fz_low c).

(** The bytes of an object after a store inside it. *)
Definition upd (h : list byte) (k : Z) (b : list byte) : list byte :=
  ztake k h ++ b ++ zdrop (k + zlen b) h.

Lemma zlen_upd h k b : 0 <= k -> k + zlen b <= zlen h -> zlen (upd h k b) = zlen h.
Proof. intros. unfold upd. pose proof (zlen_nonneg b). zl. Qed.

Lemma store_frame {W} l h r off k b :
  off = zlen l + k -> 0 <= k -> k + zlen b <= zlen h ->
  store (W:=W) (l ++ h ++ r) off b = ret (l ++ upd h k b ++ r).
Proof.
  intros -> ? ?. pose proof (zlen_nonneg b).
  rewrite <- (ztake_zdrop k h) at 1. rewrite <- (ztake_zdrop (zlen b) (zdrop k h)).
  rewrite <- !app_assoc, (app_assoc l).
  rewrite store_mid by zl.
  unfold upd. rewrite zdrop_zdrop, <- !app_assoc by lia. done.
Qed.

(** The header lb_populate and the two length stores leave: everything but the
    padding is overwritten. *)
Lemma header_stores h tid pid high low sc rv nm num slen :
  zlen h = 32 ->
  upd (upd (upd (upd (upd (upd (upd (upd (upd (upd (upd h
    24 (le_bytes 1 nm)) 12 (le_bytes 4 high)) 16 (le_bytes 4 low)) 8 (le_bytes 4 pid))
    0 (le_bytes 8 tid)) 20 (le_bytes 2 sc)) 22 (le_bytes 2 rv)) 25 (le_bytes 1 0))
    26 (le_bytes 2 0)) 25 (le_bytes 1 num)) 26 (le_bytes 2 slen) =
  frozen_bytes (mk_frozen tid pid high low sc rv nm num slen (zdrop 28 h)).
Proof.
  unfold zlen. intros H. assert (length h = 32%nat) as Hl by lia. clear H.
  do 32 (destruct h as [| ? h]; [discriminate Hl |]). destruct h; [| discriminate Hl].
  reflexivity.
Qed.

(** The argument stores; [t] is the space after the header. *)
Definition arg_stores (num i1 i2 i3 : Z) (t : list byte) : list byte :=
  let t := if 1 <=? num then upd t 0 (le_bytes 4 i1) else t in
  let t := if 2 <=? num then upd t 4 (le_bytes 4 i2) else t in
  if 3 <=? num then upd t 8 (le_bytes 4 i3) else t.

Lemma arg_stores_bytes num i1 i2 i3 ta s :
  0 <= num <= 3 -> zlen ta = 4 * num ->
  arg_stores num i1 i2 i3 (ta ++ s) = args_bytes (ztake num [i1; i2; i3]) ++ s.
Proof.
  unfold zlen. intros Hn H. assert (length ta = Z.to_nat (4 * num)) as Hl by lia. clear H.
  assert (num = 0 \/ num = 1 \/ num = 2 \/ num = 3) as [-> | [-> | [-> | ->]]] by lia;
    vm_compute in Hl;
    repeat (destruct ta as [| ? ta]; try discriminate Hl); reflexivity.
Qed.

Lemma upd_tail ta ts s : zlen s = zlen ts -> upd (ta ++ ts) (zlen ta) s = ta ++ s.
Proof.
  intros E. unfold upd. rewrite ztake_app_exact by done.
  rewrite zdrop_app_ge by (pose proof (zlen_nonneg s); lia).
  rewrite zdrop_all by lia. by rewrite app_nil_r.
Qed.

(** The record a LOGBIN call stands for; [pad] is what the padding holds. *)
Definition log_entry (nm : byte) (now : timeval) (c : thread_ctx)
    (sc rv i1 i2 i3 num : Z) (s : option (list byte)) (pad : list byte) : logentry_thaw :=
  mk_thaw
    (mk_frozen (ctx_tid c) (u32 (ctx_pid c))
      (u32 (if ctx_fz_high c =? 0 then u64 (tv_sec now) else ctx_fz_high c))
      (u32 (if ctx_fz_low c =? 0 then u64 (tv_usec now) else ctx_fz_low c))
      (s16 sc) (s16 rv) (char_val nm) num (zlen (default [] s)) pad)
    (Some ((underscore_lf <$> default [] s) ++ [NUL]))
    [s32 i1; s32 i2; s32 i3].

Definition record_size (num : Z) (s : option (list byte)) : Z :=
  32 + 4 * num + zlen (default [] s).

Lemma log_entry_wf nm now c sc rv i1 i2 i3 num s pad :
  ctx_wf c -> 0 <= num <= 3 -> record_size num s <= PIPE_BUF -> zlen pad = 4 ->
  wf_entry (log_entry nm now c sc rv i1 i2 i3 num s pad) /\
  frozen_size (th_fz (log_entry nm now c sc rv i1 i2 i3 num s pad)) = record_size num s /\
  entry_str (log_entry nm now c sc rv i1 i2 i3 num s pad) =
    (underscore_lf <$> default [] s).
Proof.
  intros (_&_&?&?&?&?) Hn Hz Hp. unfold record_size, PIPE_BUF in *.
  pose proof (zlen_nonneg (default [] s)).
  assert (wf_frozen (th_fz (log_entry nm now c sc rv i1 i2 i3 num s pad))) as Hf.
  { unfold wf_frozen, log_entry. simpl. split_and!; try done;
      try (by apply wrapu_range); try (by apply wraps_range); unfold is_s; lia. }
  split_and!.
  - unfold wf_entry. split; [done |]. unfold log_entry. cbn [th_fz th_arg th_str fz_arg_len fz_str_len].
    split_and!; try done; try lia.
    + repeat constructor; by apply wraps_range.
    + intros _. eexists. split; [done |]. zl.
  - rewrite frozen_size_val by done. unfold log_entry. simpl. lia.
  - unfold entry_str, log_entry. cbn [th_fz th_str fz_str_len]. simpl default.
    rewrite ztake_app_exact; [done |]. by rewrite zlen_fmap.
Qed.

Lemma args_bytes_s32 l : args_bytes (s32 <$> l) = args_bytes l.
Proof.
  induction l as [| a l IH]; [done |]. rewrite fmap_cons, !args_bytes_cons, IH.
  by rewrite (le_bytes_wraps 4 32).
Qed.

Lemma log_entry_bytes nm now c sc rv i1 i2 i3 num s pad :
  0 <= num <= 3 ->
  frozen_bytes (mk_frozen (ctx_tid c) (ctx_pid c)
    (if ctx_fz_high c =? 0 then u64 (tv_sec now) else ctx_fz_high c)
    (if ctx_fz_low c =? 0 then u64 (tv_usec now) else ctx_fz_low c)
    sc rv (char_val nm) num (zlen (default [] s)) pad) ++
  args_bytes (ztake num [i1; i2; i3]) ++ (underscore_lf <$> default [] s) =
  entry_bytes (log_entry nm now c sc rv i1 i2 i3 num s pad).
Proof.
  intros Hn. unfold entry_bytes, entry_args, entry_str, log_entry.
  cbn [th_fz th_str th_arg fz_str_len fz_arg_len]. simpl default.
  rewrite ztake_app_exact by (by rewrite zlen_fmap).
  change [s32 i1; s32 i2; s32 i3] with (s32 <$> [i1; i2; i3]).
  unfold ztake. rewrite <- fmap_take, args_bytes_s32. f_equal.
  unfold frozen_bytes. cbn [fz_tid fz_pid fz_cycle_high fz_cycle_low fz_sc fz_rv fz_nm
    fz_arg_len fz_str_len fz_padding].
  by rewrite !(le_bytes_wrapu 4 32), !(le_bytes_wraps 2 16).
Qed.

(** One store of the header part, the frame around it made explicit. *)
Ltac hdr_store k :=
  erewrite bind_ok_nil by
    (apply (store_frame _ _ _ _ k); [lia | lia | repeat rewrite zlen_upd; rewrite ?zlen_le_bytes; lia]).

Lemma set_args_ok l h ta s r num i1 i2 i3 :
  zlen h = 32 -> 0 <= num <= 3 -> zlen ta = 4 * num ->
  (let! m := (if 1 <=? num then SETARG (l ++ h ++ (ta ++ s) ++ r) (zlen l) 1 i1
              else ret (l ++ h ++ (ta ++ s) ++ r)) in
   let! m := (if 2 <=? num then SETARG m (zlen l) 2 i2 else ret m) in
   (if 3 <=? num then SETARG m (zlen l) 3 i3 else ret m)) =
  ret (l ++ h ++ arg_stores num i1 i2 i3 (ta ++ s) ++ r).
Proof.
  intros Hh Hn Ht. pose proof (zlen_nonneg s). unfold SETARG, arg_stores, sizeof_frozen, sizeof_int.
  rewrite !(app_assoc l h).
  assert (forall t k i, zlen t = 4 * num + zlen s -> 0 <= k -> k + 4 <= 4 * num ->
    store (W:=Z * list byte) ((l ++ h) ++ t ++ r) (zlen l + 32 + k) (le_bytes 4 i) =
    ret ((l ++ h) ++ upd t k (le_bytes 4 i) ++ r) /\
    zlen (upd t k (le_bytes 4 i)) = 4 * num + zlen s) as K.
  { intros t k i ???. split; [apply store_frame | rewrite zlen_upd];
      rewrite ?zlen_app, ?zlen_le_bytes; lia. }
  assert (zlen (ta ++ s) = 4 * num + zlen s) as H0 by (rewrite zlen_app; lia).
  destruct (Z.leb_spec 1 num); [| destruct (Z.leb_spec 2 num), (Z.leb_spec 3 num); try lia;
    by rewrite !bind_ret_l].
  destruct (K (ta ++ s) 0 i1) as [E1 L1]; [done | lia | lia |].
  change ((1 - 1) * 4) with 0. rewrite E1, bind_ret_l.
  destruct (Z.leb_spec 2 num); [| destruct (Z.leb_spec 3 num); [lia | by rewrite bind_ret_l]].
  destruct (K (upd (ta ++ s) 0 (le_bytes 4 i1)) 4 i2) as [E2 L2]; [done | lia | lia |].
  change ((2 - 1) * 4) with 4. rewrite E2, bind_ret_l.
  destruct (Z.leb_spec 3 num); [| done].
  destruct (K (upd (upd (ta ++ s) 0 (le_bytes 4 i1)) 4 (le_bytes 4 i2)) 8 i3) as [E3 L3];
    [done | lia | lia |].
  change ((3 - 1) * 4) with 8. by rewrite E3.
Qed.

Lemma frozen_bytes_arg_len f : fld (frozen_bytes f) 25 1 = le_bytes 1 (fz_arg_len f).
Proof. unfold frozen_bytes. fld_norm. done. Qed.

Lemma setstr_ok l h ta ts r s num :
  zlen h = 32 -> fld h 25 1 = le_bytes 1 num -> 0 <= num <= 3 ->
  zlen ta = 4 * num -> zlen ts = zlen s ->
  SETSTR (l ++ h ++ (ta ++ ts) ++ r) (zlen l) s (zlen s) =
  ret (l ++ h ++ (ta ++ (underscore_lf <$> s)) ++ r).
Proof.
  intros Hh Hf Hn Hta Hts. unfold SETSTR, sizeof_frozen, sizeof_int.
  pose proof (zlen_nonneg ts). pose proof (zlen_nonneg r). pose proof (zlen_nonneg l).
  rewrite load_ok by zl.
  rewrite bind_ret_l, zdrop_app_ge by lia.
  replace (zlen l + 25 - zlen l) with 25 by lia.
  rewrite zdrop_app_le, ztake_app_le by (rewrite ?zlen_zdrop; lia).
  change (ztake 1 (zdrop 25 h)) with (fld h 25 1). rewrite Hf, (le_val_s 1 8) by (done || unfold is_s; lia).
  rewrite ztake_all by lia. rewrite (app_assoc l h).
  rewrite (store_frame (l ++ h) (ta ++ ts) r _ (4 * num));
    [| rewrite zlen_app; lia | lia | rewrite zlen_app, zlen_fmap; lia].
  rewrite <- Hta, upd_tail by (by rewrite zlen_fmap). by rewrite <- app_assoc.
Qed.

Lemma fill_entry_ok nm now c m th sc rv i1 i2 i3 num s :
  0 <= num <= 3 -> zlen s < 32768 -> 0 <= th -> th + (32 + 4 * num + zlen s) <= zlen m ->
  exists pad, zlen pad = 4 /\
    fill_entry nm now c m th sc rv i1 i2 i3 num s (zlen s) =
    ret (ztake th m ++ entry_bytes (log_entry nm now c sc rv i1 i2 i3 num (Some s) pad) ++
         zdrop (th + (32 + 4 * num + zlen s)) m).
Proof.
  intros Hn Hs Hth Hm. pose proof (zlen_nonneg s) as Hs0.
  set (l := ztake th m). set (h := ztake 32 (zdrop th m)).
  set (ta := ztake (4 * num) (zdrop (th + 32) m)).
  set (ts := ztake (zlen s) (zdrop (th + 32 + 4 * num) m)).
  set (r := zdrop (th + (32 + 4 * num + zlen s)) m).
  assert (m = l ++ h ++ (ta ++ ts) ++ r) as Em.
  { unfold l, h, ta, ts, r. rewrite <- (ztake_zdrop th m) at 1. f_equal.
    rewrite <- (ztake_zdrop 32 (zdrop th m)) at 1. f_equal. rewrite zdrop_zdrop by lia.
    rewrite <- (ztake_zdrop (4 * num) (zdrop (th + 32) m)) at 1. rewrite <- app_assoc. f_equal.
    rewrite zdrop_zdrop by lia.
    rewrite <- (ztake_zdrop (zlen s) (zdrop (th + 32 + 4 * num) m)) at 1. f_equal.
    rewrite zdrop_zdrop by lia. f_equal. lia. }
  assert (zlen l = th) as Hl by (unfold l; zl).
  assert (zlen h = 32) as Hh by (unfold h; zl).
  assert (zlen ta = 4 * num) as Hta by (unfold ta; zl).
  assert (zlen ts = zlen s) as Hts by (unfold ts; zl).
  exists (zdrop 28 h). split; [zl |].
  rewrite Em. unfold fill_entry, lb_populate. rewrite !bind_assoc.
  hdr_store 24. rewrite bind_assoc. hdr_store 12. rewrite bind_assoc. hdr_store 16.
  rewrite bind_assoc. hdr_store 8. rewrite bind_assoc. hdr_store 0. rewrite bind_assoc.
  hdr_store 20. rewrite bind_assoc. hdr_store 22. rewrite bind_assoc. hdr_store 25.
  hdr_store 26. hdr_store 25. hdr_store 26.
  rewrite header_stores by done. set (f := mk_frozen _ _ _ _ _ _ _ _ _ _).
  assert (zlen (frozen_bytes f) = 32) as Hf.
  { unfold frozen_bytes, f. cbn [fz_tid fz_pid fz_cycle_high fz_cycle_low fz_sc fz_rv fz_nm
      fz_arg_len fz_str_len fz_padding]. autorewrite with bp_len. lia. }
  rewrite <- Hl. erewrite bind_ok_nil
    by (apply (setstr_ok _ _ _ _ _ _ num); try done; apply frozen_bytes_arg_len).
  rewrite set_args_ok, arg_stores_bytes by done. f_equal. f_equal.
  rewrite <- (log_entry_bytes _ _ _ _ _ _ _ _ _ (Some s)) by done. simpl default. fold f.
  by rewrite <- !app_assoc.
Qed.

(** ** LOGBIN_gen *)

(** What is logged but not yet written. *)
Definition buffered (c : thread_ctx) : list byte := ztake (lbptr c) (lb c).

(** The ids and the frozen clock, which logging does not change. *)
Definition same_ids (c c' : thread_ctx) : Prop :=
  ctx_pid c' = ctx_pid c /\ ctx_tid c' = ctx_tid c /\ ctx_logfd c' = ctx_logfd c /\
  ctx_fz_high c' = ctx_fz_high c /\ ctx_fz_low c' = ctx_fz_low c.

Lemma same_ids_refl c : same_ids c c.
Proof. by repeat split. Qed.
Lemma same_ids_trans a b c : same_ids a b -> same_ids b c -> same_ids a c.
Proof. unfold same_ids. intuition congruence. Qed.
#[export] Hint Resolve same_ids_refl : bp.

Lemma log_entry_same nm now c c' sc rv i1 i2 i3 num s pad :
  same_ids c c' ->
  log_entry nm now c' sc rv i1 i2 i3 num s pad = log_entry nm now c sc rv i1 i2 i3 num s pad.
Proof. intros (E1&E2&E3&E4&E5). unfold log_entry. by rewrite E1, E2, E4, E5. Qed.

Lemma record_size_predict num s :
  0 <= num <= 3 -> record_size num s <= PIPE_BUF ->
  s32 (zlen (default [] s)) = zlen (default [] s) /\
  predict_size num (zlen (default [] s)) = record_size num s.
Proof.
  unfold record_size, PIPE_BUF. intros. pose proof (zlen_nonneg (default [] s)).
  split; [apply s32_small; lia |]. apply predict_size_val; unfold is_s; lia.
Qed.

(** Allocation, whether or not it had to flush. *)
Lemma lb_alloc_inv c ans bytes out th c' ans' :
  ctx_wf c -> 0 <= bytes ->
  lb_alloc_bytes c ans bytes = (out, Ok (th, c', ans')) ->
  ctx_wf c' /\ same_ids c c' /\ suffix ans' ans /\
  lb c' = lb c /\ lbptr c' = th + bytes /\ 0 <= th /\ th + bytes <= PIPE_BUF /\
  payload out ++ ztake th (lb c) = buffered c.
Proof.
  intros (H1&H2&H3&H4&H5&H6) Hb H. unfold lb_alloc_bytes in H.
  destruct (Z.ltb_spec PIPE_BUF bytes) as [Hgt | Hle]; [by inv_run |].
  inv_run. destruct a as [c1 ans1]. inv_run. simplify_eq. rewrite app_nil_r.
  destruct (Z.ltb_spec (PIPE_BUF - 1) (lbptr c + bytes)) as [Hf | Hf].
  - apply lb_flush_inv in Hm as (Hp & -> & Hs & _). simpl. unfold buffered. rewrite Hp.
    rewrite ztake_0, app_nil_r.
    split_and!; try done; try (simpl; lia); unfold ctx_wf; simpl; split_and!; done || lia.
  - inv_run. simplify_eq. simpl.
    split_and!; try done; try (simpl; lia); unfold ctx_wf; simpl; split_and!; done || lia.
Qed.

Lemma LOGBIN_gen_stream nm now c ans sc rv i1 i2 i3 num s out c' ans' :
  ctx_wf c -> 0 <= num <= 3 -> record_size num s <= PIPE_BUF ->
  LOGBIN_gen nm now c ans sc rv i1 i2 i3 num s = (out, Ok (c', ans')) ->
  ctx_wf c' /\ same_ids c c' /\ suffix ans' ans /\
  exists pad, zlen pad = 4 /\
    payload out ++ buffered c' =
    buffered c ++ entry_bytes (log_entry nm now c sc rv i1 i2 i3 num s pad).
Proof.
  intros Hwf Hn Hz H. pose proof (zlen_nonneg (default [] s)) as Hs0.
  destruct (record_size_predict num s Hn Hz) as [Es32 Epred].
  unfold LOGBIN_gen, bb_disable_log_check in H.
  replace (match s with Some s => s32 (zlen s) | None => 0 end)
    with (zlen (default [] s)) in H by (destruct s; [symmetry; exact Es32 | done]).
  inv_run. destruct a as [[th c1] ans1]. inv_run. simplify_eq.
  unfold lb_alloc_entry in Hm. rewrite Epred in Hm.
  assert (0 <= record_size num s) by (unfold record_size; lia).
  apply lb_alloc_inv in Hm as (Hwf1 & Hid & Hsuf & Elb & Eptr & Hth & Hfit & Hp); [| done | done].
  pose proof Hwf as (Hlen & _). pose proof Hwf1 as (Hlen1 & Hptr1 & Hrest1).
  unfold record_size, PIPE_BUF in *.
  destruct (fill_entry_ok nm now c1 (lb c1) th sc rv i1 i2 i3 num (default [] s))
    as (pad & Hpad & E); [lia | lia | lia | lia |].
  rewrite E in Hm0. apply ret_inv in Hm0 as [<- ->]. rewrite app_nil_r.
  assert (log_entry nm now c1 sc rv i1 i2 i3 num (Some (default [] s)) pad =
    log_entry nm now c sc rv i1 i2 i3 num s pad) as Ee.
  { rewrite (log_entry_same _ _ c c1) by done. destruct s; done. }
  rewrite Ee in *. clear E.
  destruct (log_entry_wf nm now c sc rv i1 i2 i3 num s pad) as (Hwe & Hsz & _);
    [done | done | unfold record_size, PIPE_BUF; lia | done |].
  pose proof (zlen_entry_bytes _ Hwe) as Hel. rewrite Hsz in Hel. unfold record_size in Hel.
  split_and!; [| done | done |].
  { unfold ctx_wf, PIPE_BUF. cbn [set_lb lb lbptr ctx_tid ctx_pid ctx_fz_high ctx_fz_low].
    split_and!; try done; try lia; [| apply Hrest1 ..]. zl. }
  exists pad. split; [done |]. unfold buffered at 1. cbn [set_lb lb lbptr].
  rewrite Eptr, Elb, app_assoc, ztake_app_exact by zl.
  by rewrite app_assoc, Hp.
Qed.

(** Answers that are all positive, [n] of them: enough for [n] bytes. *)
Definition kernel_takes (ans : list Z) (n : Z) : Prop :=
  Forall (fun w => 1 <= w) ans /\ n <= zlen ans.

Lemma kernel_takes_mono ans n m : kernel_takes ans n -> m <= n -> kernel_takes ans m.
Proof. intros [? ?] ?. split; [done | lia]. Qed.

Lemma kernel_takes_suffix ans ans' n k :
  kernel_takes ans n -> suffix ans' ans -> zlen ans - zlen ans' <= k ->
  kernel_takes ans' (n - k).
Proof.
  intros [Hall Hn] [l ->] Hk. split; [by apply Forall_app in Hall as [_ ?] | lia].
Qed.

(** A call that fits returns once the flush it may need does. *)
Lemma LOGBIN_gen_flush nm now c ans sc rv i1 i2 i3 num s outf ansf :
  ctx_wf c -> 0 <= num <= 3 -> record_size num s <= PIPE_BUF ->
  lb_flush c ans = (outf, Ok (set_lbptr c 0, ansf)) ->
  exists c', LOGBIN_gen nm now c ans sc rv i1 i2 i3 num s = ([], Ok (c', ans)) \/
    LOGBIN_gen nm now c ans sc rv i1 i2 i3 num s = (outf, Ok (c', ansf)).
Proof.
  intros Hwf Hn Hz Ef. pose proof (zlen_nonneg (default [] s)) as Hs0.
  destruct (record_size_predict num s Hn Hz) as [Es32 Epred].
  pose proof Hwf as (Hlen & Hptr & _).
  unfold LOGBIN_gen, bb_disable_log_check, lb_alloc_entry, lb_alloc_bytes.
  replace (match s with Some s => s32 (zlen s) | None => 0 end)
    with (zlen (default [] s)) by (destruct s; [symmetry; exact Es32 | done]).
  rewrite Epred. destruct (Z.ltb_spec PIPE_BUF (record_size num s)); [lia |].
  assert (forall c1, 0 <= lbptr c1 -> lb c1 = lb c -> lbptr c1 + record_size num s <= PIPE_BUF ->
    exists m, fill_entry nm now (set_lbptr c1 (lbptr c1 + record_size num s)) (lb c1)
      (lbptr c1) sc rv i1 i2 i3 num (default [] s) (zlen (default [] s)) = ret m) as K.
  { intros c1 ? E1 ?. unfold record_size, PIPE_BUF in *.
    destruct (fill_entry_ok nm now (set_lbptr c1 (lbptr c1 + (32 + 4 * num + zlen (default [] s))))
      (lb c1) (lbptr c1) sc rv i1 i2 i3 num (default [] s)) as (pad & _ & E);
      [lia | lia | lia | rewrite E1; lia | eauto]. }
  destruct (Z.ltb_spec (PIPE_BUF - 1) (lbptr c + record_size num s)).
  - destruct (K (set_lbptr c 0)) as [m Em]; [done | done | simpl; lia |].
    rewrite Ef. simpl. simpl in Em. rewrite Em. simpl. rewrite !app_nil_r.
    eexists. right. reflexivity.
  - destruct (K c) as [m Em]; [lia | done | lia |].
    rewrite bind_ret_l. cbn beta iota. rewrite bind_ret_l. cbn beta iota.
    change (lb (set_lbptr c _)) with (lb c). rewrite Em, bind_ret_l. eexists.
    left. reflexivity.
Qed.

Lemma LOGBIN_gen_returns nm now c ans sc rv i1 i2 i3 num s :
  ctx_wf c -> 0 <= num <= 3 -> record_size num s <= PIPE_BUF ->
  kernel_takes ans PIPE_BUF ->
  exists out c' ans',
    LOGBIN_gen nm now c ans sc rv i1 i2 i3 num s = (out, Ok (c', ans')) /\
    zlen ans - zlen ans' <= PIPE_BUF.
Proof.
  intros Hwf Hn Hz [Hall Hans]. pose proof Hwf as (_ & Hptr & _). unfold PIPE_BUF in *.
  destruct (lb_flush_returns c ans) as (outf & ansf & Ef & Hl); [done | lia |].
  destruct (LOGBIN_gen_flush nm now c ans sc rv i1 i2 i3 num s outf ansf) as (c' & [E | E]);
    try done; do 3 eexists; (split; [exact E | lia]).
Qed.

(** ** Writes that the kernel takes whole *)

Definition takes_whole (ans : list Z) : Prop := Forall (fun w => PIPE_BUF <= w) ans.

Lemma lb_flush_whole c ans :
  ctx_wf c -> takes_whole ans -> 1 <= zlen ans ->
  exists out ans', lb_flush c ans = (out, Ok (set_lbptr c 0, ans')) /\
    zlen ans - zlen ans' <= 1 /\ suffix ans' ans /\
    out = (if lbptr c =? 0 then [] else [(ctx_logfd c, buffered c)]).
Proof.
  intros (_ & Hptr & _) Hall Hn. unfold lb_flush, bb_disable_log_check.
  destruct ans as [| w ans]; [zl |]. apply List.Forall_cons_iff in Hall as [Hw _].
  cbn [flush_loop]. destruct (Z.ltb_spec 0 (lbptr c)) as [H | H].
  - rewrite Z.sub_0_r. unfold kwrite. unfold PIPE_BUF in *.
    destruct (Z.ltb_spec w 0); [lia |]. rewrite Z.min_r by lia.
    destruct (Z.eqb_spec (lbptr c) (-1)); [lia |]. destruct (Z.eqb_spec (lbptr c) 0); [lia |].
    assert (flush_loop ans (ctx_logfd c) (lb c) (lbptr c) (lbptr c) = ret ans) as E.
    { destruct ans; cbn [flush_loop]; destruct (Z.ltb_spec (lbptr c) (lbptr c)); done || lia. }
    rewrite Z.add_0_l, E. do 2 eexists. split; [reflexivity |]. split; [zl |].
    split; [by apply suffix_cons_r | done].
  - destruct (Z.eqb_spec (lbptr c) 0); [| lia]. do 2 eexists. split; [reflexivity |].
    split; [lia | done].
Qed.

Lemma LOGBIN_gen_whole nm now c ans sc rv i1 i2 i3 num s :
  ctx_wf c -> 0 <= num <= 3 -> record_size num s <= PIPE_BUF ->
  takes_whole ans -> 1 <= zlen ans ->
  exists out c' ans',
    LOGBIN_gen nm now c ans sc rv i1 i2 i3 num s = (out, Ok (c', ans')) /\
    zlen ans - zlen ans' <= 1 /\ suffix ans' ans /\
    (out = [] \/ out = [(ctx_logfd c, buffered c)]).
Proof.
  intros Hwf Hn Hz Hall Hans.
  destruct (lb_flush_whole c ans Hwf Hall Hans) as (outf & ansf & Ef & Hl & Hs & Ho).
  destruct (LOGBIN_gen_flush nm now c ans sc rv i1 i2 i3 num s outf ansf) as (c' & [E | E]);
    try done; do 3 eexists; (split; [exact E |]); split_and!; try done; try lia; auto.
  rewrite Ho. destruct (lbptr c =? 0); auto.
Qed.

(** ** A thread's whole log *)

Definition event_fits (e : event) : Prop :=
  zlen (ev_args e) <= 3 /\ record_size (zlen (ev_args e)) (ev_str e) <= PIPE_BUF.

Definition op_fits (o : log_op * timeval) : Prop :=
  match o.1 with LLog e => event_fits e | LFlush => True end.

(** The record an event stands for. *)
Definition event_entry (sysno : syscall -> Z) (nm : byte) (now : timeval)
    (c : thread_ctx) (e : event) (pad : list byte) : logentry_thaw :=
  let a i := default 0 (ev_args e !! i) in
  log_entry nm now c (sysno (ev_sc e)) (ev_rv e) (a 0%nat) (a 1%nat) (a 2%nat)
    (zlen (ev_args e)) (ev_str e) pad.

(** [records c l es]: [es] are the records of the log calls [l], in order. *)
Inductive records (sysno : syscall -> Z) (nm : byte) (c : thread_ctx) :
    list (log_op * timeval) -> list logentry_thaw -> Prop :=
| records_nil : records sysno nm c [] []
| records_flush now l es :
    records sysno nm c l es -> records sysno nm c ((LFlush, now) :: l) es
| records_log e now pad l es :
    zlen pad = 4 -> records sysno nm c l es ->
    records sysno nm c ((LLog e, now) :: l) (event_entry sysno nm now c e pad :: es).

Lemma records_same sysno nm c c' l es :
  same_ids c c' -> records sysno nm c' l es -> records sysno nm c l es.
Proof.
  intros Hid. induction 1 as [| | e now pad l es Hp Hr IH]; try (by constructor).
  unfold event_entry. rewrite (log_entry_same _ _ c c') by done. by constructor.
Qed.

Definition stream_bytes (es : list logentry_thaw) : list byte := concat (entry_bytes <$> es).

Lemma stream_bytes_cons e es : stream_bytes (e :: es) = entry_bytes e ++ stream_bytes es.
Proof. done. Qed.
Lemma stream_bytes_app a b : stream_bytes (a ++ b) = stream_bytes a ++ stream_bytes b.
Proof. unfold stream_bytes. by rewrite fmap_app, concat_app. Qed.

Lemma records_wf sysno nm c l es :
  ctx_wf c -> Forall op_fits l -> records sysno nm c l es -> Forall wf_entry es.
Proof.
  intros Hwf Hf Hr. induction Hr as [| now l es Hr IH | e now pad l es Hp Hr IH];
    [constructor | inversion Hf; auto |].
  inversion Hf as [| ? ? Hop Hfl]; subst. destruct Hop as [Hn Hz]. constructor; [| auto].
  apply log_entry_wf; try done. split; [apply zlen_nonneg | done].
Qed.

Lemma run_log_stream sysno nm l c ans out c' ans' :
  ctx_wf c -> Forall op_fits l ->
  run_log sysno nm l c ans = (out, Ok (c', ans')) ->
  exists es, records sysno nm c l es /\ ctx_wf c' /\ same_ids c c' /\
    payload out ++ buffered c' = buffered c ++ stream_bytes es.
Proof.
  intros Hwf Hf. revert c ans out Hwf.
  induction Hf as [| [op now] l Hop Hf IH]; intros c ans out Hwf H; cbn [run_log] in H.
  { inv_run. simplify_eq. exists []. rewrite app_nil_r. split_and!; eauto using records.
    apply same_ids_refl. }
  destruct op as [e |]; inv_run; destruct a as [c1 ans1].
  - destruct Hop as [Hn Hz]. simpl in Hn, Hz.
    apply LOGBIN_gen_stream in Hm as (Hwf1 & Hid & _ & pad & Hpad & Hp);
      [| done | split; [apply zlen_nonneg | done] | done].
    apply IH in H as (es & Hr & Hwf' & Hid' & Hp'); [| done].
    exists (event_entry sysno nm now c e pad :: es). split_and!; try done.
    + constructor; [done |]. by eapply records_same.
    + by eapply same_ids_trans.
    + rewrite payload_app, <- app_assoc, Hp', app_assoc, Hp, <- app_assoc. done.
  - apply lb_flush_inv in Hm as (Hp & -> & _ & _).
    apply IH in H as (es & Hr & Hwf' & Hid' & Hp').
    + exists es. split_and!; try done.
      * constructor. eapply records_same; [| exact Hr]. by repeat split.
      * rewrite payload_app, <- app_assoc, Hp', Hp. done.
    + destruct Hwf as (?&?&?). unfold ctx_wf. simpl. split_and!; try done; apply H2.
Qed.

Lemma suffix_zlen {A} (l k : list A) : suffix l k -> zlen l <= zlen k.
Proof. intros [x ->]. zl. Qed.

Lemma run_log_total sysno nm l c ans :
  ctx_wf c -> Forall op_fits l -> kernel_takes ans (PIPE_BUF * zlen l) ->
  exists out c' ans', run_log sysno nm l c ans = (out, Ok (c', ans')).
Proof.
  intros Hwf Hf. revert c ans Hwf.
  induction Hf as [| [op now] l Hop Hf IH]; intros c ans Hwf Hk; cbn [run_log];
    [by do 3 eexists |].
  rewrite zlen_cons in Hk. pose proof (zlen_nonneg l).
  assert (kernel_takes ans PIPE_BUF) as Hk1
    by (eapply kernel_takes_mono; [done | unfold PIPE_BUF; lia]).
  assert (forall c1 ans1, ctx_wf c1 -> suffix ans1 ans -> zlen ans - zlen ans1 <= PIPE_BUF ->
    exists out c' ans', run_log sysno nm l c1 ans1 = (out, Ok (c', ans'))) as K.
  { intros c1 ans1 Hwf1 Hs Hle. apply IH; [done |].
    eapply kernel_takes_mono; [exact (kernel_takes_suffix _ _ _ _ Hk Hs Hle) | unfold PIPE_BUF; lia]. }
  destruct op as [e |].
  - destruct Hop as [Hn Hz]. simpl in Hn, Hz.
    assert (0 <= zlen (ev_args e) <= 3) by (split; [apply zlen_nonneg | done]).
    destruct (LOGBIN_gen_returns nm now c ans (sysno (ev_sc e)) (ev_rv e)
      (default 0 (ev_args e !! 0%nat)) (default 0 (ev_args e !! 1%nat))
      (default 0 (ev_args e !! 2%nat)) (zlen (ev_args e)) (ev_str e))
      as (o1 & c1 & ans1 & E & Hle); try done.
    pose proof E as E'. apply LOGBIN_gen_stream in E' as (Hwf1 & _ & Hs & _); try done.
    destruct (K c1 ans1) as (o2 & c2 & ans2 & E2); try done.
    unfold run_event. cbv beta zeta. rewrite E. simpl. rewrite E2. by do 3 eexists.
  - pose proof Hwf as (_ & Hp & Hrest). destruct Hk1 as [Hall Hn].
    destruct (lb_flush_returns c ans) as (o1 & ans1 & E & Hle); [done | lia |].
    pose proof E as E'. apply lb_flush_inv in E' as (_ & _ & Hs & _).
    destruct (K (set_lbptr c 0) ans1) as (o2 & c2 & ans2 & E2); [| done | lia |].
    { unfold ctx_wf. simpl. destruct Hwf as (?&?&?&?&?&?). split_and!; done || lia. }
    rewrite E. simpl. rewrite E2. by do 3 eexists.
Qed.

Lemma alloc_ctx_wf self pid lfd junk :
  zlen junk = PIPE_BUF -> is_s 32 pid -> ctx_wf (alloc_ctx self pid lfd junk).
Proof.
  intros Hj Hp. unfold ctx_wf, alloc_ctx. simpl. unfold PIPE_BUF in *.
  split_and!; try done; try lia. by apply wrapu_range.
Qed.

Lemma records_snoc_flush sysno nm c l now es :
  records sysno nm c (l ++ [(LFlush, now)]) es -> records sysno nm c l es.
Proof.
  remember (l ++ [(LFlush, now)]) as k eqn:Ek. intros Hr. revert l Ek.
  induction Hr as [| now' k es Hr IH | e now' pad k es Hpad Hr IH]; intros l Ek.
  - by destruct l.
  - destruct l as [| o l]; simplify_list_eq; [done |]. constructor. by apply IH.
  - destruct l as [| o l]; simplify_list_eq. constructor; [done |]. by apply IH.
Qed.

Lemma run_log_flushed sysno nm l now c ans out c' ans' :
  run_log sysno nm (l ++ [(LFlush, now)]) c ans = (out, Ok (c', ans')) -> buffered c' = [].
Proof.
  revert c ans out. induction l as [| [[e |] t] l IH]; intros c ans out E;
    cbn [app run_log] in E; inv_run; destruct a as [c1 ans1]; inv_run.
  - simplify_eq. apply lb_flush_inv in Hm as (_ & -> & _). done.
  - exact (IH _ _ _ E).
  - exact (IH _ _ _ E).
Qed.

Lemma log_stream sysno nm c l now ans :
  ctx_wf c -> Forall op_fits l -> kernel_takes ans (PIPE_BUF * (zlen l + 1)) ->
  exists out c' ans' es,
    run_log sysno nm (l ++ [(LFlush, now)]) c ans = (out, Ok (c', ans')) /\
    records sysno nm c l es /\ Forall wf_entry es /\
    payload out = buffered c ++ stream_bytes es.
Proof.
  intros Hwf Hf Hk.
  assert (Forall op_fits (l ++ [(LFlush, now)])) as Hf1
    by (apply Forall_app; split; [done | by repeat constructor]).
  destruct (run_log_total sysno nm (l ++ [(LFlush, now)]) c ans) as (out & c' & ans' & E);
    [done | done | by rewrite zlen_app |].
  destruct (run_log_stream _ _ _ _ _ _ _ _ Hwf Hf1 E) as (es & Hr & _ & _ & Hpay).
  apply records_snoc_flush in Hr. apply run_log_flushed in E as Hb.
  rewrite Hb, app_nil_r in Hpay. exists out, c', ans', es.
  split_and!; [done | done | exact (records_wf _ _ _ _ _ Hwf Hf Hr) | done].
Qed.

(** ** LOGBINss *)

Lemma strncpy_cstr n s r :
  nul_free s -> (length s < n)%nat ->
  strncpy n (s ++ NUL :: r) = Some (s ++ replicate (n - length s) NUL).
Proof.
  intros Hs. revert n. induction Hs as [| b s Hb Hs IH]; intros n Hn;
    (destruct n as [| n]; [simpl in Hn; lia |]); simpl.
  - done.
  - rewrite byte_eqb_false by done. rewrite IH by (simpl in Hn; lia). done.
Qed.

Lemma nul_free_bs_sep : nul_free (bs "=-=").
Proof. repeat constructor; done. Qed.

(** ** Properties *)

(** C4: Logging is a faithful stream.  From a fresh context, any sequence of
    LOGBIN calls and flushes whose records fit the buffer, ended by a flush,
    returns as soon as the kernel keeps taking bytes, and the bytes written to
    the log descriptor are exactly the wire format of the records of those calls,
    in order, none lost, split or duplicated at the buffer's boundary. *)
Theorem log_stream_faithful sysno nm self pid lfd junk l now ans :
  zlen junk = PIPE_BUF -> is_s 32 pid -> Forall op_fits l ->
  kernel_takes ans (PIPE_BUF * (zlen l + 1)) ->
  exists out c' ans' es,
    run_log sysno nm (l ++ [(LFlush, now)]) (alloc_ctx self pid lfd junk) ans =
      (out, Ok (c', ans')) /\
    records sysno nm (alloc_ctx self pid lfd junk) l es /\ Forall wf_entry es /\
    payload out = stream_bytes es.
Proof.
  intros Hj Hp Hf Hk. by apply (log_stream sysno nm _ l now ans (alloc_ctx_wf self pid lfd junk Hj Hp)).
Qed.

Lemma log_stream_faithful_witness :
  let c := alloc_ctx 7 300 79 (replicate 4096 NUL) in
  exists out c' ans' es,
    run_log (fun _ => 5) "x"%byte
      ([(LLog (mk_event SYS_OPEN 3 [0] (Some (bs "a"))), mk_tv 1 2)] ++ [(LFlush, mk_tv 0 0)])
      c (replicate (2 * 4096) 1) = (out, Ok (c', ans')) /\
    records (fun _ => 5) "x"%byte c
      [(LLog (mk_event SYS_OPEN 3 [0] (Some (bs "a"))), mk_tv 1 2)] es /\
    Forall wf_entry es /\ payload out = stream_bytes es.
Proof.
  apply log_stream_faithful.
  - reflexivity.
  - split; vm_compute; congruence.
  - constructor; [split; vm_compute; congruence | constructor].
  - split; [apply Forall_replicate; lia | vm_compute; congruence].
Defined.

(** C29: However the kernel answers (short writes, errors, silence), the bytes
    lb_flush gets written are a prefix of the buffered bytes and go to the log
    descriptor only; it returns, with an empty buffer, exactly when they are all of
    them, whether there were any or not, and otherwise it has ended the process with
    status 1 (then one of the answers was an error) or is still waiting for one. *)
Theorem lb_flush_prefix c ans out o :
  0 <= lbptr c <= zlen (lb c) -> lb_flush c ans = (out, o) ->
  payload out `prefix_of` buffered c /\ Forall (fun p => p.1 = ctx_logfd c) out /\
  (payload out = buffered c <-> exists ans', o = Ok (set_lbptr c 0, ans')) /\
  (payload out <> buffered c <-> o = Crash (Exit 1) \/ o = Crash Pending) /\
  (o = Crash (Exit 1) -> Exists (fun w => w < 0) ans).
Proof.
  intros Hp H. unfold lb_flush, bb_disable_log_check in H.
  destruct (flush_loop ans (ctx_logfd c) (lb c) (lbptr c) 0) as [w r] eqn:E.
  pose proof (flush_loop_stops _ _ _ _ _ _ _ E ltac:(lia) ltac:(lia)) as Hstop.
  apply flush_loop_prefix in E as (Hpre & Hfd & Hok & _); [| lia].
  rewrite Z.sub_0_r, zdrop_0 in *. fold (buffered c) in *. destruct r as [ans1 | e1]; simpl in H; simplify_eq.
  - rewrite app_nil_r. destruct (Hok _ eq_refl) as [-> _].
    split_and!; [done | done | split; [by exists ans1 | done] | split; [done | by intros [?|?]] | done].
  - destruct (Hstop _ eq_refl) as (He & Hne & Herr). assert (payload out <> buffered c) as Hne'.
    { intros Heq. rewrite Heq in Hne. unfold buffered in Hne. rewrite zlen_ztake in Hne by lia. lia. }
    split_and!; [done | done | split; [done | by intros [? ?]] | | ].
    + split; [| done]. intros _. destruct He as [-> | ->]; [by left | by right].
    + intros [= ->]. by apply Herr.
Qed.

Lemma lb_flush_prefix_witness :
  let c := mk_ctx 300 79 7 3 (replicate 4096 "a"%byte) 0 0 0 in
  payload [(79, bs "aa")] `prefix_of` buffered c /\ payload [(79, bs "aa")] <> buffered c.
Proof.
  destruct (lb_flush_prefix (mk_ctx 300 79 7 3 (replicate 4096 "a"%byte) 0 0 0) [2; -1]
    [(79, bs "aa")] (Crash (Exit 1))) as (H1 & _ & _ & H2 & _);
    [vm_compute; split; congruence | vm_compute; reflexivity |].
  split; [exact H1 | apply H2; left; reflexivity].
Defined.

(** C37: A record that does not fit PIPE_BUF ends the traced process: for a string of
    any length (up to the 2 GiB at which the size leaves an int) LOGBIN_gen exits with
    status 1 before anything is written, whatever is in the buffer. *)
Theorem LOGBIN_oversize_exits nm now c ans sc rv i1 i2 i3 num s :
  0 <= num <= 3 -> record_size num (Some s) < 2 ^ 31 -> PIPE_BUF < record_size num (Some s) ->
  LOGBIN_gen nm now c ans sc rv i1 i2 i3 num (Some s) = ([], Crash (Exit 1)).
Proof.
  intros Hn Hs Hz. pose proof (zlen_nonneg s). unfold record_size in *. cbn [default from_option id] in *.
  unfold LOGBIN_gen, bb_disable_log_check, lb_alloc_entry, lb_alloc_bytes.
  rewrite s32_small by lia. rewrite predict_size_wide by (unfold is_s; lia).
  destruct (Z.ltb_spec PIPE_BUF (32 + 4 * num + zlen s)); [done | lia].
Qed.

Lemma LOGBIN_oversize_exits_witness :
  let c := mk_ctx 300 79 7 0 (replicate 4096 NUL) 0 0 0 in
  LOGBIN_gen "x"%byte (mk_tv 1 2) c [] 1 0 0 0 0 0 (Some (replicate (Z.to_nat 66000) "a"%byte)) =
    ([], Crash (Exit 1)).
Proof.
  apply LOGBIN_oversize_exits; [lia | vm_compute; reflexivity | vm_compute; reflexivity].
Defined.

(** LOGBINss builds its "key=-=value" string inside the bytes it allocates:
    for C strings of any length no write leaves the object, and the string logged
    is the first, the separator and the second. *)
Theorem LOGBINss_string_ok junk s1 s2 :
  nul_free s1 -> nul_free s2 -> zlen s1 + zlen s2 + 6 <= zlen junk ->
  LOGBINss_string junk s1 s2 = ret (s1 ++ bs "=-=" ++ s2).
Proof.
  intros H1 H2 Hj. unfold LOGBINss_string.
  pose proof (zlen_nonneg s1) as Hz1. pose proof (zlen_nonneg s2).
  set (m := ztake _ junk). assert (zlen m = zlen s1 + zlen s2 + 6) as Hm by (unfold m; zl).
  clearbody m. clear Hj junk.
  rewrite (strncpy_cstr _ s1 []) by (done || (unfold zlen in *; lia)).
  replace (Z.to_nat _ - length s1)%nat with 2%nat by (unfold zlen in *; lia).
  rewrite <- (ztake_zdrop (zlen s1 + 2) m).
  cbn [of_opt]. rewrite bind_ret_l.
  erewrite bind_ok_nil by (apply (store_mid [] (ztake (zlen s1 + 2) m)); [done | zl]).
  set (r := zdrop (zlen s1 + 2) m). assert (zlen r = zlen s2 + 4) as Hr by (unfold r; zl).
  clearbody r. clear Hm m. cbn [app]. change (replicate 2 NUL) with ([NUL] ++ [NUL]).
  rewrite <- !app_assoc. cbn [app]. rewrite strlen_app by done.
  cbn [of_opt]. rewrite bind_ret_l.
  rewrite <- (ztake_zdrop 2 r).
  change (NUL :: NUL :: ztake 2 r ++ zdrop 2 r) with ((NUL :: NUL :: ztake 2 r) ++ zdrop 2 r).
  erewrite bind_ok_nil by (apply store_mid; [done | change (zlen (bs "=-=" ++ [NUL])) with 4; zl]).
  change ((bs "=-=" ++ [NUL]) ++ zdrop 2 r) with (bs "=-=" ++ NUL :: zdrop 2 r).
  rewrite app_assoc, strlen_app by (apply Forall_app; split; [done | apply nul_free_bs_sep]).
  cbn [of_opt]. rewrite bind_ret_l.
  set (t := NUL :: zdrop 2 r). assert (zlen t = zlen s2 + 3) as Ht by (unfold t; zl).
  rewrite <- (ztake_zdrop (zlen s2 + 1) t).
  erewrite bind_ok_nil by (apply store_mid; [done | zl]).
  rewrite <- (app_assoc s2), (app_assoc _ s2). cbn [app].
  rewrite cstr_app; [by rewrite <- app_assoc |].
  apply Forall_app; split; [| done]. apply Forall_app; split; [done | apply nul_free_bs_sep].
Qed.

Lemma LOGBINss_string_ok_witness :
  LOGBINss_string (replicate 20 "j"%byte) (bs "PATH") (bs "/bin") = ret (bs "PATH=-=/bin").
Proof.
  apply (LOGBINss_string_ok (replicate 20 "j"%byte) (bs "PATH") (bs "/bin")).
  - repeat constructor; discriminate.
  - repeat constructor; discriminate.
  - vm_compute. congruence.
Defined.
