(* ===== verification/Common.v ===== *)
(** src/src/logd/common.c: reading records back from a descriptor.

    A static buffer of PIPE_BUF bytes is refilled by read(2) and records are cut
    out of it.  The kernel's answers are an argument. *)
From S2P Require Import Prelude CInt CString Config Fmt.

Record rdbuf := mk_rd {
  lb_buf : list byte;   (* char[PIPE_BUF+1] *)
  lb_cur : Z;
  lb_last : Z;
  bytes_seen : Z
}.

Definition init_rdbuf : rdbuf := mk_rd (replicate (Z.to_nat (PIPE_BUF + 1)) NUL) 0 (-1) 0.

Inductive fill_status := BOK | BEOF.
#[global] Instance fill_status_eq_dec : EqDecision fill_status.
Proof. solve_decision. Defined.

Section reader.
  Context {W : Type}.
  Implicit Types (st : rdbuf) (ans : answers).

(** The do-while loop of refill. *)
Fixpoint refill_loop (persist : bool) (ans : answers) (st : rdbuf) :
    run W (fill_status * rdbuf * answers) :=
  match ans with
  | [] => stop Pending
  | a :: ans' =>
      match kread a PIPE_BUF with
      | None => stop (Exit 1)
      | Some [] => if persist then refill_loop persist ans' st else ret (BEOF, st, ans')
      | Some l =>
          let! m := store (lb_buf st) 0 l in
          ret (BOK, mk_rd m (lb_cur st) (zlen l - 1) (bytes_seen st), ans')
      end
  end.

Definition refill (persist : bool) (ans : answers) (st : rdbuf) :
    run W (fill_status * rdbuf * answers) :=
  refill_loop persist ans (mk_rd (lb_buf st) 0 (-1) (bytes_seen st)).

(** The first half of a turn of fill's loop: use the bytes the buffer holds.
    [got] are the bytes copied to [thing] so far. *)
Definition fill_copy (st : rdbuf) (got : list byte) (num : Z) :
    run W (list byte * Z * rdbuf) :=
  if lb_cur st <=? lb_last st then
    let avail := lb_last st - lb_cur st + 1 in
    let tocopy := if num <? avail then num else avail in
    let! b := load (lb_buf st) (lb_cur st) tocopy in
    ret (got ++ b, num - tocopy,
         mk_rd (lb_buf st) (lb_cur st + tocopy) (lb_last st)
           (s32 (bytes_seen st + tocopy)))
  else ret (got, num, st).

(** The while loop of fill.  Every turn but the last consumes an answer, so [S (length ans)] turns are enough. *)
Fixpoint fill_loop (fuel : nat) (persist : bool) (ans : answers) (st : rdbuf)
    (got : list byte) (num : Z) : run W (fill_status * list byte * rdbuf * answers) :=
  match fuel with
  | O => stop Pending
  | S fuel' =>
      if 0 <? num then
        let! (got, num, st) := fill_copy st got num in
        if 0 <? num then
          let! (r, st, ans) := refill persist ans st in
          if decide (r = BEOF) then ret (BEOF, got, st, ans)
          else fill_loop fuel' persist ans st got num
        else fill_loop fuel' persist ans st got num
      else ret (BOK, got, st, ans)
  end.

Definition fill (persist : bool) (ans : answers) (st : rdbuf) (num : Z) :
    run W (fill_status * list byte * rdbuf * answers) :=
  fill_loop (S (S (length ans))) persist ans st [] num.

(** [None] is the NULL returned at end of file. *)
Definition get_le (persist : bool) (ans : answers) (st : rdbuf) :
    run W (option logentry_thaw * rdbuf * answers) :=
  let! (r, buf, st, ans) := fill persist ans st sizeof_frozen in
  if decide (r = BEOF) then ret (None, st, ans) else
  let! fz := thaw1 buf in
  let sz := s32 (frozen_size fz - sizeof_frozen) in
  let! (r, buf, st, ans) := fill persist ans st sz in
  assert (bool_decide (r <> BEOF)) ;;;
  let! th := thaw2 buf fz sz in
  ret (Some th, st, ans).

(** ** The unread bytes *)

Definition unread st : list byte :=
  ztake (lb_last st - lb_cur st + 1) (zdrop (lb_cur st) (lb_buf st)).

Definition rd_wf st : Prop :=
  zlen (lb_buf st) = PIPE_BUF + 1 /\ 0 <= lb_cur st /\
  -1 <= lb_last st < PIPE_BUF /\ lb_cur st <= lb_last st + 1 /\
  is_s 32 (bytes_seen st).

(** What read(2) may deliver. *)
Definition chunk_ok (l : list byte) : Prop := 0 < zlen l <= PIPE_BUF.

Lemma zlen_unread st : rd_wf st -> zlen (unread st) = lb_last st - lb_cur st + 1.
Proof. intros (?&?&?&?&_). unfold unread. zl. Qed.

Lemma refill_chunk persist l ans st :
  rd_wf st -> chunk_ok l ->
  exists st', refill persist (Some l :: ans) st = ret (BOK, st', ans) /\
    rd_wf st' /\ unread st' = l /\ bytes_seen st' = bytes_seen st.
Proof.
  intros (Hb&_&_&_&Hbs) [Hl0 Hl]. unfold refill. cbn [refill_loop].
  change (kread (Some l) PIPE_BUF) with (Some (ztake PIPE_BUF l)).
  rewrite ztake_all by done. destruct l as [| b l]; [done |]. unfold PIPE_BUF in *. cbn [lb_buf].
  rewrite store_ok by lia. rewrite bind_ret_l. eexists. split; [reflexivity |].
  cbn [lb_buf lb_cur lb_last]. split_and!; try done; cbn [lb_buf lb_cur lb_last].
  - unfold rd_wf, PIPE_BUF. cbn [lb_buf lb_cur lb_last bytes_seen]. split_and!; done || zl.
  - unfold unread. cbn [lb_buf lb_cur lb_last]. rewrite zdrop_0, ztake_0, app_nil_l.
    apply ztake_app_exact. lia.
Qed.

(** One turn of the loop: it takes what the buffer holds. *)
Lemma fill_take st got num :
  rd_wf st -> 0 < num -> exists st',
  fill_copy st got num =
  ret (got ++ ztake num (unread st), num - Z.min num (zlen (unread st)), st') /\
  rd_wf st' /\ unread st' = zdrop num (unread st) /\
  bytes_seen st' = s32 (bytes_seen st + Z.min num (zlen (unread st))).
Proof.
  intros Hwf Hn. rewrite (zlen_unread st Hwf). pose proof Hwf as (Hb&Hc&Hl&Hle&Hbs).
  unfold PIPE_BUF in *. unfold fill_copy. destruct (Z.leb_spec (lb_cur st) (lb_last st)) as [H | H].
  - cbv zeta. set (tc := if num <? _ then num else _).
    assert (tc = Z.min num (lb_last st - lb_cur st + 1)) as Etc
      by (unfold tc; destruct (Z.ltb_spec num (lb_last st - lb_cur st + 1)); lia).
    assert (ztake num (unread st) = ztake tc (zdrop (lb_cur st) (lb_buf st))) as ->
      by (unfold unread; rewrite ztake_ztake; by f_equal).
    rewrite load_ok by lia. rewrite bind_ret_l, <- Etc. eexists. split; [reflexivity |].
    split_and!; [| | done].
    + unfold rd_wf, PIPE_BUF; cbn [lb_buf lb_cur lb_last bytes_seen]; split_and!;
        try lia. by apply wraps_range.
    + unfold unread. cbn [lb_buf lb_cur lb_last]. rewrite zdrop_ztake, zdrop_zdrop by lia.
      destruct (Z.le_gt_cases num (lb_last st - lb_cur st + 1)).
      * rewrite Etc, Z.min_l by lia. f_equal. lia.
      * rewrite Etc, Z.min_r by lia. unfold ztake.
        replace (Z.to_nat _) with 0%nat by lia. symmetry.
        by replace (Z.to_nat _) with 0%nat by lia.
  - exists st. assert (unread st = []) as ->.
    { apply zlen_0_inv. rewrite zlen_unread by done. lia. }
    unfold ztake, zdrop. split_and!; [| done | by rewrite drop_nil |].
    + rewrite take_nil, app_nil_r. do 3 f_equal. lia.
    + rewrite Z.min_r by lia. replace (bytes_seen st + _) with (bytes_seen st) by lia.
      symmetry. by apply wraps_small.
Qed.

(** The bytes still to come: in the buffer, then in the pending chunks. *)
Definition incoming st (chunks : list (list byte)) : list byte := unread st ++ concat chunks.

(** fill hands out the next [num] bytes, however they are split into reads. *)
Lemma fill_loop_ok fuel persist chunks tail st got num d rest :
  rd_wf st -> Forall chunk_ok chunks -> 0 <= num ->
  incoming st chunks = d ++ rest -> zlen d = num ->
  (length chunks < fuel)%nat -> (0 < num -> (S (length chunks) < fuel)%nat) ->
  exists st' chunks',
    fill_loop fuel persist ((Some <$> chunks) ++ tail) st got num =
      ret (BOK, got ++ d, st', (Some <$> chunks') ++ tail) /\
    rd_wf st' /\ Forall chunk_ok chunks' /\ incoming st' chunks' = rest /\
    bytes_seen st' = s32 (bytes_seen st + num).
Proof.
  revert chunks st got num d; induction fuel as [| fuel IH];
    intros chunks st got num d Hwf Hch Hn Hin Hd Hf1 Hf2; [lia |].
  cbn [fill_loop]. destruct (Z.ltb_spec 0 num) as [Hpos | H0].
  2:{ assert (d = []) as -> by (apply zlen_0_inv; lia). rewrite app_nil_r.
      exists st, chunks. split_and!; try done. symmetry. replace (_ + num) with (bytes_seen st) by lia.
      apply wraps_small; [done | apply Hwf]. }
  destruct (fill_take st got num Hwf Hpos) as (st1 & E & Hwf1 & Hun & Hb1). rewrite E, bind_ret_l.
  cbn beta iota. clear E. pose proof (zlen_nonneg (unread st)).
  destruct (Z.le_gt_cases num (zlen (unread st))) as [Hle | Hgt].
  - rewrite Z.min_l by lia. destruct (Z.ltb_spec 0 (num - num)); [lia |].
    destruct (zapp_cut _ _ _ _ Hin) as [Ed Er]; [lia |]. rewrite Hd in Ed, Er. rewrite <- Ed.
    destruct (IH chunks st1 (got ++ d) (num - num) []) as (st' & ch' & E & ? & ? & Hi & Hb);
      try done; try lia.
    { unfold incoming. by rewrite Hun, Er. } { rewrite zlen_nil. lia. }
    rewrite E, app_nil_r. exists st', ch'. split_and!; try done.
    rewrite Hb, Hb1, Z.min_l, wraps_add_l by lia. f_equal. lia.
  - rewrite Z.min_r by lia. destruct (Z.ltb_spec 0 (num - zlen (unread st))); [| lia].
    rewrite ztake_all by lia. rewrite zdrop_all in Hun by lia.
    destruct chunks as [| l chunks].
    { unfold incoming in Hin. rewrite app_nil_r in Hin. rewrite Hin, zlen_app in Hgt.
      pose proof (zlen_nonneg rest). lia. }
    apply Forall_cons_1 in Hch as [Hl Hch].
    change ((Some <$> l :: chunks) ++ tail) with (Some l :: (Some <$> chunks) ++ tail).
    destruct (refill_chunk persist l ((Some <$> chunks) ++ tail) st1 Hwf1 Hl)
      as (st2 & E & Hwf2 & Hun2 & Hb2).
    rewrite E, bind_ret_l. cbn beta iota. destruct (decide (BOK = BEOF)); [done |].
    unfold incoming in Hin. simpl in Hin.
    destruct (zapp_cut _ _ _ _ (eq_sym Hin)) as [Eu Er]; [lia |].
    assert (d = unread st ++ zdrop (zlen (unread st)) d) as Ed
      by (rewrite Eu at 1; by rewrite ztake_zdrop).
    destruct (IH chunks st2 (got ++ unread st) (num - zlen (unread st))
      (zdrop (zlen (unread st)) d)) as (st' & ch' & E3 & ? & ? & Hi & Hb); try done; try lia.
    { unfold incoming. by rewrite Hun2, Er. } { zl. } { simpl in Hf2. lia. } { simpl in Hf2. lia. }
    rewrite E3, <- app_assoc, <- Ed. exists st', ch'. split_and!; try done.
    rewrite Hb, Hb2, Hb1, Z.min_r, wraps_add_l by lia. f_equal. lia.
Qed.

Lemma fill_ok persist chunks tail st num d rest :
  rd_wf st -> Forall chunk_ok chunks -> incoming st chunks = d ++ rest -> zlen d = num ->
  exists st' chunks',
    fill persist ((Some <$> chunks) ++ tail) st num =
      ret (BOK, d, st', (Some <$> chunks') ++ tail) /\
    rd_wf st' /\ Forall chunk_ok chunks' /\ incoming st' chunks' = rest /\
    bytes_seen st' = s32 (bytes_seen st + num).
Proof.
  intros Hwf Hch Hin Hd. pose proof (zlen_nonneg d). unfold fill.
  apply (fill_loop_ok _ _ chunks tail st [] num d rest); try done; try lia;
    rewrite length_app, length_fmap; lia.
Qed.

(** At the end of the file fill gives up with what there was. *)
Lemma fill_loop_eof fuel chunks tail st got num :
  rd_wf st -> Forall chunk_ok chunks -> zlen (incoming st chunks) < num ->
  (length chunks < fuel)%nat ->
  exists st',
    fill_loop fuel false ((Some <$> chunks) ++ Some [] :: tail) st got num =
      ret (BEOF, got ++ incoming st chunks, st', tail) /\
    rd_wf st' /\ unread st' = [] /\
    bytes_seen st' = s32 (bytes_seen st + zlen (incoming st chunks)).
Proof.
  revert chunks st got num; induction fuel as [| fuel IH];
    intros chunks st got num Hwf Hch Hn Hf; [lia |].
  pose proof (zlen_nonneg (unread st)). pose proof (zlen_nonneg (concat chunks)).
  unfold incoming in Hn. rewrite zlen_app in Hn.
  cbn [fill_loop]. destruct (Z.ltb_spec 0 num) as [Hpos |]; [| lia].
  destruct (fill_take st got num Hwf Hpos) as (st1 & E & Hwf1 & Hun & Hb1).
  rewrite E, bind_ret_l. cbn beta iota. clear E. rewrite Z.min_r in * by lia.
  destruct (Z.ltb_spec 0 (num - zlen (unread st))); [| lia].
  rewrite ztake_all by lia. rewrite zdrop_all in Hun by lia.
  destruct chunks as [| l chunks].
  - cbn. unfold incoming. rewrite app_nil_r. eexists. split; [reflexivity |].
    destruct Hwf1 as (?&?&?&?&?). unfold rd_wf, PIPE_BUF in *.
    split_and!; try done.
  - apply Forall_cons_1 in Hch as [Hl Hch].
    change ((Some <$> l :: chunks) ++ ?t) with (Some l :: (Some <$> chunks) ++ t).
    edestruct (refill_chunk false l) as (st2 & E & Hwf2 & Hun2 & Hb2); [exact Hwf1 | done |].
    rewrite E, bind_ret_l. cbn beta iota. destruct (decide (BOK = BEOF)); [done |].
    simpl in Hn, Hf. rewrite zlen_app in Hn.
    destruct (IH chunks st2 (got ++ unread st) (num - zlen (unread st)))
      as (st' & E3 & ? & ? & Hb); try done; try lia.
    { unfold incoming. rewrite Hun2, zlen_app. lia. }
    rewrite E3, <- app_assoc. exists st'. unfold incoming in *. rewrite Hun2 in *.
    split_and!; try done. rewrite Hb, Hb2, Hb1, wraps_add_l by lia. f_equal.
    change (concat (l :: chunks)) with (l ++ concat chunks). rewrite !zlen_app. lia.
Qed.

Lemma fill_eof chunks tail st num :
  rd_wf st -> Forall chunk_ok chunks -> zlen (incoming st chunks) < num ->
  exists st',
    fill false ((Some <$> chunks) ++ Some [] :: tail) st num =
      ret (BEOF, incoming st chunks, st', tail) /\
    rd_wf st' /\ unread st' = [] /\
    bytes_seen st' = s32 (bytes_seen st + zlen (incoming st chunks)).
Proof.
  intros Hwf Hch Hn. apply (fill_loop_eof _ chunks tail st []); try done.
  rewrite length_app, length_fmap. simpl. lia.
Qed.

(** ** get_le *)

Lemma frozen_size_bounds le :
  wf_entry le -> 32 <= frozen_size (th_fz le) <= 32 + 12 + 32767.
Proof.
  intros (Hf & Ha & Hn & _). rewrite frozen_size_val by done.
  destruct Hf as (_&_&_&_&_&_&_&_&Hs&_). unfold is_s in Hs. lia.
Qed.

Lemma rest_size le :
  wf_entry le -> s32 (frozen_size (th_fz le) - sizeof_frozen) = frozen_size (th_fz le) - 32.
Proof.
  intros H. pose proof (frozen_size_bounds le H). unfold sizeof_frozen. apply s32_small. lia.
Qed.

(** The next record of the stream, however it is split into reads. *)
Lemma get_le_ok persist chunks tail st le rest :
  rd_wf st -> Forall chunk_ok chunks -> wf_entry le ->
  incoming st chunks = entry_bytes le ++ rest ->
  exists st' chunks',
    get_le persist ((Some <$> chunks) ++ tail) st =
      ret (Some (canon le), st', (Some <$> chunks') ++ tail) /\
    rd_wf st' /\ Forall chunk_ok chunks' /\ incoming st' chunks' = rest /\
    bytes_seen st' = s32 (bytes_seen st + frozen_size (th_fz le)).
Proof.
  intros Hwf Hch Hle Hin. pose proof (zlen_entry_bytes le Hle) as Hsz.
  pose proof (zlen_frozen_bytes _ (proj1 Hle)) as H32.
  unfold entry_bytes in Hin, Hsz. rewrite <- app_assoc in Hin. rewrite zlen_app, H32 in Hsz.
  destruct (fill_ok persist chunks tail st 32 _ _ Hwf Hch Hin)
    as (st1 & ch1 & E1 & Hwf1 & Hch1 & Hin1 & Hb1); [done |].
  unfold get_le. change sizeof_frozen with 32. rewrite E1, bind_ret_l. cbn beta iota.
  destruct (decide (BOK = BEOF)); [done |].
  assert (thaw1 (W:=W) (frozen_bytes (th_fz le)) = ret (th_fz le)) as ->.
  { unfold thaw1. change sizeof_frozen with 32. rewrite load_ok by lia.
    rewrite bind_ret_l, zdrop_0, ztake_all by lia. f_equal.
    rewrite <- (app_nil_r (frozen_bytes _)). apply frozen_of_bytes, Hle. }
  rewrite bind_ret_l. cbv zeta. change 32 with sizeof_frozen.
  rewrite rest_size by done.
  destruct (fill_ok persist ch1 tail st1 (frozen_size (th_fz le) - 32) _ _ Hwf1 Hch1 Hin1)
    as (st2 & ch2 & E2 & Hwf2 & Hch2 & Hin2 & Hb2); [lia |].
  rewrite E2, bind_ret_l. cbn beta iota. rewrite assert_true by done. rewrite bind_ret_l.
  pose proof (thaw2_ok (W:=W) le [] Hle) as Et. rewrite app_nil_r in Et.
  rewrite Et, bind_ret_l. exists st2, ch2. split_and!; try done.
  rewrite Hb2, Hb1, wraps_add_l by lia. f_equal. lia.
Qed.

(** Fewer bytes than a header before the end of the file: NULL. *)
Lemma get_le_eof chunks tail st :
  rd_wf st -> Forall chunk_ok chunks -> zlen (incoming st chunks) < 32 ->
  exists st',
    get_le false ((Some <$> chunks) ++ Some [] :: tail) st = ret (None, st', tail) /\
    bytes_seen st' = s32 (bytes_seen st + zlen (incoming st chunks)).
Proof.
  intros Hwf Hch Hn.
  destruct (fill_eof chunks tail st 32) as (st' & E & _ & _ & Hb); try done.
  unfold get_le. change sizeof_frozen with 32. rewrite E, bind_ret_l. cbn beta iota.
  destruct (decide (BEOF = BEOF)); [| done]. eauto.
Qed.

Lemma init_rdbuf_wf : rd_wf init_rdbuf.
Proof. unfold rd_wf, PIPE_BUF, is_s. vm_compute. split_and!; done || congruence. Qed.

Lemma unread_init : unread init_rdbuf = [].
Proof. done. Qed.

End reader.
