(* ===== verification/Expand.v ===== *)
(** src/src/logd/expand.c: the tool that prints a binary log as text.

    The effects are the pieces of text written to stdout.  The environment's
    answers are arguments: whether open(2) and stat(2) succeed and what they
    give, and the answers to the reads. *)
From S2P Require Import Prelude CInt CString Config Fmt Binlog Common.

Abbreviation stdout := (run (list byte)).

Section expand.
(** The generated table of event names. *)
Context (syscall2string : Z -> list byte).

(** The while(1) loop; [pid] is the filter, 0 for none. *)
Fixpoint expand_loop (fuel : nat) (pid : Z) (ans : answers) (st : rdbuf) (recno : Z) :
    stdout (Z * rdbuf) :=
  match fuel with
  | O => stop Pending
  | S fuel' =>
      let! (le, st, ans) := get_le false ans st in
      match le with
      | None => ret (recno, st)
      | Some le =>
          let recno := s32 (recno + 1) in
          (if negb (pid =? 0) && negb (fz_pid (th_fz le) =? pid) then ret tt
           else let! l := of_opt (output_le syscall2string le) in emit l) ;;;
          expand_loop fuel' pid ans st recno
      end
  end.

(** Every turn but the last consumes a byte or more. *)
Definition expand_fuel (ans : answers) : nat := S (length (concat (default [] <$> ans))).

(** main.  [opened] and [st_size] are what open(2) and stat(2) report. *)
Definition expand_main (argv : list (list byte)) (opened : bool) (st_size : option Z)
    (ans : answers) : stdout Z :=
  if zlen argv <? 2 then stop (Exit 1) else
  if negb opened then stop (Exit 1) else
  let pid := if zlen argv =? 3 then u32 (atoi (default [] (argv !! 2%nat))) else 0 in
  match st_size with
  | None => stop (Exit 1)
  | Some size =>
      let! (recno, st) := expand_loop (expand_fuel ans) pid ans init_rdbuf 0 in
      emit (bs "total: " ++ fmt_d recno ++ [LF]) ;;;
      emit (bs "bytes: " ++ fmt_d (bytes_seen st) ++ [LF]) ;;;
      if negb (size =? bytes_seen st) then
        emit (bs "ERROR! size mismatch (fstat=" ++ fmt_d size ++ bs ",used=" ++
              fmt_d (bytes_seen st) ++ bs ")" ++ [LF]) ;;;
        stop (Exit 1)
      else ret 1
  end.

(** ** What is printed *)

(** The line of a record that came from the wire. *)
Definition entry_line (le : logentry_thaw) : list byte :=
  default [] (output_le syscall2string (canon le)).

(** A string followed by a terminator can always be printed. *)
Lemma cstr_terminated s : exists t, cstr (s ++ [NUL]) = Some t.
Proof.
  unfold cstr, strlen. induction s as [| b s [t IH]]; simpl; [by eexists |].
  destruct (Byte.eqb b NUL); simpl; [by eexists |].
  destruct (c_scan _ (s ++ [NUL])); simpl in *; [by eexists | done].
Qed.

Lemma output_canon le :
  output_le syscall2string (canon le) = Some (entry_line le).
Proof.
  unfold entry_line. cut (is_Some (output_le syscall2string (canon le))).
  { intros [x ->]. done. }
  unfold output_le. cbn [canon th_fz th_str th_arg].
  destruct (Z.ltb_spec 0 (fz_str_len (th_fz le))) as [H | H]; [| simpl; by eexists].
  destruct (Z.eqb_spec (fz_str_len (th_fz le)) 0); [lia |].
  destruct (cstr_terminated (entry_str le)) as [t Et]. simpl. rewrite Et. simpl. by eexists.
Qed.

(** The filter of main. *)
Definition selected (pid : Z) (le : logentry_thaw) : Prop :=
  pid = 0 \/ fz_pid (th_fz le) = pid.
#[export] Instance selected_dec pid le : Decision (selected pid le).
Proof. unfold selected. apply _. Defined.

Definition printed (pid : Z) (es : list logentry_thaw) : list (list byte) :=
  entry_line <$> filter (selected pid) es.

Lemma selected_test pid le :
  (negb (pid =? 0) && negb (fz_pid (th_fz le) =? pid)) = bool_decide (~ selected pid le).
Proof.
  unfold selected. destruct (Z.eqb_spec pid 0), (Z.eqb_spec (fz_pid (th_fz le)) pid); simpl;
    symmetry;
    first [apply bool_decide_eq_true_2 | apply bool_decide_eq_false_2];
    intuition congruence.
Qed.

Lemma expand_loop_ok fuel pid chunks st recno es trail tl :
  rd_wf st -> Forall chunk_ok chunks -> Forall wf_entry es ->
  incoming st chunks = stream_bytes es ++ trail -> zlen trail < 32 ->
  (length es < fuel)%nat -> is_s 32 recno ->
  exists st',
    expand_loop fuel pid ((Some <$> chunks) ++ Some [] :: tl) st recno =
      (printed pid es, Ok (s32 (recno + zlen es), st')) /\
    bytes_seen st' = s32 (bytes_seen st + zlen (incoming st chunks)).
Proof.
  intros Hwf Hch Hes. revert fuel chunks st recno Hwf Hch.
  induction Hes as [| le es Hle Hes IH]; intros fuel chunks st recno Hwf Hch Hin Ht Hf Hr;
    (destruct fuel as [| fuel]; [simpl in Hf; lia |]); cbn [expand_loop].
  - change (stream_bytes []) with (@nil byte) in Hin. rewrite app_nil_l in Hin.
    destruct (get_le_eof (W:=list byte) chunks tl st) as (st' & E & Hb); try done; [by rewrite Hin |].
    rewrite E, bind_ret_l. cbn beta iota. exists st'. split; [| done].
    rewrite zlen_nil, Z.add_0_r, s32_small; [done | exact Hr].
  - rewrite stream_bytes_cons, <- app_assoc in Hin.
    destruct (get_le_ok (W:=list byte) false chunks (Some [] :: tl) st le _ Hwf Hch Hle Hin)
      as (st1 & ch1 & E & Hwf1 & Hch1 & Hin1 & Hb1).
    rewrite E, bind_ret_l. cbn beta iota zeta. change (th_fz (canon le)) with (th_fz le).
    rewrite selected_test, output_canon.
    destruct (IH fuel ch1 st1 (s32 (recno + 1)) Hwf1 Hch1 Hin1 Ht) as (st' & E2 & Hb2);
      [simpl in Hf; lia | apply (wraps_range 32); lia |].
    exists st'. split.
    + unfold printed. rewrite zlen_cons, Z.add_assoc, filter_cons. destruct (decide (selected pid le)) as [Hs | Hs].
      * rewrite bool_decide_eq_false_2 by tauto. simpl of_opt. rewrite bind_ret_l, E2.
        simpl. by rewrite wraps_add_l by lia.
      * rewrite bool_decide_eq_true_2 by done. rewrite bind_ret_l, E2.
        by rewrite wraps_add_l by lia.
    + rewrite Hb2, Hb1, wraps_add_l by lia. f_equal. rewrite Hin, Hin1, !zlen_app.
      rewrite (zlen_entry_bytes le Hle). lia.
Qed.

Lemma length_stream es : Forall wf_entry es -> zlen es <= zlen (stream_bytes es).
Proof.
  induction 1 as [| le es Hle _ IH]; [done |].
  rewrite stream_bytes_cons, zlen_cons, zlen_app, zlen_entry_bytes by done.
  pose proof (frozen_size_bounds le Hle). lia.
Qed.

Lemma expand_fuel_enough es chunks trail tl :
  Forall wf_entry es -> concat chunks = stream_bytes es ++ trail ->
  (length es < expand_fuel ((Some <$> chunks) ++ Some [] :: tl))%nat.
Proof.
  intros Hes E. apply length_stream in Hes. unfold expand_fuel.
  rewrite fmap_app, concat_app, length_app.
  replace (default [] <$> (Some <$> chunks)) with chunks
    by (rewrite <- list_fmap_compose; symmetry; apply list_fmap_id).
  rewrite E, length_app. unfold zlen in Hes. lia.
Qed.

Definition pid_arg (argv : list (list byte)) : Z :=
  if zlen argv =? 3 then u32 (atoi (default [] (argv !! 2%nat))) else 0.

Lemma expand_run argv chunks tl es trail :
  2 <= zlen argv -> Forall chunk_ok chunks -> Forall wf_entry es ->
  concat chunks = stream_bytes es ++ trail -> zlen trail < 32 ->
  exists st,
    expand_loop (expand_fuel ((Some <$> chunks) ++ Some [] :: tl)) (pid_arg argv)
      ((Some <$> chunks) ++ Some [] :: tl) init_rdbuf 0 =
      (printed (pid_arg argv) es, Ok (s32 (zlen es), st)) /\
    bytes_seen st = s32 (zlen (concat chunks)).
Proof.
  intros Ha Hch Hes Hin Ht.
  apply (expand_loop_ok _ _ chunks init_rdbuf 0 es trail tl); try done.
  by eapply expand_fuel_enough.
Qed.

Lemma expand_main_ok argv chunks tl es trail :
  2 <= zlen argv -> Forall chunk_ok chunks -> Forall wf_entry es ->
  concat chunks = stream_bytes es ++ trail -> zlen trail < 32 ->
  zlen (concat chunks) < 2147483648 ->
  expand_main argv true (Some (zlen (concat chunks))) ((Some <$> chunks) ++ Some [] :: tl) =
    (printed (pid_arg argv) es ++
       [bs "total: " ++ fmt_d (zlen es) ++ [LF];
        bs "bytes: " ++ fmt_d (zlen (concat chunks)) ++ [LF]], Ok 1).
Proof.
  intros Ha Hch Hes Hin Ht Hlt.
  destruct (expand_run argv chunks tl es trail) as (st & E & Hb); try done.
  pose proof (length_stream es Hes). pose proof (zlen_nonneg es).
  assert (zlen (stream_bytes es) <= zlen (concat chunks)) by (rewrite Hin; zl).
  rewrite s32_small in E by lia. rewrite s32_small in Hb by lia.
  unfold expand_main. destruct (Z.ltb_spec (zlen argv) 2); [lia |]. simpl negb. cbn iota zeta.
  fold (pid_arg argv). rewrite E. simpl. rewrite Hb, Z.eqb_refl. done.
Qed.

(** ** Properties *)

(** A well-formed log expands completely.  For a file that holds the wire
    format of the records [es], read in whatever pieces read(2) returns, expand
    prints one line for each record the pid argument selects, in order, then the
    number of records and of bytes, and returns (with status 1) when the size
    stat(2) reported is the file's size. *)
Theorem expand_prints_log argv chunks tl es :
  2 <= zlen argv -> Forall chunk_ok chunks -> Forall wf_entry es ->
  concat chunks = stream_bytes es -> zlen (concat chunks) < 2147483648 ->
  expand_main argv true (Some (zlen (concat chunks))) ((Some <$> chunks) ++ Some [] :: tl) =
    (printed (pid_arg argv) es ++
       [bs "total: " ++ fmt_d (zlen es) ++ [LF];
        bs "bytes: " ++ fmt_d (zlen (concat chunks)) ++ [LF]], Ok 1).
Proof.
  intros Ha Hch Hes Hin Hlt. apply (expand_main_ok argv chunks tl es []); try done.
  by rewrite app_nil_r.
Qed.

(** A record cut by the end of the file inside its header goes unnoticed:
    expand prints the records before it, counts its bytes as used, finds the size
    right and ends as it does on a complete file. *)
Theorem expand_truncated_header argv chunks tl es trail :
  2 <= zlen argv -> Forall chunk_ok chunks -> Forall wf_entry es ->
  concat chunks = stream_bytes es ++ trail -> 0 < zlen trail < 32 ->
  zlen (concat chunks) < 2147483648 ->
  expand_main argv true (Some (zlen (concat chunks))) ((Some <$> chunks) ++ Some [] :: tl) =
    (printed (pid_arg argv) es ++
       [bs "total: " ++ fmt_d (zlen es) ++ [LF];
        bs "bytes: " ++ fmt_d (zlen (concat chunks)) ++ [LF]], Ok 1).
Proof.
  intros Ha Hch Hes Hin [_ Ht] Hlt. by apply (expand_main_ok argv chunks tl es trail).
Qed.
End expand.

(** The bytes of a record cut in the middle of the header. *)
Definition demo_chunks (extra : list byte) : list (list byte) :=
  [ztake 20 (entry_bytes demo_entry); zdrop 20 (entry_bytes demo_entry) ++ extra].

Lemma expand_prints_log_witness :
  expand_main (fun _ => bs "open") [bs "expand"; bs "log"] true (Some 38)
    ((Some <$> demo_chunks []) ++ [Some []]) =
    ([bs "3000|300|1,2|open|-1|x|arg(-9,0,0),str(2:ab)" ++ [LF];
      bs "total: 1" ++ [LF]; bs "bytes: 38" ++ [LF]], Ok 1).
Proof.
  apply (expand_prints_log (fun _ => bs "open") [bs "expand"; bs "log"] (demo_chunks []) []
    [demo_entry]).
  - vm_compute. congruence.
  - repeat constructor; vm_compute; congruence.
  - constructor; [apply demo_entry_wf | constructor].
  - vm_compute. reflexivity.
  - vm_compute. reflexivity.
Defined.

Lemma expand_truncated_header_witness :
  expand_main (fun _ => bs "open") [bs "expand"; bs "log"; bs "301"] true (Some 40)
    ((Some <$> demo_chunks (bs "zz")) ++ [Some []]) =
    ([bs "total: 1" ++ [LF]; bs "bytes: 40" ++ [LF]], Ok 1).
Proof.
  apply (expand_truncated_header (fun _ => bs "open") [bs "expand"; bs "log"; bs "301"]
    (demo_chunks (bs "zz")) [] [demo_entry] (bs "zz")).
  - vm_compute. congruence.
  - repeat constructor; vm_compute; congruence.
  - constructor; [apply demo_entry_wf | constructor].
  - vm_compute. reflexivity.
  - split; vm_compute; reflexivity.
  - vm_compute. reflexivity.
Defined.

(** C3: From the traced program to the printed log.  The events a thread logs and
    flushes, however the kernel splits the writes and later the reads, come out of
    expand as one line per event, in the order they were logged. *)
Theorem log_then_expand syscall2string sysno nm self pid lfd junk l now ans argv chunks tl :
  zlen junk = PIPE_BUF -> is_s 32 pid -> Forall op_fits l ->
  kernel_takes ans (PIPE_BUF * (zlen l + 1)) ->
  2 <= zlen argv -> Forall chunk_ok chunks -> zlen (concat chunks) < 2147483648 ->
  payload (run_log sysno nm (l ++ [(LFlush, now)]) (alloc_ctx self pid lfd junk) ans).1 =
    concat chunks ->
  exists es, records sysno nm (alloc_ctx self pid lfd junk) l es /\
    expand_main syscall2string argv true (Some (zlen (concat chunks)))
      ((Some <$> chunks) ++ Some [] :: tl) =
      (printed syscall2string (pid_arg argv) es ++
         [bs "total: " ++ fmt_d (zlen es) ++ [LF];
          bs "bytes: " ++ fmt_d (zlen (concat chunks)) ++ [LF]], Ok 1).
Proof.
  intros Hj Hp Hf Hk Ha Hch Hlt Hin.
  destruct (log_stream sysno nm _ l now ans (alloc_ctx_wf self pid lfd junk Hj Hp))
    as (out & c' & ans' & es & E & Hr & Hes & Hpay); [done | done |].
  rewrite E in Hin. simpl in Hin. exists es. split; [done |].
  apply (expand_main_ok _ argv chunks tl es []); try done.
  by rewrite app_nil_r, <- Hin, Hpay.
Qed.

(** One logged call, and the bytes that reach the file. *)
Definition demo_log : list (log_op * timeval) :=
  [(LLog (mk_event SYS_OPEN 3 [0] (Some (bs "a"))), mk_tv 1 2)].
Definition demo_file : list byte :=
  Eval vm_compute in
    payload (run_log (fun _ => 5) "x"%byte (demo_log ++ [(LFlush, mk_tv 0 0)])
      (alloc_ctx 7 300 79 (replicate 4096 NUL)) (replicate (2 * 4096) 1)).1.

Lemma log_then_expand_witness :
  exists es, records (fun _ => 5) "x"%byte (alloc_ctx 7 300 79 (replicate 4096 NUL)) demo_log es /\
    expand_main (fun _ => bs "open") [bs "expand"; bs "log"] true (Some 37)
      [Some demo_file; Some []] =
      (printed (fun _ => bs "open") 0 es ++
        [bs "total: " ++ fmt_d (zlen es) ++ [LF]; bs "bytes: 37" ++ [LF]], Ok 1).
Proof.
  apply (log_then_expand (fun _ => bs "open") (fun _ => 5) "x"%byte 7 300 79 (replicate 4096 NUL)
    demo_log (mk_tv 0 0) (replicate (2 * 4096) 1) [bs "expand"; bs "log"] [demo_file] []).
  - reflexivity.
  - split; vm_compute; congruence.
  - constructor; [split; vm_compute; congruence | constructor].
  - split; [apply Forall_replicate; lia | vm_compute; congruence].
  - vm_compute. congruence.
  - constructor; [split; vm_compute; congruence | constructor].
  - vm_compute. reflexivity.
  - vm_compute. reflexivity.
Defined.
