(* ===== verification/Clock.v ===== *)
(** src/src/trace/cycles.h and gtod.c: reading the processor's cycle counter by halves,
    and the program that prints the time.

    rdtsc is an argument: the 64 bits it leaves.  The PROF_ macros are empty as
    config.h and cycles.h are set. *)
From S2P Require Import Prelude CInt CString Binlog.

(** ** cycles.h *)

(** [cycle]: what rdtsc gives. *)
Definition cycle_counter (cycle : Z) : Z := u64 cycle.
Definition cycle_low (cycle : Z) : Z :=
  u32 (Z.shiftr (u64 (Z.shiftl (cycle_counter cycle) 32)) 32).
Definition cycle_high (cycle : Z) : Z := u32 (Z.shiftr (cycle_counter cycle) 32).

Example cycle_halves_demo : (cycle_high 0x123456789a, cycle_low 0x123456789a) = (0x12, 0x3456789a).
Proof. vm_compute. reflexivity. Qed.

Lemma cycle_low_eq c : 0 <= c < 2 ^ 64 -> cycle_low c = c mod 2 ^ 32.
Proof.
  intros Hc. unfold cycle_low, cycle_counter, u32, u64, wrapu. rewrite Z.shiftl_mul_pow2, Z.shiftr_div_pow2 by lia.
  rewrite (Z.mod_small c) by lia.
  change (2 ^ 64) with (2 ^ 32 * 2 ^ 32). rewrite Z.mul_mod_distr_r by lia.
  rewrite Z.div_mul by lia. rewrite Z.mod_mod; lia.
Qed.

Lemma cycle_high_eq c : 0 <= c < 2 ^ 64 -> cycle_high c = c / 2 ^ 32.
Proof.
  intros Hc. unfold cycle_high, cycle_counter, u32, u64, wrapu. rewrite Z.shiftr_div_pow2 by lia.
  rewrite (Z.mod_small c) by lia. apply Z.mod_small.
  split; [apply Z.div_pos; lia |]. apply Z.div_lt_upper_bound; lia.
Qed.

(** Two readings, one for each half: the time they make is the counter's only when no
    carry comes between them; with one it is a whole turn of the lower half behind. *)
Theorem cycle_read_twice c d :
  0 <= c <= d -> d < 2 ^ 64 -> d - c < 2 ^ 32 ->
  cycle_high c * 2 ^ 32 + cycle_low d =
    if c / 2 ^ 32 =? d / 2 ^ 32 then d else d - 2 ^ 32.
Proof.
  intros Hc Hd Hdiff. rewrite cycle_high_eq, cycle_low_eq by lia.
  pose proof (Z.div_mod d (2 ^ 32) ltac:(lia)). pose proof (Z.div_mod c (2 ^ 32) ltac:(lia)).
  pose proof (Z.mod_pos_bound d (2 ^ 32) ltac:(lia)). pose proof (Z.mod_pos_bound c (2 ^ 32) ltac:(lia)).
  destruct (Z.eqb_spec (c / 2 ^ 32) (d / 2 ^ 32)); lia.
Qed.

Lemma cycle_read_twice_witness :
  cycle_high 0x1ffffffff * 2 ^ 32 + cycle_low 0x200000001 = 0x100000001.
Proof. apply (cycle_read_twice 0x1ffffffff 0x200000001); lia. Defined.

(** ** gtod.c *)

Inductive g_act := GOut (line : list byte) | GErr (line : list byte).

Definition gtod_sn (tv : timeval) : Z := s64 ((tv_sec tv - 1144765785) * 1000 + tv_usec tv).

(** [now]: gettimeofday, which may fail. *)
Definition gtod_main (now : option timeval) : run g_act Z :=
  match now with
  | None => emit (GErr (bs "couldn't get time of day" ++ [LF])) ;;; stop (Exit 1)
  | Some tv =>
      emit (GOut (bs "S: " ++ fmt_0 15 (tv_sec tv) ++ [LF])) ;;;
      emit (GOut (bs "U: " ++ fmt_0 15 (tv_usec tv) ++ [LF])) ;;;
      emit (GOut (bs "TS: " ++ fmt_d (gtod_sn tv) ++ [LF])) ;;;
      ret 0
  end.

Example gtod_demo :
  gtod_main (Some (mk_tv 1144765786 500)) =
    ([GOut (bs "S: 000001144765786" ++ [LF]); GOut (bs "U: 000000000000500" ++ [LF]);
      GOut (bs "TS: 1500" ++ [LF])], Ok 0).
Proof. vm_compute. reflexivity. Qed.

(** TS adds microseconds to milliseconds: across the end of a second it goes back. *)
Theorem gtod_goes_back sec us us' :
  0 <= sec < 2 ^ 32 -> 0 <= us' -> us' + 1000 < us < 1000000 ->
  micros (mk_tv sec us) < micros (mk_tv (sec + 1) us') /\
  gtod_sn (mk_tv (sec + 1) us') < gtod_sn (mk_tv sec us).
Proof.
  intros Hs Hu Hus. unfold micros, gtod_sn. cbn [tv_sec tv_usec]. split; [lia |].
  assert (forall z, - 2 ^ 63 <= z < 2 ^ 63 -> s64 z = z) as S64 by (intros; by apply wraps_small).
  rewrite !S64 by lia. lia.
Qed.

Lemma gtod_goes_back_witness :
  micros (mk_tv 1144765785 999999) < micros (mk_tv (1144765785 + 1) 0) /\
  gtod_sn (mk_tv (1144765785 + 1) 0) < gtod_sn (mk_tv 1144765785 999999).
Proof. apply (gtod_goes_back 1144765785 999999 0); lia. Defined.
