(* ===== verification/Logd.v ===== *)
(** src/src/logd/logd.c: the collector.

    logd reads records from its clients, shifts their time stamps by the
    difference of the clocks, and appends them to the log file.  Each connected
    descriptor has a relay buffer of RELAY_BUF bytes.  A channel keeps the first
    [b_end] bytes of that buffer ([None] after free(3)); what lies beyond is never
    meaningful, so a header that makes thaw2 read past them is [Undef] here.

    The kernel is an argument: the answers to the writes, the times gettimeofday
    reports, and for each descriptor served what accept(2) or read(2) gives. *)
From S2P Require Import Prelude CInt CString Config Fmt Binlog.

Definition RELAY_BUF : Z := 4 * 1024 * 1024.
Definition FD_SETSIZE : Z := 1024.

Record chan := mk_chan {
  relay : option (list byte);
  b_end : Z;                   (* unsigned int *)
  avail : Z;                   (* unsigned int *)
  timediff : timeval
}.

Record logd := mk_logd {
  chans : gmap Z chan;
  infd : Z;
  outfd : Z;
  active_fd_set : gset Z;
  nfds : Z
}.

(** What is left of the kernel's answers. *)
Record env := mk_env { wr : list Z; clock : list timeval }.

Inductive logd_eff := Wrote (fd : Z) (b : list byte) | Closed (fd : Z).
Abbreviation logd_run := (run logd_eff).

#[global] Instance timeval_eq_dec : EqDecision timeval.
Proof. solve_decision. Defined.

Definition init_chan : chan := mk_chan None 0 RELAY_BUF (mk_tv 0 0).
Definition get_chan (st : logd) (i : Z) : chan := default init_chan (chans st !! i).
Definition set_chan (st : logd) (i : Z) (c : chan) : logd :=
  mk_logd (<[i := c]> (chans st)) (infd st) (outfd st) (active_fd_set st) (nfds st).
Definition set_infd (st : logd) (i : Z) : logd :=
  mk_logd (chans st) i (outfd st) (active_fd_set st) (nfds st).
Definition set_active (st : logd) (s : gset Z) (n : Z) : logd :=
  mk_logd (chans st) (infd st) (outfd st) s n.
Definition set_diff (c : chan) (d : timeval) : chan :=
  mk_chan (relay c) (b_end c) (avail c) d.

(** ** sys/time.h *)

Definition timerisset (t : timeval) : bool := negb (tv_sec t =? 0) || negb (tv_usec t =? 0).
Definition timersub (a b : timeval) : timeval :=
  let s := tv_sec a - tv_sec b in
  let u := tv_usec a - tv_usec b in
  if u <? 0 then mk_tv (s - 1) (u + 1000000) else mk_tv s u.
Definition timeradd (a b : timeval) : timeval :=
  let s := tv_sec a + tv_sec b in
  let u := tv_usec a + tv_usec b in
  if 1000000 <=? u then mk_tv (s + 1) (u - 1000000) else mk_tv s u.

Definition set_relay (c : chan) (r : option (list byte)) : chan :=
  mk_chan r (b_end c) (avail c) (timediff c).

(** ** The operations *)

Definition record_timediff (infd : Z) (clk : list timeval) (lentry : logentry_frozen)
    (c : chan) : logd_run (chan * list timeval) :=
  if infd =? -1 then ret (c, clk) else
  match clk with
  | [] => stop Pending
  | localtime :: clk' =>
      let remotetime := mk_tv (fz_cycle_high lentry) (fz_cycle_low lentry) in
      ret (set_diff c (timersub localtime remotetime), clk')
  end.

Definition set_cycles (fz : logentry_frozen) (h l : Z) : logentry_frozen :=
  mk_frozen (fz_tid fz) (fz_pid fz) h l (fz_sc fz) (fz_rv fz) (fz_nm fz) (fz_arg_len fz)
    (fz_str_len fz) (fz_padding fz).

(** The record with the difference applied. *)
Definition restamp (d : timeval) (le : logentry_thaw) : logentry_thaw :=
  let remotetime := mk_tv (fz_cycle_high (th_fz le)) (fz_cycle_low (th_fz le)) in
  let newtime := timeradd remotetime d in
  mk_thaw (set_cycles (th_fz le) (u32 (tv_sec newtime)) (u32 (tv_usec newtime)))
    (th_str le) (th_arg le).

(** The bytes kept after a write of [t] bytes of a record of [size] bytes: the
    copy loop moves [b_end - size] bytes down by [t], then [b_end] drops by [t]. *)
Definition relay_shift (l : list byte) (size t : Z) : list byte :=
  let n := zlen l - size in
  ztake (zlen l - t) (ztake n (zdrop t l) ++ zdrop n l).

(** The while loop of transfer_out on the channel of [infd].  Every turn but the
    last consumes an answer to a write. *)
Fixpoint transfer_loop (ans : list Z) (outfd infd : Z) (clk : list timeval) (c : chan)
    (mem : list byte) : logd_run (chan * env) :=
  if b_end c <? sizeof_frozen then ret (c, mk_env ans clk) else
  let! frozen := thaw1 mem in
  let! (c, clk) :=
    (if negb (timerisset (timediff c)) then record_timediff infd clk frozen c
     else ret (c, clk)) in
  let size := u32 (frozen_size frozen) in
  if b_end c <? size then ret (c, mk_env ans clk) else
  let! logentry := thaw2 (zdrop sizeof_frozen mem) frozen (s32 (size - sizeof_frozen)) in
  let logentry := restamp (timediff c) logentry in
  let! buf := freeze (replicate (Z.to_nat size) NUL) logentry (s32 size) in
  match ans with
  | [] => stop Pending
  | w :: ans' =>
      let t := kwrite w size in
      if t =? -1 then stop (Exit 1) else
      emit (Wrote outfd (ztake t buf)) ;;;
      if 0 <? t then
        let mem' := relay_shift mem size t in
        transfer_loop ans' outfd infd clk
          (mk_chan (Some mem') (u32 (b_end c - t)) (u32 (avail c + t)) (timediff c)) mem'
      else transfer_loop ans' outfd infd clk c mem
  end.

Definition transfer_out (st : logd) (e : env) : logd_run (logd * env) :=
  let c := get_chan st (infd st) in
  match relay c with
  | None => ret (st, e)
  | Some mem =>
      if outfd st <? 0 then ret (st, e) else
      let! (c, e) := transfer_loop (wr e) (outfd st) (infd st) (clock e) c mem in
      ret (set_chan st (infd st) c, e)
  end.

Definition transfer_in (st : logd) (e : env) (r : option (list byte)) :
    logd_run (Z * logd * env) :=
  if infd st <? 0 then ret (-1, st, e) else
  let c := get_chan st (infd st) in
  match relay c with
  | None => ret (-1, st, e)
  | Some mem =>
      match kread r (avail c) with
      | Some [] => ret (0, st, e)
      | None => ret (-1, st, e)
      | Some l =>
          let inn := zlen l in
          let c := mk_chan (Some (mem ++ l)) (u32 (b_end c + inn)) (u32 (avail c - inn))
                     (timediff c) in
          let st := set_chan st (infd st) c in
          let! (st, e) :=
            (if sizeof_frozen <? b_end c then transfer_out st e else ret (st, e)) in
          ret (inn, st, e)
      end
  end.

(** What the kernel has for a ready descriptor. *)
Inductive fd_answer := AAccept (status : Z) | ARead (r : option (list byte)).

(** The body of the service loop for a ready descriptor [i].  calloc(3) leaves
    zeros under the [b_end] the descriptor's last connection left. *)
Definition serve (sock i : Z) (a : fd_answer) (st : logd) (e : env) :
    logd_run (logd * env) :=
  if i =? sock then
    match a with
    | AAccept status =>
        if status <? 0 then stop (Exit 1) else
        check (status <? FD_SETSIZE) ;;;
        let c := get_chan st status in
        let c := mk_chan (Some (replicate (Z.to_nat (b_end c)) NUL)) (b_end c) (avail c)
                   (timediff c) in
        let st := set_chan st status c in
        ret (set_active st ({[status]} ∪ active_fd_set st)
               (if nfds st <=? status then status + 1 else nfds st), e)
    | ARead _ => stop Pending
    end
  else
    match a with
    | ARead r =>
        let st := set_infd st i in
        let! (n, st, e) := transfer_in st e r in
        let! (st, e) :=
          (if n <=? 0 then
             emit (Closed i) ;;;
             let st := set_active st (active_fd_set st ∖ {[i]})
                         (if i =? nfds st then nfds st - 1 else nfds st) in
             let! (st, e) := transfer_out st e in
             let c := get_chan st i in
             ret (set_chan st i (mk_chan None (b_end c) (avail c) (timediff c)), e)
           else ret (st, e)) in
        ret (set_infd st (-1), e)
    | AAccept _ => stop Pending
    end.

(** The for loop over the descriptors: [n] iterations at most, [left] the
    ready descriptors select(2) announced and not yet served. *)
Fixpoint serve_loop (n : nat) (sock i : Z) (ready : gmap Z fd_answer) (left : Z)
    (st : logd) (e : env) : logd_run (logd * env) :=
  match n with
  | O => ret (st, e)
  | S n' =>
      if i <? nfds st then
        match ready !! i with
        | Some a =>
            let! (st, e) := serve sock i a st e in
            if left - 1 =? 0 then ret (st, e)
            else serve_loop n' sock (i + 1) ready (left - 1) st e
        | None => serve_loop n' sock (i + 1) ready left st e
        end
      else ret (st, e)
  end.

(** One turn of main's while(1): what select(2) answers, then the service loop.
    Descriptors are below FD_SETSIZE, so that many turns are enough. *)
Definition serve_round (sock : Z) (ready : option (gmap Z fd_answer)) (st : logd) (e : env) :
    logd_run (logd * env) :=
  match ready with
  | None => stop (Exit 1)
  | Some m => serve_loop (Z.to_nat FD_SETSIZE) sock 0 m (Z.of_nat (size m)) st e
  end.

(** main's while(1) over what select(2) answers. *)
Fixpoint serve_rounds (sock : Z) (rounds : list (option (gmap Z fd_answer))) (st : logd) (e : env) :
    logd_run (logd * env) :=
  match rounds with
  | [] => ret (st, e)
  | ready :: rounds =>
      let! (st, e) := serve_round sock ready st e in serve_rounds sock rounds st e
  end.

(** The SIGINT handler. *)
Definition sig_ (st : logd) : logd_run unit :=
  (if outfd st <? 0 then ret tt else
     (if 0 <=? infd st then emit (Closed (infd st)) else ret tt) ;;;
     (Closed <$> elements (active_fd_set st), Ok tt) ;;;
     emit (Closed (outfd st))) ;;;
  stop (Exit 0).

Definition create_socket (socket_rv : Z) (bind_ok : bool) : Z :=
  if socket_rv <? 0 then -1 else if bind_ok then socket_rv else -1.

(** main up to its loop: the state it starts with and the listening socket, which
    the pipe mode leaves as it finds it ([junk]). *)
Definition logd_start (argc junk : Z) (fifo_made : bool) (fifo_fd socket_rv : Z)
    (bind_ok listen_ok : bool) (out_fd : Z) : logd_run (Z * logd) :=
  if negb (argc =? 2) && negb (argc =? 3) then stop (Exit 1) else
  let st0 := mk_logd ∅ (-1) (-1) ∅ 0 in
  let! (sock, st) :=
    (if argc =? 2 then
       (if negb fifo_made then stop (Exit 1) else ret tt) ;;;
       if fifo_fd <? 0 then stop (Exit 1) else
       check (fifo_fd <? FD_SETSIZE) ;;;
       let st := set_chan (set_infd st0 fifo_fd) fifo_fd
                   (mk_chan (Some []) 0 RELAY_BUF (mk_tv 0 0)) in
       ret (junk, set_active st {[fifo_fd]} (fifo_fd + 1))
     else
       let sock := create_socket socket_rv bind_ok in
       if (sock <? 0) || negb listen_ok then stop (Exit 1) else
       check (sock <? FD_SETSIZE) ;;;
       ret (sock, set_active st0 {[sock]} (sock + 1))) in
  if out_fd <? 0 then stop (Exit 1) else
  ret (sock, mk_logd (chans st) (infd st) out_fd (active_fd_set st) (nfds st)).

(** ** Records with a shifted stamp *)

Lemma restamp_wf d le : wf_entry le -> wf_entry (restamp d le).
Proof.
  intros ((?&?&_&_&?&?&?&?&?&?)&Hr). split; [| exact Hr]. unfold wf_frozen.
  cbn [restamp set_cycles th_fz fz_tid fz_pid fz_cycle_high fz_cycle_low fz_sc
    fz_rv fz_nm fz_arg_len fz_str_len fz_padding].
  split_and!; try assumption; by apply wrapu_range.
Qed.

Lemma restamp_size d le : frozen_size (th_fz (restamp d le)) = frozen_size (th_fz le).
Proof. done. Qed.

Lemma restamp_canon d le : restamp d (canon le) = canon (restamp d le).
Proof. done. Qed.

Lemma restamp_bytes d le :
  wf_entry le -> entry_bytes (restamp d (canon le)) = entry_bytes (restamp d le).
Proof. intros. rewrite restamp_canon. by apply entry_bytes_canon, restamp_wf. Qed.

(** What a connection may leave in its relay buffer: a cut record, or nothing. *)
Definition incomplete (tail : list byte) : Prop :=
  exists le rest, wf_entry le /\ rest <> [] /\ entry_bytes le = tail ++ rest.

Lemma relay_shift_full l k : relay_shift (l ++ k) (zlen l) (zlen l) = k.
Proof.
  unfold relay_shift. rewrite zlen_app. pose proof (zlen_nonneg k). pose proof (zlen_nonneg l).
  rewrite (zdrop_app_exact _ l) by done.
  rewrite (ztake_all _ k) by lia. rewrite ztake_app_exact; [done | lia].
Qed.

(** Writes that take a whole record. *)
Definition full_writes (ans : list Z) : Prop := Forall (fun w => 65536 <= w) ans.

Lemma frozen_size_small le : wf_entry le -> 32 <= frozen_size (th_fz le) < 65536.
Proof.
  intros (Hf & Ha & Hn & _). rewrite frozen_size_val by done.
  destruct Hf as (_&_&_&_&_&_&_&_&Hs&_). unfold is_s in Hs. lia.
Qed.

(** One record through transfer_loop. *)
Lemma transfer_step w ans ofd ifd clk c le more :
  wf_entry le -> 65536 <= w -> timerisset (timediff c) = true ->
  b_end c = zlen (entry_bytes le ++ more) -> zlen (entry_bytes le ++ more) <= RELAY_BUF ->
  b_end c + avail c = RELAY_BUF ->
  transfer_loop (w :: ans) ofd ifd clk c (entry_bytes le ++ more) =
    (emit (Wrote ofd (entry_bytes (restamp (timediff c) le))) ;;;
     transfer_loop ans ofd ifd clk
       (mk_chan (Some more) (zlen more) (RELAY_BUF - zlen more) (timediff c)) more).
Proof.
  intros Hle Hw Hd Hb Hm Ha. pose proof (zlen_entry_bytes le Hle) as Hsz.
  pose proof (frozen_size_small le Hle) as Hlt. unfold RELAY_BUF in *.
  rewrite zlen_app, Hsz in *. pose proof (zlen_nonneg more).
  cbn [transfer_loop]. change sizeof_frozen with 32.
  destruct (Z.ltb_spec (b_end c) 32); [lia |].
  rewrite thaw1_ok, bind_ret_l, Hd by done. cbn [negb]. cbv zeta. rewrite bind_ret_l.
  rewrite u32_small by lia. destruct (Z.ltb_spec (b_end c) (frozen_size (th_fz le))); [lia |].
  rewrite (s32_small (frozen_size _ - 32)) by lia.
  assert (zdrop 32 (entry_bytes le ++ more) =
    args_bytes (entry_args le) ++ entry_str le ++ more) as ->.
  { unfold entry_bytes. rewrite <- !app_assoc. apply zdrop_app_exact.
    symmetry. apply zlen_frozen_bytes, Hle. }
  rewrite thaw2_ok, bind_ret_l by done.
  rewrite s32_small, freeze_ok, bind_ret_l, restamp_bytes; try done; try lia.
  2:{ apply restamp_wf. by apply canon_wf. }
  2:{ rewrite zlen_replicate. change (frozen_size (th_fz (restamp (timediff c) (canon le))))
        with (frozen_size (th_fz le)). lia. }
  unfold kwrite. destruct (Z.ltb_spec w 0); [lia |]. rewrite Z.min_r by lia.
  destruct (Z.eqb_spec (frozen_size (th_fz le)) (-1)); [lia |].
  destruct (Z.ltb_spec 0 (frozen_size (th_fz le))); [| lia].
  rewrite (ztake_all _ (entry_bytes (restamp _ _)))
    by (rewrite zlen_entry_bytes by (by apply restamp_wf); rewrite restamp_size; lia).
  rewrite <- Hsz, relay_shift_full, !u32_small by lia.
  replace (b_end c - zlen (entry_bytes le)) with (zlen more) by lia.
  replace (avail c + zlen (entry_bytes le)) with (4 * 1024 * 1024 - zlen more) by lia. done.
Qed.

(** What transfer_loop does with nothing complete in the buffer. *)
Lemma transfer_stop ans ofd ifd clk c tail :
  incomplete tail -> timerisset (timediff c) = true -> b_end c = zlen tail ->
  transfer_loop ans ofd ifd clk c tail = ret (c, mk_env ans clk).
Proof.
  intros (le & rest & Hle & Hr & E) Hd Hb. pose proof (zlen_entry_bytes le Hle) as Hsz.
  pose proof (frozen_size_small le Hle) as Hlt. rewrite E, zlen_app in Hsz.
  assert (0 < zlen rest).
  { pose proof (zlen_nonneg rest). destruct (Z.eq_dec (zlen rest) 0) as [E0 |]; [| lia].
    by apply zlen_0_inv in E0. }
  assert (32 <= zlen tail -> thaw1 (W:=logd_eff) tail = ret (th_fz le)) as Hfz.
  { intros H32. unfold thaw1. change sizeof_frozen with 32. rewrite load_ok by lia.
    rewrite bind_ret_l, zdrop_0. f_equal.
    rewrite <- (ztake_app_le _ tail rest), <- E by lia. unfold entry_bytes.
    rewrite ztake_app_exact by (symmetry; apply zlen_frozen_bytes, Hle).
    rewrite <- (app_nil_r (frozen_bytes _)). apply frozen_of_bytes, Hle. }
  destruct ans; cbn [transfer_loop]; change sizeof_frozen with 32;
    (destruct (Z.ltb_spec (b_end c) 32) as [| H32]; [done |]);
    rewrite Hfz, bind_ret_l, Hd by lia; cbn [negb]; cbv zeta; rewrite bind_ret_l, u32_small by lia;
    (destruct (Z.ltb_spec (b_end c) (frozen_size (th_fz le))); [done | lia]).
Qed.

(** ** A stream of records through one channel *)

Definition stamped (ofd : Z) (d : timeval) (es : list logentry_thaw) : list logd_eff :=
  (fun le => Wrote ofd (entry_bytes (restamp d le))) <$> es.

(** The channel holds [mem]; the buffer is neither over- nor under-counted. *)
Definition chan_holds (c : chan) (mem : list byte) : Prop :=
  relay c = Some mem /\ b_end c = zlen mem /\ b_end c + avail c = RELAY_BUF /\
  zlen mem <= RELAY_BUF.

Lemma incomplete_short tail : incomplete tail -> zlen tail < 65536.
Proof.
  intros (le & rest & Hle & _ & E). pose proof (frozen_size_small le Hle).
  pose proof (zlen_entry_bytes le Hle) as H1. rewrite E in H1. zl.
Qed.

Lemma transfer_stream ans ofd ifd clk c es tail :
  Forall wf_entry es -> incomplete tail -> full_writes ans -> zlen es <= zlen ans ->
  timerisset (timediff c) = true -> chan_holds c (stream_bytes es ++ tail) ->
  exists c', transfer_loop ans ofd ifd clk c (stream_bytes es ++ tail) =
      (stamped ofd (timediff c) es, Ok (c', mk_env (drop (length es) ans) clk)) /\
    chan_holds c' tail /\ timediff c' = timediff c.
Proof.
  intros Hes Ht Hw. revert ans c Hw.
  induction Hes as [| le es Hle Hes IH]; intros ans c Hw Hn Hd (Hr & Hb & Hab & Hm).
  - change (stream_bytes [] ++ tail) with tail in *.
    exists c. rewrite transfer_stop by done. by rewrite drop_0.
  - rewrite stream_bytes_cons, <- app_assoc in *. rewrite zlen_cons in Hn.
    pose proof (zlen_nonneg es).
    destruct ans as [| w ans]; [rewrite zlen_nil in Hn; lia |]. rewrite zlen_cons in Hn.
    apply Forall_cons_1 in Hw as [Hw1 Hw]. rewrite transfer_step by done.
    destruct (IH ans (mk_chan (Some (stream_bytes es ++ tail)) (zlen (stream_bytes es ++ tail))
      (RELAY_BUF - zlen (stream_bytes es ++ tail)) (timediff c))) as (c' & E & Hc' & Hd');
      [done | lia | done | |].
    { unfold chan_holds. cbn [relay b_end avail]. split_and!; try done; try lia.
      rewrite zlen_app in Hm. pose proof (zlen_nonneg (entry_bytes le)). lia. }
    rewrite E. simpl. exists c'. done.
Qed.

(** The first header of a connection fixes its time difference. *)
Lemma transfer_unset ans ofd ifd lt clk c mem fz :
  thaw1 (W:=logd_eff) mem = ret fz -> 32 <= b_end c -> ifd <> -1 ->
  timerisset (timediff c) = false ->
  timerisset (timersub lt (mk_tv (fz_cycle_high fz) (fz_cycle_low fz))) = true ->
  transfer_loop ans ofd ifd (lt :: clk) c mem =
  transfer_loop ans ofd ifd clk
    (set_diff c (timersub lt (mk_tv (fz_cycle_high fz) (fz_cycle_low fz)))) mem.
Proof.
  intros Hf Hb Hi Hd Hd'.
  destruct ans; cbn [transfer_loop]; change sizeof_frozen with 32; cbn [set_diff b_end timediff];
    (destruct (Z.ltb_spec (b_end c) 32) as [| H32]; [lia |]);
    rewrite Hf, !bind_ret_l, Hd, Hd'; cbn [negb]; unfold record_timediff;
    (destruct (Z.eqb_spec ifd (-1)); [done |]); rewrite !bind_ret_l; reflexivity.
Qed.

(** A prefix of a stream of records: whole records, then a cut one. *)
Lemma stream_prefix es mem :
  Forall wf_entry es -> mem `prefix_of` stream_bytes es ->
  exists es2 es3 tail, es = es2 ++ es3 /\ mem = stream_bytes es2 ++ tail /\
    incomplete tail /\ tail `prefix_of` stream_bytes es3.
Proof.
  intros Hes. revert mem. induction Hes as [| le es Hle Hes IH]; intros mem [k Hk].
  - change (stream_bytes []) with (@nil byte) in Hk. symmetry in Hk. apply app_nil in Hk as [-> ->].
    exists [], [], []. split_and!; try done.
    exists (mk_thaw (mk_frozen 0 0 0 0 0 0 0 0 0 (replicate 4 NUL)) None [0; 0; 0]).
    eexists. split_and!; [| | reflexivity]; [| discriminate].
    unfold wf_entry, wf_frozen, is_u, is_s. cbn. split_and!; try lia; try done.
    repeat constructor; lia.
  - rewrite stream_bytes_cons in Hk.
    destruct (Z.le_gt_cases (zlen (entry_bytes le)) (zlen mem)) as [Hl | Hl].
    + destruct (zapp_cut _ _ _ _ (eq_sym Hk) Hl) as [E1 E2].
      destruct (IH (zdrop (zlen (entry_bytes le)) mem)) as (es2 & es3 & tail & -> & E & Hi & Hp);
        [by exists k |].
      exists (le :: es2), es3, tail. split_and!; try done.
      rewrite stream_bytes_cons, <- app_assoc, <- E. rewrite E1 at 1. by rewrite ztake_zdrop.
    + destruct (zapp_cut _ _ _ _ Hk) as [E1 E2]; [lia |].
      exists [], (le :: es), mem. split_and!; try done.
      * exists le, (zdrop (zlen mem) (entry_bytes le)). split_and!; [done | |].
        -- intros E. apply (f_equal zlen) in E. zl.
        -- rewrite E1 at 1. by rewrite ztake_zdrop.
      * rewrite stream_bytes_cons. by exists k.
Qed.

Lemma stream_prefix_header le es mem :
  wf_entry le -> mem `prefix_of` stream_bytes (le :: es) -> 32 <= zlen mem ->
  thaw1 (W:=logd_eff) mem = ret (th_fz le).
Proof.
  intros Hle [k Hk] Hm. rewrite stream_bytes_cons in Hk. unfold entry_bytes in Hk.
  rewrite <- !app_assoc in Hk. pose proof (zlen_frozen_bytes _ (proj1 Hle)) as H32.
  destruct (zapp_cut _ _ _ _ (eq_sym Hk)) as [E1 _]; [lia |].
  unfold thaw1. change sizeof_frozen with 32. rewrite load_ok by lia.
  rewrite bind_ret_l, zdrop_0, <- H32, <- E1. f_equal.
  rewrite <- (app_nil_r (frozen_bytes _)). apply frozen_of_bytes, Hle.
Qed.

Definition stamp (le : logentry_thaw) : timeval :=
  mk_tv (fz_cycle_high (th_fz le)) (fz_cycle_low (th_fz le)).

(** A connection in progress: [mem] is buffered, the records [es] are still to be
    written, and the time difference is either fixed to [d] or still to be taken
    from the first of them, at the local time [lt]. *)
Definition conn (d lt : timeval) (clk0 clk : list timeval) (es : list logentry_thaw)
    (c : chan) (mem : list byte) : Prop :=
  chan_holds c mem /\ mem `prefix_of` stream_bytes es /\
  ((timediff c = d /\ clk = clk0) \/
   (timediff c = mk_tv 0 0 /\ clk = lt :: clk0 /\
    exists e1 es', es = e1 :: es' /\ d = timersub lt (stamp e1))).

Section connection.
Context (d lt : timeval) (clk0 : list timeval).
Context (Hd : timerisset d = true).

Lemma conn_set ans ofd ifd es c mem :
  Forall wf_entry es -> full_writes ans -> zlen es <= zlen ans ->
  chan_holds c mem -> mem `prefix_of` stream_bytes es -> timediff c = d ->
  exists es2 es3 c' mem',
    transfer_loop ans ofd ifd clk0 c mem =
      (stamped ofd d es2, Ok (c', mk_env (drop (length es2) ans) clk0)) /\
    es = es2 ++ es3 /\ mem = stream_bytes es2 ++ mem' /\ incomplete mem' /\
    conn d lt clk0 clk0 es3 c' mem' /\ timediff c' = d.
Proof.
  intros Hes Hw Hn Hc Hp E.
  destruct (stream_prefix es mem Hes Hp) as (es2 & es3 & tail & -> & -> & Hi & Hp3).
  apply Forall_app in Hes as [Hes2 Hes3]. rewrite zlen_app in Hn. pose proof (zlen_nonneg es3).
  destruct (transfer_stream ans ofd ifd clk0 c es2 tail) as (c' & El & Hc' & Ed);
    try done; [lia | by rewrite E |].
  exists es2, es3, c', tail. rewrite E in *. split_and!; try done.
  split_and!; try apply Hc'; try done. by left.
Qed.

Lemma conn_transfer ans ofd ifd clk es c mem :
  Forall wf_entry es -> full_writes ans -> zlen es <= zlen ans -> ifd <> -1 ->
  conn d lt clk0 clk es c mem ->
  exists es2 es3 c' mem' clk',
    transfer_loop ans ofd ifd clk c mem =
      (stamped ofd d es2, Ok (c', mk_env (drop (length es2) ans) clk')) /\
    es = es2 ++ es3 /\ mem = stream_bytes es2 ++ mem' /\ incomplete mem' /\
    conn d lt clk0 clk' es3 c' mem' /\ clk' `suffix_of` clk /\ (timediff c' = d \/ es2 = []).
Proof.
  intros Hes Hw Hn Hi Hconn. pose proof Hconn as (Hc & Hp & [[E ->] | (E & -> & e1 & es' & -> & Ed)]).
  { destruct (conn_set ans ofd ifd es c mem) as (es2 & es3 & c' & mem' & ?); try done.
    exists es2, es3, c', mem', clk0. naive_solver. }
  destruct (Z.lt_ge_cases (zlen mem) 32) as [H32 | H32].
  - exists [], (e1 :: es'), c, mem, (lt :: clk0). destruct Hc as (? & Hb & ?).
    split_and!; try done.
    + destruct ans; cbn [transfer_loop]; change sizeof_frozen with 32;
        (destruct (Z.ltb_spec (b_end c) 32); [done | lia]).
    + destruct (stream_prefix _ mem Hes Hp) as (es2 & es3 & tail & E2 & -> & Hinc & _).
      destruct es2 as [| e2 es2]; [done |]. injection E2 as <- ->. exfalso.
      apply Forall_cons_1 in Hes as [He2 _]. pose proof (frozen_size_small e1 He2).
      rewrite stream_bytes_cons, !zlen_app, zlen_entry_bytes in H32 by done. zl.
    + by right.
  - pose proof Hes as He1. apply Forall_cons_1 in He1 as [He1 _]. unfold stamp in Ed.
    pose proof (stream_prefix_header e1 es' mem He1 Hp H32) as Ef. destruct Hc as (Hr & Hb & Hab).
    rewrite (transfer_unset ans ofd ifd lt clk0 c mem (th_fz e1)), <- Ed;
      [| done | lia | done | by rewrite E | by rewrite <- Ed].
    destruct (conn_set ans ofd ifd (e1 :: es') (set_diff c d) mem) as (es2 & es3 & c' & mem' & ?);
      try done.
    exists es2, es3, c', mem', clk0. split_and!; try naive_solver. by exists [lt].
Qed.
End connection.

(** ** A whole connection *)

Fixpoint serve_all (sock : Z) (l : list (Z * fd_answer)) (st : logd) (e : env) :
    logd_run (logd * env) :=
  match l with
  | [] => ret (st, e)
  | (i, a) :: l' => let! (st, e) := serve sock i a st e in serve_all sock l' st e
  end.

Lemma serve_all_app sock l k st e :
  serve_all sock (l ++ k) st e =
  (let! (st, e) := serve_all sock l st e in serve_all sock k st e).
Proof.
  revert st e; induction l as [| [i a] l IH]; intros st e; cbn [app serve_all].
  - by rewrite bind_ret_l.
  - destruct (serve sock i a st e) as [w [[st1 e1] | c]]; [| done]. cbn [bind]. rewrite IH.
    destruct (serve_all sock l st1 e1) as [w' [[st2 e2] | c]]; cbn [bind]; [| done].
    destruct (serve_all sock k st2 e2) as [w2 r]. by rewrite app_assoc.
Qed.

(** What reaches the log file. *)
Definition written (out : list logd_eff) : list byte :=
  concat ((fun x => match x with Wrote _ b => b | Closed _ => [] end) <$> out).

Lemma written_app a b : written (a ++ b) = written a ++ written b.
Proof. unfold written. by rewrite fmap_app, concat_app. Qed.

Lemma written_stamped ofd d es : written (stamped ofd d es) = stream_bytes (restamp d <$> es).
Proof. unfold written, stamped, stream_bytes. by rewrite <- !list_fmap_compose. Qed.

Lemma complete_not_incomplete le x : wf_entry le -> ~ incomplete (entry_bytes le ++ x).
Proof.
  intros Hle (le' & rest & Hle' & Hr & E).
  pose proof (thaw1_ok (W:=unit) le (x ++ rest) Hle) as H1.
  pose proof (thaw1_ok (W:=unit) le' [] Hle') as H2.
  rewrite app_assoc, <- E in H1. rewrite app_nil_r, H1 in H2. injection H2 as H2.
  apply (f_equal zlen) in E. rewrite !zlen_app, !zlen_entry_bytes, H2 in E by done.
  destruct rest; [done |]. rewrite zlen_cons in E. zl.
Qed.

Lemma get_set_infd st k i : get_chan (set_infd st k) i = get_chan st i.
Proof. done. Qed.

Lemma get_set_chan st i c : get_chan (set_chan st i c) i = c.
Proof. unfold get_chan, set_chan. cbn [chans]. by rewrite lookup_insert_eq. Qed.

Section serving.
Context (d lt : timeval) (clk0 : list timeval) (Hd : timerisset d = true).
Context (sock i : Z) (Hsock : i <> sock) (Hi : 0 <= i).

(** The state of logd between two services of the connection on [i]. *)
Definition conn_at (st : logd) (e : env) (es : list logentry_thaw) (mem : list byte) : Prop :=
  0 <= outfd st /\ conn d lt clk0 (clock e) es (get_chan st i) mem /\
  Forall wf_entry es /\ full_writes (wr e) /\ zlen es <= zlen (wr e).

(** Serving writes [n] records and keeps the rest of the kernel's answers. *)
Definition moved (st : logd) (e : env) (n : nat) (st' : logd) (e' : env) : Prop :=
  outfd st' = outfd st /\ wr e' = drop n (wr e) /\ clock e' `suffix_of` clock e.

Lemma moved_refl st e : moved st e 0 st e.
Proof. done. Qed.

Lemma moved_trans st e n st1 e1 m st2 e2 :
  moved st e n st1 e1 -> moved st1 e1 m st2 e2 -> moved st e (n + m) st2 e2.
Proof.
  intros (O1 & W1 & C1) (O2 & W2 & C2). unfold moved.
  split_and!; [congruence | by rewrite W2, W1, drop_drop | by etrans].
Qed.

(** The channel of [i] holds its whole stream or goes on through transfer_out. *)
Lemma transfer_out_conn st e es mem :
  infd st = i -> conn_at st e es mem ->
  exists es2 es3 mem' st' e',
    transfer_out st e = (stamped (outfd st) d es2, Ok (st', e')) /\
    es = es2 ++ es3 /\ mem = stream_bytes es2 ++ mem' /\ incomplete mem' /\
    conn_at st' e' es3 mem' /\ infd st' = i /\ moved st e (length es2) st' e' /\
    (timediff (get_chan st' i) = d \/ es2 = []).
Proof.
  intros Hinf (Ho & Hc & Hes & Hw & Hn). unfold transfer_out. rewrite Hinf.
  pose proof Hc as ((Hr & _) & _). rewrite Hr. destruct (Z.ltb_spec (outfd st) 0); [lia |].
  destruct (conn_transfer d lt clk0 Hd (wr e) (outfd st) i (clock e) es (get_chan st i) mem)
    as (es2 & es3 & c' & mem' & clk' & E & -> & -> & Hinc & Hc' & Hclk & Ht); try done; [lia |].
  rewrite E. simpl. rewrite app_nil_r.
  eexists es2, es3, mem', _, _. split_and!; try done; [| by rewrite get_set_chan].
  apply Forall_app in Hes as [_ Hes3].
  unfold conn_at. rewrite get_set_chan. cbn [wr clock]. split_and!; try done.
  - by apply Forall_drop.
  - rewrite zlen_app in Hn. unfold zlen in *. rewrite length_drop. lia.
Qed.

Lemma transfer_in_conn st e es mem l :
  infd st = i -> conn_at st e es mem -> zlen mem < 65536 ->
  0 < zlen l <= RELAY_BUF - 65536 -> (mem ++ l) `prefix_of` stream_bytes es ->
  exists es2 es3 mem' st' e',
    transfer_in st e (Some l) = (stamped (outfd st) d es2, Ok (zlen l, st', e')) /\
    es = es2 ++ es3 /\ mem ++ l = stream_bytes es2 ++ mem' /\ zlen mem' < 65536 /\
    conn_at st' e' es3 mem' /\ moved st e (length es2) st' e' /\
    (timediff (get_chan st' i) = d \/ es2 = []).
Proof.
  intros Hinf (Ho & Hc & Hes & Hw & Hn) Hm Hl Hp. pose proof (zlen_nonneg mem).
  pose proof Hc as ((Hr & Hb & Hab & _) & _ & Hdiff). unfold transfer_in. rewrite Hinf.
  destruct (Z.ltb_spec i 0); [lia |]. rewrite Hr. unfold RELAY_BUF in *.
  unfold kread. simpl fmap. rewrite ztake_all by lia.
  destruct l as [| b l]; [unfold zlen in Hl; simpl in Hl; lia |]. set (k := b :: l) in *.
  clearbody k. rewrite !u32_small by lia.
  set (c1 := mk_chan _ _ _ _). set (st1 := set_chan st i c1).
  assert (conn_at st1 e es (mem ++ k)) as H1.
  { unfold conn_at, st1. rewrite get_set_chan. split_and!; try done.
    split_and!; try done; unfold c1, chan_holds, RELAY_BUF; cbn [relay b_end avail timediff].
    split_and!; try done; zl. }
  destruct (Z.ltb_spec sizeof_frozen (b_end c1)) as [Hbig | Hsmall].
  - destruct (transfer_out_conn st1 e es (mem ++ k)) as (es2 & es3 & mem' & st' & e' & E & ?&?&Hi'&?&?&?&?);
      try done.
    rewrite E. simpl. rewrite app_nil_r. exists es2, es3, mem', st', e'.
    split_and!; try done. by apply incomplete_short.
  - rewrite !bind_ret_l. exists [], es, (mem ++ k), st1, e. split_and!; try done; [| by right].
    cbn [c1 b_end] in Hsmall. unfold sizeof_frozen in *. zl.
Qed.

Lemma set_infd_conn st e es mem k : conn_at st e es mem -> conn_at (set_infd st k) e es mem.
Proof. done. Qed.

Lemma serve_chunk st e es mem l :
  conn_at st e es mem -> zlen mem < 65536 ->
  0 < zlen l <= RELAY_BUF - 65536 -> (mem ++ l) `prefix_of` stream_bytes es ->
  exists es2 es3 mem' st' e',
    serve sock i (ARead (Some l)) st e = (stamped (outfd st) d es2, Ok (st', e')) /\
    es = es2 ++ es3 /\ mem ++ l = stream_bytes es2 ++ mem' /\ zlen mem' < 65536 /\
    conn_at st' e' es3 mem' /\ moved st e (length es2) st' e' /\
    (timediff (get_chan st' i) = d \/ es2 = []).
Proof.
  intros Hc Hm Hl Hp. unfold serve. destruct (Z.eqb_spec i sock); [done |].
  destruct (transfer_in_conn (set_infd st i) e es mem l) as (es2&es3&mem'&st'&e'&E&?&?&?&Hc'&Ho&Ht);
    try done.
  rewrite E. simpl. destruct (Z.leb_spec (zlen l) 0); [lia |]. simpl. rewrite app_nil_r.
  eexists es2, es3, mem', _, _. split_and!; done.
Qed.

Lemma serve_chunks chunks st e es mem :
  conn_at st e es mem -> zlen mem < 65536 ->
  Forall (fun l => 0 < zlen l <= RELAY_BUF - 65536) chunks ->
  (mem ++ concat chunks) `prefix_of` stream_bytes es ->
  exists es2 es3 mem' st' e',
    serve_all sock ((fun l => (i, ARead (Some l))) <$> chunks) st e =
      (stamped (outfd st) d es2, Ok (st', e')) /\
    es = es2 ++ es3 /\ mem ++ concat chunks = stream_bytes es2 ++ mem' /\ zlen mem' < 65536 /\
    conn_at st' e' es3 mem' /\ moved st e (length es2) st' e'.
Proof.
  intros Hc Hm Hch. revert st e es mem Hc Hm. induction Hch as [| l chunks Hl Hch IH];
    intros st e es mem Hc Hm Hp.
  - exists [], es, mem, st, e. split_and!; try done. apply app_nil_r.
  - simpl in Hp. rewrite app_assoc in Hp.
    destruct (serve_chunk st e es mem l) as (es2&es3&mem'&st'&e'&E&->&E2&Hm'&Hc'&Ho&_); try done.
    { etrans; [by apply prefix_app_r | exact Hp]. }
    destruct (IH st' e' es3 mem' Hc' Hm') as (es4&es5&mem2&st2&e2&E3&->&E4&Hm2&Hc2&Ho2).
    { rewrite E2, stream_bytes_app, <- app_assoc in Hp. by apply prefix_app_inv in Hp. }
    exists (es2 ++ es4), es5, mem2, st2, e2. split_and!; try done.
    + rewrite fmap_cons. cbn [serve_all]. rewrite E. cbn [bind]. rewrite E3, (proj1 Ho). unfold stamped. by rewrite fmap_app.
    + by rewrite app_assoc.
    + simpl. by rewrite app_assoc, E2, <- app_assoc, E4, stream_bytes_app, app_assoc.
    + rewrite length_app. by eapply moved_trans.
Qed.

(** The client disconnects after its last record: what is buffered goes out, and
    the channel is empty but for its time difference. *)
Lemma serve_end st e es mem :
  conn_at st e es mem -> mem = stream_bytes es ->
  exists out st' e',
    serve sock i (ARead (Some [])) st e = (out, Ok (st', e')) /\
    written out = stream_bytes (restamp d <$> es) /\
    conn d lt clk0 (clock e') [] (set_relay (get_chan st' i) (Some [])) [] /\
    relay (get_chan st' i) = None /\ moved st e (length es) st' e' /\
    (timediff (get_chan st' i) = d \/ es = []).
Proof.
  intros Hc Hm. pose proof Hc as (_ & ((Hr & _) & _) & _ & _ & _).
  unfold serve. destruct (Z.eqb_spec i sock); [done |].
  unfold transfer_in. cbn [set_infd infd]. destruct (Z.ltb_spec i 0); [lia |].
  change (get_chan (set_infd st i) i) with (get_chan st i). rewrite Hr.
  unfold kread. simpl fmap. unfold ztake at 1. rewrite take_nil, !bind_ret_l.
  cbn beta iota. change (0 <=? 0) with true. cbn iota.
  set (st1 := set_active _ _ _).
  destruct (transfer_out_conn st1 e es mem) as (es2&es3&mem'&st'&e'&E&->&E2&Hinc&Hc'&_&Hmv&Htd); try done.
  assert (es3 = []) as ->.
  { rewrite Hm, stream_bytes_app in E2. apply app_inv_head in E2.
    destruct es3 as [| le es3]; [done |]. rewrite stream_bytes_cons in E2. subst mem'.
    destruct Hc' as (_ & _ & Hwf & _). apply Forall_cons_1 in Hwf as [Hle _].
    by destruct (complete_not_incomplete le (stream_bytes es3) Hle). }
  rewrite app_nil_r in *. change (stream_bytes []) with (@nil byte) in *.
  assert (mem' = []) as -> by (by apply prefix_nil_inv, (proj1 (proj2 (proj1 (proj2 Hc'))))).
  rewrite E. simpl. do 3 eexists. split; [reflexivity |].
  rewrite get_set_infd, get_set_chan, !app_nil_r. split_and!; try done.
  - by rewrite <- written_stamped with (ofd := outfd st1).
  - destruct Hc' as (_ & ((Hr' & Hb & Hab & _) & Hp & Ht) & _). cbn [set_relay relay b_end avail timediff] in *.
    split_and!; try done. 
Qed.
End serving.

(** ** The buffer accounting, whatever the clients send and the kernel answers *)

Definition chan_wf (c : chan) : Prop :=
  0 <= b_end c /\ 0 <= avail c /\ b_end c + avail c = RELAY_BUF /\
  (forall l, relay c = Some l -> zlen l = b_end c).

Definition logd_wf (st : logd) : Prop := forall i, chan_wf (get_chan st i).

Lemma init_chan_wf : chan_wf init_chan.
Proof. unfold chan_wf, RELAY_BUF. simpl. split_and!; done. Qed.

Lemma set_chan_wf st i c : logd_wf st -> chan_wf c -> logd_wf (set_chan st i c).
Proof.
  intros H Hc j. unfold get_chan, set_chan. cbn [chans]. destruct (decide (i = j)) as [-> | E].
  - by rewrite lookup_insert_eq.
  - rewrite lookup_insert_ne by done. apply H.
Qed.

Lemma zlen_relay_shift l size t :
  0 <= t <= size -> size <= zlen l -> zlen (relay_shift l size t) = zlen l - t.
Proof. intros. unfold relay_shift. zl. Qed.

Lemma transfer_loop_wf ans ofd ifd clk c mem w c' e :
  transfer_loop ans ofd ifd clk c mem = (w, Ok (c', e)) ->
  chan_wf c -> relay c = Some mem -> chan_wf c' /\ exists mem', relay c' = Some mem'.
Proof.
  revert clk c mem w; induction ans as [| x ans IH]; intros clk c mem w H Hwf Hr;
    cbn [transfer_loop] in H; (destruct (b_end c <? sizeof_frozen); [inv_run; simplify_eq; eauto |]);
    inv_run.
  all: assert (forall c1 clk1 w, (if negb (timerisset (timediff c))
      then record_timediff ifd clk a c else ret (c, clk)) = (w, Ok (c1, clk1)) ->
      relay c1 = relay c /\ b_end c1 = b_end c /\ avail c1 = avail c) as Hrec
    by (intros c1 clk1 ww E; unfold record_timediff in E; repeat case_match; inv_run; simplify_eq;
        done).
  all: destruct a0 as [c1 clk1]; apply Hrec in Hm0 as (E1 & E2 & E3); clear Hrec;
    assert (chan_wf c1) as Hwf1 by (unfold chan_wf in *; by rewrite E1, E2, E3);
    assert (exists mem', relay c1 = Some mem') as Hr1 by (rewrite E1; eauto);
    cbv zeta in H;
    (destruct (Z.ltb_spec (b_end c1) (u32 (frozen_size a))); [inv_run; simplify_eq; done |]);
    inv_run.
  pose proof (u32_range (frozen_size a)) as Hsz. set (size := u32 (frozen_size a)) in *.
  destruct Hwf1 as (Hb & Ha & Hab & Hl). rewrite E1, Hr in Hl. specialize (Hl _ eq_refl).
  destruct (kwrite_range x size) as [Ek | Hk]; [lia | |].
  { rewrite Ek in H. simpl in H. done. }
  destruct (Z.eqb_spec (kwrite x size) (-1)); [lia |]. inv_run.
  unfold RELAY_BUF in *.
  destruct (Z.ltb_spec 0 (kwrite x size)).
  - apply IH in H; [done | | done]. unfold chan_wf, RELAY_BUF. cbn [relay b_end avail].
    rewrite !u32_small by lia. split_and!; try lia. intros l [= <-].
    rewrite zlen_relay_shift by lia. lia.
  - apply IH in H; [done | | by rewrite E1]. unfold chan_wf, RELAY_BUF.
    split_and!; try done. rewrite E1, Hr. intros l [= <-]. done.
Qed.

Lemma transfer_out_wf st e w st' e' :
  transfer_out st e = (w, Ok (st', e')) -> logd_wf st -> logd_wf st'.
Proof.
  unfold transfer_out. intros H Hwf. destruct (relay (get_chan st (infd st))) as [mem |] eqn:Hr;
    [| by inv_run; simplify_eq].
  destruct (outfd st <? 0); [by inv_run; simplify_eq |]. inv_run. destruct a as [c e1].
  inv_run. simplify_eq. apply transfer_loop_wf in Hm as [Hc _]; try done.
  by apply set_chan_wf.
Qed.

Lemma transfer_in_wf st e r w n st' e' :
  transfer_in st e r = (w, Ok (n, st', e')) -> logd_wf st -> logd_wf st'.
Proof.
  unfold transfer_in. intros H Hwf. destruct (infd st <? 0); [by inv_run; simplify_eq |].
  destruct (relay (get_chan st (infd st))) as [mem |] eqn:Hr; [| by inv_run; simplify_eq].
  destruct (kread r (avail (get_chan st (infd st)))) as [[| b l] |] eqn:Hk;
    [by inv_run; simplify_eq | | by inv_run; simplify_eq].
  set (k := b :: l) in *. clearbody k.
  assert (0 <= zlen k <= avail (get_chan st (infd st))) as Hlen.
  { unfold kread in Hk. destruct r as [x |]; simpl in Hk; [| done]. simplify_eq.
    destruct (Hwf (infd st)) as (? & ? & _). zl. }
  cbv zeta in H. destruct (Hwf (infd st)) as (Hb & Ha & Hab & Hl). unfold RELAY_BUF in *.
  rewrite !u32_small in H by lia.
  match type of H with context [set_chan st ?i ?c] => assert (logd_wf (set_chan st i c)) as Hwf1 end.
  { apply set_chan_wf; [done |]. unfold chan_wf, RELAY_BUF. cbn [relay b_end avail].
    split_and!; try lia. intros x [= <-]. rewrite zlen_app, (Hl mem Hr). lia. }
  inv_run. destruct a as [st1 e1]. inv_run. simplify_eq.
  match type of Hm with (if ?b then _ else _) = _ => destruct b end.
  - by apply transfer_out_wf in Hm.
  - inv_run. by simplify_eq.
Qed.

Lemma serve_wf sock i a st e w st' e' :
  serve sock i a st e = (w, Ok (st', e')) -> logd_wf st -> logd_wf st'.
Proof.
  unfold serve. intros H Hwf. destruct (i =? sock).
  - destruct a as [status |]; [| done]. destruct (status <? 0); [done |]. inv_run. simplify_eq.
    match goal with |- logd_wf (set_active ?s _ _) => change (logd_wf s) end.
    apply set_chan_wf; [done |]. destruct (Hwf status) as (Hb&Ha&Hab&_).
    refine (conj Hb (conj Ha (conj Hab _))). cbn [relay b_end]. intros l [= <-].
    rewrite zlen_replicate. lia.
  - destruct a as [| r]; [done |]. inv_run. destruct a as [[n st1] e1].
    apply transfer_in_wf in Hm; [| done]. inv_run. destruct a as [st2 e2]. inv_run. simplify_eq.
    change (logd_wf st2). destruct (n <=? 0); [| by inv_run; simplify_eq].
    inv_run. destruct a0 as [st3 e3].
    match goal with E : transfer_out _ _ = _ |- _ => apply transfer_out_wf in E as Hwf3; [| done] end.
    inv_run. simplify_eq. apply set_chan_wf; [done |]. by destruct (Hwf3 i) as (?&?&?&_).
Qed.

Lemma serve_all_wf sock l st e w st' e' :
  serve_all sock l st e = (w, Ok (st', e')) -> logd_wf st -> logd_wf st'.
Proof.
  revert st e w; induction l as [| [i a] l IH]; intros st e w H Hwf; cbn [serve_all] in H;
    inv_run; [by simplify_eq |].
  destruct a0 as [st1 e1]. eapply IH; [exact H |]. by eapply serve_wf.
Qed.

(** ** Isolation *)

Lemma transfer_out_frame st e w st' e' j :
  transfer_out st e = (w, Ok (st', e')) -> j <> infd st ->
  get_chan st' j = get_chan st j /\ infd st' = infd st /\ outfd st' = outfd st.
Proof.
  unfold transfer_out. intros H Hj. destruct (relay (get_chan st (infd st))) as [mem |];
    [| by inv_run; simplify_eq].
  destruct (outfd st <? 0); [by inv_run; simplify_eq |]. inv_run. destruct a. inv_run. simplify_eq.
  split_and!; try done. unfold get_chan, set_chan. cbn [chans]. by rewrite lookup_insert_ne.
Qed.

Lemma set_chan_frame st i c j : j <> i -> get_chan (set_chan st i c) j = get_chan st j.
Proof. intros. unfold get_chan, set_chan. cbn [chans]. by rewrite lookup_insert_ne. Qed.

Lemma transfer_in_frame st e r w n st' e' j :
  transfer_in st e r = (w, Ok (n, st', e')) -> j <> infd st ->
  get_chan st' j = get_chan st j /\ infd st' = infd st /\ outfd st' = outfd st.
Proof.
  unfold transfer_in. intros H Hj. destruct (infd st <? 0); [by inv_run; simplify_eq |].
  destruct (relay (get_chan st (infd st))); [| by inv_run; simplify_eq].
  destruct (kread r _) as [[| b k] |]; [by inv_run; simplify_eq | | by inv_run; simplify_eq].
  cbv zeta in H. inv_run. destruct a as [st1 e1]. inv_run. simplify_eq.
  match type of Hm with (if ?b then _ else _) = _ => destruct b end.
  - apply (transfer_out_frame _ _ _ _ _ j) in Hm as (E1 & E2 & E3); [| done].
    rewrite E1, E2, E3. by rewrite set_chan_frame.
  - inv_run. simplify_eq. by rewrite set_chan_frame.
Qed.

Lemma serve_frame sock i a st e w st' e' j :
  serve sock i a st e = (w, Ok (st', e')) -> i <> sock -> j <> i ->
  get_chan st' j = get_chan st j /\ outfd st' = outfd st.
Proof.
  unfold serve. intros H Hs Hj. destruct (Z.eqb_spec i sock); [done |].
  destruct a as [| r]; [done |]. inv_run. destruct a as [[n0 st1] e1].
  apply (transfer_in_frame _ _ _ _ _ _ _ j) in Hm as (E1 & E2 & E3); [| done].
  cbn [set_infd infd outfd] in *. apply Z.eqb_eq in E2.
  inv_run. destruct a as [st2 e2]. inv_run. simplify_eq.
  change (get_chan st2 j = get_chan st j /\ outfd st2 = outfd st).
  change (get_chan (set_infd st i) j) with (get_chan st j) in E1.
  destruct (n0 <=? 0); [| inv_run; by simplify_eq].
  inv_run. destruct a0 as [st3 e3]. inv_run. simplify_eq. rewrite set_chan_frame by done.
  match goal with E : transfer_out ?s _ = _ |- _ =>
    apply (transfer_out_frame _ _ _ _ _ j) in E as (F1 & F2 & F3);
      [| cbn [set_active infd]; apply Z.eqb_eq in E2; by rewrite E2] end.
  rewrite F1. split; [exact E1 | exact (eq_trans F3 E3)].
Qed.

(** ** The descriptors select is given *)

Lemma transfer_out_sel st e w st' e' :
  transfer_out st e = (w, Ok (st', e')) ->
  active_fd_set st' = active_fd_set st /\ nfds st' = nfds st.
Proof.
  unfold transfer_out. intros H. destruct (relay (get_chan st (infd st))) as [mem |];
    [| by inv_run; simplify_eq].
  destruct (outfd st <? 0); [by inv_run; simplify_eq |]. inv_run. destruct a. inv_run. by simplify_eq.
Qed.

Lemma transfer_in_sel st e r w n st' e' :
  transfer_in st e r = (w, Ok (n, st', e')) ->
  active_fd_set st' = active_fd_set st /\ nfds st' = nfds st /\
  match kread r (avail (get_chan st (infd st))) with
  | Some l => n = zlen l \/ n = -1 /\ (infd st < 0 \/ relay (get_chan st (infd st)) = None)
  | None => n = -1
  end.
Proof.
  unfold transfer_in. intros H.
  destruct (Z.ltb_spec (infd st) 0); [inv_run; simplify_eq; destruct (kread _ _); naive_solver |].
  destruct (relay (get_chan st (infd st))) eqn:Er; [| inv_run; simplify_eq; destruct (kread _ _); naive_solver].
  destruct (kread r _) as [[| b k] |]; [inv_run; simplify_eq; by auto | | by inv_run; simplify_eq].
  cbv zeta in H. inv_run. destruct a as [st1 e1]. inv_run. simplify_eq.
  match type of Hm with (if ?b then _ else _) = _ => destruct b end.
  - apply transfer_out_sel in Hm as [-> ->]. by auto.
  - inv_run. simplify_eq. by auto.
Qed.

(** The service of an open connection keeps its descriptor, or, at the end of the
    stream, closes it and no longer selects it. *)
Lemma serve_sel sock i r st e w st' e' mem l :
  serve sock i (ARead r) st e = (w, Ok (st', e')) -> i <> sock -> 0 <= i < nfds st ->
  relay (get_chan st i) = Some mem -> kread r (avail (get_chan st i)) = Some l ->
  nfds st' = nfds st /\
  active_fd_set st' = (if zlen l <=? 0 then active_fd_set st ∖ {[i]} else active_fd_set st).
Proof.
  unfold serve. intros H Hs Hn Hrel Hk. destruct (Z.eqb_spec i sock); [done |]. inv_run.
  destruct a as [[n0 st1] e1]. apply transfer_in_sel in Hm as (Ea & En & Hr).
  cbn [set_infd active_fd_set nfds infd] in *. change (get_chan (set_infd st i) i) with (get_chan st i) in Hr.
  rewrite Hk, Hrel in Hr.
  assert (n0 = zlen l) as -> by (destruct Hr as [-> | [_ [? | ?]]]; [done | lia | done]).
  inv_run. destruct a as [st2 e2]. inv_run. simplify_eq. cbn [set_infd active_fd_set nfds].
  destruct (zlen l <=? 0).
  - inv_run. destruct a0 as [st3 e3]. inv_run. simplify_eq.
    match goal with E : transfer_out _ _ = _ |- _ => apply transfer_out_sel in E as [A B] end.
    cbn [set_active set_chan active_fd_set nfds] in *. rewrite A, B, Ea, En.
    destruct (Z.eqb_spec i (nfds st)); [lia | done].
  - inv_run. by simplify_eq.
Qed.

Lemma serve_nfds sock i a st e w st' e' :
  serve sock i a st e = (w, Ok (st', e')) -> i < nfds st -> nfds st <= nfds st'.
Proof.
  unfold serve. intros H Hn. destruct (i =? sock).
  - destruct a as [status |]; [| done]. destruct (status <? 0); [done |]. inv_run. simplify_eq.
    cbn. case_match; zbool; lia.
  - destruct a as [| r]; [done |]. inv_run. destruct a as [[n0 st1] e1].
    apply transfer_in_sel in Hm as (_ & En & _). inv_run. destruct a as [st2 e2]. inv_run. simplify_eq.
    cbn [set_infd nfds] in *. destruct (n0 <=? 0); [| inv_run; simplify_eq; lia].
    inv_run. destruct a0 as [st3 e3]. inv_run. simplify_eq.
    match goal with E : transfer_out _ _ = _ |- _ => apply transfer_out_sel in E as [_ B] end.
    cbn [set_active set_chan nfds] in *. rewrite B, En.
    destruct (Z.eqb_spec i (nfds st)); lia.
Qed.

(** The descriptors of a round in the order the loop serves them. *)
Definition ready_from (n : nat) (i : Z) (m : gmap Z fd_answer) : list (Z * fd_answer) :=
  omap (fun k => (k,.) <$> m !! k) (seqZ i (Z.of_nat n)).

Lemma ready_from_S n i m :
  ready_from (S n) i m =
    match m !! i with Some a => (i, a) :: ready_from n (i + 1) m | None => ready_from n (i + 1) m end.
Proof.
  unfold ready_from. rewrite seqZ_cons by lia. replace (Z.pred (Z.of_nat (S n))) with (Z.of_nat n) by lia.
  cbn. rewrite Z.add_1_r. by destruct (m !! i).
Qed.

(** The loop over the descriptors serves the ready ones, in order, each once. *)
Lemma serve_loop_all n sock i m st e :
  (forall k, k ∈ dom m -> i <= k -> k < nfds st) ->
  serve_loop n sock i m (zlen (ready_from n i m)) st e = serve_all sock (ready_from n i m) st e.
Proof.
  revert i st e; induction n as [| n IH]; intros i st e Hm; [done |].
  cbn [serve_loop]. rewrite ready_from_S. destruct (Z.ltb_spec i (nfds st)) as [Hi | Hi].
  - destruct (m !! i) as [a |] eqn:Ea.
    + cbn [serve_all]. destruct (serve sock i a st e) as [w [[st1 e1] | c]] eqn:Es; [| done].
      cbn [bind]. apply serve_nfds in Es; [| done]. rewrite zlen_cons.
      replace (1 + zlen (ready_from n (i + 1) m) - 1) with (zlen (ready_from n (i + 1) m)) by lia.
      destruct (Z.eqb_spec (zlen (ready_from n (i + 1) m)) 0) as [E0 | E0].
      * apply zlen_0_inv in E0. by rewrite E0.
      * rewrite IH; [done |]. intros k Hk Hle. specialize (Hm k Hk). lia.
    + apply IH. intros k Hk Hle. apply Hm; [done | lia].
  - assert (forall n' j, i <= j -> ready_from n' j m = []) as Hnil.
    { induction n' as [| n' IH']; intros j Hj; [done |]. rewrite ready_from_S, IH' by lia.
      destruct (m !! j) eqn:Ej; [| done]. apply elem_of_dom_2 in Ej. specialize (Hm j Ej Hj). lia. }
    destruct (m !! i) eqn:Ej; [| by rewrite Hnil by lia].
    apply elem_of_dom_2 in Ej. specialize (Hm i Ej). lia.
Qed.

Lemma ready_from_size m :
  (forall k, k ∈ dom m -> 0 <= k < FD_SETSIZE) ->
  zlen (ready_from (Z.to_nat FD_SETSIZE) 0 m) = Z.of_nat (size m).
Proof.
  intros Hm. rewrite <- size_dom. unfold zlen. f_equal.
  assert (forall n i, NoDup (ready_from n i m).*1 /\
    forall k, k ∈ (ready_from n i m).*1 <-> k ∈ dom m /\ i <= k < i + Z.of_nat n) as H.
  { induction n as [| n IH]; intros i.
    - split; [constructor |]. intros k. cbn. rewrite elem_of_nil. lia.
    - rewrite ready_from_S. destruct (IH (i + 1)) as [Hnd He]. destruct (m !! i) as [a |] eqn:Ea.
      + apply elem_of_dom_2 in Ea. split.
        * cbn. constructor; [rewrite He; lia | done].
        * intros k. cbn. rewrite elem_of_cons, He. split; [| intros [? ?]].
          -- intros [-> | ?]; [split; [done | lia] | naive_solver lia].
          -- destruct (decide (k = i)); [by left | right; split; [done | lia]].
      + apply not_elem_of_dom in Ea. split; [done |]. intros k. rewrite He.
        split; [naive_solver lia |]. intros [? ?]. split; [done |].
        destruct (decide (k = i)) as [-> |]; [done | lia]. }
  destruct (H (Z.to_nat FD_SETSIZE) 0) as [Hnd He].
  transitivity (length (ready_from (Z.to_nat FD_SETSIZE) 0 m).*1); [by rewrite length_fmap |].
  rewrite <- (size_list_to_set (C := gset Z)) by done. f_equal. apply leibniz_equiv. intros k.
  rewrite elem_of_list_to_set, He. unfold FD_SETSIZE in *. split; [by intros [? _] |].
  intros Hk. split; [done |]. specialize (Hm k Hk). lia.
Qed.

(** What a turn of main's loop serves: the ready descriptors, in order. *)
Definition ready (m : gmap Z fd_answer) : list (Z * fd_answer) :=
  ready_from (Z.to_nat FD_SETSIZE) 0 m.

Lemma serve_round_all sock m st e :
  (forall k, k ∈ dom m -> 0 <= k < FD_SETSIZE /\ k < nfds st) ->
  serve_round sock (Some m) st e = serve_all sock (ready m) st e.
Proof.
  intros Hm. unfold serve_round. rewrite <- ready_from_size by (intros k Hk; apply Hm, Hk).
  apply serve_loop_all. intros k Hk _. apply Hm, Hk.
Qed.

(** ** Time *)

Lemma timersub_micros a b : micros (timersub a b) = micros a - micros b.
Proof. unfold micros, timersub. case_z; simpl; lia. Qed.
Lemma timersub_normal a b : normal a -> normal b -> normal (timersub a b).
Proof. unfold normal, timersub. intros. case_z; simpl; lia. Qed.
Lemma timeradd_micros a b : micros (timeradd a b) = micros a + micros b.
Proof. unfold micros, timeradd. case_z; simpl; lia. Qed.
Lemma timeradd_normal a b : normal a -> normal b -> normal (timeradd a b).
Proof. unfold normal, timeradd. intros. case_z; simpl; lia. Qed.
Lemma micros_inj a b : normal a -> normal b -> micros a = micros b -> a = b.
Proof.
  unfold normal, micros. destruct a, b; simpl. intros. f_equal; lia.
Qed.

(** The stamp restamp computes, when the result fits the record's fields. *)
Lemma stamp_restamp d le :
  normal d -> normal (stamp le) -> is_u 32 (tv_sec (timeradd (stamp le) d)) ->
  stamp (restamp d le) = timeradd (stamp le) d.
Proof.
  intros Hd Hn Hs. pose proof (timeradd_normal _ _ Hn Hd) as [? ?].
  unfold stamp at 1, restamp. cbn [th_fz set_cycles fz_cycle_high fz_cycle_low].
  fold (stamp le). rewrite !u32_small by (unfold is_u in Hs; lia).
  by destruct (timeradd (stamp le) d).
Qed.

(** ** Properties *)

(** The collector relays a connection faithfully.  Whatever pieces a client's
    records arrive in, cut anywhere, by the time it disconnects the log file has
    received exactly those records, whole and in order, each with its time stamp
    shifted by the one clock difference taken at the first of them and every other
    byte unchanged. *)
Theorem logd_relays_stream st e sock i chunks e1 es lt clk0 :
  i <> sock -> 0 <= i -> 0 <= outfd st ->
  get_chan st i = mk_chan (Some []) 0 RELAY_BUF (mk_tv 0 0) ->
  clock e = lt :: clk0 -> timerisset (timersub lt (stamp e1)) = true ->
  Forall wf_entry (e1 :: es) -> full_writes (wr e) -> zlen (e1 :: es) <= zlen (wr e) ->
  Forall (fun l => 0 < zlen l <= RELAY_BUF - 65536) chunks ->
  concat chunks = stream_bytes (e1 :: es) ->
  exists out st' e',
    serve_all sock (((fun l => (i, ARead (Some l))) <$> chunks) ++ [(i, ARead (Some []))]) st e =
      (out, Ok (st', e')) /\
    written out = stream_bytes (restamp (timersub lt (stamp e1)) <$> e1 :: es).
Proof.
  intros Hs Hi Ho Hc Hclk Hd Hes Hw Hn Hch Hin. set (d := timersub lt (stamp e1)) in *.
  assert (conn_at d lt clk0 i st e (e1 :: es) []) as Hc0.
  { unfold conn_at, conn, chan_holds. rewrite Hc, Hclk. split_and!; try done.
    - apply prefix_nil.
    - right. split_and!; eauto. }
  destruct (serve_chunks d lt clk0 Hd sock i Hs Hi chunks st e (e1 :: es) [])
    as (es2&es3&mem'&st'&e'&E&Ees&Emem&_&Hc'&_); try done; [by rewrite app_nil_l, Hin |].
  rewrite app_nil_l, Hin, Ees, stream_bytes_app in Emem. apply app_inv_head in Emem.
  destruct (serve_end d lt clk0 Hd sock i Hs Hi st' e' es3 mem') as (out & st2 & e2 & E2 & Ew & _);
    [done | done |].
  rewrite (serve_all_app sock _ _ st e), E. cbn [bind serve_all]. rewrite E2.
  cbn [bind serve_all ret]. do 3 eexists.
  split; [reflexivity |]. rewrite !app_nil_r, written_app, written_stamped, Ew, Ees.
  by rewrite fmap_app, stream_bytes_app.
Qed.

(** A collector whose descriptor 5 was just accepted, and two records. *)
Definition demo_st : logd :=
  mk_logd {[5 := mk_chan (Some []) 0 RELAY_BUF (mk_tv 0 0)]} (-1) 9 {[3; 5]} 6.
Definition demo_entry2 : logentry_thaw :=
  mk_thaw (mk_frozen 3000 300 1 700000 6 0 120 0 0 [NUL; NUL; NUL; NUL]) None [0; 0; 0].
Definition demo_stream : list byte := Eval vm_compute in stream_bytes [demo_entry; demo_entry2].

Lemma demo_entry2_wf : wf_entry demo_entry2.
Proof.
  unfold wf_entry, wf_frozen, is_u, is_s. cbn. split_and!; try lia; try done.
  repeat constructor; lia.
Qed.

Lemma logd_relays_stream_witness :
  exists out st' e',
    serve_all 3 [(5, ARead (Some (ztake 50 demo_stream))); (5, ARead (Some (zdrop 50 demo_stream)));
                 (5, ARead (Some []))] demo_st (mk_env [65536; 65536; 65536] [mk_tv 1000 500002]) =
      (out, Ok (st', e')) /\
    written out = stream_bytes (restamp (mk_tv 999 500000) <$> [demo_entry; demo_entry2]).
Proof.
  apply (logd_relays_stream demo_st (mk_env [65536; 65536; 65536] [mk_tv 1000 500002]) 3 5
    [ztake 50 demo_stream; zdrop 50 demo_stream] demo_entry [demo_entry2] (mk_tv 1000 500002) []).
  - discriminate.
  - lia.
  - vm_compute. discriminate.
  - reflexivity.
  - reflexivity.
  - reflexivity.
  - constructor; [apply demo_entry_wf | constructor; [apply demo_entry2_wf | constructor]].
  - constructor; [lia | constructor; [lia | constructor; [lia | constructor]]].
  - vm_compute. discriminate.
  - repeat (constructor; [split; vm_compute; congruence |]). constructor.
  - vm_compute. reflexivity.
Defined.

(** The first record of a connection is stamped with the collector's clock,
    and the interval between any two records of it stays what it was, to the
    microsecond. *)
Theorem logd_clock lt first a b :
  let d := timersub lt (stamp first) in
  normal lt -> normal (stamp first) -> normal (stamp a) -> normal (stamp b) ->
  is_u 32 (tv_sec lt) -> is_u 32 (tv_sec (timeradd (stamp a) d)) ->
  is_u 32 (tv_sec (timeradd (stamp b) d)) ->
  stamp (restamp d first) = lt /\
  micros (stamp (restamp d b)) - micros (stamp (restamp d a)) =
    micros (stamp b) - micros (stamp a).
Proof.
  intros d Hl Hf Ha Hb Hs Hsa Hsb. pose proof (timersub_normal _ _ Hl Hf) as Hd.
  assert (timeradd (stamp first) d = lt) as E.
  { apply micros_inj; [by apply timeradd_normal | done |].
    rewrite timeradd_micros. unfold d. rewrite timersub_micros. lia. }
  split; [rewrite stamp_restamp; try done; by rewrite E |].
  rewrite !stamp_restamp, !timeradd_micros by done. lia.
Qed.

Lemma logd_clock_witness :
  stamp (restamp (mk_tv 999 500000) demo_entry) = mk_tv 1000 500002 /\
  micros (stamp (restamp (mk_tv 999 500000) demo_entry2)) -
    micros (stamp (restamp (mk_tv 999 500000) demo_entry)) = 699998.
Proof.
  apply (logd_clock (mk_tv 1000 500002) demo_entry demo_entry demo_entry2);
    vm_compute; split; congruence.
Defined.

(** C30: The relay buffers are accounted exactly.  Whatever bytes the clients send
    and however reads, writes and accepts are answered, b_end and avail of every
    channel stay non-negative and add up to RELAY_BUF, and b_end is the number of
    bytes the buffer holds. *)
Theorem logd_accounting sock l st e w st' e' :
  serve_all sock l st e = (w, Ok (st', e')) -> logd_wf st -> logd_wf st'.
Proof. apply serve_all_wf. Qed.

Lemma demo_st_wf : logd_wf demo_st.
Proof.
  apply (set_chan_wf (mk_logd ∅ (-1) 9 {[3; 5]} 6)).
  - intros i. apply init_chan_wf.
  - unfold chan_wf, RELAY_BUF. cbn. split_and!; try done. by intros l [= <-].
Qed.

Lemma logd_accounting_witness :
  exists w st' e',
    serve_all 3 [(5, ARead (Some (ztake 40 demo_stream))); (5, ARead None)] demo_st
      (mk_env [65536] [mk_tv 1000 500002]) = (w, Ok (st', e')) /\ logd_wf st'.
Proof.
  destruct (serve_all 3 _ demo_st _) as [w [[st' e'] | c]] eqn:E; [| vm_compute in E; discriminate].
  exists w, st', e'. split; [done |]. exact (logd_accounting _ _ _ _ _ _ _ E demo_st_wf).
Defined.

(** Connections do not interfere: serving the descriptor [i], whatever it
    sends and however the kernel answers, leaves the relay buffer, the counters
    and the time difference of every other descriptor as they were. *)
Theorem logd_isolation sock i a st e w st' e' j :
  serve sock i a st e = (w, Ok (st', e')) -> i <> sock -> j <> i ->
  get_chan st' j = get_chan st j.
Proof. intros H Hs Hj. by apply (serve_frame _ _ _ _ _ _ _ _ j) in H as [? _]. Qed.

Lemma logd_isolation_witness :
  exists w st' e',
    serve 3 5 (ARead (Some demo_stream)) demo_st (mk_env [65536; 65536] [mk_tv 1000 500002]) =
      (w, Ok (st', e')) /\ get_chan st' 4 = get_chan demo_st 4.
Proof.
  destruct (serve 3 5 _ demo_st _) as [w [[st' e'] | c]] eqn:E; [| vm_compute in E; discriminate].
  exists w, st', e'. split; [done |].
  exact (logd_isolation _ _ _ _ _ _ _ _ 4 E ltac:(discriminate) ltac:(discriminate)).
Defined.

(** Disconnecting with a cut record in the buffer. *)
Lemma serve_disconnect sock i j st e w st1 e1 mem :
  serve sock i (ARead (Some [])) st e = (w, Ok (st1, e1)) -> i <> sock -> 0 <= i ->
  0 <= outfd st -> get_chan st i = mk_chan (Some mem) (zlen mem) (RELAY_BUF - zlen mem) j ->
  timerisset j = true -> incomplete mem ->
  get_chan st1 i = mk_chan None (zlen mem) (RELAY_BUF - zlen mem) j.
Proof.
  intros H Hs Hi Ho Hc Hj Hinc. unfold serve in H. destruct (Z.eqb_spec i sock); [done |].
  unfold transfer_in in H. cbn [set_infd infd] in H. destruct (Z.ltb_spec i 0); [lia |].
  change (get_chan (set_infd st i) i) with (get_chan st i) in H. rewrite Hc in H.
  cbn [relay avail kread fmap option_fmap option_map] in H.
  unfold ztake in H. rewrite take_nil, bind_ret_l in H. cbn beta iota in H.
  unfold transfer_out in H. cbn [set_active set_infd infd outfd] in H.
  change (get_chan (set_active _ _ _) i) with (get_chan st i) in H. rewrite Hc in H.
  cbn [relay] in H. destruct (Z.ltb_spec (outfd st) 0); [lia |].
  rewrite transfer_stop in H by done. cbn [bind ret emit app] in H. simplify_eq.
  change (0 <=? 0) with true in H. cbn [bind ret app] in H. injection H as _ <- _.
  match goal with |- get_chan (set_infd (set_chan ?s i ?c) (-1)) i = _ =>
    transitivity c; [apply get_set_chan |] end.
  by rewrite get_set_chan.
Qed.


(** A cut record outlives its connection.  When a client disconnects in the
    middle of a record, the count of its [n] buffered bytes and its clock
    difference stay with the descriptor; the next client that is given the same
    descriptor starts behind [n] zero bytes that it never sent. *)
Theorem logd_reconnect_stale sock i j st e w st1 e1 mem :
  serve sock i (ARead (Some [])) st e = (w, Ok (st1, e1)) -> i <> sock -> 0 <= i < FD_SETSIZE ->
  0 <= outfd st -> get_chan st i = mk_chan (Some mem) (zlen mem) (RELAY_BUF - zlen mem) j ->
  timerisset j = true -> incomplete mem ->
  exists st2, serve sock sock (AAccept i) st1 e1 = ret (st2, e1) /\
    get_chan st2 i = mk_chan (Some (replicate (length mem) NUL)) (zlen mem)
                       (RELAY_BUF - zlen mem) j.
Proof.
  intros H Hs Hi Ho Hc Hj Hinc.
  pose proof (serve_disconnect _ _ _ _ _ _ _ _ _ H Hs (proj1 Hi) Ho Hc Hj Hinc) as E.
  unfold serve. rewrite Z.eqb_refl. destruct (Z.ltb_spec i 0); [lia |].
  rewrite check_true by zt. rewrite bind_ret_l. eexists. split; [reflexivity |].
  match goal with |- get_chan (set_active (set_chan ?s ?k ?c) _ _) _ = _ =>
    transitivity c; [apply get_set_chan |] end.
  rewrite E. cbn [b_end avail timediff]. unfold zlen. by rewrite Nat2Z.id.
Qed.

Lemma demo_cut : incomplete (ztake 20 demo_stream).
Proof.
  exists demo_entry, (zdrop 20 (entry_bytes demo_entry)).
  split_and!; [apply demo_entry_wf | vm_compute; discriminate | vm_compute; reflexivity].
Qed.

Lemma logd_reconnect_stale_witness :
  let st := set_chan demo_st 5
    (mk_chan (Some (ztake 20 demo_stream)) 20 (RELAY_BUF - 20) (mk_tv 999 500000)) in
  exists w st1 e1 st2,
    serve 3 5 (ARead (Some [])) st (mk_env [65536] []) = (w, Ok (st1, e1)) /\
    serve 3 3 (AAccept 5) st1 e1 = ret (st2, e1) /\
    get_chan st2 5 = mk_chan (Some (replicate 20 NUL)) 20 (RELAY_BUF - 20) (mk_tv 999 500000).
Proof.
  intros st.
  destruct (serve 3 5 (ARead (Some [])) st (mk_env [65536] [])) as [w [[st1 e1] | c]] eqn:E;
    [| vm_compute in E; discriminate].
  destruct (logd_reconnect_stale 3 5 (mk_tv 999 500000) st (mk_env [65536] []) w st1 e1
    (ztake 20 demo_stream) E ltac:(discriminate) ltac:(unfold FD_SETSIZE; lia) ltac:(discriminate)
    ltac:(reflexivity) ltac:(reflexivity) demo_cut) as (st2 & E2 & H).
  exists w, st1, e1, st2. split; [done |]. split; [done | exact H].
Defined.

(** After a short write the relay buffer is damaged.  When the kernel takes
    only [t] of a record's [size] bytes, the bytes moved down stop [size - t] short
    of the end of the buffer, and the last [size - t] bytes kept are stale; only a
    write of the whole record keeps exactly the bytes after it. *)
Theorem logd_short_write l size t :
  0 < t <= size -> size <= zlen l ->
  relay_shift l size t =
    ztake (zlen l - size) (zdrop t l) ++ ztake (size - t) (zdrop (zlen l - size) l) /\
  (t = size -> relay_shift l size t = zdrop size l).
Proof.
  intros Ht Hs. pose proof (zlen_nonneg l) as H0.
  assert (relay_shift l size t =
    ztake (zlen l - size) (zdrop t l) ++ ztake (size - t) (zdrop (zlen l - size) l)) as E.
  { unfold relay_shift. rewrite ztake_app_ge by zl. f_equal. f_equal. zl. }
  split; [done |]. intros ->. rewrite E.
  replace (size - size) with 0 by lia. rewrite ztake_0, app_nil_r. apply ztake_all. zl.
Qed.

Lemma logd_short_write_witness :
  relay_shift (bs "abcdefgh") 4 1 = bs "bcde" ++ bs "efg" /\
  (1 = 4 -> relay_shift (bs "abcdefgh") 4 1 = bs "efgh").
Proof.
  apply (logd_short_write (bs "abcdefgh") 4 1); [lia | vm_compute; congruence].
Defined.
