(* ===== verification/Collect.v ===== *)
(** src/src/logd/logd.c with several clients.

    The service loop's descriptors become ready in any order; what it does for one of
    them is a step of that descriptor's client: the connection, some bytes, the end of
    its stream.  However the clients' steps interleave, and even when a descriptor
    serves several clients one after the other, the log file is a sequence of whole
    records in which each client's are in order. *)
From stdpp Require Import functions.
From S2P Require Import Prelude CInt CString Config Fmt Binlog Logd.

Inductive cstep := CAccept | CRead (l : list byte) | CEnd.

(** The client a service is for: the listening socket [sock] accepts it, any other
    descriptor is its own.  A read that fails is no step of a client. *)
Definition client_step (sock : Z) (x : Z * fd_answer) : option (Z * cstep) :=
  match x with
  | (i, AAccept k) => if i =? sock then Some (k, CAccept) else None
  | (i, ARead (Some l)) =>
      if i =? sock then None else Some (i, match l with [] => CEnd | _ => CRead l end)
  | (_, ARead None) => None
  end.

Definition of_fd (i : Z) (l : list (Z * cstep)) : list cstep := snd <$> filter (fun x => x.1 = i) l.

(** What the clients of a descriptor send, one stream per connection.  [cur] is what
    the present one has sent, if there is one; at the end there is none. *)
Fixpoint sessions (cur : option (list byte)) (ops : list cstep) : option (list (list byte)) :=
  match ops, cur with
  | [], None => Some []
  | CAccept :: ops, None => sessions (Some []) ops
  | CRead l :: ops, Some b => sessions (Some (b ++ l)) ops
  | CEnd :: ops, Some b => (b ::.) <$> sessions None ops
  | _, _ => None
  end.

Lemma sessions_split a b ops ss :
  sessions (Some (a ++ b)) ops = Some ss ->
  exists s ss', ss = (a ++ s) :: ss' /\ sessions (Some b) ops = Some (s :: ss').
Proof.
  revert b; induction ops as [| [| l |] ops IH]; intros b H; simplify_eq/=.
  - rewrite <- app_assoc in H. by apply IH.
  - apply fmap_Some in H as (ss' & E & ->). exists b, ss'. by rewrite E.
Qed.

Lemma sessions_cur b ops ss :
  sessions (Some b) ops = Some ss -> exists s ss', ss = s :: ss' /\ b `prefix_of` s.
Proof.
  intros H. rewrite <- (app_nil_r b) in H. apply sessions_split in H as (s & ss' & -> & _).
  do 2 eexists. split; [done |]. by eexists.
Qed.

(** The records of each connection, whole. *)
Definition of_records (ss : list (list byte)) (ess : list (list logentry_thaw)) : Prop :=
  Forall2 (fun s es => s = stream_bytes es /\ Forall wf_entry es) ss ess.

(** ** One descriptor *)

Section client.
Context (sock i : Z) (Hsock : i <> sock) (Hi : 0 <= i < FD_SETSIZE).

(** The channel with no client or with [mem] of the present one in its buffer, and the
    time difference, if it has been taken. *)
Definition fd_inv (st : logd) (cur : option (list byte)) (T : option timeval) : Prop :=
  let c := get_chan st i in
  timediff c = default (mk_tv 0 0) T /\ (forall d, T = Some d -> timerisset d = true) /\
  match cur with
  | None => relay c = None /\ b_end c = 0 /\ avail c = RELAY_BUF
  | Some mem => chan_holds c mem /\ zlen mem < 65536 /\ i < nfds st
  end.

(** No record's time is the collector's own. *)
Definition skewed (clk : list timeval) (es : list logentry_thaw) : Prop :=
  forall lt le, lt ∈ clk -> le ∈ es -> timerisset (timersub lt (stamp le)) = true.

(** The descriptors select is given after a step. *)
Definition next_active (op : cstep) (s : gset Z) : gset Z :=
  match op with CAccept => {[i]} ∪ s | CRead _ => s | CEnd => s ∖ {[i]} end.

(** The service of a step: the records it writes, those that stay to be received. *)
Definition served (x : Z * fd_answer) (op : cstep) (ops : list cstep) (st : logd) (e : env) (T : option timeval)
    (ess : list (list logentry_thaw)) : Prop :=
  exists out st' e' les cur' T' ss' ess' d,
    serve sock x.1 x.2 st e = (out, Ok (st', e')) /\
    written out = stream_bytes (restamp d <$> les) /\
    concat ess = les ++ concat ess' /\ sessions cur' ops = Some ss' /\ of_records ss' ess' /\
    fd_inv st' cur' T' /\ moved st e (length les) st' e' /\ zlen (clock e) - zlen (clock e') <= 1 /\
    (T' = Some d \/ T' = None /\ les = []) /\
    (T' = T \/ T = None /\ exists lt le es, T' = Some (timersub lt (stamp le)) /\
                                         lt ∈ clock e /\ concat ess = le :: es) /\
    (forall j, j <> i -> get_chan st' j = get_chan st j) /\
    active_fd_set st' = next_active op (active_fd_set st) /\ nfds st <= nfds st' /\
    (op = CAccept -> i < nfds st').

Lemma accept_served st e T ops ss ess :
  fd_inv st None T -> sessions None (CAccept :: ops) = Some ss -> of_records ss ess ->
  served (sock, AAccept i) CAccept ops st e T ess.
Proof.
  intros (Ht & Hd & Hr & Hb & Ha) Hs He. unfold served, serve. cbn [fst snd].
  rewrite Z.eqb_refl. destruct (Z.ltb_spec i 0); [lia |].
  rewrite check_true by (unfold FD_SETSIZE in *; zt). rewrite bind_ret_l.
  eexists [], _, e, [], (Some []), T, ss, ess, (default (mk_tv 0 0) T).
  split_and!; try done; try lia.
  - unfold fd_inv. match goal with |- context [get_chan (set_active (set_chan ?s ?k ?c) ?x ?y) ?k] =>
      change (get_chan (set_active (set_chan s k c) x y) k) with (get_chan (set_chan s k c) k) end.
    rewrite get_set_chan. unfold chan_holds. cbn [timediff relay b_end avail set_active nfds].
    rewrite Hb, Ha. split_and!; try done. cbn. case_match; zbool; lia.
  - destruct T; [by left | by right].
  - by left.
  - intros j Hj. by apply (set_chan_frame st).
  - cbn. case_match; zbool; lia.
  - intros _. cbn. case_match; zbool; lia.
Qed.

(** What a service of the open connection leaves of the rest. *)
Lemma read_sel st e mem T l w st' e' :
  fd_inv st (Some mem) T -> zlen l <= RELAY_BUF - 65536 ->
  serve sock i (ARead (Some l)) st e = (w, Ok (st', e')) ->
  (forall j, j <> i -> get_chan st' j = get_chan st j) /\
  active_fd_set st' = next_active (match l with [] => CEnd | _ => CRead l end) (active_fd_set st) /\
  nfds st' = nfds st.
Proof.
  intros (_ & _ & (Hr & Hb & Hab & _) & Hm & Hn) Hl E. split.
  { intros j Hj. by destruct (serve_frame _ _ _ _ _ _ _ _ j E Hsock Hj). }
  apply (serve_sel _ _ _ _ _ _ _ _ mem l) in E as [-> ->]; try done; [| lia |].
  - split; [| done]. destruct l as [| b l]; [done |]. pose proof (zlen_nonneg l).
    rewrite zlen_cons. destruct (Z.leb_spec (1 + zlen l) 0); [lia | done].
  - unfold kread. cbn. f_equal. apply ztake_all. lia.
Qed.

(** The connection as Logd.v's lemmas see it: with its time difference, or with the
    one its first record will fix at the collector's next time. *)
Definition conn_diff (lt : timeval) (T : option timeval) (es : list logentry_thaw) (d : timeval) : Prop :=
  T = Some d \/ T = None /\ exists le es', es = le :: es' /\ d = timersub lt (stamp le).

Lemma fd_inv_conn st mem T lt clk es :
  fd_inv st (Some mem) T -> mem `prefix_of` stream_bytes es -> skewed (lt :: clk) es ->
  T <> None \/ es <> [] ->
  exists d clk0, conn d lt clk0 (lt :: clk) es (get_chan st i) mem /\ timerisset d = true /\
    conn_diff lt T es d /\ (clk0 = lt :: clk \/ T = None /\ clk0 = clk).
Proof.
  intros (Ht & Hd & Hc & _) Hp Hsk Hne. unfold conn, conn_diff. destruct T as [d |].
  - exists d, (lt :: clk). split_and!; try done; auto; by left.
  - destruct es as [| le es]; [by destruct Hne |].
    exists (timersub lt (stamp le)), clk. cbn [default] in Ht.
    assert (timerisset (timersub lt (stamp le)) = true) by (apply Hsk; left).
    split_and!; try done; [| by right; split; [| exists le, es] | by right].
    right. split_and!; [done.. | by exists le, es].
Qed.

(** What is left of it after a service. *)
Lemma conn_after T lt clk es d clk0 clk' (es2 es3 : list logentry_thaw) td :
  conn_diff lt T es d -> (clk0 = lt :: clk \/ T = None /\ clk0 = clk) ->
  clk' `suffix_of` lt :: clk -> timerisset d = true -> (td = d \/ es2 = []) ->
  (td = d /\ clk' = clk0 \/ td = mk_tv 0 0 /\ clk' = lt :: clk0 /\
    exists le es', es3 = le :: es' /\ d = timersub lt (stamp le)) ->
  exists T', td = default (mk_tv 0 0) T' /\ (forall d, T' = Some d -> timerisset d = true) /\
    zlen (lt :: clk) - zlen clk' <= 1 /\
    (T' = Some d \/ T' = None /\ es2 = []) /\
    (T' = T \/ T = None /\ exists le es', T' = Some (timersub lt (stamp le)) /\ es = le :: es').
Proof.
  intros Hcd Hk Hsuf Hd Htd [[-> ->] | (-> & -> & _)].
  - exists (Some d). split_and!; [done | by intros ? [= <-] | | by left |].
    + destruct Hk as [-> | [_ ->]]; rewrite ?zlen_cons; lia.
    + destruct Hcd as [-> | (-> & le & es' & -> & ->)]; [by left | by right; split; [| exists le, es']].
  - assert (T = None /\ clk0 = clk) as [-> ->].
    { destruct Hk as [-> | ?]; [| done]. destruct Hsuf as [k E]. exfalso.
      apply (f_equal length) in E. rewrite length_app in E. simpl in E. lia. }
    assert (es2 = []) as -> by (destruct Htd as [<- | ?]; done).
    exists None. split_and!; try done; [| by right | by left]. rewrite zlen_cons. lia.
Qed.

(** What the kernel still has to answer. *)
Definition enough (e : env) (es : list logentry_thaw) : Prop :=
  clock e <> [] /\ skewed (clock e) es /\ full_writes (wr e) /\ zlen es <= zlen (wr e).

Lemma skewed_app clk a b : skewed clk (a ++ b) -> skewed clk a /\ skewed clk b.
Proof. intros H. split; intros lt le Hl He; apply H; auto; apply elem_of_app; auto. Qed.

Lemma read_served st e mem T l ops ss ess :
  fd_inv st (Some mem) T -> 0 <= outfd st -> sessions (Some mem) (CRead l :: ops) = Some ss ->
  of_records ss ess -> enough e (concat ess) -> 0 < zlen l <= RELAY_BUF - 65536 ->
  served (i, ARead (Some l)) (CRead l) ops st e T ess.
Proof.
  intros Hf Ho Hs He (Hclk & Hsk & Hw & Hn) Hl. cbn [sessions] in Hs.
  destruct (clock e) as [| lt clk] eqn:Ec; [done |].
  pose proof (sessions_cur _ _ _ Hs) as (s & ss' & -> & Hp).
  inversion He as [| ? es ? ess' [-> Hes] He']; subst. cbn [concat] in *. rewrite zlen_app in Hn.
  apply skewed_app in Hsk as [Hsk _]. pose proof (zlen_nonneg (concat ess')).
  assert (es <> []) as Hne.
  { intros ->. apply prefix_nil_inv, app_nil in Hp as [_ ->]. zl. }
  destruct (fd_inv_conn st mem T lt clk es) as (d & clk0 & Hc & Hd & Hcd & Hk); try done.
  { etrans; [by apply prefix_app_r | exact Hp]. }
  { by right. }
  pose proof Hf as (_ & _ & Hch0 & Hm & Hnf).
  destruct (serve_chunk d lt clk0 Hd sock i Hsock (proj1 Hi) st e es mem l) as
    (es2 & es3 & mem' & st' & e' & E & -> & E2 & Hm' & Hc' & Hmv & Htd); try done.
  { unfold conn_at. rewrite Ec. split_and!; try done. lia. }
  rewrite E2 in Hs. apply sessions_split in Hs as (s1 & ss1 & Es & Hs1).
  rewrite stream_bytes_app in Es. injection Es as Es <-. apply app_inv_head in Es as <-.
  destruct Hc' as (_ & (Hch & _ & Hdt) & Hes3 & _).
  pose proof Hmv as (_ & _ & Hsuf). rewrite Ec in Hsuf.
  destruct (read_sel _ _ _ _ _ _ _ _ Hf (proj2 Hl) E) as (Hfr & Hact & Hnfds).
  destruct (conn_after T lt clk (es2 ++ es3) d clk0 (clock e') es2 es3 (timediff (get_chan st' i)))
    as (T' & Et & Ht' & Hz & Hle & HT); try done.
  exists (stamped (outfd st) d es2), st', e', es2, (Some mem'), T', (stream_bytes es3 :: ss'), (es3 :: ess'), d.
  rewrite Ec. cbn [concat fst snd]. split_and!; try done.
  - apply written_stamped.
  - by rewrite app_assoc.
  - by constructor.
  - unfold fd_inv. by rewrite Hnfds.
  - destruct HT as [-> | (-> & le & es' & -> & ->)]; [by left |].
    right. split; [done |]. exists lt, le, (es' ++ concat ess'). split_and!; [done | left | done].
  - destruct l; [unfold zlen in Hl; simpl in Hl; lia | done].
  - by rewrite Hnfds.
Qed.

(** A client that sent nothing. *)
Lemma serve_idle_end st e td :
  0 <= outfd st -> get_chan st i = mk_chan (Some []) 0 RELAY_BUF td ->
  exists st', serve sock i (ARead (Some [])) st e = ([Closed i], Ok (st', e)) /\
    get_chan st' i = mk_chan None 0 RELAY_BUF td /\ outfd st' = outfd st.
Proof.
  intros Ho Hc. unfold serve. destruct (Z.eqb_spec i sock); [done |].
  unfold transfer_in. cbn [set_infd infd]. destruct (Z.ltb_spec i 0); [lia |].
  change (get_chan (set_infd st i) i) with (get_chan st i). rewrite Hc.
  cbn [relay avail kread fmap option_fmap option_map]. unfold ztake. rewrite take_nil, bind_ret_l.
  unfold transfer_out. cbn [set_active set_infd infd outfd].
  change (get_chan (set_active _ _ _) i) with (get_chan st i). rewrite Hc.
  cbn [relay]. destruct (Z.ltb_spec (outfd st) 0); [lia |].
  destruct e as [[| w ans] clk]; cbn [wr clock transfer_loop b_end]; simpl;
    (eexists; split; [reflexivity |]); rewrite get_set_infd, !get_set_chan; done.
Qed.

Lemma fd_inv_empty st T :
  fd_inv st (Some []) T -> get_chan st i = mk_chan (Some []) 0 RELAY_BUF (default (mk_tv 0 0) T).
Proof.
  intros (<- & _ & (Hr & Hb & Hab & _) & _). change (zlen []) with 0 in Hb.
  destruct (get_chan st i) as [r b a t]. cbn [relay b_end avail timediff] in *.
  subst. f_equal; lia.
Qed.

Lemma end_served st e mem T ops ss ess :
  fd_inv st (Some mem) T -> 0 <= outfd st -> sessions (Some mem) (CEnd :: ops) = Some ss ->
  of_records ss ess -> enough e (concat ess) ->
  served (i, ARead (Some [])) CEnd ops st e T ess.
Proof.
  intros Hf Ho Hs He (Hclk & Hsk & Hw & Hn). cbn [sessions] in Hs.
  apply fmap_Some in Hs as (ss' & Hs & ->). destruct (clock e) as [| lt clk] eqn:Ec; [done |].
  inversion He as [| ? es ? ess' [-> Hes] He']; subst. cbn [concat] in *. rewrite zlen_app in Hn.
  apply skewed_app in Hsk as [Hsk _]. pose proof (zlen_nonneg (concat ess')).
  destruct (decide (T = None /\ es = [])) as [[-> ->] | Hne].
  { pose proof Hf as (_ & HdT & _). change (stream_bytes []) with (@nil byte) in *.
    destruct (serve_idle_end st e (mk_tv 0 0) Ho (fd_inv_empty st None Hf)) as (st' & E & Ec' & Ho').
    exists [Closed i], st', e, [], None, None, ss', ess', (mk_tv 0 0). cbn [fst snd concat app].
    destruct (read_sel _ _ _ _ [] _ _ _ Hf ltac:(done) E) as (Hfr & Hact & Hnfds).
    split_and!; try done; first [by left | by right | lia | by unfold fd_inv; rewrite Ec']. }
  destruct (fd_inv_conn st (stream_bytes es) T lt clk es) as (d & clk0 & Hc & Hd & Hcd & Hk); try done.
  { destruct T; [by left |]. right. intros ->. by apply Hne. }
  destruct (serve_end d lt clk0 Hd sock i Hsock (proj1 Hi) st e es (stream_bytes es)) as
    (out & st' & e' & E & Hwr & (Hch & _ & Hdt) & Hr & Hmv & Htd); try done.
  { unfold conn_at. rewrite Ec. split_and!; try done. lia. }
  pose proof Hmv as (_ & _ & Hsuf). rewrite Ec in Hsuf.
  destruct (read_sel _ _ _ _ [] _ _ _ Hf ltac:(done) E) as (Hfr & Hact & Hnfds).
  destruct (conn_after T lt clk es d clk0 (clock e') es [] (timediff (get_chan st' i)))
    as (T' & Et & Ht' & Hz & Hle & HT); try done.
  exists out, st', e', es, None, T', ss', ess', d.
  rewrite Ec. cbn [concat fst snd]. split_and!; try done.
  - destruct Hch as (_ & Hb & Hab & _). cbn [set_relay relay b_end avail] in *.
    unfold fd_inv. change (zlen []) with 0 in Hb. rewrite Hb in *. split_and!; try done.
  - destruct HT as [-> | (-> & le & es' & -> & ->)]; [by left |].
    right. split; [done |]. exists lt, le, (es' ++ concat ess'). split_and!; [done | left | done].
  - by rewrite Hnfds.
Qed.
End client.

(** ** All of them *)

Section clients.
Context (sock : Z).

Definition in_range (i : Z) : Prop := i <> sock /\ 0 <= i < FD_SETSIZE.

Definition small_read (x : Z * fd_answer) : Prop :=
  match x.2 with ARead (Some l) => zlen l <= RELAY_BUF - 65536 | _ => True end.

(** All records still to be written. *)
Definition pending (ess : Z -> list (list logentry_thaw)) : list logentry_thaw :=
  seqZ 0 FD_SETSIZE ≫= fun i => concat (ess i).

Lemma pending_elem ess i le : 0 <= i < FD_SETSIZE -> le ∈ concat (ess i) -> le ∈ pending ess.
Proof. intros Hi He. apply list_elem_of_bind. exists i. split; [done |]. by apply elem_of_seqZ. Qed.

Lemma bind_insert_notin (l : list Z) ess i new :
  i ∉ l -> (l ≫= fun j => concat (<[i := new]> ess j)) = (l ≫= fun j => concat (ess j) : list logentry_thaw).
Proof.
  intros Hi. induction l as [| j l IH]; [done |]. apply not_elem_of_cons in Hi as [Hj Hl].
  cbn. rewrite fn_lookup_insert_ne by done. f_equal. by apply IH.
Qed.

Lemma pending_split ess i new :
  0 <= i < FD_SETSIZE -> exists a b,
    pending ess = a ++ concat (ess i) ++ b /\ pending (<[i := new]> ess) = a ++ concat new ++ b.
Proof.
  intros Hi. assert (i ∈ seqZ 0 FD_SETSIZE) as Hin by (apply elem_of_seqZ; lia).
  pose proof (NoDup_seqZ 0 FD_SETSIZE) as Hnd. apply list_elem_of_split in Hin as (l1 & l2 & E).
  unfold pending. rewrite E in *. apply list.NoDup_app in Hnd as (_ & Hd & Hnd).
  apply list.NoDup_cons in Hnd as [Hn2 _].
  exists (l1 ≫= fun j => concat (ess j)), (l2 ≫= fun j => concat (ess j)).
  rewrite !bind_app. cbn. rewrite fn_lookup_insert, !bind_insert_notin; [done | done |].
  intros H. by apply (Hd i H); left.
Qed.


Lemma step_served x i op ops st e cur T ss ess :
  in_range i -> client_step sock x = Some (i, op) -> small_read x ->
  fd_inv i st cur T -> 0 <= outfd st -> sessions cur (op :: ops) = Some ss -> of_records ss ess ->
  enough e (concat ess) -> served sock i x op ops st e T ess.
Proof.
  intros [Hne Hr] Hx Hsm Hf Ho Hs He Hen.
  destruct x as [j [k | [[| b l] |]]]; cbn [client_step] in Hx; try done;
    (destruct (Z.eqb_spec j sock) as [-> | Hj]; simplify_eq).
  - destruct cur; [done |]. by eapply accept_served.
  - destruct cur as [mem |]; [| done]. by eapply end_served.
  - destruct cur as [mem |]; [| done]. by eapply read_served.
Qed.

(** The records of [L] from the clients of [i]. *)
Definition from (i : Z) (L : list (Z * logentry_thaw)) : list logentry_thaw :=
  snd <$> filter (fun x => x.1 = i) L.

Lemma from_app i a b : from i (a ++ b) = from i a ++ from i b.
Proof. unfold from. by rewrite list.filter_app, fmap_app. Qed.
Lemma from_tagged i les : from i ((i,.) <$> les) = les.
Proof.
  unfold from. induction les as [| le les IH]; [done |].
  by rewrite fmap_cons, filter_cons_True, fmap_cons, IH.
Qed.
Lemma from_other i j les : j <> i -> from j ((i,.) <$> les) = [].
Proof.
  intros Hj. unfold from. induction les as [| le les IH]; [done |].
  rewrite fmap_cons, filter_cons_False by (cbn; congruence). done.
Qed.

(** A descriptor from one state to a later one: the records written are the next ones
    of its clients, all stamped with the one difference its first record fixes. *)
Definition moves (i : Z) (clk : list timeval) (L : list (Z * logentry_thaw))
    (T T' : option timeval) (es es' : list logentry_thaw) : Prop :=
  exists les d, es = les ++ es' /\ from i L = restamp d <$> les /\
    (T' = Some d \/ T' = None /\ les = []) /\
    (T' = T \/ T = None /\ exists lt le es0,
      T' = Some (timersub lt (stamp le)) /\ lt ∈ clk /\ es = le :: es0).

Lemma moves_refl i clk T es : moves i clk [] T T es es.
Proof.
  exists [], (default (mk_tv 0 0) T). split_and!; [done.. | | by left].
  destruct T; [by left | by right].
Qed.

Lemma moves_trans i clk clk' L1 L2 T T1 T2 es es1 es2 :
  moves i clk L1 T T1 es es1 -> moves i clk' L2 T1 T2 es1 es2 -> clk' `suffix_of` clk ->
  moves i clk (L1 ++ L2) T T2 es es2.
Proof.
  intros (l1 & d1 & -> & F1 & D1 & R1) (l2 & d2 & -> & F2 & D2 & R2) [k ->].
  unfold moves. rewrite from_app, F1, F2.
  destruct D1 as [-> | [-> ->]].
  - destruct R2 as [-> | [? _]]; [| done]. destruct D2 as [[= ->] | [? _]]; [| done].
    exists (l1 ++ l2), d2. rewrite fmap_app, <- app_assoc. split_and!; try done; by left.
  - exists l2, d2. cbn [app]. split_and!; try done.
    destruct R2 as [-> | (_ & lt & le & es0 & ? & Hlt & ->)].
    + destruct R1 as [<- | (_ & lt & le & es0 & ? & _)]; [by left | done].
    + destruct R1 as [<- | (_ & ? & ? & ? & ? & _)]; [| done].
      right. split; [done |]. exists lt, le, es0. split_and!; try done. apply elem_of_app. by right.
Qed.

Lemma of_fd_cons_eq i op l : of_fd i ((i, op) :: l) = op :: of_fd i l.
Proof. unfold of_fd. by rewrite filter_cons_True. Qed.
Lemma of_fd_cons_ne i j op l : j <> i -> of_fd j ((i, op) :: l) = of_fd j l.
Proof. intros. unfold of_fd. rewrite filter_cons_False; [done | cbn; congruence]. Qed.

Lemma fd_inv_frame j st st' cur T :
  get_chan st' j = get_chan st j -> nfds st <= nfds st' -> fd_inv j st cur T -> fd_inv j st' cur T.
Proof.
  unfold fd_inv. intros ->. destruct cur; [| done]. intros ? (? & ? & ? & ? & ?).
  split_and!; try done. lia.
Qed.

Lemma skewed_sub clk clk' a b :
  skewed clk a -> clk' `suffix_of` clk -> (forall x, x ∈ b -> x ∈ a) -> skewed clk' b.
Proof.
  intros H [k ->] Hb lt le Hl He. apply H; [apply elem_of_app; by right | by apply Hb].
Qed.

(** The collector in the middle of its clients: [rest] are the steps still to come. *)
Record collecting (st : logd) (e : env) (cur : Z -> option (list byte)) (T : Z -> option timeval)
    (ess : Z -> list (list logentry_thaw)) (rest : Z -> list cstep) : Prop := {
  c_out : 0 <= outfd st;
  c_inv : forall i, in_range i -> fd_inv i st (cur i) (T i);
  c_ses : forall i, in_range i ->
    exists ss, sessions (cur i) (rest i) = Some ss /\ of_records ss (ess i);
  c_wr : full_writes (wr e);
  c_num : zlen (pending ess) <= zlen (wr e);
  c_clk : skewed (clock e) (pending ess);
  c_sel : forall i, i ∈ active_fd_set st -> 0 <= i < FD_SETSIZE /\ i < nfds st
}.

Lemma collect_step x i op st e cur T ess rest ops :
  client_step sock x = Some (i, op) -> in_range i -> small_read x -> clock e <> [] ->
  collecting st e cur T ess rest -> rest i = op :: ops ->
  exists out st' e' L cur' T' ess',
    serve sock x.1 x.2 st e = (out, Ok (st', e')) /\ written out = stream_bytes (snd <$> L) /\
    Forall (fun x => in_range x.1) L /\
    collecting st' e' cur' T' ess' (<[i := ops]> rest) /\
    zlen (clock e) - zlen (clock e') <= 1 /\ clock e' `suffix_of` clock e /\
    (forall j, in_range j -> moves j (clock e) L (T j) (T' j) (concat (ess j)) (concat (ess' j))) /\
    active_fd_set st' = next_active i op (active_fd_set st) /\ nfds st <= nfds st'.
Proof.
  intros Hx Hi Hsm Hclk [Ho Hinv Hses Hw Hn Hsk Hsel] Hrest.
  destruct (Hses i Hi) as (ss & Hs & He). rewrite Hrest in Hs.
  destruct (pending_split ess i (ess i) (proj2 Hi)) as (a & b & Ep & _).
  destruct (step_served x i op ops st e (cur i) (T i) ss (ess i)) as
    (o1 & st1 & e1 & les & cur1 & T1 & ss1 & ess1 & d & E1 & W1 & Ec & Hs' & He' & Hf' &
     (Mo & Mw & Mc) & Hz & Hd & HT & Hfr & Hact & Hnf & Hacc); try done; [by apply Hinv | |].
  { unfold enough. split_and!; try done.
    - rewrite Ep in Hsk. by apply skewed_app in Hsk as [_ [? _]%skewed_app].
    - rewrite Ep, !zlen_app in Hn. pose proof (zlen_nonneg a). pose proof (zlen_nonneg b). lia. }
  clear a b Ep. destruct (pending_split ess i ess1 (proj2 Hi)) as (a & b & Ep & Ep').
  rewrite Ec, <- app_assoc in Ep.
  exists o1, st1, e1, ((i,.) <$> (restamp d <$> les)), (<[i := cur1]> cur), (<[i := T1]> T),
    (<[i := ess1]> ess).
  split_and!; try done.
  - rewrite W1, <- list_fmap_compose. f_equal. symmetry. apply list_fmap_id.
  - apply Forall_fmap, Forall_true. intros ?. exact Hi.
  - split; try done.
    + by rewrite Mo.
    + intros j Hj. destruct (decide (i = j)) as [<- | Hne]; [by rewrite !fn_lookup_insert, ?fn_lookup_insert |].
      rewrite fn_lookup_insert_ne, fn_lookup_insert_ne by done.
      eapply fd_inv_frame; [by apply Hfr | done | by apply Hinv].
    + intros j Hj. destruct (decide (i = j)) as [<- | Hne].
      * rewrite !fn_lookup_insert, ?fn_lookup_insert. by exists ss1.
      * rewrite fn_lookup_insert_ne, fn_lookup_insert_ne, fn_lookup_insert_ne by done. by apply Hses.
    + rewrite Mw. by apply Forall_drop.
    + rewrite Ep, !zlen_app in Hn. rewrite Mw, Ep', !zlen_app. unfold zlen in *. rewrite length_drop. lia.
    + rewrite Ep'. rewrite Ep in Hsk. eapply skewed_sub; [exact Hsk | done |].
      intros y. rewrite !elem_of_app. tauto.
    + intros j. rewrite Hact. intros Hj. destruct op; cbn [next_active] in Hj.
      * apply elem_of_union in Hj as [Hj | Hj]; [| specialize (Hsel j Hj); lia].
        apply elem_of_singleton in Hj as ->. split; [apply Hi | by apply Hacc].
      * specialize (Hsel j Hj). lia.
      * apply elem_of_difference in Hj as [Hj _]. specialize (Hsel j Hj). lia.
  - intros j Hj. destruct (decide (i = j)) as [<- | Hne].
    + rewrite fn_lookup_insert, fn_lookup_insert. exists les, d. by rewrite from_tagged.
    + rewrite fn_lookup_insert_ne, fn_lookup_insert_ne by done.
      destruct (moves_refl j (clock e) (T j) (concat (ess j))) as (l0 & d0 & M).
      exists l0, d0. rewrite from_other by done. exact M.
Qed.

(** The active descriptors after a service, whatever it gives. *)
Definition select_next (s : gset Z) (x : Z * fd_answer) : gset Z :=
  match x.2 with
  | AAccept k => {[k]} ∪ s
  | ARead (Some []) => s ∖ {[x.1]}
  | ARead _ => s
  end.

Lemma select_next_active x i op s :
  client_step sock x = Some (i, op) -> next_active i op s = select_next s x.
Proof.
  destruct x as [j [k | [[| b l] |]]]; cbn [client_step]; intros Hx; try done;
    by destruct (j =? sock); simplify_eq.
Qed.

(** A state the collector reaches, with what it wrote on the way. *)
Definition collected (st : logd) (e : env) (T : Z -> option timeval)
    (ess : Z -> list (list logentry_thaw)) (n : Z) (act : gset Z) (rest : Z -> list cstep)
    (r : logd_run (logd * env)) : Prop :=
  exists out st' e' L cur' T' ess' rest',
    r = (out, Ok (st', e')) /\ written out = stream_bytes (snd <$> L) /\
    Forall (fun x => in_range x.1) L /\ collecting st' e' cur' T' ess' rest' /\
    (forall i, rest' i = rest i) /\
    zlen (clock e) - zlen (clock e') <= n /\ clock e' `suffix_of` clock e /\
    (forall j, in_range j -> moves j (clock e) L (T j) (T' j) (concat (ess j)) (concat (ess' j))) /\
    active_fd_set st' = act.

Lemma collected_bind st e T ess n1 act1 rest1 r n2 act2 rest2 k :
  collected st e T ess n1 act1 rest1 r ->
  (forall st1 e1 cur1 T1 ess1 rest1', collecting st1 e1 cur1 T1 ess1 rest1' ->
     (forall i, rest1' i = rest1 i) -> active_fd_set st1 = act1 ->
     zlen (clock e) - zlen (clock e1) <= n1 ->
     collected st1 e1 T1 ess1 n2 act2 rest2 (k (st1, e1))) ->
  collected st e T ess (n1 + n2) act2 rest2 (bind r k).
Proof.
  intros (o1 & st1 & e1 & L1 & cur1 & T1 & ess1 & rest1' & -> & W1 & R1 & C1 & Q1 & Z1 & S1 & M1 & A1) Hk.
  destruct (Hk st1 e1 cur1 T1 ess1 rest1' C1 Q1 A1 Z1) as
    (o2 & st2 & e2 & L2 & cur2 & T2 & ess2 & rest2' & E2 & W2 & R2 & C2 & Q2 & Z2 & S2 & M2 & A2).
  exists (o1 ++ o2), st2, e2, (L1 ++ L2), cur2, T2, ess2, rest2'. cbn [bind]. rewrite E2.
  rewrite written_app, W1, W2, fmap_app, stream_bytes_app. split_and!; try done; [| lia | by etrans |].
  - by apply Forall_app.
  - intros j Hj. by eapply moves_trans; [apply M1 | apply M2 |].
Qed.

Lemma collect_all l steps st e cur T ess rest rest' :
  mapM (client_step sock) l = Some steps -> Forall (fun x => in_range x.1) steps ->
  Forall small_read l -> zlen l <= zlen (clock e) -> collecting st e cur T ess rest ->
  (forall i, rest i = of_fd i steps ++ rest' i) ->
  collected st e T ess (zlen l) (foldl select_next (active_fd_set st) l) rest' (serve_all sock l st e).
Proof.
  revert steps st e cur T ess rest. induction l as [| x l IH];
    intros steps st e cur T ess rest Hst Hr Hsm Hc Hinv Hrest.
  { injection Hst as <-. exists [], st, e, [], cur, T, ess, rest. split_and!; try done.
    - rewrite zlen_nil. lia.
    - intros j Hj. apply moves_refl. }
  cbn [mapM] in Hst. destruct (client_step sock x) as [[i op] |] eqn:Ex; [| done]. cbn [mbind option_bind] in Hst.
  destruct (mapM (client_step sock) l) as [steps' |] eqn:El; [| done].
  injection Hst as <-. inversion Hr as [| ? ? Hri Hr']; subst. inversion Hsm as [| ? ? Hsx Hsm']; subst.
  cbn [fst] in Hri. rewrite zlen_cons in *. pose proof (zlen_nonneg l).
  cbn [foldl]. rewrite <- (select_next_active x i op _ Ex).
  change (serve_all sock (x :: l) st e) with
    (let '(j, a) := x in let! (st, e) := serve sock j a st e in serve_all sock l st e).
  destruct (collect_step x i op st e cur T ess rest (of_fd i steps' ++ rest' i)) as
    (o1 & st1 & e1 & L & cur1 & T1 & ess1 & E & W & R & C & Z & S & M & A & N); try done.
  { intros E. rewrite E, zlen_nil in Hc. lia. }
  { by rewrite Hrest, of_fd_cons_eq. }
  destruct x as [j a]. cbn [fst snd] in E. 
  eapply (collected_bind st e T ess 1 (next_active i op (active_fd_set st))
    (<[i := of_fd i steps' ++ rest' i]> rest)).
  - exists o1, st1, e1, L, cur1, T1, ess1, (<[i := of_fd i steps' ++ rest' i]> rest).
    split_and!; done.
  - cbn beta iota. intros st2 e2 cur2 T2 ess2 rest2 C2 Q2 <- Z2.
    eapply IH; try done; [lia |]. intros k. rewrite Q2. destruct (decide (i = k)) as [<- | Hne].
    + by rewrite fn_lookup_insert.
    + rewrite fn_lookup_insert_ne, Hrest, of_fd_cons_ne by done. done.
Qed.

(** ** The loop of main *)

(** select(2) reports descriptors it was given. *)
Fixpoint selects (act : gset Z) (rounds : list (gmap Z fd_answer)) : Prop :=
  match rounds with
  | [] => True
  | m :: rounds => dom m ⊆ act /\ selects (foldl select_next act (ready m)) rounds
  end.

#[export] Instance selects_dec act rounds : Decision (selects act rounds).
Proof. revert act. induction rounds; intros act; cbn [selects]; apply _. Defined.

#[local] Strategy 1000 [ready].

Lemma of_fd_app i a b : of_fd i (a ++ b) = of_fd i a ++ of_fd i b.
Proof. unfold of_fd. by rewrite list.filter_app, fmap_app. Qed.

Lemma collect_rounds rounds steps st e cur T ess rest rest' :
  mapM (client_step sock) (rounds ≫= ready) = Some steps ->
  Forall (fun x => in_range x.1) steps -> Forall small_read (rounds ≫= ready) ->
  zlen (rounds ≫= ready) <= zlen (clock e) -> collecting st e cur T ess rest ->
  (forall i, rest i = of_fd i steps ++ rest' i) -> selects (active_fd_set st) rounds ->
  collected st e T ess (zlen (rounds ≫= ready))
    (foldl select_next (active_fd_set st) (rounds ≫= ready)) rest'
    (serve_rounds sock (Some <$> rounds) st e).
Proof.
  revert steps st e cur T ess rest. induction rounds as [| m rounds IH];
    intros steps st e cur T ess rest Hst Hr Hsm Hc Hinv Hrest Hsel.
  { by apply (collect_all [] steps st e cur T ess rest rest'). }
  rewrite bind_cons in *.
  destruct Hsel as [Hdom Hsel]. rewrite fmap_cons. cbn [serve_rounds].
  apply mapM_Some, Forall2_app_inv_l in Hst as (s1 & s2 & Hs1 & Hs2 & ->).
  apply Forall_app in Hr as [Hr1 Hr2]. apply Forall_app in Hsm as [Hm1 Hm2]. rewrite zlen_app in *.
  pose proof (zlen_nonneg (ready m)). pose proof (zlen_nonneg (rounds ≫= ready)).
  rewrite serve_round_all by (intros k Hk; by apply (c_sel _ _ _ _ _ _ Hinv), Hdom).
  rewrite foldl_app.
  eapply collected_bind; [eapply (collect_all (ready m) s1) with (rest' := fun i => of_fd i s2 ++ rest' i);
    try done; [by apply mapM_Some | lia |] |].
  - intros i. by rewrite Hrest, of_fd_app, app_assoc.
  - intros st1 e1 cur1 T1 ess1 rest1 C1 Q1 A1 Z1. rewrite <- A1.
    eapply IH; try done; [by apply mapM_Some | lia | by rewrite A1].
Qed.
End clients.

(** ** Properties *)

(** A sequence of rounds of the collector listening on [sock], the steps they are, and
    the streams [ss i] the clients of each descriptor sent, of the records [ess i]. *)
Record traffic (sock : Z) (rounds : list (gmap Z fd_answer)) (steps : list (Z * cstep))
    (ss : Z -> list (list byte)) (ess : Z -> list (list logentry_thaw)) : Prop := {
  t_sel : selects {[sock]} rounds;
  t_steps : mapM (client_step sock) (rounds ≫= ready) = Some steps;
  t_range : Forall (fun x => in_range sock x.1) steps;
  t_small : Forall small_read (rounds ≫= ready);
  t_ses : forall i, in_range sock i ->
    sessions None (of_fd i steps) = Some (ss i) /\ of_records (ss i) (ess i)
}.

(** The kernel's answers: writes to the log file take a record whole, and no record has
    the collector's own time. *)
Definition answers_for (e : env) (n : Z) (ess : Z -> list (list logentry_thaw)) : Prop :=
  full_writes (wr e) /\ zlen (pending ess) <= zlen (wr e) /\ n <= zlen (clock e) /\
  skewed (clock e) (pending ess).

(** The log file holds [L]: for each descriptor the records of its clients, all shifted
    by one clock difference, taken at the first of them. *)
Definition merged (sock : Z) (clk : list timeval) (ess : Z -> list (list logentry_thaw))
    (L : list (Z * logentry_thaw)) : Prop :=
  Forall (fun x => in_range sock x.1) L /\
  forall i, in_range sock i -> exists d,
    from i L = restamp d <$> concat (ess i) /\
    (concat (ess i) = [] \/ exists lt le es,
      lt ∈ clk /\ concat (ess i) = le :: es /\ d = timersub lt (stamp le)).

Lemma start_collecting fifo_made fifo_fd socket_rv bind_ok listen_ok out_fd junk w sock st e n ess rest :
  logd_start 3 junk fifo_made fifo_fd socket_rv bind_ok listen_ok out_fd = (w, Ok (sock, st)) ->
  answers_for e n ess ->
  (forall i, in_range sock i -> exists ss, sessions None (rest i) = Some ss /\ of_records ss (ess i)) ->
  collecting sock st e (fun _ => None) (fun _ => None) ess rest /\ active_fd_set st = {[sock]}.
Proof.
  unfold logd_start. change (3 =? 2) with false. change (3 =? 3) with true. cbn [negb andb].
  intros H (Hw & Hn & _ & Hsk) Hses.
  destruct ((create_socket socket_rv bind_ok <? 0) || negb listen_ok) eqn:E; [done |].
  inv_runs. zbool. destruct (Z.ltb_spec out_fd 0); [done |]. inv_run. simplify_eq.
  split; [| cbn; set_solver]. split; try done.
  intros i. cbn [active_fd_set set_active nfds]. rewrite elem_of_singleton. lia.
Qed.

Lemma clients_merged fifo_made fifo_fd socket_rv bind_ok listen_ok out_fd junk w sock st e rounds steps ss ess :
  logd_start 3 junk fifo_made fifo_fd socket_rv bind_ok listen_ok out_fd = (w, Ok (sock, st)) ->
  traffic sock rounds steps ss ess -> answers_for e (zlen (rounds ≫= ready)) ess ->
  exists out st' e' L,
    serve_rounds sock (Some <$> rounds) st e = (out, Ok (st', e')) /\
    written out = stream_bytes (snd <$> L) /\ merged sock (clock e) ess L.
Proof.
  intros Hst [Hsel Hs Hr Hm Hses] He.
  destruct (start_collecting _ _ _ _ _ _ _ _ _ _ e _ ess (fun i => of_fd i steps) Hst He) as [Hc Ha].
  { intros i Hi. exists (ss i). by apply Hses. }
  destruct He as (_ & _ & Hn & _).
  destruct (collect_rounds sock rounds steps st e (fun _ => None) (fun _ => None) ess
    (fun i => of_fd i steps) (fun _ => [])) as
    (out & st' & e' & L & cur' & T' & ess' & rest' & E & W & R & C & Q & _ & _ & M & _); try done.
  { intros i. by rewrite app_nil_r. }
  { by rewrite Ha. }
  exists out, st', e', L. split_and!; try done. split; [done |]. intros i Hi.
  destruct (M i Hi) as (les & d & Ees & F & D & HT). destruct (c_ses _ _ _ _ _ _ _ C i Hi) as (ss' & Es & Ho).
  rewrite Q in Es. destruct (cur' i); [done |]. injection Es as <-. assert (ess' i = []) as E2 by (by inversion Ho).
  rewrite E2 in *. cbn [concat] in Ees. rewrite app_nil_r in Ees. exists d. rewrite F, Ees.
  split; [done |]. rewrite Ees in HT. destruct D as [D | [D ->]]; [| by left].
  destruct HT as [HT | (_ & lt & le & es0 & HT & Hlt & ->)]; rewrite D in HT; [done |].
  injection HT as ->. right. by exists lt, le, es0.
Qed.

(** C11: The collector merges its clients' logs, when the kernel takes each of its
    writes to the log file whole and its clock never shows the time of a record it is
    sent.  It starts listening, its clients connect, send the records of their logs in
    pieces of at most 4128768 bytes cut anywhere, and leave, in any interleaving of
    any number of rounds of select, several of them one after the other on a
    descriptor that is used again.  Then no step fails, and the log file it leaves is
    a sequence of whole records: those of each descriptor's clients, all of them and
    in order, with their times shifted by one clock difference, the one between the
    collector's clock and the first record.  (After a short write the rest of the
    buffer is lost; a difference of zero is taken for none.) *)
Theorem logd_merges_clients fifo_made fifo_fd socket_rv bind_ok listen_ok out_fd junk w sock st e
    rounds steps ss ess :
  logd_start 3 junk fifo_made fifo_fd socket_rv bind_ok listen_ok out_fd = (w, Ok (sock, st)) ->
  traffic sock rounds steps ss ess -> answers_for e (zlen (rounds ≫= ready)) ess ->
  exists out st' e' L,
    serve_rounds sock (Some <$> rounds) st e = (out, Ok (st', e')) /\
    written out = stream_bytes (snd <$> L) /\ merged sock (clock e) ess L.
Proof. apply clients_merged. Qed.

(** Two clients: the first's record arrives in two pieces, the second connects and sends
    its own between them; the first leaves and a third client gets its descriptor. *)
Definition demo_rounds : list (gmap Z fd_answer) :=
  [ {[3 := AAccept 5]}; {[5 := ARead (Some (ztake 20 (entry_bytes demo_entry)))]};
    {[3 := AAccept 6; 5 := ARead (Some (zdrop 20 (entry_bytes demo_entry)))]};
    {[5 := ARead (Some []); 6 := ARead (Some (entry_bytes demo_entry2))]};
    {[3 := AAccept 5; 6 := ARead (Some [])]};
    {[5 := ARead (Some (entry_bytes demo_entry2))]}; {[5 := ARead (Some [])]} ].
Definition demo_steps : list (Z * cstep) :=
  Eval vm_compute in default [] (mapM (client_step 3) (demo_rounds ≫= ready)).
Definition demo_sent (i : Z) : list (list logentry_thaw) :=
  if i =? 5 then [[demo_entry]; [demo_entry2]] else if i =? 6 then [[demo_entry2]] else [].
Definition demo_env : env := mk_env (replicate 3 65536) (replicate 11 (mk_tv 1000 500002)).

Lemma demo_sent_wf i : Forall (Forall wf_entry) (demo_sent i).
Proof.
  unfold demo_sent. repeat case_match; repeat constructor; apply demo_entry_wf || apply demo_entry2_wf.
Qed.

Definition demo_served : list (Z * fd_answer) := Eval vm_compute in demo_rounds ≫= ready.

Lemma demo_ready : demo_rounds ≫= ready = demo_served.
Proof. vm_compute. reflexivity. Qed.

Lemma demo_selects : selects {[3]} demo_rounds.
Proof. apply (@bool_decide_eq_true_1 _ (selects_dec _ _)). vm_compute. reflexivity. Qed.

Lemma demo_traffic :
  traffic 3 demo_rounds demo_steps (fun i => stream_bytes <$> demo_sent i) demo_sent.
Proof.
  split.
  - exact demo_selects.
  - rewrite demo_ready. vm_compute. reflexivity.
  - repeat (apply List.Forall_cons; [unfold in_range, FD_SETSIZE; cbn; lia |]). apply List.Forall_nil.
  - rewrite demo_ready. unfold small_read, demo_served.
    repeat (apply List.Forall_cons; [first [exact I | vm_compute; congruence] |]). apply List.Forall_nil.
  - intros i _. split.
    + unfold demo_sent. destruct (Z.eqb_spec i 5) as [-> |]; [vm_compute; reflexivity |].
      destruct (Z.eqb_spec i 6) as [-> |]; [vm_compute; reflexivity |].
      unfold of_fd, demo_steps. rewrite !filter_cons_False by (cbn; congruence). reflexivity.
    + apply Forall2_fmap_l, Forall_Forall2_diag.
      eapply List.Forall_impl; [| apply demo_sent_wf]. by intros es He.
Qed.

Lemma demo_answers : answers_for demo_env (zlen (demo_rounds ≫= ready)) demo_sent.
Proof.
  rewrite demo_ready.
  split_and!.
  - apply Forall_replicate. lia.
  - vm_compute. congruence.
  - vm_compute. congruence.
  - intros lt le [-> _]%elem_of_replicate. unfold pending. rewrite list_elem_of_bind.
    intros (i & Hle & _). unfold demo_sent in Hle.
    repeat case_match; cbn in Hle; rewrite ?elem_of_cons, ?elem_of_nil in Hle; naive_solver.
Qed.

Lemma logd_merges_clients_witness :
  exists out st' e' L,
    serve_rounds 3 (Some <$> demo_rounds) (mk_logd ∅ (-1) 9 {[3]} 4) demo_env = (out, Ok (st', e')) /\
    written out = stream_bytes (snd <$> L) /\
    merged 3 (replicate 11 (mk_tv 1000 500002)) demo_sent L.
Proof.
  apply (logd_merges_clients true 0 3 true true 9 0 [] 3 (mk_logd ∅ (-1) 9 {[3]} 4) demo_env
    demo_rounds demo_steps (fun i => stream_bytes <$> demo_sent i) demo_sent).
  - vm_compute. reflexivity.
  - exact demo_traffic.
  - exact demo_answers.
Defined.
