(* ===== verification/Plugin.v ===== *)
(** src/src/trace/protocol.c and protocol.h: what a protocol plugin is.

    A plugin watches one connection: vfd.c hands it the bytes the application is
    about to read or has written, and it answers how many of them it has dealt
    with, or -1 when it needs more.  This file holds the plugins' states, the
    dispatcher record, the laws vfd.c relies on ([PpLaw]) and the sequences of
    calls a driver may make ([pp_calls]); the plugins are in the files after it.

    A call gets [mem], the bytes from the pointer to the end of the object it
    points into, and [len], how many of them are data: string functions may run
    past [len]. *)
From S2P Require Import Prelude CInt CString Config.

(** ** The states ([void *data]) *)

Record perlp_state := mk_perlp { c2s_ctr : Z; s2c_ctr : Z }.

Record http_state_read := mk_http_read {
  hr_done : Z; awaitHeader : Z; awaitCL : Z; version : Z; hr_seqno : Z; hr_toread : Z }.
Record http_state_write := mk_http_write {
  hw_done : Z; awaitStatus : Z; hw_toread : Z; hw_seqno : Z }.
Record http_state := mk_http { http_read : http_state_read; http_write : http_state_write }.

Record psql_side := mk_psql {
  gotStartup : Z; psql_type : byte; gotHeader : Z; psql_todo : Z; psql_id : Z }.
Record psql_state := mk_psql_state { psql_read : psql_side; psql_write : psql_side }.

Record mysql_side := mk_mysql { mysql_todo : Z; mysql_id : Z }.
Record mysql_state := mk_mysql_state { mysql_read : mysql_side; mysql_write : mysql_side }.

Record x_state := mk_x { x_success : Z; x_setup : Z; x_recvid : Z; x_sendid : Z }.

Record fcgi_side := mk_fcgi {
  fcgi_success : Z; conlen : Z; padlen : Z; stream_type : option (list byte);
  reqId : Z; fcgi_done : Z }.
Record fcgi_state := mk_fcgi_state { fcgi_read : fcgi_side; fcgi_write : fcgi_side }.

Inductive pp_data :=
| PD_null
| PD_perlp (st : perlp_state)
| PD_http (st : http_state)
| PD_psql (st : psql_state)
| PD_mysql (st : mysql_state)
| PD_x (st : x_state)
| PD_fcgi (st : fcgi_state).

(** ** The dispatcher *)

Definition pp_io : Type := pp_data -> Z -> list byte -> Z -> logged (Z * pp_data).

Record pp_dispatcher := mk_pp {
  pp_name : list byte;
  pp_init : Z -> pp_data -> logged pp_data;
  pp_shutdown : pp_data -> logged pp_data;
  pp_read : pp_io;
  pp_write : pp_io
}.

(** ** What vfd.c needs of a plugin

    It takes part of what it is shown, never more and never nothing; and when it
    has refused some bytes, what it takes later goes past them. *)
Class PpLaw (f : pp_io) (Inv : pp_data -> Prop) (Refused : pp_data -> Z -> Prop) := {
  pp_takes data s mem len w a data' :
    Inv data -> 0 < len <= zlen mem -> len < 2 ^ 31 -> f data s mem len = (w, Ok (a, data')) ->
    Inv data' /\ (a = -1 \/ 0 < a <= len);
  pp_refuses data s mem len w data' :
    Inv data -> 0 < len <= zlen mem -> len < 2 ^ 31 -> f data s mem len = (w, Ok (-1, data')) ->
    Refused data' len;
  pp_waits data n s mem len w a data' :
    Inv data -> Refused data n -> 0 < len <= zlen mem -> n < len -> len < 2 ^ 31 ->
    f data s mem len = (w, Ok (a, data')) -> a <> -1 -> n < a
}.

(** ** Sequences of calls

    [pp_calls f s d bytes w d']: called with consecutive data, in any portions and
    with anything in memory after them, [f] has taken [bytes], logged [w] and gone
    from state [d] to [d']. *)
Inductive pp_calls (f : pp_io) (s : Z) : pp_data -> list byte -> list log_op -> pp_data -> Prop :=
| calls_nil d : pp_calls f s d [] [] d
| calls_take d mem len w a d1 bytes w2 d2 :
    0 < len <= zlen mem -> len < 2 ^ 31 -> f d s mem len = (w, Ok (a, d1)) -> 0 < a <= len ->
    pp_calls f s d1 bytes w2 d2 ->
    pp_calls f s d (ztake a mem ++ bytes) (w ++ w2) d2
| calls_refuse d mem len w d1 bytes w2 d2 :
    0 < len <= zlen mem -> len < 2 ^ 31 -> f d s mem len = (w, Ok (-1, d1)) ->
    pp_calls f s d1 bytes w2 d2 ->
    pp_calls f s d bytes (w ++ w2) d2.

Lemma pp_calls_trans f s d1 b1 w1 d2 b2 w2 d3 :
  pp_calls f s d1 b1 w1 d2 -> pp_calls f s d2 b2 w2 d3 ->
  pp_calls f s d1 (b1 ++ b2) (w1 ++ w2) d3.
Proof.
  induction 1 as [| | ]; intros Hrest; [done | |].
  - rewrite <- !app_assoc. eapply calls_take; eauto.
  - rewrite <- app_assoc. eapply calls_refuse; eauto.
Qed.

(** The plugin, called with the bytes of [stream] in order, failed. *)
Definition crashed_in (f : pp_io) (s : Z) (d0 : pp_data) (stream : list byte) (c : crash) : Prop :=
  exists taken data w1 mem len w2 rest,
    pp_calls f s d0 taken w1 data /\ 0 < len <= zlen mem /\ len < 2 ^ 31 /\
    taken ++ ztake len mem ++ rest = stream /\ f data s mem len = (w2, Crash c).

Lemma crashed_in_after f s d0 d1 taken w stream c :
  pp_calls f s d0 taken w d1 -> crashed_in f s d1 stream c ->
  crashed_in f s d0 (taken ++ stream) c.
Proof.
  intros Hc (tk & data & w1 & mem & len & w2 & rest & Hc' & Hl & H31 & <- & Hp).
  exists (taken ++ tk), data, (w ++ w1), mem, len, w2, rest. split_and!; try done; try lia.
  - by eapply pp_calls_trans.
  - by rewrite <- app_assoc.
Qed.

(** A call that takes exactly the head [h] of the stream was shown it. *)
Lemma takes_head a (mem h tl rest : list byte) :
  a = zlen h -> a <= zlen mem -> ztake a mem ++ rest = h ++ tl ->
  mem = h ++ zdrop a mem /\ rest = tl.
Proof.
  intros -> Ha E. pose proof (zlen_nonneg h).
  apply app_inj_1 in E as [E ->].
  - split; [| done]. rewrite <- E at 1. by rewrite ztake_zdrop.
  - apply Nat2Z.inj. fold (zlen h) (zlen (ztake (zlen h) mem)). zl.
Qed.

(** ** Helpers of the plugins *)

(** The C string a NUL-terminated copy of [l] is: up to the first NUL. *)
Definition cbytes (l : list byte) : list byte := default l (cstr (l ++ [NUL])).

(** The C string snprintf(buf, n, ...) leaves when the formatted bytes are [l]. *)
Definition snprintf (n : nat) (l : list byte) : list byte := cbytes (take (n - 1) l).

(** C's [x++] on an int. *)
Definition incr (x : Z) : Z := s32 (x + 1).

Lemma zlen_cbytes l : zlen (cbytes l) <= zlen l.
Proof.
  unfold cbytes, cstr. destruct (strlen (l ++ [NUL])) as [n |] eqn:E; cbn; [| lia].
  unfold zlen. rewrite length_take, length_app. cbn.
  enough (n <= length l)%nat by lia.
  unfold strlen in E. apply c_scan_lookup in E as (Hl & _ & _). rewrite length_app in Hl. cbn in Hl. lia.
Qed.
Lemma zlen_snprintf n l : zlen (snprintf n l) <= zlen l.
Proof. unfold snprintf. etrans; [apply zlen_cbytes |]. unfold zlen. rewrite length_take. lia. Qed.
Lemma zlen_snprintf_le n l : zlen (snprintf n l) <= Z.of_nat n.
Proof. unfold snprintf. etrans; [apply zlen_cbytes |]. unfold zlen. rewrite length_take. lia. Qed.

Lemma cbytes_nul_free l : nul_free l -> cbytes l = l.
Proof. intros. unfold cbytes. by rewrite cstr_app. Qed.

(** ** perlp: the single-line protocol *)

Definition pp_perlps_init (s : Z) (data : pp_data) : logged pp_data :=
  LOGBINiis SYS_PP_INIT 0 PP_PERLS_ID s (bs "perlps") ;;;
  ret (PD_perlp (mk_perlp 0 1)).

Definition pp_perlps_shutdown (data : pp_data) : logged pp_data :=
  LOGBINi SYS_PP_SHUTDOWN 0 PP_PERLS_ID ;;; ret PD_null.

(** Both directions count on [s2c_ctr]. *)
Definition pp_perlps_read : pp_io := fun data s mem len =>
  match data with
  | PD_perlp st =>
      LOGBINiiis SYS_PP_MSG_RECV 0 PP_PERLS_ID s (s2c_ctr st) (bs "perlps") ;;;
      ret (len, PD_perlp (mk_perlp (c2s_ctr st) (incr (s2c_ctr st))))
  | _ => stop Undef
  end.

Definition pp_perlps_write : pp_io := fun data s mem len =>
  match data with
  | PD_perlp st =>
      LOGBINiiis SYS_PP_MSG_SEND 0 PP_PERLS_ID s (s2c_ctr st) (bs "perlps") ;;;
      ret (len, PD_perlp (mk_perlp (c2s_ctr st) (incr (s2c_ctr st))))
  | _ => stop Undef
  end.

Definition pp_perlpc_init (s : Z) (data : pp_data) : logged pp_data := ret data.
Definition pp_perlpc_shutdown (data : pp_data) : logged pp_data := ret data.
Definition pp_perlpc_read : pp_io := fun data s mem len => ret (s32 (len + 1), data).
Definition pp_perlpc_write : pp_io := fun data s mem len => ret (s32 (len + 1), data).

(** ** trivial *)

Definition pp_trivial_init (s : Z) (data : pp_data) : logged pp_data := ret PD_null.
Definition pp_trivial_shutdown (data : pp_data) : logged pp_data := ret PD_null.
Definition pp_trivial_read : pp_io := fun data s mem len => ret (len, data).
Definition pp_trivial_write : pp_io := fun data s mem len => ret (len, data).

Definition pp_perlpc := mk_pp (bs "perlp") pp_perlpc_init pp_perlpc_shutdown
  pp_perlpc_read pp_perlpc_write.
Definition pp_perlps := mk_pp (bs "perlp") pp_perlps_init pp_perlps_shutdown
  pp_perlps_read pp_perlps_write.
Definition pp_trivial := mk_pp (bs "trivial") pp_trivial_init pp_trivial_shutdown
  pp_trivial_read pp_trivial_write.

(** A plugin that takes all it is shown obeys the laws. *)
Definition takes_all (f : pp_io) : Prop :=
  forall data s mem len w a data', f data s mem len = (w, Ok (a, data')) -> a = len.

Lemma takes_all_law f : takes_all f -> PpLaw f (fun _ => True) (fun _ _ => False).
Proof.
  intros Hf. constructor.
  - intros data s mem len w a data' _ Hl _ H. apply Hf in H as ->. split; [done | lia].
  - intros data s mem len w data' _ Hl _ H. apply Hf in H. lia.
  - done.
Qed.

#[export] Instance perlps_read_law : PpLaw pp_perlps_read (fun _ => True) (fun _ _ => False).
Proof.
  apply takes_all_law. intros data s mem len w a data' H. unfold pp_perlps_read in H.
  destruct data; try done. inv_run. by simplify_eq.
Qed.
#[export] Instance perlps_write_law : PpLaw pp_perlps_write (fun _ => True) (fun _ _ => False).
Proof.
  apply takes_all_law. intros data s mem len w a data' H. unfold pp_perlps_write in H.
  destruct data; try done. inv_run. by simplify_eq.
Qed.
#[export] Instance trivial_law : PpLaw pp_trivial_read (fun _ => True) (fun _ _ => False).
Proof.
  apply takes_all_law. intros data s mem len w a data' H. unfold pp_trivial_read in H.
  inv_run. by simplify_eq.
Qed.
