(* ===== verification/Psql.v ===== *)
(** src/src/trace/protocol.c, POSTGRES: the psqlc and psqls plugins.

    After an untyped startup packet every message is a type byte and a 4-byte
    big-endian length that counts itself and the body.  [speak_psql] serves both
    roles and directions; the bodies of queries ('Q') are waited for whole and
    logged, other bodies are taken as they come. *)
From S2P Require Import Prelude CInt CString Config Plugin.

(** get_int: ntohl of the four bytes at [off]. *)
Definition get_int (mem : list byte) (off : Z) : logged Z :=
  let! b := load mem off 4 in ret (be_val b).

Definition set_todo (st : psql_side) (t : Z) : psql_side :=
  mk_psql (gotStartup st) (psql_type st) (gotHeader st) t (psql_id st).

(** The log line of a header. *)
Definition psql_data (type : byte) (todo : Z) : list byte :=
  snprintf 67 (bs "psql: type=" ++ [type] ++ bs " len=" ++ fmt_d (s32 (u32 (todo + 4))) ++
               bs " todo=" ++ fmt_d (s32 todo)).

(** The switch on the message type: what is logged, and the next id. *)
Definition psql_msg (st : psql_side) (s role : Z) (dir : pp_direction) : logged psql_side :=
  let next := mk_psql (gotStartup st) (psql_type st) (gotHeader st) (psql_todo st)
                (incr (psql_id st)) in
  if Byte.eqb (psql_type st) "Q"%byte then
    if (role =? PP_PSQLC_ID) && bool_decide (dir = PP_WRITE) then
      LOGBINiiis SYS_PP_MSG_SEND 0 PP_PSQLC_ID s (psql_id st) (bs "psqlc") ;;; ret next
    else if (role =? PP_PSQLS_ID) && bool_decide (dir = PP_READ) then
      LOGBINiiis SYS_PP_MSG_RECV 0 PP_PSQLS_ID s (psql_id st) (bs "psqls") ;;; ret next
    else ret st
  else if Byte.eqb (psql_type st) "Z"%byte then
    if (role =? PP_PSQLC_ID) && bool_decide (dir = PP_READ) then
      LOGBINiiis SYS_PP_MSG_RECV 0 PP_PSQLC_ID s (psql_id st) (bs "psqlc") ;;; ret next
    else if (role =? PP_PSQLS_ID) && bool_decide (dir = PP_WRITE) then
      LOGBINiiis SYS_PP_MSG_SEND 0 PP_PSQLS_ID s (psql_id st) (bs "psqls") ;;; ret next
    else ret st
  else ret st.

Definition speak_psql (st : psql_side) (s : Z) (mem : list byte) (len role : Z)
    (dir : pp_direction) : logged (Z * psql_side) :=
  if 0 <? psql_todo st then
    (* waiting for the body *)
    if Byte.eqb (psql_type st) "Q"%byte && (len <? psql_todo st) then ret (-1, st) else
    (if Byte.eqb (psql_type st) "Q"%byte then
       let! q := of_opt (cstr mem) in LOGBINss SYS_PP_PROP 0 (bs "QUERY") q
     else ret tt) ;;;
    let used := s32 (if psql_todo st <? len then psql_todo st else len) in
    let todo := u32 (psql_todo st - used) in
    ret (used, mk_psql (gotStartup st) (psql_type st)
                 (if todo =? 0 then 0 else gotHeader st) todo (psql_id st))
  else if gotStartup st =? 0 then
    if len <? 8 then ret (-1, st) else
    let! todo := get_int mem 0 in
    let! prot := get_int mem 4 in
    ret (8, mk_psql 1 (psql_type st) (gotHeader st) (u32 (todo - 8)) (psql_id st))
  else if gotHeader st =? 0 then
    if len <? 5 then ret (-1, st) else
    let! c := load mem 0 1 in
    let type := default NUL (head c) in
    let! todo := get_int mem 1 in
    let todo := u32 (todo - 4) in
    let st := mk_psql (gotStartup st) type 1 todo (psql_id st) in
    LOGBINs SYS_PP_DATA 0 (psql_data type todo) ;;;
    let! st := psql_msg st s role dir in
    ret (5, st)
  else ret (-1, st).

Definition pp_psql_common_init : psql_state :=
  mk_psql_state (mk_psql 0 NUL 0 0 0) (mk_psql 0 NUL 0 0 0).

Definition start_side (p : psql_side) : psql_side :=
  mk_psql 1 (psql_type p) (gotHeader p) (psql_todo p) (psql_id p).

Definition pp_psqlc_init (s : Z) (data : pp_data) : logged pp_data :=
  let st := pp_psql_common_init in
  let st := mk_psql_state (start_side (psql_read st)) (psql_write st) in
  LOGBINiis SYS_PP_INIT 0 PP_PSQLC_ID s (bs "psqlc") ;;; ret (PD_psql st).
Definition pp_psqls_init (s : Z) (data : pp_data) : logged pp_data :=
  let st := pp_psql_common_init in
  let st := mk_psql_state (psql_read st) (start_side (psql_write st)) in
  LOGBINiis SYS_PP_INIT 0 PP_PSQLS_ID s (bs "psqls") ;;; ret (PD_psql st).

Definition pp_psqlc_shutdown (data : pp_data) : logged pp_data :=
  LOGBINs SYS_PP_SHUTDOWN 0 (bs "psqlc") ;;; ret PD_null.
Definition pp_psqls_shutdown (data : pp_data) : logged pp_data :=
  LOGBINs SYS_PP_SHUTDOWN 0 (bs "psqls") ;;; ret PD_null.

(** The four entry points: the side of the state for the direction. *)
Definition psql_io (role : Z) (dir : pp_direction) : pp_io := fun data s mem len =>
  match data with
  | PD_psql st =>
      match dir with
      | PP_READ =>
          let! (a, p) := speak_psql (psql_read st) s mem (u32 len) role PP_READ in
          ret (a, PD_psql (mk_psql_state p (psql_write st)))
      | PP_WRITE =>
          let! (a, p) := speak_psql (psql_write st) s mem (u32 len) role PP_WRITE in
          ret (a, PD_psql (mk_psql_state (psql_read st) p))
      end
  | _ => stop Undef
  end.

Definition pp_psqlc_read : pp_io := psql_io PP_PSQLC_ID PP_READ.
Definition pp_psqlc_write : pp_io := psql_io PP_PSQLC_ID PP_WRITE.
Definition pp_psqls_read : pp_io := psql_io PP_PSQLS_ID PP_READ.
Definition pp_psqls_write : pp_io := psql_io PP_PSQLS_ID PP_WRITE.

Definition pp_psqlc := mk_pp (bs "postgresql") pp_psqlc_init pp_psqlc_shutdown
  pp_psqlc_read pp_psqlc_write.
Definition pp_psqls := mk_pp (bs "postgresql") pp_psqls_init pp_psqls_shutdown
  pp_psqls_read pp_psqls_write.

Definition side (dir : pp_direction) (st : psql_state) : psql_side :=
  match dir with PP_READ => psql_read st | PP_WRITE => psql_write st end.
Definition set_side (dir : pp_direction) (st : psql_state) (p : psql_side) : psql_state :=
  match dir with
  | PP_READ => mk_psql_state p (psql_write st)
  | PP_WRITE => mk_psql_state (psql_read st) p
  end.

Lemma psql_io_eq role dir st s mem len :
  psql_io role dir (PD_psql st) s mem len =
  (let! (a, p) := speak_psql (side dir st) s mem (u32 len) role dir in
   ret (a, PD_psql (set_side dir st p))).
Proof. by destruct dir. Qed.

(** ** The laws *)

Lemma LOGBINs_psql type todo :
  LOGBINs SYS_PP_DATA 0 (psql_data type todo) =
  emit (LLog (mk_event SYS_PP_DATA 0 [] (Some (psql_data type todo)))).
Proof. apply LOGBINs_short. unfold psql_data. etrans; [apply zlen_snprintf_le | lia]. Qed.
Lemma LOGBINss_query q :
  zlen q <= 4000 ->
  LOGBINss SYS_PP_PROP 0 (bs "QUERY") q =
  emit (LLog (mk_event SYS_PP_PROP 0 [] (Some (bs "QUERY" ++ bs "=-=" ++ q)))).
Proof. intros. apply LOGBINss_short. change (zlen (bs "QUERY")) with 5. lia. Qed.

Definition psql_inv (p : psql_side) : Prop := is_u 32 (psql_todo p).

(** What a call does, without the log. *)
Lemma speak_psql_cases p s mem len role dir w a p' :
  psql_inv p -> 0 < len < 2 ^ 31 -> speak_psql p s mem len role dir = (w, Ok (a, p')) ->
  psql_inv p' /\
  ((0 < psql_todo p /\ psql_type p = "Q"%byte /\ len < psql_todo p /\ a = -1 /\ p' = p) \/
   (0 < psql_todo p /\ a = Z.min len (psql_todo p) /\
    (psql_type p = "Q"%byte -> a = psql_todo p)) \/
   (psql_todo p = 0 /\ gotStartup p = 0 /\
    ((len < 8 /\ a = -1 /\ p' = p) \/ (8 <= len /\ a = 8))) \/
   (psql_todo p = 0 /\ gotStartup p <> 0 /\ gotHeader p = 0 /\
    ((len < 5 /\ a = -1 /\ p' = p) \/ (5 <= len /\ a = 5))) \/
   (psql_todo p = 0 /\ gotStartup p <> 0 /\ gotHeader p <> 0 /\ a = -1 /\ p' = p)).
Proof.
  unfold psql_inv, is_u. intros Hinv Hl H. unfold speak_psql in H.
  destruct (Z.ltb_spec 0 (psql_todo p)) as [Ht | Ht].
  - destruct (Byte.eqb (psql_type p) "Q"%byte) eqn:Eq.
    + apply Byte.byte_dec_bl in Eq. cbn [andb] in H.
      destruct (Z.ltb_spec len (psql_todo p)); [inv_run; simplify_eq; split; [done | by left] |].
      inv_run. simplify_eq. cbn [psql_todo]. split; [apply u32_range |]. right. left.
      assert ((if psql_todo p <? len then psql_todo p else len) = psql_todo p) as ->
        by (case_z; lia).
      rewrite s32_small by lia. lia.
    + cbn [andb] in H. inv_run. simplify_eq. cbn [psql_todo]. split; [apply u32_range |].
      right. left. split_and!; [done | |].
      * case_z; rewrite s32_small; lia.
      * intros E. rewrite E in Eq. done.
  - destruct (Z.eqb_spec (gotStartup p) 0).
    + destruct (Z.ltb_spec len 8); inv_run; simplify_eq; cbn [psql_todo].
      * split; [done |]. right. right. left. split_and!; [lia | done | by left].
      * split; [apply u32_range |]. right. right. left. split_and!; [lia | done | right; lia].
    + destruct (Z.eqb_spec (gotHeader p) 0).
      * destruct (Z.ltb_spec len 5); inv_run; simplify_eq; cbn [psql_todo].
        -- split; [done |]. do 3 right. left. split_and!; [lia | done | done | by left].
        -- split.
           ++ unfold psql_msg in Hm2. repeat case_match; inv_run; simplify_eq; cbn [psql_todo];
                apply u32_range.
           ++ do 3 right. left. split_and!; [lia | done | done | right; lia].
      * inv_run; simplify_eq. split; [done |]. do 4 right. split_and!; [lia | done..].
Qed.

Definition psql_data_inv (dir : pp_direction) (d : pp_data) : Prop :=
  exists st, d = PD_psql st /\ psql_inv (side dir st).

(** What the last refusal says of the state. *)
Definition psql_refused (dir : pp_direction) (d : pp_data) (n : Z) : Prop :=
  exists st, d = PD_psql st /\
  let p := side dir st in
  (0 < psql_todo p -> psql_type p = "Q"%byte /\ n < psql_todo p) /\
  (psql_todo p = 0 -> gotStartup p = 0 -> n < 8) /\
  (psql_todo p = 0 -> gotStartup p <> 0 -> gotHeader p = 0 -> n < 5).

Lemma side_set dir st p : side dir (set_side dir st p) = p.
Proof. by destruct dir. Qed.

#[export] Instance psql_law role dir :
  PpLaw (psql_io role dir) (psql_data_inv dir) (psql_refused dir).
Proof.
  constructor.
  - intros data s mem len w a data' (st & -> & Hinv) Hl H31 H. rewrite psql_io_eq in H.
    inv_run. destruct a0 as [a1 p]. inv_run. simplify_eq. rewrite u32_small in Hm by lia.
    apply speak_psql_cases in Hm as [Hp Hc]; [| done | lia].
    split; [exists (set_side dir st p); rewrite side_set; done | lia].
  - intros data s mem len w data' (st & -> & Hinv) Hl H31 H. rewrite psql_io_eq in H.
    inv_run. destruct a as [a1 p]. inv_run. simplify_eq. rewrite u32_small in Hm by lia.
    apply speak_psql_cases in Hm as [Hp Hc]; [| done | lia].
    exists (set_side dir st p). rewrite side_set. split; [done |]. cbv zeta.
    unfold psql_inv, is_u in *.
    destruct Hc as [(?&?&?&?&->)|[(?&?&?)|[(?&?&[(?&?&->)|(?&?)])|[(?&?&?&[(?&?&->)|(?&?)])|(?&?&?&?&->)]]]];
      split_and!; try lia; intros; first [done | lia].
  - intros data n s mem len w a data' (st & -> & Hinv) (st' & [= <-] & Hr) Hl Hn H31 Hcall Ha.
    rewrite psql_io_eq in Hcall. inv_run. destruct a0 as [a1 p]. inv_run. simplify_eq.
    rewrite u32_small in Hm by lia. apply speak_psql_cases in Hm as [Hp Hc]; [| done | lia].
    cbv zeta in Hr. unfold psql_inv, is_u in *. destruct Hr as (Hr1 & Hr2 & Hr3).
    destruct Hc as [Hc|[(Ht&Hm&Hq)|[(?&?&[Hc|(?&?)])|[(?&?&?&[Hc|(?&?)])|Hc]]]]; try lia.
Qed.

(** ** The protocol, message by message *)

(** A typed message and its bytes. *)
Record psql_message := mk_msg { m_type : byte; m_body : list byte }.
Definition psql_bytes (m : psql_message) : list byte :=
  m_type m :: be_bytes 4 (zlen (m_body m) + 4) ++ m_body m.

(** The first packet of a client: its length, a version, parameters. *)
Definition startup_bytes (prot : Z) (params : list byte) : list byte :=
  be_bytes 4 (zlen params + 8) ++ be_bytes 4 prot ++ params.

(** Messages this program can follow: a body that is not empty, and for a query a
    string with its terminator that fits a record. *)
Definition psql_ok (m : psql_message) : Prop :=
  0 < zlen (m_body m) < 2 ^ 31 /\
  (m_type m = "Q"%byte -> exists q, nul_free q /\ zlen q <= 4000 /\ m_body m = q ++ [NUL]).

(** Which messages are requests or replies, for whom. *)
Definition psql_tracked (role : Z) (dir : pp_direction) (t : byte) :
    option (syscall * Z * list byte) :=
  if Byte.eqb t "Q"%byte then
    match dir with
    | PP_WRITE => if role =? PP_PSQLC_ID then Some (SYS_PP_MSG_SEND, PP_PSQLC_ID, bs "psqlc") else None
    | PP_READ => if role =? PP_PSQLS_ID then Some (SYS_PP_MSG_RECV, PP_PSQLS_ID, bs "psqls") else None
    end
  else if Byte.eqb t "Z"%byte then
    match dir with
    | PP_READ => if role =? PP_PSQLC_ID then Some (SYS_PP_MSG_RECV, PP_PSQLC_ID, bs "psqlc") else None
    | PP_WRITE => if role =? PP_PSQLS_ID then Some (SYS_PP_MSG_SEND, PP_PSQLS_ID, bs "psqls") else None
    end
  else None.

Definition query_event (m : psql_message) : list log_op :=
  if Byte.eqb (m_type m) "Q"%byte then
    [LLog (mk_event SYS_PP_PROP 0 [] (Some (bs "QUERY" ++ bs "=-=" ++ removelast (m_body m))))]
  else [].

Definition header_events (role : Z) (dir : pp_direction) (s id : Z) (m : psql_message) : list log_op :=
  LLog (mk_event SYS_PP_DATA 0 [] (Some (psql_data (m_type m) (zlen (m_body m))))) ::
  match psql_tracked role dir (m_type m) with
  | Some (sc, pid, name) => [LLog (mk_event sc 0 [pid; s; id] (Some name))]
  | None => []
  end.

Definition next_id (role : Z) (dir : pp_direction) (id : Z) (m : psql_message) : Z :=
  match psql_tracked role dir (m_type m) with Some _ => incr id | None => id end.

(** The log of a sequence of messages: numbered requests, then the query text. *)
Fixpoint psql_events (role : Z) (dir : pp_direction) (s id : Z) (l : list psql_message) :
    list log_op :=
  match l with
  | [] => []
  | m :: l' =>
      header_events role dir s id m ++ query_event m ++
      psql_events role dir s (next_id role dir id m) l'
  end.

Definition final_id (role : Z) (dir : pp_direction) (id : Z) (l : list psql_message) : Z :=
  fold_left (next_id role dir) l id.

Lemma psql_msg_spec role dir s st m :
  psql_type st = m_type m ->
  psql_msg st s role dir =
  (match psql_tracked role dir (m_type m) with
   | Some (sc, pid, name) => [LLog (mk_event sc 0 [pid; s; psql_id st] (Some name))]
   | None => []
   end,
   Ok (mk_psql (gotStartup st) (psql_type st) (gotHeader st) (psql_todo st)
        (next_id role dir (psql_id st) m))).
Proof.
  destruct st as [g t h k id]. unfold psql_msg, psql_tracked, next_id, psql_tracked.
  cbn [psql_type gotStartup gotHeader psql_todo psql_id]. intros ->.
  destruct (Byte.eqb (m_type m) "Q"%byte); [| destruct (Byte.eqb (m_type m) "Z"%byte); [| done]];
    destruct dir;
    try change (bool_decide (PP_READ = PP_WRITE)) with false;
    try change (bool_decide (PP_WRITE = PP_READ)) with false;
    try change (bool_decide (PP_READ = PP_READ)) with true;
    try change (bool_decide (PP_WRITE = PP_WRITE)) with true;
    rewrite ?andb_true_r, ?andb_false_r;
    destruct (role =? PP_PSQLC_ID), (role =? PP_PSQLS_ID); done.
Qed.

(** Where a side is in the stream, what is still to come and what it will log. *)
Inductive psql_expects (role : Z) (dir : pp_direction) (s : Z) (fin : Z) :
    psql_side -> list byte -> list log_op -> Prop :=
| expects_start t h prot params id l :
    Forall psql_ok l -> zlen params < 2 ^ 31 -> is_u 32 prot ->
    t <> "Q"%byte -> h = 0 -> fin = final_id role dir id l ->
    psql_expects role dir s fin (mk_psql 0 t h 0 id)
      (startup_bytes prot params ++ concat (psql_bytes <$> l)) (psql_events role dir s id l)
| expects_header g t id l :
    Forall psql_ok l -> g <> 0 -> fin = final_id role dir id l ->
    psql_expects role dir s fin (mk_psql g t 0 0 id) (concat (psql_bytes <$> l))
      (psql_events role dir s id l)
| expects_body g t h rem id l evs :
    Forall psql_ok l -> g <> 0 -> 0 < zlen rem < 2 ^ 31 -> fin = final_id role dir id l ->
    (if Byte.eqb t "Q"%byte then
       exists q, nul_free q /\ zlen q <= 4000 /\ rem = q ++ [NUL] /\
         evs = [LLog (mk_event SYS_PP_PROP 0 [] (Some (bs "QUERY" ++ bs "=-=" ++ q)))]
     else evs = []) ->
    psql_expects role dir s fin (mk_psql g t h (zlen rem) id)
      (rem ++ concat (psql_bytes <$> l)) (evs ++ psql_events role dir s id l).

Lemma get_int_at pre v post off :
  off = zlen pre -> is_u 32 v -> get_int (pre ++ be_bytes 4 v ++ post) off = ret v.
Proof.
  intros -> Hv. unfold get_int. erewrite bind_ok_nil by (apply load_mid; [done |]; zl).
  by rewrite (be_val_bytes 4 32).
Qed.

Lemma query_event_cons m l role dir s id :
  psql_ok m -> exists evs,
  psql_events role dir s id (m :: l) =
    header_events role dir s id m ++ evs ++ psql_events role dir s (next_id role dir id m) l /\
  (if Byte.eqb (m_type m) "Q"%byte then
     exists q, nul_free q /\ zlen q <= 4000 /\ m_body m = q ++ [NUL] /\
       evs = [LLog (mk_event SYS_PP_PROP 0 [] (Some (bs "QUERY" ++ bs "=-=" ++ q)))]
   else evs = []).
Proof.
  intros [_ Hq]. exists (query_event m). split; [done |]. unfold query_event.
  destruct (Byte.eqb (m_type m) "Q"%byte) eqn:E; [| done].
  apply Byte.byte_dec_bl in E. destruct (Hq E) as (q & Hf & Hz & Eb). exists q.
  split_and!; try done. by rewrite Eb, removelast_last.
Qed.

Lemma psql_step_start role dir s fin t id prot params l mem len w a p' rest :
  Forall psql_ok l -> zlen params < 2 ^ 31 -> is_u 32 prot -> t <> "Q"%byte ->
  fin = final_id role dir id l ->
  speak_psql (mk_psql 0 t 0 0 id) s mem len role dir = (w, Ok (a, p')) ->
  0 < a <= len -> len <= zlen mem ->
  ztake a mem ++ rest = startup_bytes prot params ++ concat (psql_bytes <$> l) ->
  exists evs', psql_events role dir s id l = w ++ evs' /\ psql_expects role dir s fin p' rest evs'.
Proof.
  intros Hl Hpar Hprot Ht Hfin H Ha Hlen Hs. unfold speak_psql in H. simpl in H.
  destruct (Z.ltb_spec len 8); [inv_run; simplify_eq; lia |].
  assert (a = 8) as -> by (inv_run; by simplify_eq).
  pose proof (zlen_nonneg params). unfold startup_bytes in Hs.
  assert (ztake 8 mem ++ rest = (be_bytes 4 (zlen params + 8) ++ be_bytes 4 prot) ++
    params ++ concat (psql_bytes <$> l)) as Hs' by (rewrite Hs; by rewrite <- !app_assoc).
  apply takes_head in Hs' as [Hm ->]; [| zl | lia]. set (r := zdrop 8 mem) in *. clearbody r.
  rewrite Hm in H. rewrite <- app_assoc in H.
  pose proof (get_int_at [] (zlen params + 8) (be_bytes 4 prot ++ r) 0 eq_refl
    ltac:(unfold is_u; lia)) as Eg.
  rewrite app_nil_l in Eg. rewrite Eg in H.
  rewrite bind_ret_l, (get_int_at _ prot), !bind_ret_l in H by (done || zl).
  apply ret_inv in H as [[= <-] ->].
  replace (zlen params + 8 - 8) with (zlen params) by lia. rewrite u32_small by lia.
  exists (psql_events role dir s id l). split; [done |].
  destruct (Z.eqb_spec (zlen params) 0) as [E0 | E0].
  - rewrite E0. apply zlen_0_inv in E0 as ->. by apply expects_header.
  - apply (expects_body role dir s fin 1 t 0 params id l []); try done; [lia |].
    by rewrite byte_eqb_false.
Qed.

Lemma psql_step_header role dir s fin g t id l mem len w a p' rest :
  Forall psql_ok l -> g <> 0 -> fin = final_id role dir id l ->
  speak_psql (mk_psql g t 0 0 id) s mem len role dir = (w, Ok (a, p')) ->
  0 < a <= len -> len <= zlen mem ->
  ztake a mem ++ rest = concat (psql_bytes <$> l) ->
  exists evs', psql_events role dir s id l = w ++ evs' /\ psql_expects role dir s fin p' rest evs'.
Proof.
  intros Hl Hg Hfin H Ha Hlen Hs. unfold speak_psql in H. cbn [psql_todo gotStartup gotHeader] in H.
  change (0 <? 0) with false in H. change (0 =? 0) with true in H. cbn iota in H.
  destruct (Z.eqb_spec g 0); [done |].
  destruct (Z.ltb_spec len 5); [inv_run; simplify_eq; lia |].
  assert (a = 5) as -> by (inv_run; by simplify_eq).
  destruct l as [| m l].
  { apply (f_equal zlen) in Hs. simpl in Hs. zl. }
  apply Forall_cons_1 in Hl as [Hm Hl]. pose proof Hm as [Hb _].
  assert (ztake 5 mem ++ rest = (m_type m :: be_bytes 4 (zlen (m_body m) + 4)) ++
    m_body m ++ concat (psql_bytes <$> l)) as Hs'.
  { rewrite Hs. change (concat (psql_bytes <$> m :: l)) with
      (psql_bytes m ++ concat (psql_bytes <$> l)).
    unfold psql_bytes at 1. by rewrite <- !app_comm_cons, <- app_assoc. }
  apply takes_head in Hs' as [Em ->]; [| zl | lia]. set (r := zdrop 5 mem) in *. clearbody r.
  rewrite Em, <- app_comm_cons in H.
  erewrite bind_ok_nil in H by (apply (load_mid [] [m_type m]); done).
  change (m_type m :: be_bytes 4 (zlen (m_body m) + 4) ++ r)
    with ([m_type m] ++ be_bytes 4 (zlen (m_body m) + 4) ++ r) in H.
  rewrite (get_int_at [m_type m] (zlen (m_body m) + 4)), bind_ret_l in H
    by (done || (unfold is_u; lia)).
  change (default NUL (head [m_type m])) with (m_type m) in H.
  replace (zlen (m_body m) + 4 - 4) with (zlen (m_body m)) in H by lia.
  rewrite u32_small in H by lia. cbv zeta in H. rewrite (psql_msg_spec role dir s _ m) in H by done.
  destruct (query_event_cons m l role dir s id Hm) as (evs & Ee & Hev). rewrite Ee.
  rewrite LOGBINs_psql in H. simpl in H. injection H as <- <-.
  exists (evs ++ psql_events role dir s (next_id role dir id m) l). split.
  - unfold header_events. by rewrite app_nil_r.
  - by apply expects_body.
Qed.

Lemma psql_step_body role dir s fin g t h rem id l evs mem len w a p' rest :
  Forall psql_ok l -> g <> 0 -> 0 < zlen rem < 2 ^ 31 -> fin = final_id role dir id l ->
  (if Byte.eqb t "Q"%byte then
     exists q, nul_free q /\ zlen q <= 4000 /\ rem = q ++ [NUL] /\
       evs = [LLog (mk_event SYS_PP_PROP 0 [] (Some (bs "QUERY" ++ bs "=-=" ++ q)))]
   else evs = []) ->
  speak_psql (mk_psql g t h (zlen rem) id) s mem len role dir = (w, Ok (a, p')) ->
  0 < a <= len -> len <= zlen mem -> len < 2 ^ 31 ->
  ztake a mem ++ rest = rem ++ concat (psql_bytes <$> l) ->
  exists evs', evs ++ psql_events role dir s id l = w ++ evs' /\
    psql_expects role dir s fin p' rest evs'.
Proof.
  intros Hl Hg Hrem Hfin Hev H Ha Hlen H31 Hs. unfold speak_psql in H.
  cbn [psql_todo psql_type gotStartup gotHeader psql_id] in H.
  destruct (Z.ltb_spec 0 (zlen rem)); [| lia].
  destruct (Byte.eqb t "Q"%byte) eqn:Et; cbn [andb] in H.
  - destruct Hev as (q & Hq & Hz & -> & ->).
    destruct (Z.ltb_spec len (zlen (q ++ [NUL]))); [inv_run; simplify_eq; lia |].
    assert ((if zlen (q ++ [NUL]) <? len then zlen (q ++ [NUL]) else len) = zlen (q ++ [NUL]))
      as E by (case_z; lia).
    rewrite E, s32_small in H by lia.
    assert (a = zlen (q ++ [NUL])) as -> by (inv_run; by simplify_eq).
    apply takes_head in Hs as [Em ->]; [| done | lia]. rewrite Em, <- app_assoc in H.
    change ([NUL] ++ ?x) with (NUL :: x) in H. rewrite cstr_app in H by done.
    simpl of_opt in H. rewrite bind_ret_l, Z.sub_diag, LOGBINss_query in H by done. simpl in H.
    injection H as <- <-.
    eexists. split; [reflexivity |]. by apply expects_header.
  - subst evs. rewrite bind_ret_l in H.
    assert ((if zlen rem <? len then zlen rem else len) = Z.min len (zlen rem)) as E by (case_z; lia).
    rewrite E, s32_small in H by lia. inv_run. simplify_eq.
    rewrite u32_small by lia. rewrite app_nil_l.
    exists (psql_events role dir s id l). split; [done |].
    destruct (zapp_cut _ _ _ _ (eq_sym Hs)) as [E1 ->]; [zl |].
    assert (zlen (ztake (Z.min len (zlen rem)) mem) = Z.min len (zlen rem)) as E2 by zl.
    rewrite E2. set (n := Z.min len (zlen rem)) in *.
    destruct (Z.eqb_spec (zlen rem - n) 0) as [E0 | E0].
    + rewrite zdrop_all by lia. rewrite E0. by apply expects_header.
    + replace (zlen rem - n) with (zlen (zdrop n rem)) by zl.
      apply (expects_body role dir s _ g t h (zdrop n rem) id l []); try done; [zl |].
      by rewrite Et.
Qed.

Lemma speak_psql_refuse p s mem len role dir w p' :
  0 < len < 2 ^ 31 -> psql_inv p -> speak_psql p s mem len role dir = (w, Ok (-1, p')) -> w = [] /\ p' = p.
Proof.
  intros Hl Hinv H. pose proof H as H'. apply speak_psql_cases in H' as [_ Hc]; [| done | done].
  unfold psql_inv, is_u in Hinv.
  destruct Hc as [(?&Et&?&?&->)|[?|[(?&?&[(?&?&->)|?])|[(?&?&?&[(?&?&->)|?])|(?&?&?&?&->)]]]]; try lia;
    (split; [| done]); unfold speak_psql in H.
  - destruct (Z.ltb_spec 0 (psql_todo p)); [| lia]. rewrite Et in H. simpl in H.
    destruct (Z.ltb_spec len (psql_todo p)); [| lia]. by inv_run.
  - destruct (Z.ltb_spec 0 (psql_todo p)); [lia |].
    destruct (Z.eqb_spec (gotStartup p) 0); [| done].
    destruct (Z.ltb_spec len 8); [by inv_run | lia].
  - destruct (Z.ltb_spec 0 (psql_todo p)); [lia |].
    destruct (Z.eqb_spec (gotStartup p) 0); [done |]. destruct (Z.eqb_spec (gotHeader p) 0); [| done].
    destruct (Z.ltb_spec len 5); [by inv_run | lia].
  - destruct (Z.ltb_spec 0 (psql_todo p)); [lia |].
    destruct (Z.eqb_spec (gotStartup p) 0); [done |]. destruct (Z.eqb_spec (gotHeader p) 0); [done |].
    by inv_run.
Qed.

Lemma psql_step role dir s fin p stream evs mem len w a p' rest :
  psql_expects role dir s fin p stream evs ->
  speak_psql p s mem len role dir = (w, Ok (a, p')) ->
  0 < a <= len -> len <= zlen mem -> len < 2 ^ 31 -> ztake a mem ++ rest = stream ->
  exists evs', evs = w ++ evs' /\ psql_expects role dir s fin p' rest evs'.
Proof.
  intros He H Ha Hl H31 Hs. destruct He.
  - subst h. by eapply psql_step_start.
  - by eapply psql_step_header.
  - by eapply psql_step_body.
Qed.

Lemma psql_expects_inv role dir s fin p stream evs :
  psql_expects role dir s fin p stream evs -> psql_inv p.
Proof. unfold psql_inv, is_u. destruct 1; cbn [psql_todo]; lia. Qed.

Lemma psql_expects_end role dir s fin p evs :
  psql_expects role dir s fin p [] evs ->
  evs = [] /\ psql_todo p = 0 /\ gotHeader p = 0 /\ psql_id p = fin.
Proof.
  intros H. remember [] as bytes eqn:E. destruct H as [t h prot params id l | g t id l |
    g t h rem id l evs' ?? Hrem].
  - apply (f_equal zlen) in E. unfold startup_bytes in E. zl.
  - by destruct l.
  - apply (f_equal zlen) in E. zl.
Qed.

(** A call that is shown a part of the stream runs, and takes something when it is
    shown all that is left of it. *)
Lemma psql_runs role dir s fin p stream evs mem len rest :
  psql_expects role dir s fin p stream evs -> 0 < len <= zlen mem ->
  ztake len mem ++ rest = stream ->
  exists w a p', speak_psql p s mem len role dir = (w, Ok (a, p')) /\ (rest = [] -> a <> -1).
Proof.
  intros He Hl Hs. pose proof (f_equal zlen Hs) as Hz. rewrite zlen_app, zlen_ztake in Hz by lia.
  unfold speak_psql. destruct He as [t h prot params id l | g t id l Hok Hg | g t h rem id l evs Hok Hg Hr Hfin Hev];
    cbn [psql_todo psql_type gotStartup gotHeader psql_id].
  - change (0 <? 0) with false. change (0 =? 0) with true. cbn iota.
    destruct (Z.ltb_spec len 8).
    + do 3 eexists. split; [reflexivity |]. intros ->. unfold startup_bytes in Hz. zl.
    + unfold get_int. rewrite !load_ok, !bind_ret_l by lia. do 3 eexists. split; [reflexivity |]. done.
  - change (0 <? 0) with false. change (0 =? 0) with true. cbn iota.
    destruct (Z.eqb_spec g 0); [done |]. destruct (Z.ltb_spec len 5).
    + do 3 eexists. split; [reflexivity |]. intros ->. destruct l as [| m l].
      * change (concat (psql_bytes <$> [])) with (@nil byte) in Hz. zl.
      * change (concat (psql_bytes <$> m :: l)) with (psql_bytes m ++ concat (psql_bytes <$> l)) in Hz.
        unfold psql_bytes at 1 in Hz. zl.
    + unfold get_int. rewrite !load_ok, !bind_ret_l by lia. cbv zeta.
      match goal with |- context [psql_msg ?st s role dir] =>
        rewrite (psql_msg_spec role dir s st (mk_msg (psql_type st) [])) by done end.
      rewrite LOGBINs_psql. cbn [emit bind ret]. do 3 eexists. split; [reflexivity |]. done.
  - destruct (Z.ltb_spec 0 (zlen rem)); [| lia].
    destruct (Byte.eqb t "Q"%byte) eqn:Et; cbn [andb].
    + destruct (Z.ltb_spec len (zlen rem)).
      * do 3 eexists. split; [reflexivity |]. intros ->. zl.
      * destruct Hev as (q & Hq & Hqz & -> & ->).
        assert (mem = q ++ NUL :: zdrop (zlen (q ++ [NUL])) mem) as Em.
        { assert (ztake (zlen (q ++ [NUL])) mem = q ++ [NUL]) as E.
          { apply (f_equal (ztake (zlen (q ++ [NUL])))) in Hs.
            rewrite (ztake_app_exact _ (q ++ [NUL])) in Hs by done.
            rewrite ztake_app_le, ztake_ztake in Hs by zl. rewrite Z.min_l in Hs by lia. done. }
          rewrite <- (ztake_zdrop (zlen (q ++ [NUL])) mem) at 1. rewrite E, <- app_assoc. done. }
        rewrite Em, cstr_app by done. cbn [of_opt]. rewrite bind_ret_l, LOGBINss_query by done.
        assert ((if zlen (q ++ [NUL]) <? len then zlen (q ++ [NUL]) else len) = zlen (q ++ [NUL]))
          as -> by (case_z; lia).
        rewrite s32_small by lia. do 3 eexists. split; [reflexivity |]. lia.
    + rewrite bind_ret_l. do 3 eexists. split; [reflexivity |]. intros _.
      assert ((if zlen rem <? len then zlen rem else len) = Z.min len (zlen rem)) as -> by (case_z; lia).
      rewrite s32_small by lia. lia.
Qed.

(** The calls so far, when the stream goes on with [rest]. *)
Lemma psql_calls role dir s fin rest d bytes w d' :
  pp_calls (psql_io role dir) s d bytes w d' ->
  forall st evs, d = PD_psql st -> psql_expects role dir s fin (side dir st) (bytes ++ rest) evs ->
  exists p evs', evs = w ++ evs' /\ d' = PD_psql (set_side dir st p) /\
    psql_expects role dir s fin p rest evs'.
Proof.
  assert (forall st p q, set_side dir (set_side dir st p) q = set_side dir st q) as Hset
    by (by destruct dir).
  induction 1 as [d | d mem len w a d1 bytes w2 d2 Hl H31 Hf Ha Hc IH |
    d mem len w d1 bytes w2 d2 Hl H31 Hf Hc IH]; intros st evs -> He.
  - exists (side dir st), evs. split_and!; try done. by destruct dir, st.
  - rewrite psql_io_eq, u32_small in Hf by lia. inv_run. destruct a0 as [a1 p]. inv_run. simplify_eq.
    rewrite app_nil_r, <- app_assoc in *.
    destruct (psql_step _ _ _ _ _ _ _ _ _ _ _ _ _ He Hm Ha ltac:(lia) H31 eq_refl)
      as (evs' & -> & He').
    destruct (IH (set_side dir st p) evs' eq_refl) as (q & evs'' & -> & -> & ?); [by rewrite side_set |].
    exists q, evs''. rewrite Hset, app_assoc. done.
  - rewrite psql_io_eq, u32_small in Hf by lia. inv_run. destruct a as [a1 p]. inv_run. simplify_eq.
    apply speak_psql_refuse in Hm as [-> ->]; [| lia | by eapply psql_expects_inv].
    destruct (IH (set_side dir st (side dir st)) evs eq_refl) as (q & evs'' & -> & -> & ?);
      [by rewrite side_set |].
    exists q, evs''. by rewrite Hset.
Qed.

(** ** Properties *)

(** PostgreSQL conversations are logged message by message.  However the bytes
    of one direction of a connection reach the plugin (in any portions, any number
    of refusals, anything in memory after them), once it has taken a client's
    startup packet and the messages [l] it has logged exactly one header line per
    message, the request and reply events of its role numbered in order, and the
    text of every query; it is then ready for the next message. *)
Theorem psql_logs_messages role dir s st prot params l w d' :
  side dir st = mk_psql 0 NUL 0 0 0 ->
  Forall psql_ok l -> zlen params < 2 ^ 31 -> is_u 32 prot ->
  pp_calls (psql_io role dir) s (PD_psql st)
    (startup_bytes prot params ++ concat (psql_bytes <$> l)) w d' ->
  w = psql_events role dir s 0 l /\
  exists p, d' = PD_psql (set_side dir st p) /\
    psql_todo p = 0 /\ gotHeader p = 0 /\ psql_id p = final_id role dir 0 l.
Proof.
  intros Hst Hl Hpar Hprot Hc.
  destruct (psql_calls role dir s (final_id role dir 0 l) [] _ _ _ _ Hc st (psql_events role dir s 0 l)
    eq_refl) as (p & evs' & -> & -> & He).
  { rewrite Hst, app_nil_r. by apply expects_start. }
  apply psql_expects_end in He as (-> & ? & ? & ?). rewrite app_nil_r. eauto 10.
Qed.

(** A small session: startup packet and one query, in two portions. *)
Definition demo_query : psql_message := mk_msg "Q"%byte (bs "select 1" ++ [NUL]).
Definition demo_session : list byte :=
  Eval vm_compute in startup_bytes 196608 (bs "user" ++ [NUL]) ++ concat (psql_bytes <$> [demo_query]).

Lemma psql_logs_messages_witness :
  exists w d',
    pp_calls pp_psqls_read 4 (PD_psql pp_psql_common_init) demo_session w d' /\
    w = [LLog (mk_event SYS_PP_DATA 0 [] (Some (bs "psql: type=Q len=13 todo=9")));
         LLog (mk_event SYS_PP_MSG_RECV 0 [PP_PSQLS_ID; 4; 0] (Some (bs "psqls")));
         LLog (mk_event SYS_PP_PROP 0 [] (Some (bs "QUERY=-=select 1")))].
Proof.
  eassert (pp_calls pp_psqls_read 4 (PD_psql pp_psql_common_init) demo_session _ _) as Hc.
  { change demo_session with (ztake 8 demo_session ++ ztake 5 (zdrop 8 demo_session) ++
      ztake 5 (zdrop 13 demo_session) ++ ztake 9 (zdrop 18 demo_session) ++ []).
    eapply calls_take with (len := 8); [split; vm_compute; congruence | reflexivity |
      vm_compute; reflexivity | split; vm_compute; congruence |].
    eapply calls_take with (len := 5); [split; vm_compute; congruence | reflexivity |
      vm_compute; reflexivity | split; vm_compute; congruence |].
    eapply calls_take with (len := 5); [split; vm_compute; congruence | reflexivity |
      vm_compute; reflexivity | split; vm_compute; congruence |].
    eapply calls_take with (len := 9); [split; vm_compute; congruence | reflexivity |
      vm_compute; reflexivity | split; vm_compute; congruence |].
    apply calls_nil. }
  do 2 eexists. split; [exact Hc |].
  apply (psql_logs_messages PP_PSQLS_ID PP_READ 4 pp_psql_common_init 196608
    (bs "user" ++ [NUL]) [demo_query] _ _ eq_refl) in Hc as [-> _].
  - reflexivity.
  - repeat constructor; [intros _; exists (bs "select 1"); split_and!; [repeat constructor; discriminate | by_eval | done]].
  - reflexivity.
  - split; vm_compute; congruence.
Defined.

(** A message without a body stops the plugin.  After a header whose length
    says the body is empty (Sync, Terminate, EmptyQueryResponse, ...) the plugin
    refuses every call from then on, whatever bytes come. *)
Theorem psql_empty_body_wedges p s mem len role dir w p1 t rest :
  psql_todo p = 0 -> gotStartup p <> 0 -> gotHeader p = 0 ->
  mem = psql_bytes (mk_msg t []) ++ rest -> 5 <= len -> len < 2 ^ 31 ->
  speak_psql p s mem len role dir = (w, Ok (5, p1)) ->
  forall mem' len', speak_psql p1 s mem' len' role dir = ret (-1, p1).
Proof.
  intros Ht Hg Hh -> Hl H31 H mem' len'.
  unfold speak_psql in H. rewrite Ht in H. change (0 <? 0) with false in H. cbn iota in H.
  destruct (Z.eqb_spec (gotStartup p) 0); [done |]. rewrite Hh in H.
  change (0 =? 0) with true in H. cbn iota in H. destruct (Z.ltb_spec len 5); [lia |].
  unfold psql_bytes in H. cbn [m_type m_body] in H. rewrite app_nil_r in H.
  change ((t :: be_bytes 4 (zlen [] + 4)) ++ rest) with ([] ++ [t] ++ (be_bytes 4 4 ++ rest)) in H.
  erewrite bind_ok_nil in H by (apply load_mid; done).
  rewrite app_nil_l, (get_int_at [t] 4 rest), bind_ret_l in H by (done || (split; vm_compute; congruence)).
  change (u32 (4 - 4)) with 0 in H. cbv zeta in H.
  rewrite LOGBINs_psql, (psql_msg_spec role dir s _ (mk_msg t [])) in H by done.
  simpl in H. injection H as _ <-. unfold speak_psql. simpl.
  destruct (Z.eqb_spec (gotStartup p) 0); done.
Qed.

Lemma psql_empty_body_wedges_witness :
  speak_psql (mk_psql 1 "S"%byte 1 0 0) 4 (psql_bytes demo_query) 14 PP_PSQLS_ID PP_READ =
    ret (-1, mk_psql 1 "S"%byte 1 0 0).
Proof.
  apply (psql_empty_body_wedges (mk_psql 1 NUL 0 0 0) 4 (psql_bytes (mk_msg "S"%byte [])) 5
    PP_PSQLS_ID PP_READ
    [LLog (mk_event SYS_PP_DATA 0 [] (Some (bs "psql: type=S len=4 todo=0")))] _ "S"%byte []);
    try reflexivity; vm_compute; congruence.
Defined.
