(* ===== verification/Mysql.v ===== *)
(** src/src/trace/protocol.c, MYSQL: the mysqlc and mysqls plugins.

    A packet is a 3-byte little-endian length, a sequence byte and the payload.
    Every header is logged with the packet's sequence number; payloads are taken
    as they come. *)
From S2P Require Import Prelude CInt CString Config Plugin.

(** get_mysql_size: the bytes are loaded as (signed) chars and promoted to int
    before they are shifted and or-ed. *)
Definition get_mysql_size (mem : list byte) : logged Z :=
  let! b := load mem 0 3 in
  match char_val <$> b with
  | [b0; b1; b2] =>
      ret (u32 (Z.lor (Z.lor b0 (s32 (Z.shiftl b1 8))) (s32 (Z.shiftl b2 16))))
  | _ => stop Undef
  end.

(** The one-byte memcpy into the (non-negative) int id. *)
Definition set_low_byte (id b : Z) : Z := s32 (Z.lor (Z.shiftl (Z.shiftr (u32 id) 8) 8) b).

Definition mysql_data (id todo : Z) : list byte :=
  snprintf 67 (bs "mysql: id=" ++ fmt_d id ++ bs " todo=" ++ fmt_d (s32 todo)).

Definition mysql_msg (s role id : Z) (dir : pp_direction) : logged unit :=
  let sc := match dir with PP_WRITE => SYS_PP_MSG_SEND | PP_READ => SYS_PP_MSG_RECV end in
  if role =? PP_MYSQLC_ID then LOGBINiiis sc 0 PP_MYSQLC_ID s id (bs "mysqlc")
  else if role =? PP_MYSQLS_ID then LOGBINiiis sc 0 PP_MYSQLS_ID s id (bs "mysqls")
  else ret tt.

Definition speak_mysql (st : mysql_side) (s : Z) (mem : list byte) (len role : Z)
    (dir : pp_direction) : logged (Z * mysql_side) :=
  if 0 <? mysql_todo st then
    let used := s32 (if mysql_todo st <? len then mysql_todo st else len) in
    ret (used, mk_mysql (u32 (mysql_todo st - used)) (mysql_id st))
  else if len <? 4 then ret (-1, st)
  else
    let! todo := get_mysql_size mem in
    let! b := load mem 3 1 in
    let id := set_low_byte (mysql_id st) (le_val b) in
    LOGBINs SYS_PP_DATA 0 (mysql_data id todo) ;;;
    mysql_msg s role id dir ;;;
    ret (4, mk_mysql todo id).

Definition pp_mysql_common_init : mysql_state := mk_mysql_state (mk_mysql 0 0) (mk_mysql 0 0).

Definition pp_mysqlc_init (s : Z) (data : pp_data) : logged pp_data :=
  LOGBINiis SYS_PP_INIT 0 PP_MYSQLC_ID s (bs "mysqlc") ;;; ret (PD_mysql pp_mysql_common_init).
Definition pp_mysqls_init (s : Z) (data : pp_data) : logged pp_data :=
  LOGBINiis SYS_PP_INIT 0 PP_MYSQLS_ID s (bs "mysqls") ;;; ret (PD_mysql pp_mysql_common_init).
Definition pp_mysqlc_shutdown (data : pp_data) : logged pp_data :=
  LOGBINs SYS_PP_SHUTDOWN 0 (bs "mysqlc") ;;; ret PD_null.
Definition pp_mysqls_shutdown (data : pp_data) : logged pp_data :=
  LOGBINs SYS_PP_SHUTDOWN 0 (bs "mysqls") ;;; ret PD_null.

Definition mside (dir : pp_direction) (st : mysql_state) : mysql_side :=
  match dir with PP_READ => mysql_read st | PP_WRITE => mysql_write st end.
Definition set_mside (dir : pp_direction) (st : mysql_state) (p : mysql_side) : mysql_state :=
  match dir with
  | PP_READ => mk_mysql_state p (mysql_write st)
  | PP_WRITE => mk_mysql_state (mysql_read st) p
  end.

(** The four entry points. *)
Definition mysql_io (role : Z) (dir : pp_direction) : pp_io := fun data s mem len =>
  match data with
  | PD_mysql st =>
      let! (a, p) := speak_mysql (mside dir st) s mem (u32 len) role dir in
      ret (a, PD_mysql (set_mside dir st p))
  | _ => stop Undef
  end.

Definition pp_mysqlc_read : pp_io := mysql_io PP_MYSQLC_ID PP_READ.
Definition pp_mysqlc_write : pp_io := mysql_io PP_MYSQLC_ID PP_WRITE.
Definition pp_mysqls_read : pp_io := mysql_io PP_MYSQLS_ID PP_READ.
Definition pp_mysqls_write : pp_io := mysql_io PP_MYSQLS_ID PP_WRITE.

Definition pp_mysqlc := mk_pp (bs "mysql") pp_mysqlc_init pp_mysqlc_shutdown
  pp_mysqlc_read pp_mysqlc_write.
Definition pp_mysqls := mk_pp (bs "mysql") pp_mysqls_init pp_mysqls_shutdown
  pp_mysqls_read pp_mysqls_write.

(** ** The size *)

Lemma get_mysql_size_range mem w v : get_mysql_size mem = (w, Ok v) -> is_u 32 v /\ w = [].
Proof.
  unfold get_mysql_size. intros H. inv_run. apply load_inv in Hm as (_ & _ & _ & _ & ->).
  destruct (char_val <$> a) as [| b0 [| b1 [| b2 [| ? ?]]]]; try done. inv_run.
  split; [apply u32_range | done].
Qed.

Lemma lor_disjoint a b n : 0 <= a < 2 ^ n -> 0 <= n -> Z.lor a (Z.shiftl b n) = a + b * 2 ^ n.
Proof.
  intros Ha Hn. rewrite Z.shiftl_mul_pow2 by done.
  assert (Z.land a (b * 2 ^ n) = 0) as E.
  { apply Z.bits_inj'. intros i Hi. rewrite Z.land_spec, Z.bits_0.
    destruct (Z.lt_ge_cases i n) as [Hn' | Hn'].
    - rewrite Z.mul_pow2_bits_low by done. apply andb_false_r.
    - rewrite <- (Z.mod_small a (2 ^ n)) by done. by rewrite Z.mod_pow2_bits_high by lia. }
  pose proof (Z.add_lor_land a (b * 2 ^ n)). lia.
Qed.

Lemma s32_shift x k : 8 <= k -> exists z, s32 (Z.shiftl x k) = z * 256.
Proof.
  intros Hk. unfold wraps. change (2 ^ (32 - 1)) with 2147483648. change (2 ^ 32) with 4294967296.
  rewrite Z.shiftl_mul_pow2 by lia. replace k with ((k - 8) + 8) by lia.
  rewrite Z.pow_add_r by lia. change (2 ^ 8) with 256. set (y := x * (2 ^ (k - 8) * 256)).
  exists (x * 2 ^ (k - 8) - (y + 2147483648) / 4294967296 * 16777216).
  pose proof (Z.div_mod (y + 2147483648) 4294967296). unfold y in *. lia.
Qed.

Lemma char_val_small b : bz b < 128 -> char_val b = bz b.
Proof. intros. pose proof (bz_range b). unfold char_val. apply s8_small. lia. Qed.

(** For bytes below 0x80 the size is the little-endian value. *)
Lemma get_mysql_size_small b0 b1 b2 rest :
  bz b0 < 128 -> bz b1 < 128 -> bz b2 < 128 ->
  get_mysql_size (b0 :: b1 :: b2 :: rest) = ret (le_val [b0; b1; b2]).
Proof.
  intros H0 H1 H2. unfold get_mysql_size.
  erewrite bind_ok_nil by (apply (load_mid [] [b0; b1; b2] rest); done).
  cbn [fmap list_fmap]. rewrite !char_val_small by done.
  pose proof (bz_range b0). pose proof (bz_range b1). pose proof (bz_range b2).
  rewrite !s32_small by (rewrite Z.shiftl_mul_pow2; lia).
  rewrite (lor_disjoint (bz b0)) by lia. rewrite (lor_disjoint _ (bz b2) 16) by lia.
  rewrite u32_small by lia.
  f_equal. unfold le_val. lia.
Qed.

Lemma set_low_byte_id id b : 0 <= id < 256 -> 0 <= b < 256 -> set_low_byte id b = b.
Proof.
  intros Hi Hb. unfold set_low_byte. rewrite u32_small by lia.
  rewrite Z.shiftr_div_pow2 by lia. rewrite Z.div_small by lia. simpl. apply s32_small. lia.
Qed.

(** ** The laws *)

Definition mysql_inv (dir : pp_direction) (d : pp_data) : Prop :=
  exists st, d = PD_mysql st /\ is_u 32 (mysql_todo (mside dir st)).
Definition mysql_refused (dir : pp_direction) (d : pp_data) (n : Z) : Prop :=
  exists st, d = PD_mysql st /\ mysql_todo (mside dir st) = 0 /\ n < 4.

Lemma mside_set dir st p : mside dir (set_mside dir st p) = p.
Proof. by destruct dir. Qed.

Lemma speak_mysql_cases p s mem len role dir w a p' :
  is_u 32 (mysql_todo p) -> 0 < len < 2 ^ 31 ->
  speak_mysql p s mem len role dir = (w, Ok (a, p')) ->
  is_u 32 (mysql_todo p') /\
  ((0 < mysql_todo p /\ a = Z.min len (mysql_todo p) /\ w = [] /\
    p' = mk_mysql (mysql_todo p - a) (mysql_id p)) \/
   (mysql_todo p = 0 /\ len < 4 /\ a = -1 /\ w = [] /\ p' = p) \/
   (mysql_todo p = 0 /\ 4 <= len /\ a = 4)).
Proof.
  unfold is_u. intros Hinv Hl H. unfold speak_mysql in H.
  destruct (Z.ltb_spec 0 (mysql_todo p)) as [Ht | Ht].
  - assert ((if mysql_todo p <? len then mysql_todo p else len) = Z.min len (mysql_todo p)) as E
      by (case_z; lia).
    rewrite E, s32_small in H by lia. inv_run. simplify_eq. cbn [mysql_todo].
    rewrite u32_small by lia. split; [lia |]. left. split_and!; try done; lia.
  - destruct (Z.ltb_spec len 4); inv_run; simplify_eq.
    + split; [done |]. right. left. split_and!; try done; lia.
    + apply get_mysql_size_range in Hm as [Hr ->]. split; [exact Hr |]. right. right. lia.
Qed.

#[export] Instance mysql_law role dir :
  PpLaw (mysql_io role dir) (mysql_inv dir) (mysql_refused dir).
Proof.
  constructor.
  - intros data s mem len w a data' (st & -> & Hinv) Hl H31 H. unfold mysql_io in H.
    inv_run. destruct a0 as [a1 p]. inv_run. simplify_eq. rewrite u32_small in Hm by lia.
    apply speak_mysql_cases in Hm as [Hp Hc]; [| done | lia].
    split; [exists (set_mside dir st p); by rewrite mside_set | lia].
  - intros data s mem len w data' (st & -> & Hinv) Hl H31 H. unfold mysql_io in H.
    inv_run. destruct a as [a1 p]. inv_run. simplify_eq. rewrite u32_small in Hm by lia.
    apply speak_mysql_cases in Hm as [Hp Hc]; [| done | lia].
    exists (set_mside dir st p). rewrite mside_set.
    destruct Hc as [?|[(?&?&_&_&->)|?]]; [lia | split_and!; try done; lia | lia].
  - intros data n s mem len w a data' (st & -> & Hinv) (st' & [= <-] & Hr) Hl Hn H31 Hcall Ha.
    unfold mysql_io in Hcall. inv_run. destruct a0 as [a1 p]. inv_run. simplify_eq.
    rewrite u32_small in Hm by lia. apply speak_mysql_cases in Hm as [Hp Hc]; [| done | lia]. lia.
Qed.

(** ** The protocol, packet by packet *)

Record mysql_packet := mk_packet { k_seq : Z; k_body : list byte }.
Definition mysql_bytes (k : mysql_packet) : list byte :=
  (le_bytes 3 (zlen (k_body k)) ++ le_bytes 1 (k_seq k)) ++ k_body k.

(** Packets whose length bytes are all below 0x80. *)
Definition mysql_ok (k : mysql_packet) : Prop :=
  0 <= k_seq k < 256 /\ zlen (k_body k) < 2 ^ 24 /\
  Forall (fun b => bz b < 128) (le_bytes 3 (zlen (k_body k))).

Definition mysql_events1 (role : Z) (dir : pp_direction) (s : Z) (k : mysql_packet) : list log_op :=
  LLog (mk_event SYS_PP_DATA 0 [] (Some (mysql_data (k_seq k) (zlen (k_body k))))) ::
  (mysql_msg s role (k_seq k) dir).1.
Definition mysql_events (role : Z) (dir : pp_direction) (s : Z) (l : list mysql_packet) : list log_op :=
  concat (mysql_events1 role dir s <$> l).

(** [rem] bytes of a payload, then packets. *)
Definition mysql_at (p : mysql_side) (rem : list byte) : Prop :=
  mysql_todo p = zlen rem /\ zlen rem < 2 ^ 24 /\ 0 <= mysql_id p < 256.

Lemma LOGBINs_mysql id todo :
  LOGBINs SYS_PP_DATA 0 (mysql_data id todo) =
  emit (LLog (mk_event SYS_PP_DATA 0 [] (Some (mysql_data id todo)))).
Proof. apply LOGBINs_short. unfold mysql_data. etrans; [apply zlen_snprintf_le | lia]. Qed.

Lemma mysql_msg_ok s role id dir : mysql_msg s role id dir = ((mysql_msg s role id dir).1, Ok tt).
Proof. unfold mysql_msg. by repeat case_match. Qed.

Lemma mysql_head role dir s k more p :
  mysql_ok k -> mysql_todo p = 0 -> 0 <= mysql_id p < 256 -> forall len, 4 <= len ->
  speak_mysql p s ((le_bytes 3 (zlen (k_body k)) ++ le_bytes 1 (k_seq k)) ++ more) len role dir =
    (mysql_events1 role dir s k, Ok (4, mk_mysql (zlen (k_body k)) (k_seq k))).
Proof.
  intros (Hs & Hb & H128) Ht Hid len Hl. unfold speak_mysql. rewrite Ht.
  change (0 <? 0) with false. cbn iota. destruct (Z.ltb_spec len 4); [lia |].
  rewrite <- !app_assoc.
  pose proof (length_le_bytes 3 (zlen (k_body k))) as Hl3.
  pose proof (le_val_u 3 24 (zlen (k_body k)) eq_refl) as Hv.
  destruct (le_bytes 3 (zlen (k_body k))) as [| b0 [| b1 [| b2 [| ? ?]]]] eqn:E; try discriminate Hl3.
  apply Forall_cons_1 in H128 as [H0 H128]. apply Forall_cons_1 in H128 as [H1 H128].
  apply Forall_cons_1 in H128 as [H2 _].
  cbn [app]. rewrite get_mysql_size_small, bind_ret_l by done.
  rewrite Hv by (unfold is_u; pose proof (zlen_nonneg (k_body k)); lia).
  change (b0 :: b1 :: b2 :: le_bytes 1 (k_seq k) ++ more)
    with ([b0; b1; b2] ++ le_bytes 1 (k_seq k) ++ more).
  erewrite bind_ok_nil by (apply load_mid; [done | by rewrite zlen_le_bytes]).
  rewrite (le_val_u 1 8) by done. rewrite set_low_byte_id by done.
  cbv zeta. rewrite LOGBINs_mysql, (mysql_msg_ok s role (k_seq k) dir). simpl. by rewrite app_nil_r.
Qed.

Lemma mysql_calls role dir s d bytes w d' :
  pp_calls (mysql_io role dir) s d bytes w d' ->
  forall st rem l, d = PD_mysql st -> mysql_at (mside dir st) rem -> Forall mysql_ok l ->
  bytes = rem ++ concat (mysql_bytes <$> l) ->
  w = mysql_events role dir s l /\ exists p, d' = PD_mysql (set_mside dir st p) /\ mysql_todo p = 0.
Proof.
  assert (forall st p q, set_mside dir (set_mside dir st p) q = set_mside dir st q) as Hset
    by (by destruct dir).
  induction 1 as [d | d mem len w a d1 bytes w2 d2 Hl H31 Hf Ha Hc IH |
    d mem len w d1 bytes w2 d2 Hl H31 Hf Hc IH]; intros st rem l -> (Ht & Hr & Hid) Hok Hb.
  - symmetry in Hb. apply app_nil in Hb as [-> Hb]. destruct l as [| k l].
    + split; [done |]. exists (mside dir st). split; [by destruct dir, st | done].
    + apply (f_equal zlen) in Hb. simpl in Hb. unfold mysql_bytes in Hb. zl.
  - unfold mysql_io in Hf. rewrite u32_small in Hf by lia. inv_run. destruct a0 as [a1 p].
    inv_run. simplify_eq. rewrite app_nil_r. pose proof (zlen_nonneg rem).
    assert (is_u 32 (mysql_todo (mside dir st))) as Hinv by (unfold is_u; lia).
    pose proof Hm as Hm'.
    apply speak_mysql_cases in Hm' as [_ [(Hpos&Ea&->&->)|[?|(H0&H4&->)]]]; [| lia | | done | lia].
    + rewrite Ht in *. destruct (zapp_cut _ _ _ _ (eq_sym Hb)) as [E1 E2]; [zl |].
      assert (zlen (ztake a mem) = a) as E3 by zl. rewrite E3 in *.
      destruct (IH (set_mside dir st (mk_mysql (zlen rem - a) (mysql_id (mside dir st))))
        (zdrop a rem) l eq_refl) as (-> & q & -> & Hq).
      * rewrite mside_set. unfold mysql_at. cbn [mysql_todo mysql_id]. split_and!; zl.
      * done.
      * done.
      * split; [done |]. exists q. by rewrite Hset.
    + rewrite H0 in Ht. symmetry in Ht. apply zlen_0_inv in Ht as ->. rewrite app_nil_l in Hb.
      destruct l as [| k l]; [apply (f_equal zlen) in Hb; simpl in Hb; zl |].
      apply Forall_cons_1 in Hok as [Hk Hok].
      change (concat (mysql_bytes <$> k :: l)) with (mysql_bytes k ++ concat (mysql_bytes <$> l)) in Hb.
      unfold mysql_bytes at 1 in Hb. rewrite <- (app_assoc _ (k_body k)) in Hb.
      apply takes_head in Hb as [Em ->]; [| zl | lia]. set (r := zdrop 4 mem) in *. clearbody r.
      rewrite Em, mysql_head in Hm by done. injection Hm as <- <-.
      destruct (IH (set_mside dir st (mk_mysql (zlen (k_body k)) (k_seq k))) (k_body k) l eq_refl)
        as (-> & q & -> & Hq); [| done | done |].
      * rewrite mside_set. destruct Hk as (? & ? & _). done.
      * split; [done |]. exists q. by rewrite Hset.
  - unfold mysql_io in Hf. rewrite u32_small in Hf by lia. inv_run. destruct a as [a1 p].
    inv_run. simplify_eq. pose proof (zlen_nonneg rem).
    apply speak_mysql_cases in Hm as [_ [?|[(?&?&_&->&->)|?]]]; [lia | | lia | unfold is_u; lia | lia].
    destruct (IH (set_mside dir st (mside dir st)) rem l eq_refl) as (-> & q & -> & Hq);
      [by rewrite mside_set | done | done |].
    split; [done |]. exists q. by rewrite Hset.
Qed.

(** ** Properties *)

(** MySQL conversations are logged packet by packet.  However the bytes of one
    direction reach the plugin, once it has taken the packets [l] (lengths with all
    three bytes below 0x80) it has logged one header line and one message event per
    packet, with the packet's own sequence number, in order, and is ready for the
    next packet. *)
Theorem mysql_logs_packets role dir s st l w d' :
  mside dir st = mk_mysql 0 0 -> Forall mysql_ok l ->
  pp_calls (mysql_io role dir) s (PD_mysql st) (concat (mysql_bytes <$> l)) w d' ->
  w = mysql_events role dir s l /\
  exists p, d' = PD_mysql (set_mside dir st p) /\ mysql_todo p = 0.
Proof.
  intros Hst Hl Hc. apply (mysql_calls role dir s _ _ _ _ Hc st [] l); try done.
  by rewrite Hst.
Qed.

Definition demo_packet : mysql_packet := mk_packet 3 (bs "hello").
Lemma mysql_logs_packets_witness :
  exists d', pp_calls pp_mysqlc_write 4 (PD_mysql pp_mysql_common_init) (mysql_bytes demo_packet)
    (mysql_events PP_MYSQLC_ID PP_WRITE 4 [demo_packet]) d'.
Proof.
  eassert (pp_calls pp_mysqlc_write 4 (PD_mysql pp_mysql_common_init) (mysql_bytes demo_packet) _ _)
    as Hc.
  { change (mysql_bytes demo_packet) with
      (ztake 4 (mysql_bytes demo_packet) ++ ztake 5 (zdrop 4 (mysql_bytes demo_packet)) ++ []).
    eapply calls_take with (len := 9); [split; vm_compute; congruence | reflexivity |
      vm_compute; reflexivity | split; vm_compute; congruence |].
    eapply calls_take with (len := 5); [split; vm_compute; congruence | reflexivity |
      vm_compute; reflexivity | split; vm_compute; congruence |].
    apply calls_nil. }
  eexists. rewrite <- (app_nil_r (mysql_bytes demo_packet)) in Hc.
  pose proof Hc as Hc'.
  apply (mysql_logs_packets PP_MYSQLC_ID PP_WRITE 4 pp_mysql_common_init [demo_packet] _ _ eq_refl)
    in Hc as [<- _].
  - rewrite app_nil_r in Hc'. exact Hc'.
  - repeat constructor; vm_compute; congruence.
Defined.

(** A length whose low byte is 0x80 or more is misread.  The byte is sign
    extended over the other two, so whatever they are the packet seems to have
    between 4294967168 and 4294967295 bytes. *)
Theorem mysql_size_sign_extended b0 b1 b2 rest :
  128 <= bz b0 -> get_mysql_size (b0 :: b1 :: b2 :: rest) = ret (4294967040 + bz b0).
Proof.
  intros H0. unfold get_mysql_size.
  erewrite bind_ok_nil by (apply (load_mid [] [b0; b1; b2] rest); done).
  cbn [fmap list_fmap]. pose proof (bz_range b0) as Hr.
  assert (char_val b0 = bz b0 - 256) as E0.
  { unfold char_val, wraps. change (2 ^ (8 - 1)) with 128. change (2 ^ 8) with 256.
    replace (bz b0 + 128) with (bz b0 - 128 + 1 * 256) by lia.
    rewrite Z.mod_add, Z.mod_small by lia. lia. }
  assert (forall k x, 8 <= k -> Z.lor (bz b0 - 256) (s32 (Z.shiftl x k)) = bz b0 - 256) as Hlor.
  { intros k x Hk. apply Z.bits_inj'. intros i Hi. rewrite Z.lor_spec.
    destruct (Z.lt_ge_cases i 7) as [H7 | H7].
    - assert (Z.testbit (s32 (Z.shiftl x k)) i = false) as ->; [| by rewrite orb_false_r].
      destruct (s32_shift x k Hk) as [z ->]. rewrite <- (Z.mod_pow2_bits_low _ 8) by lia.
      change (2 ^ 8) with 256. rewrite Z.mod_mul, Z.bits_0 by lia. done.
    - assert (Z.testbit (bz b0 - 256) i = true) as ->; [| done].
      replace (bz b0 - 256) with (Z.lnot (255 - bz b0)) by (unfold Z.lnot; lia).
      rewrite Z.lnot_spec by done. apply negb_true_iff.
      rewrite <- (Z.mod_small (255 - bz b0) (2 ^ 7)) by lia. apply Z.mod_pow2_bits_high. lia. }
  rewrite E0, !Hlor by lia. f_equal. rewrite u32_eq.
  replace (bz b0 - 256) with (4294967040 + bz b0 + -1 * 4294967296) by lia.
  rewrite Z.mod_add by lia. apply Z.mod_small. lia.
Qed.

Lemma mysql_size_sign_extended_witness :
  get_mysql_size (le_bytes 3 200 ++ bs "...") = ret 4294967240.
Proof. apply (mysql_size_sign_extended "200"%byte "000"%byte "000"%byte (bs "...")). vm_compute. congruence. Defined.
