(* ===== verification/Http.v ===== *)
(** src/src/trace/protocol.c, HTTP: the httpc and https plugins.

    The server side waits for the end of a request's header, logs its method, URL
    and version, and for HTTP/1.0 stops looking; on the way out it logs the status
    line and counts the body down from Content-Length.  [fresh] is the byte
    malloc(3) leaves behind the copy of the request, which the code does not
    terminate. *)
From S2P Require Import Prelude CInt CString Config Plugin.

Definition CRLF2 : list byte := [CR; LF; CR; LF].

(** strtok(NULL, delim): the C string of the token, with its offset. *)
Definition strtok_next (mem : list byte) (pos : nat) (delim : list byte) :
    logged (option nat * list byte * nat) := of_opt (strtok mem pos delim).

(** (p ? p : "null") *)
Definition or_null (mem : list byte) (o : option nat) : logged (list byte) :=
  match o with None => ret (bs "null") | Some i => of_opt (cstr (drop i mem)) end.

Definition pp_httpc_init (s : Z) (data : pp_data) : logged pp_data := ret data.
Definition pp_httpc_shutdown (data : pp_data) : logged pp_data := ret data.
Definition pp_httpc_read : pp_io := fun data s mem len => ret (len, data).
Definition pp_httpc_write : pp_io := fun data s mem len => ret (len, data).

Definition pp_https_init (s : Z) (data : pp_data) : logged pp_data :=
  LOGBINiis SYS_PP_INIT 0 PP_HTTPS_ID s (bs "https") ;;;
  ret (PD_http (mk_http (mk_http_read 0 1 0 (-1) 0 0) (mk_http_write 0 1 0 0))).
Definition pp_https_shutdown (data : pp_data) : logged pp_data :=
  LOGBINis SYS_PP_SHUTDOWN 0 PP_HTTPS_ID (bs "https") ;;; ret PD_null.

(** The request line of the copy [tmp]; returns the version's memory. *)
Definition log_request (tmp : list byte) : logged (option (list byte)) :=
  let delim := bs " " ++ [CR] in
  let! (meth, tmp, pos) := strtok_next tmp 0 delim in
  let! m := or_null tmp meth in
  LOGBINss SYS_PP_PROP 0 (bs "METHOD") m ;;;
  let! (url, tmp, pos) := strtok_next tmp pos delim in
  let! u := or_null tmp url in
  LOGBINss SYS_PP_PROP 0 (bs "URL") u ;;;
  let! (version, tmp, pos) := strtok_next tmp pos delim in
  let! v := or_null tmp version in
  LOGBINss SYS_PP_PROP 0 (bs "VERSION") v ;;;
  ret ((fun i => drop i tmp) <$> version).

Definition https_read (fresh : byte) (st : http_state_read) (s : Z) (mem : list byte) (len : Z) :
    logged (Z * http_state_read) :=
  if negb (hr_done st =? 0) then ret (len, st) else
  if negb (awaitHeader st =? 0) then
    let! e := of_opt (strstr mem CRLF2) in
    match e with
    | None => ret (-1, st)
    | Some n =>
        LOGBINiiis SYS_PP_MSG_RECV 0 PP_HTTPS_ID s (hr_seqno st) (bs "https") ;;;
        let! copy := of_opt (strncpy (Z.to_nat len) mem) in
        let tmp := copy ++ [fresh] in
        let! str := of_opt (cstr tmp) in
        LOGBINs SYS_HTTPS_READ len str ;;;
        let! ver := log_request tmp in
        let! ver := of_opt ver in   (* strstr(NULL, ...) *)
        let! v10 := of_opt (strstr ver (bs "HTTP/1.0")) in
        let! v11 := (if decide (v10 = None) then of_opt (strstr ver (bs "HTTP/1.1")) else ret None) in
        let seqno := incr (hr_seqno st) in
        let a := Z.of_nat n + 4 in
        if decide (v10 <> None) then
          ret (a, mk_http_read 1 0 (awaitCL st) 0 seqno (hr_toread st))
        else if decide (v11 <> None) then
          ret (a, mk_http_read (hr_done st) 1 (awaitCL st) 1 seqno (hr_toread st))
        else log_flush ;;; stop AssertFail
    end
  else
    assert (0 <? hr_toread st) ;;; ret (-1, st).

(** The loop over the lines of a response header.  Every turn moves the strtok
    position past a byte, so the length of the copy is enough fuel. *)
Fixpoint scan_lines (fuel : nat) (tmp : list byte) (pos : nat) (done_ toread : Z) :
    logged (Z * Z) :=
  match fuel with
  | O => stop Pending
  | S fuel' =>
      let! (line, tmp, pos) := strtok_next tmp pos [CR] in
      match line with
      | None => ret (done_, toread)
      | Some i =>
          let l := drop i tmp in
          let! cl := of_opt (strstr l (bs "Content-Length: ")) in
          let! close := (if decide (cl = None) then of_opt (strstr l (bs "Connection: close"))
                         else ret None) in
          if decide (cl <> None) then
            let! v := of_opt (cstr (drop 17 l)) in
            LOGBINss SYS_PP_PROP 0 (bs "CLEN") v ;;;
            ret (done_, atoi v)
          else if decide (close <> None) then ret (1, toread)
          else scan_lines fuel' tmp pos done_ toread
      end
  end.

Definition https_write (st : http_state_write) (s : Z) (mem : list byte) (len : Z) :
    logged (Z * http_state_write) :=
  if negb (hw_done st =? 0) then ret (len, st) else
  if negb (hw_toread st =? 0) then
    let consumed := if hw_toread st <? len then hw_toread st else len in
    let toread := hw_toread st - consumed in
    ret (consumed, mk_http_write (hw_done st) (if toread =? 0 then 1 else awaitStatus st) toread
                     (hw_seqno st))
  else if negb (awaitStatus st =? 0) then
    let! e := of_opt (strstr mem CRLF2) in
    match e with
    | None => ret (-1, st)
    | Some n =>
        let! tmp := of_opt (strncpy 1024 mem) in
        let delim := bs " " ++ [CR] in
        let! (version, tmp, pos) := strtok_next tmp 0 delim in
        let! v := or_null tmp version in
        LOGBINss SYS_PP_PROP 0 (bs "VERSION") v ;;;
        let! (status, tmp, pos) := strtok_next tmp pos delim in
        let! u := or_null tmp status in
        LOGBINss SYS_PP_PROP 0 (bs "STATUS") u ;;;
        let! (dn, tr) := scan_lines (length tmp) tmp pos (hw_done st) (hw_toread st) in
        LOGBINiiis SYS_PP_MSG_SEND 0 PP_HTTPS_ID s (hw_seqno st) (bs "https") ;;;
        ret (Z.of_nat n + 4, mk_http_write dn 0 tr (incr (hw_seqno st)))
    end
  else ret (len, st).

Definition pp_https_read (fresh : byte) : pp_io := fun data s mem len =>
  match data with
  | PD_http st =>
      let! (a, r) := https_read fresh (http_read st) s mem len in
      ret (a, PD_http (mk_http r (http_write st)))
  | _ => stop Undef
  end.
Definition pp_https_write : pp_io := fun data s mem len =>
  match data with
  | PD_http st =>
      let! (a, w) := https_write (http_write st) s mem len in
      ret (a, PD_http (mk_http (http_read st) w))
  | _ => stop Undef
  end.

Definition pp_httpc := mk_pp (bs "http") pp_httpc_init pp_httpc_shutdown
  pp_httpc_read pp_httpc_write.
Definition pp_https (fresh : byte) := mk_pp (bs "http") pp_https_init pp_https_shutdown
  (pp_https_read fresh) pp_https_write.

(** ** The request line *)

Definition token (delim tok : list byte) : Prop :=
  tok <> [] /\ Forall (fun b => b <> NUL /\ byte_in b delim = false) tok.

Lemma c_scan_app p tok d rest :
  Forall (fun b => b <> NUL /\ p b = false) tok -> (d = NUL \/ p d = true) ->
  c_scan p (tok ++ d :: rest) = Some (length tok).
Proof.
  intros Ht Hd. induction Ht as [| b tok [Hb Hp] Ht IH]; simpl.
  - assert (Byte.eqb d NUL || p d = true) as ->; [| done].
    destruct Hd as [-> | ->]; [done | apply orb_true_r].
  - rewrite byte_eqb_false, Hp by done. simpl. by rewrite IH.
Qed.

(** strtok at the start of a token: it is cut out at its delimiter. *)
Lemma strtok_token pre tok d rest delim :
  token delim tok -> d <> NUL -> byte_in d delim = true ->
  strtok (pre ++ tok ++ d :: rest) (length pre) delim =
    Some (Some (length pre), pre ++ tok ++ NUL :: rest, length (pre ++ tok ++ [d])).
Proof.
  intros [Hne Ht] Hd Hdel. unfold strtok. rewrite drop_app_length.
  destruct tok as [| c tok]; [done |]. pose proof (Forall_inv Ht) as [Hc Hcd].
  simpl c_scan. rewrite byte_eqb_false, Hcd by done. simpl. rewrite Nat.add_0_r.
  rewrite decide_False by (rewrite list_lookup_middle by done; congruence).
  rewrite drop_app_length. change (c :: tok ++ d :: rest) with ((c :: tok) ++ d :: rest).
  rewrite (c_scan_app _ (c :: tok) d rest) by (done || by right). simpl mbind. cbv beta.
  replace (length pre + _)%nat with (length (pre ++ c :: tok)) by (rewrite length_app; simpl; lia).
  assert (pre ++ c :: tok ++ d :: rest = (pre ++ c :: tok) ++ d :: rest) as E
    by (by rewrite <- app_assoc).
  change ((c :: tok) ++ d :: rest) with (c :: tok ++ d :: rest). rewrite E.
  rewrite decide_False by (rewrite list_lookup_middle by done; congruence).
  rewrite insert_app_r_alt by lia. rewrite Nat.sub_diag. simpl.
  replace (length (pre ++ c :: tok ++ [d])) with (S (length (pre ++ c :: tok)))
    by (rewrite !length_app; simpl; rewrite length_app; simpl; lia).
  by rewrite <- app_assoc.
Qed.

Lemma strtok_at mem mem' pre tok d rest delim pos pos' :
  token delim tok -> d <> NUL -> byte_in d delim = true ->
  mem = pre ++ tok ++ d :: rest -> mem' = pre ++ tok ++ NUL :: rest ->
  pos = length pre -> pos' = (length pre + length tok + 1)%nat ->
  strtok mem pos delim = Some (Some pos, mem', pos').
Proof.
  intros Ht Hd Hdel -> -> -> ->. rewrite strtok_token by done. do 2 f_equal.
  rewrite !length_app. simpl. lia.
Qed.

Definition delims : list byte := bs " " ++ [CR].

Lemma log_request_ok meth url ver rest :
  token delims meth -> token delims url -> token delims ver ->
  zlen meth <= 4055 -> zlen url <= 4055 -> zlen ver <= 4054 ->
  log_request (meth ++ SPC :: url ++ SPC :: ver ++ CR :: rest) =
    ([LLog (mk_event SYS_PP_PROP 0 [] (Some (bs "METHOD" ++ bs "=-=" ++ meth)));
      LLog (mk_event SYS_PP_PROP 0 [] (Some (bs "URL" ++ bs "=-=" ++ url)));
      LLog (mk_event SYS_PP_PROP 0 [] (Some (bs "VERSION" ++ bs "=-=" ++ ver)))],
     Ok (Some (ver ++ NUL :: rest))).
Proof.
  intros Hm Hu Hv Hzm Hzu Hzv.
  assert (forall t, token delims t -> nul_free t) as Hnf.
  { intros t [_ Ht]. unfold nul_free. rewrite Forall_forall in *. intros b Hb. by apply Ht. }
  assert (forall pre t r n, n = length pre -> drop n (pre ++ t ++ NUL :: r) = t ++ NUL :: r) as Hdrop
    by (intros pre t r n ->; apply drop_app_length).
  unfold log_request, strtok_next. fold delims.
  assert (zlen (bs "METHOD") = 6 /\ zlen (bs "URL") = 3 /\ zlen (bs "VERSION") = 7) as (E6 & E3 & E7) by done.
  rewrite (strtok_at _ (meth ++ NUL :: url ++ SPC :: ver ++ CR :: rest) [] meth SPC
    (url ++ SPC :: ver ++ CR :: rest) delims 0 (length meth + 1)) by done.
  cbn [of_opt]. rewrite bind_ret_l. cbn beta iota. unfold or_null at 1. rewrite drop_0.
  rewrite cstr_app by auto. cbn [of_opt]. rewrite bind_ret_l.
  rewrite (strtok_at (meth ++ NUL :: url ++ SPC :: ver ++ CR :: rest)
    (meth ++ NUL :: url ++ NUL :: ver ++ CR :: rest) (meth ++ [NUL]) url SPC (ver ++ CR :: rest)
    delims _ (length meth + 1 + length url + 1)); try done;
    [| by rewrite <- app_assoc | by rewrite <- app_assoc | by rewrite length_app
     | by rewrite length_app].
  cbn [of_opt]. rewrite bind_ret_l. cbn beta iota. unfold or_null at 1.
  change (meth ++ NUL :: url ++ NUL :: ver ++ CR :: rest)
    with (meth ++ [NUL] ++ url ++ NUL :: ver ++ CR :: rest).
  rewrite (app_assoc meth [NUL]), Hdrop by (by rewrite length_app).
  rewrite cstr_app by auto. cbn [of_opt]. rewrite bind_ret_l.
  rewrite (strtok_at _ ((meth ++ NUL :: url ++ [NUL]) ++ ver ++ NUL :: rest)
    (meth ++ NUL :: url ++ [NUL]) ver CR rest
    delims _ (length meth + 1 + length url + 1 + length ver + 1)); try done;
    [| by rewrite <- !app_assoc; simpl; rewrite <- app_assoc
     | rewrite length_app; simpl; rewrite length_app; simpl; lia
     | rewrite length_app; simpl; rewrite length_app; simpl; lia].
  cbn [of_opt]. rewrite bind_ret_l. cbn beta iota. unfold or_null.
  rewrite Hdrop by (rewrite length_app; simpl; rewrite length_app; simpl; lia).
  rewrite cstr_app by auto. cbn [of_opt]. rewrite bind_ret_l. cbn [fmap option_fmap option_map].
  rewrite Hdrop by (rewrite length_app; simpl; rewrite length_app; simpl; lia).
  rewrite !LOGBINss_short by lia. reflexivity.
Qed.

Lemma strncpy_take n mem :
  nul_free (take n mem) -> (n <= length mem)%nat -> strncpy n mem = Some (take n mem).
Proof.
  revert mem; induction n as [| n IH]; intros mem Hf Hn; [done |].
  destruct mem as [| b mem]; simpl in *; [lia |].
  apply Forall_cons_1 in Hf as [Hb Hf]. rewrite byte_eqb_false by done. rewrite IH by (done || lia).
  done.
Qed.

(** The two versions the plugin knows. *)
Definition http_version (one : bool) : list byte := if one then bs "HTTP/1.1" else bs "HTTP/1.0".

(** The copy of the bytes shown, with a 0 after it. *)
Lemma request_copy meth url one more mem len :
  mem = meth ++ SPC :: url ++ SPC :: http_version one ++ CR :: more ->
  zlen (meth ++ SPC :: url ++ SPC :: http_version one ++ [CR]) <= len <= zlen mem ->
  exists more', ztake len mem ++ [NUL] = meth ++ SPC :: url ++ SPC :: http_version one ++ CR :: more' /\
    zlen meth + zlen url + 11 <= len.
Proof.
  intros Hmem Hlen. set (head := meth ++ SPC :: url ++ SPC :: http_version one ++ [CR]) in *.
  assert (mem = head ++ more) as Hhead by (rewrite Hmem; unfold head; lapp).
  exists (ztake (len - zlen head) more ++ [NUL]). split.
  - rewrite Hhead, ztake_app_ge by lia. unfold head. lapp.
  - assert (zlen (http_version one) = 8) by (by destruct one). unfold head in Hlen. zl.
Qed.

(** ** Properties *)

(** C36: A request is read once its header is complete.  If the memory shown starts
    with a request line "METHOD URL HTTP/1.x", holds no NUL in the part shown, and its
    first blank line ends at [n + 4], the plugin logs one MSG_RECV with the next number,
    the bytes it was shown, and the METHOD, URL and VERSION of the line; it takes exactly
    the header, and goes on to the next request for HTTP/1.1, or ignores the rest of the
    connection for HTTP/1.0.  Two conditions are the code's own: a record has room for
    4064 of the bytes shown, and with more the process ends after the MSG_RECV; and the
    copy of the bytes is not terminated, so the byte [fresh] that malloc left after it
    must be 0 by chance, or the copy is read beyond its end. *)
Theorem https_read_request fresh st s mem len n meth url one more :
  hr_done st = 0 -> awaitHeader st <> 0 ->
  mem = meth ++ SPC :: url ++ SPC :: http_version one ++ CR :: more ->
  token delims meth -> token delims url ->
  strstr mem CRLF2 = Some (Some n) -> nul_free (ztake len mem) ->
  zlen (meth ++ SPC :: url ++ SPC :: http_version one ++ [CR]) <= len <= zlen mem ->
  https_read fresh st s mem len =
    let recv := LLog (mk_event SYS_PP_MSG_RECV 0 [PP_HTTPS_ID; s; hr_seqno st] (Some (bs "https"))) in
    if negb (Byte.eqb fresh NUL) then ([recv], Crash Undef)
    else if 4064 <? len then ([recv], Crash (Exit 1))
    else
    ([recv;
      LLog (mk_event SYS_HTTPS_READ len [] (Some (ztake len mem)));
      LLog (mk_event SYS_PP_PROP 0 [] (Some (bs "METHOD" ++ bs "=-=" ++ meth)));
      LLog (mk_event SYS_PP_PROP 0 [] (Some (bs "URL" ++ bs "=-=" ++ url)));
      LLog (mk_event SYS_PP_PROP 0 [] (Some (bs "VERSION" ++ bs "=-=" ++ http_version one)))],
     Ok (Z.of_nat n + 4,
         if one then mk_http_read 0 1 (awaitCL st) 1 (incr (hr_seqno st)) (hr_toread st)
         else mk_http_read 1 0 (awaitCL st) 0 (incr (hr_seqno st)) (hr_toread st))).
Proof.
  intros Hd Haw Hmem Hm Hu Hn Hf Hlen. unfold https_read.
  rewrite Hd. change (negb (0 =? 0)) with false. cbn iota.
  destruct (Z.eqb_spec (awaitHeader st) 0); [done |]. cbn [negb]. rewrite Hn.
  cbn [of_opt]. rewrite bind_ret_l. cbn beta iota.
  rewrite strncpy_take by (done || (unfold zlen in *; lia)).
  rewrite LOGBINiiis_short by by_eval.
  cbn [of_opt]. rewrite bind_ret_l. cbv zeta. change (take (Z.to_nat len) mem) with (ztake len mem).
  destruct (Byte.eqb fresh NUL) eqn:Efr; cbn [negb];
    [apply Byte.byte_dec_bl in Efr as -> | by rewrite cstr_unterminated by
       (apply Forall_app; split; [done | repeat constructor; intros ->; done])].
  rewrite cstr_app by done. cbn [of_opt]. rewrite bind_ret_l.
  assert (zlen (ztake len mem) = len) as Ez by (pose proof (zlen_nonneg (meth ++ SPC :: url)); zl).
  destruct (Z.ltb_spec 4064 len) as [Hbig | Hfit].
  { unfold LOGBINs. rewrite LOGBIN_oversize; [done |]. unfold event_size, PIPE_BUF.
    cbn [ev_args ev_str default from_option id]. change (zlen []) with 0. lia. }
  rewrite LOGBINs_short by lia.
  destruct (request_copy meth url one more mem len Hmem Hlen) as (more' & Etmp & Hz).
  assert (token delims (http_version one)) as Hv
    by (split; [by destruct one | destruct one; repeat constructor; discriminate]).
  pose proof (zlen_nonneg meth). pose proof (zlen_nonneg url).
  assert (zlen (http_version one) <= 4054) as Hzv by (by destruct one).
  rewrite Etmp, (log_request_ok meth url (http_version one) more' Hm Hu Hv) by lia.
  unfold emit. cbn [bind of_opt]. destruct one; cbn [http_version]; rewrite bind_ret_l; simpl; reflexivity.
Qed.

Definition demo_get : list byte :=
  bs "GET /a HTTP/1.1" ++ [CR; LF] ++ bs "Host: h" ++ CRLF2.

Lemma https_read_request_witness :
  https_read NUL (mk_http_read 0 1 0 (-1) 0 0) 4 (demo_get ++ replicate 30 NUL) 28 =
    ([LLog (mk_event SYS_PP_MSG_RECV 0 [3; 4; 0] (Some (bs "https")));
      LLog (mk_event SYS_HTTPS_READ 28 [] (Some demo_get));
      LLog (mk_event SYS_PP_PROP 0 [] (Some (bs "METHOD=-=GET")));
      LLog (mk_event SYS_PP_PROP 0 [] (Some (bs "URL=-=/a")));
      LLog (mk_event SYS_PP_PROP 0 [] (Some (bs "VERSION=-=HTTP/1.1")))],
     Ok (28, mk_http_read 0 1 0 1 1 0)).
Proof.
  apply (https_read_request NUL (mk_http_read 0 1 0 (-1) 0 0) 4 (demo_get ++ replicate 30 NUL) 28 24
    (bs "GET") (bs "/a") true ([LF] ++ bs "Host: h" ++ CRLF2 ++ replicate 30 NUL)).
  - reflexivity.
  - discriminate.
  - vm_compute. reflexivity.
  - split; [discriminate | repeat constructor; discriminate].
  - split; [discriminate | repeat constructor; discriminate].
  - vm_compute. reflexivity.
  - vm_compute. repeat constructor; discriminate.
  - split; vm_compute; congruence.
Defined.

(** The end of a header is looked for beyond the data.  strstr runs over what
    earlier requests left in the buffer, so pp_https_read can answer that it has
    taken more bytes than it was shown. *)
Theorem https_read_overtakes :
  exists st mem len w a st',
    0 < len <= zlen mem /\ https_read NUL st 4 mem len = (w, Ok (a, st')) /\ len < a.
Proof.
  exists (mk_http_read 0 1 0 (-1) 0 0), (demo_get ++ replicate 30 NUL), 20.
  do 3 eexists. split; [split; vm_compute; congruence |].
  split; [vm_compute; reflexivity | reflexivity].
Qed.

(** [n] bytes of a body to come: waiting for them, or for the next status line. *)
Definition body_state (n : Z) (d : pp_data) (r : http_state_read) (seq : Z) : Prop :=
  exists a, d = PD_http (mk_http r (mk_http_write 0 a n seq)) /\ (n = 0 -> a = 1).

Lemma https_body_calls s d bytes w d' r seq :
  pp_calls pp_https_write s d bytes w d' -> body_state (zlen bytes) d r seq ->
  w = [] /\ body_state 0 d' r seq.
Proof.
  intros Hc. induction Hc as [d | d mem len w a d1 bytes w2 d2 Hl H31 Hf Ha Hc IH |
    d mem len w d1 bytes w2 d2 Hl H31 Hf Hc IH]; intros Hst; [done | |];
    destruct Hst as (aw & -> & Haw); unfold pp_https_write, https_write in Hf;
    cbn [http_write http_read hw_done hw_toread negb Z.eqb awaitStatus hw_seqno] in Hf.
  - pose proof (zlen_nonneg bytes) as Hb.
    assert (zlen (ztake a mem ++ bytes) = a + zlen bytes) as E by zl. rewrite E in *.
    destruct (Z.eqb_spec (a + zlen bytes) 0); [lia |]. cbn [negb] in Hf.
    rewrite bind_ret_l in Hf. cbn beta iota in Hf. apply ret_inv in Hf as [[= Ea <-] ->].
    rewrite Ea in IH. replace (a + zlen bytes - a) with (zlen bytes) in IH by lia.
    destruct IH as [-> IH]; [| done]. eexists. split; [reflexivity |].
    intros E0. by rewrite E0.
  - destruct (Z.eqb_spec (zlen bytes) 0) as [E0 | E0]; cbn [negb] in Hf.
    + rewrite (Haw E0) in Hf. change (negb (1 =? 0)) with true in Hf. cbn iota in Hf.
      destruct (strstr mem CRLF2) as [[n |] |]; cbn [of_opt] in Hf; [| | done];
        rewrite bind_ret_l in Hf; cbn beta iota in Hf.
      * inv_runs. simplify_eq. lia.
      * rewrite bind_ret_l in Hf. apply ret_inv in Hf as [[= <-] ->].
        destruct IH as [-> IH]; [| done]. rewrite E0. exists 1. done.
    + rewrite bind_ret_l in Hf. apply ret_inv in Hf as [[= Ea <-] ->].
      pose proof (zlen_nonneg bytes). destruct (zlen bytes <? len); lia.
Qed.

(** C34: A response body is counted down exactly.  With [n] body bytes still to come,
    a write of any length is taken up to [n] bytes and no further, silently, and [n] goes
    down by as much; when it reaches 0 the plugin waits for the next status line.  So in
    whatever portions vfd.c shows it a body of [n] bytes, the plugin takes them all,
    logs nothing, and is then waiting for the next status line. *)
Theorem https_body_counted (s : Z) (st : http_state) :
  hw_done (http_write st) = 0 -> 0 < hw_toread (http_write st) ->
  let n := hw_toread (http_write st) in
  let after a n' := PD_http (mk_http (http_read st) (mk_http_write 0 a n' (hw_seqno (http_write st)))) in
  (forall mem len, 0 < len -> pp_https_write (PD_http st) s mem len =
     ret (Z.min len n, after (if n <=? len then 1 else awaitStatus (http_write st)) (n - Z.min len n))) /\
  (forall bytes w d', pp_calls pp_https_write s (PD_http st) bytes w d' -> zlen bytes = n ->
     w = [] /\ d' = after 1 0).
Proof.
  intros Hd Hn n after. subst n after. destruct st as [r [dn a n seq]]. cbn in *. subst dn. split.
  - intros mem len Hl. unfold pp_https_write, https_write. cbn.
    destruct (Z.eqb_spec n 0); [lia |]. cbn.
    replace (if n <? len then n else len) with (Z.min len n) by (case_z; lia).
    replace (n - Z.min len n =? 0) with (n <=? len); [done |].
    destruct (Z.leb_spec n len), (Z.eqb_spec (n - Z.min len n) 0); lia || done.
  - intros bytes w d' Hc Hb.
    destruct (https_body_calls s _ _ _ _ r seq Hc) as [-> (a' & -> & Ha)].
    + exists a. rewrite Hb. split; [done | lia].
    + by rewrite Ha.
Qed.

Lemma https_body_counted_witness :
  let st := mk_http (mk_http_read 0 1 0 1 1 0) (mk_http_write 0 0 5 1) in
  pp_calls pp_https_write 4 (PD_http st) (bs "hello") []
    (PD_http (mk_http (mk_http_read 0 1 0 1 1 0) (mk_http_write 0 1 0 1))).
Proof.
  intros st. eassert (pp_calls pp_https_write 4 (PD_http st) (bs "hello") _ _) as Hc.
  { change (bs "hello") with (ztake 2 (bs "hello") ++ ztake 3 (bs "lloHTTP") ++ []).
    eapply calls_take with (len := 2); [split; vm_compute; congruence | reflexivity |
      vm_compute; reflexivity | split; vm_compute; congruence |].
    eapply calls_take with (len := 7); [split; vm_compute; congruence | reflexivity |
      vm_compute; reflexivity | split; vm_compute; congruence |].
    apply calls_nil. }
  destruct (https_body_counted 4 st eq_refl eq_refl) as [_ H].
  destruct (H (bs "hello") _ _ Hc eq_refl) as [E1 E2].
  rewrite E1, E2 in Hc. exact Hc.
Defined.
