(* ===== verification/X11.v ===== *)
(** src/src/trace/protocol.c, X: the client side of an X11 connection.

    The server's answer to the connection setup is 8 bytes and a block of data
    whose length they give; after it everything comes in units of 32 bytes. *)
From S2P Require Import Prelude CInt CString Config Plugin.

(** CARD16 at offset [off]: two unsigned bytes, least significant first. *)
Definition CARD16 (mem : list byte) (off : Z) : logged Z :=
  let! c := load mem off 2 in ret (le_val c).

Definition pp_xc_init (s : Z) (data : pp_data) : logged pp_data :=
  LOGBINiis SYS_PP_INIT 0 PP_XC_ID s (bs "xc") ;;;
  (* setup is not set here: it is written before it is read *)
  ret (PD_x (mk_x 0 0 0 0)).

Definition pp_xc_shutdown (data : pp_data) : logged pp_data :=
  LOGBINs SYS_PP_SHUTDOWN 0 (bs "xc") ;;; ret PD_null.

Definition xc_read (st : x_state) (s : Z) (mem : list byte) (len : Z) : logged (Z * x_state) :=
  if x_success st =? 0 then
    let! c := load mem 0 1 in
    assert (le_val c =? 1) ;;;
    if len <? 8 then ret (-1, st) else
    let! n := CARD16 mem 6 in
    let setup := 4 * n in
    LOGBINs SYS_PP_REQ_BEGIN setup (bs "xc_read") ;;;
    LOGBINiiis SYS_PP_MSG_RECV 0 PP_XC_ID s (x_recvid st) (bs "xc") ;;;
    ret (8, mk_x 1 setup (incr (x_recvid st)) (x_sendid st))
  else if 0 <? x_setup st then
    if len <? x_setup st then ret (-1, st)
    else ret (x_setup st, mk_x (x_success st) 0 (x_recvid st) (x_sendid st))
  else if len <? 32 then ret (-1, st)
  else ret (32, st).

Definition pp_xc_read : pp_io := fun data s mem len =>
  match data with
  | PD_x st => let! (a, st) := xc_read st s mem len in ret (a, PD_x st)
  | _ => stop Undef
  end.
Definition pp_xc_write : pp_io := fun data s mem len => ret (len, data).

Definition pp_xc := mk_pp (bs "x11") pp_xc_init pp_xc_shutdown pp_xc_read pp_xc_write.

Definition x_inv (d : pp_data) : Prop := exists st, d = PD_x st /\ 0 <= x_setup st <= 262140.
Definition x_refused (d : pp_data) (n : Z) : Prop :=
  exists st, d = PD_x st /\
    (if x_success st =? 0 then n < 8 else if 0 <? x_setup st then n < x_setup st else n < 32).

Lemma xc_read_cases st s mem len w a st' :
  0 <= x_setup st <= 262140 -> xc_read st s mem len = (w, Ok (a, st')) ->
  0 <= x_setup st' <= 262140 /\
  ((a = -1 /\ st' = st /\ w = [] /\
    (if x_success st =? 0 then len < 8 else if 0 <? x_setup st then len < x_setup st else len < 32)) \/
   (0 < a <= len /\
    (if x_success st =? 0 then a = 8 else if 0 <? x_setup st then a = x_setup st else a = 32))).
Proof.
  intros Hs H. unfold xc_read in H. destruct (Z.eqb_spec (x_success st) 0).
  - inv_run. apply load_inv in Hm as (_ & _ & _ & _ & ->).
    destruct (Z.ltb_spec len 8); inv_run; simplify_eq; [split; [done | by left] |].
    unfold CARD16 in Hm. inv_run.
    match goal with E : load _ _ _ = _ |- _ => apply load_inv in E as (_ & _ & Hl & -> & ->) end.
    pose proof (le_val_range (ztake 2 (zdrop 6 mem))) as Hr.
    assert (zlen (ztake 2 (zdrop 6 mem)) = 2) as E by zl. rewrite E in Hr.
    change (256 ^ 2) with 65536 in Hr. cbn [x_setup]. split; [lia | right; lia].
  - destruct (Z.ltb_spec 0 (x_setup st)).
    + destruct (Z.ltb_spec len (x_setup st)); inv_run; simplify_eq; cbn [x_setup].
      * split; [done | by left].
      * split; [lia | right; lia].
    + destruct (Z.ltb_spec len 32); inv_run; simplify_eq; (split; [done |]); [by left | right; lia].
Qed.

#[export] Instance xc_law : PpLaw pp_xc_read x_inv x_refused.
Proof.
  constructor.
  - intros data s mem len w a data' (st & -> & Hi) Hl _ H. unfold pp_xc_read in H. inv_runs.
    simplify_eq. apply xc_read_cases in Hm as [Hs Hc]; [| done]. split; [by eexists | lia].
  - intros data s mem len w data' (st & -> & Hi) Hl _ H. unfold pp_xc_read in H. inv_runs.
    simplify_eq. apply xc_read_cases in Hm as [Hs [(_ & -> & _ & Hc)|?]]; [| lia | done].
    by exists st.
  - intros data n s mem len w a data' (st & -> & Hi) (st' & [= <-] & Hr) Hl Hn _ Hcall Ha.
    unfold pp_xc_read in Hcall. inv_runs. simplify_eq.
    apply xc_read_cases in Hm as [_ [(? & _)|[_ Hc]]]; [done | | done].
    destruct (x_success st =? 0); [lia |]. destruct (0 <? x_setup st); lia.
Qed.

(** The server's answer: a success byte, five others, the length of the block in
    words of 4 bytes, the block. *)
Definition x_setup_bytes (five block : list byte) : list byte :=
  (zb 1 :: five ++ le_bytes 2 (zlen block / 4)) ++ block.

Lemma xc_refuse st s mem len w d :
  0 <= x_setup st <= 262140 ->
  pp_xc_read (PD_x st) s mem len = (w, Ok (-1, d)) -> w = [] /\ d = PD_x st.
Proof.
  intros Hi H. unfold pp_xc_read in H. inv_runs. simplify_eq.
  apply xc_read_cases in Hm as [_ [(_ & -> & -> & _)|?]]; [done | lia | done].
Qed.

Lemma xc_units s r sd d bytes w d' :
  pp_calls pp_xc_read s d bytes w d' -> d = PD_x (mk_x 1 0 r sd) ->
  zlen bytes mod 32 = 0 /\ w = [] /\ d' = d.
Proof.
  induction 1 as [d | d mem len w a d1 bytes w2 d2 Hl H31 Hf Ha Hc IH |
    d mem len w d1 bytes w2 d2 Hl H31 Hf Hc IH]; intros ->; [done | |].
  - unfold pp_xc_read, xc_read in Hf. simpl in Hf.
    destruct (len <? 32); inv_run; simplify_eq; [lia |].
    destruct IH as (Hm & -> & ->); [done |]. split; [| done].
    rewrite zlen_app. assert (zlen (ztake 32 mem) = 32) as -> by zl.
    replace (32 + zlen bytes) with (zlen bytes + 1 * 32) by lia. by rewrite Z.mod_add.
  - apply xc_refuse in Hf as [-> ->]; [| cbn; lia]. by destruct IH as (Hm & -> & ->).
Qed.

Lemma xc_block s r sd d bytes w d' block units :
  pp_calls pp_xc_read s d bytes w d' -> d = PD_x (mk_x 1 (zlen block) r sd) ->
  0 < zlen block <= 262140 -> bytes = block ++ units ->
  zlen units mod 32 = 0 /\ w = [] /\ d' = PD_x (mk_x 1 0 r sd).
Proof.
  intros Hc. induction Hc as [d | d mem len w a d1 bytes w2 d2 Hl H31 Hf Ha Hc IH |
    d mem len w d1 bytes w2 d2 Hl H31 Hf Hc IH]; intros -> Hb Eb.
  - apply (f_equal zlen) in Eb. zl.
  - unfold pp_xc_read, xc_read in Hf. cbn [x_success x_setup Z.eqb] in Hf.
    destruct (Z.ltb_spec 0 (zlen block)); [| lia].
    destruct (Z.ltb_spec len (zlen block)); inv_run; simplify_eq; [lia |].
    apply takes_head in Eb as [_ ->]; [| done | lia].
    by eapply xc_units in Hc as (Hm & -> & ->).
  - apply xc_refuse in Hf as [-> ->]; [| cbn; lia].
    by destruct IH as (Hm & -> & ->).
Qed.

Lemma xc_header s r sd d bytes w d' five block units :
  pp_calls pp_xc_read s d bytes w d' -> d = PD_x (mk_x 0 0 r sd) ->
  zlen five = 5 -> zlen block mod 4 = 0 -> zlen block <= 262140 ->
  bytes = x_setup_bytes five block ++ units ->
  zlen units mod 32 = 0 /\
  w = [LLog (mk_event SYS_PP_REQ_BEGIN (zlen block) [] (Some (bs "xc_read")));
       LLog (mk_event SYS_PP_MSG_RECV 0 [PP_XC_ID; s; r] (Some (bs "xc")))] /\
  d' = PD_x (mk_x 1 0 (incr r) sd).
Proof.
  intros Hc. induction Hc as [d | d mem len w a d1 bytes w2 d2 Hl H31 Hf Ha Hc IH |
    d mem len w d1 bytes w2 d2 Hl H31 Hf Hc IH]; intros -> H5 H4 Hb Eb.
  - apply (f_equal zlen) in Eb. unfold x_setup_bytes in Eb. zl.
  - assert (a = 8) as ->.
    { unfold pp_xc_read in Hf. inv_runs. simplify_eq.
      apply xc_read_cases in Hm as [_ [?|[_ ?]]]; [lia | done | cbn; lia]. }
    unfold x_setup_bytes in Eb. rewrite <- app_assoc in Eb.
    apply takes_head in Eb as [Em ->]; [| zl | lia]. set (x := zdrop 8 mem) in *. clearbody x.
    rewrite Em in Hf. unfold pp_xc_read, xc_read, CARD16 in Hf.
    cbn [x_success x_setup x_recvid x_sendid Z.eqb] in Hf.
    rewrite <- app_comm_cons in Hf.
    erewrite (bind_ok_nil (load _ 0 1)) in Hf by (apply (load_mid [] [zb 1]); done).
    rewrite assert_true, bind_ret_l in Hf by (vm_compute; reflexivity).
    destruct (Z.ltb_spec len 8); [inv_runs; simplify_eq; lia |].
    assert (zb 1 :: (five ++ le_bytes 2 (zlen block / 4)) ++ x =
      (zb 1 :: five) ++ le_bytes 2 (zlen block / 4) ++ x) as Ecut by lapp.
    rewrite Ecut in Hf.
    erewrite (bind_ok_nil (load _ 6 2)) in Hf by (apply load_mid; zl).
    pose proof (zlen_nonneg block). pose proof (Z.div_mod (zlen block) 4 ltac:(lia)).
    rewrite bind_ret_l, (le_val_u 2 16) in Hf by (done || (unfold is_u; lia)). cbv zeta in Hf.
    replace (4 * (zlen block / 4)) with (zlen block) in Hf by lia.
    simpl in Hf. injection Hf as <- <-.
    destruct (Z.eq_dec (zlen block) 0) as [E0 | E0].
    + rewrite E0 in *. apply zlen_0_inv in E0 as ->.
      by eapply xc_units in Hc as (Hm & -> & ->).
    + by destruct (xc_block _ _ _ _ _ _ _ block units Hc eq_refl ltac:(lia) eq_refl)
        as (Hm & -> & ->).
  - apply xc_refuse in Hf as [-> ->]; [| cbn; lia].
    by destruct IH as (Hm & -> & ->).
Qed.

(** ** Properties *)

(** The X11 setup is skipped exactly.  Whatever portions it is read in, the
    plugin takes the 8-byte header and then the block it announces, logs the
    connection once, and is in step with the 32-byte units that follow. *)
Theorem xc_skips_setup s recvid sendid five block units w d' :
  zlen five = 5 -> zlen block mod 4 = 0 -> zlen block <= 262140 ->
  pp_calls pp_xc_read s (PD_x (mk_x 0 0 recvid sendid))
    (x_setup_bytes five block ++ units) w d' ->
  zlen units mod 32 = 0 /\
  w = [LLog (mk_event SYS_PP_REQ_BEGIN (zlen block) [] (Some (bs "xc_read")));
       LLog (mk_event SYS_PP_MSG_RECV 0 [PP_XC_ID; s; recvid] (Some (bs "xc")))] /\
  d' = PD_x (mk_x 1 0 (incr recvid) sendid).
Proof. intros H5 H4 Hb Hc. by eapply xc_header. Qed.

Definition demo_setup : list byte := Eval vm_compute in x_setup_bytes (replicate 5 NUL) (bs "blockblo").
Lemma xc_skips_setup_witness :
  exists d', pp_calls pp_xc_read 4 (PD_x (mk_x 0 0 0 0)) (demo_setup ++ replicate 32 NUL)
    [LLog (mk_event SYS_PP_REQ_BEGIN 8 [] (Some (bs "xc_read")));
     LLog (mk_event SYS_PP_MSG_RECV 0 [PP_XC_ID; 4; 0] (Some (bs "xc")))] d' /\
    d' = PD_x (mk_x 1 0 1 0).
Proof.
  eassert (pp_calls pp_xc_read 4 (PD_x (mk_x 0 0 0 0)) (demo_setup ++ replicate 32 NUL) _ _) as Hc.
  { change (demo_setup ++ replicate 32 NUL) with
      (ztake 8 demo_setup ++ ztake 8 (zdrop 8 demo_setup) ++ ztake 32 (replicate 32 NUL) ++ []).
    eapply calls_take with (len := 16); [split; vm_compute; congruence | reflexivity |
      vm_compute; reflexivity | split; vm_compute; congruence |].
    eapply calls_take with (len := 8); [split; vm_compute; congruence | reflexivity |
      vm_compute; reflexivity | split; vm_compute; congruence |].
    eapply calls_take with (len := 32); [split; vm_compute; congruence | reflexivity |
      vm_compute; reflexivity | split; vm_compute; congruence |].
    apply calls_nil. }
  destruct (xc_skips_setup 4 0 0 (replicate 5 NUL) (bs "blockblo") (replicate 32 NUL) _ _
    eq_refl eq_refl ltac:(vm_compute; congruence) Hc) as (_ & E1 & E2).
  eexists. split; [exact Hc | exact E2].
Defined.
