(* ===== verification/Fcgi.v ===== *)
(** src/src/trace/protocol.c, FASTCGI: the fcgis and fcgic plugins.

    A record is an 8-byte header and a body of content and padding.  [speak_fcgi]
    logs the interesting headers and skips the bodies.  [stk] is what the stack
    holds in the 1024-byte [tmp] the content of a PARAMS record is copied to (the
    copy is not terminated). *)
From S2P Require Import Prelude CInt CString Config Plugin.

Definition FCGI_BEGIN_REQUEST : Z := 1.
Definition FCGI_END_REQUEST : Z := 3.
Definition FCGI_PARAMS : Z := 4.
Definition FCGI_STDOUT : Z := 6.
Definition FCGI_HEADER_LEN : Z := 8.

Definition type_of_record (num : Z) : list byte :=
  if num =? 1 then bs "FCGI_BEGIN_REQUEST"
  else if num =? 2 then bs "FCGI_ABORT_REQUEST"
  else if num =? 3 then bs "FCGI_END_REQUEST"
  else if num =? 4 then bs "FCGI_PARAMS"
  else if num =? 5 then bs "FCGI_STDIN"
  else if num =? 6 then bs "FCGI_STDOUT"
  else if num =? 7 then bs "FCGI_STDERR"
  else if num =? 8 then bs "FCGI_DATA"
  else if num =? 9 then bs "FCGI_GET_VALUES"
  else if num =? 10 then bs "FCGI_GET_VALUES_RESULT"
  else bs "FCGI_UNKNOWN_TYPE".

Definition pp_fcgi_init_help : fcgi_state :=
  mk_fcgi_state (mk_fcgi 0 0 0 None (-1) 0) (mk_fcgi 0 0 0 None (-1) 0).

Definition sarg (role : Z) : list byte := if role =? PP_FCGIS_ID then bs "fcgis" else bs "fcgic".

(** The switch on the record type. *)
Definition fcgi_msg (st : fcgi_side) (s role type : Z) (d : pp_direction) : logged fcgi_side :=
  let log := LOGBINiiis (match d with PP_READ => SYS_PP_MSG_RECV | PP_WRITE => SYS_PP_MSG_SEND end)
               type role s (reqId st) (sarg role) in
  if (type =? FCGI_BEGIN_REQUEST) || (type =? FCGI_END_REQUEST) then log ;;; ret st
  else if type =? FCGI_STDOUT then
    log ;;; ret (mk_fcgi (fcgi_success st) (conlen st) (padlen st) (stream_type st) (reqId st) 1)
  else if type =? FCGI_PARAMS then
    ret (mk_fcgi (fcgi_success st) (conlen st) (padlen st) (Some (bs "PARAMS:")) (reqId st)
           (fcgi_done st))
  else ret st.

(** The header: eight unsigned bytes. *)
Definition fcgi_header (st : fcgi_side) (s : Z) (h : list byte) (role : Z) (d : pp_direction) :
    logged fcgi_side :=
  let f i := le_val (ztake 1 (zdrop i h)) in
  let rid := f 2 * 256 + f 3 in
  let con := f 4 * 256 + f 5 in
  let pad := f 6 in
  let st := mk_fcgi (if con + pad =? 0 then 0 else 1) con pad
              (if f 1 =? FCGI_PARAMS then Some (bs "PARAMS:") else stream_type st) rid
              (fcgi_done st) in
  LOGBINs SYS_PP_FCGI_HMM 0 (type_of_record (f 1)) ;;;
  fcgi_msg st s role (f 1) d.

(** The log of a PARAMS record: from the third byte, as much of the content as the
    call shows.  A count that is negative, or larger than [tmp], is undefined. *)
Definition fcgi_params (stk : list byte) (name cbuf : list byte) (con len : Z) : logged unit :=
  let l := con - 2 in
  let n := if len <? l then len else l in
  check ((0 <=? n) && (n <=? 1024)) ;;;
  let! copy := of_opt (strncpy (Z.to_nat n) (zdrop 2 cbuf)) in
  let! str := of_opt (cstr (copy ++ zdrop n stk)) in
  LOGBINss SYS_PP_PROP 0 name str.

Definition speak_fcgi (stk : list byte) (st : fcgi_side) (s : Z) (cbuf : list byte)
    (len role : Z) (d : pp_direction) : logged (Z * fcgi_side) :=
  if negb (fcgi_done st =? 0) then ret (len, st) else
  if fcgi_success st =? 0 then
    if len <? FCGI_HEADER_LEN then ret (-1, st) else
    let! h := load cbuf 0 8 in
    let! st := fcgi_header st s h role d in
    ret (FCGI_HEADER_LEN, st)
  else
    let toread := conlen st + padlen st in
    assert (0 <? toread) ;;;
    if toread <=? len then
      match stream_type st with
      | Some name => fcgi_params stk name cbuf (conlen st) len
      | None => ret tt
      end ;;;
      ret (toread, mk_fcgi 0 (-1) (-1) None (-1) (fcgi_done st))
    else
      (* "toread -= len" changes the local variable only *)
      ret (len, st).

Definition fcgi_sel (dir : pp_direction) (st : fcgi_state) : fcgi_side :=
  match dir with PP_READ => fcgi_read st | PP_WRITE => fcgi_write st end.
Definition set_fcgi (dir : pp_direction) (st : fcgi_state) (p : fcgi_side) : fcgi_state :=
  match dir with
  | PP_READ => mk_fcgi_state p (fcgi_write st)
  | PP_WRITE => mk_fcgi_state (fcgi_read st) p
  end.

(** The entry points: each role and direction has its side of the state. *)
Definition fcgi_io (stk : list byte) (role : Z) (dir : pp_direction) : pp_io :=
  fun data s mem len =>
  match data with
  | PD_fcgi st =>
      let! (a, p) := speak_fcgi stk (fcgi_sel dir st) s mem len role dir in
      ret (a, PD_fcgi (set_fcgi dir st p))
  | _ => stop Undef
  end.

Definition pp_fcgis_init (s : Z) (data : pp_data) : logged pp_data :=
  LOGBINiis SYS_PP_INIT 0 PP_FCGIS_ID s (bs "fcgis") ;;; ret (PD_fcgi pp_fcgi_init_help).
Definition pp_fcgic_init (s : Z) (data : pp_data) : logged pp_data :=
  LOGBINiis SYS_PP_INIT 0 PP_FCGIC_ID s (bs "fcgic") ;;; ret (PD_fcgi pp_fcgi_init_help).
Definition pp_fcgis_shutdown (data : pp_data) : logged pp_data :=
  LOGBINs SYS_PP_SHUTDOWN 0 (bs "fcgis") ;;; ret PD_null.
Definition pp_fcgic_shutdown (data : pp_data) : logged pp_data :=
  LOGBINs SYS_PP_SHUTDOWN 0 (bs "fcgic") ;;; ret PD_null.

Definition pp_fcgis_read (stk : list byte) : pp_io := fcgi_io stk PP_FCGIS_ID PP_READ.
Definition pp_fcgis_write (stk : list byte) : pp_io := fcgi_io stk PP_FCGIS_ID PP_WRITE.
Definition pp_fcgic_read (stk : list byte) : pp_io := fcgi_io stk PP_FCGIC_ID PP_READ.
Definition pp_fcgic_write (stk : list byte) : pp_io := fcgi_io stk PP_FCGIC_ID PP_WRITE.

Definition pp_fcgis (stk : list byte) := mk_pp (bs "fcgi") pp_fcgis_init pp_fcgis_shutdown
  (pp_fcgis_read stk) (pp_fcgis_write stk).
Definition pp_fcgic (stk : list byte) := mk_pp (bs "fcgi") pp_fcgic_init pp_fcgic_shutdown
  (pp_fcgic_read stk) (pp_fcgic_write stk).

(** ** The laws *)

Definition fcgi_ok (p : fcgi_side) : Prop :=
  fcgi_success p <> 0 -> 0 < conlen p + padlen p.
Definition fcgi_inv (dir : pp_direction) (d : pp_data) : Prop :=
  exists st, d = PD_fcgi st /\ fcgi_ok (fcgi_sel dir st).
Definition fcgi_refused (dir : pp_direction) (d : pp_data) (n : Z) : Prop :=
  exists st, d = PD_fcgi st /\ fcgi_done (fcgi_sel dir st) = 0 /\
    fcgi_success (fcgi_sel dir st) = 0 /\ n < 8.

Lemma fcgi_sel_set dir st p : fcgi_sel dir (set_fcgi dir st p) = p.
Proof. by destruct dir. Qed.

Lemma byte_field_range h i : 0 <= le_val (ztake 1 (zdrop i h)) < 256.
Proof.
  pose proof (le_val_range (ztake 1 (zdrop i h))) as [H0 H1]. split; [done |].
  eapply Z.lt_le_trans; [exact H1 |]. change 256 with (256 ^ 1) at 2.
  apply Z.pow_le_mono_r; [lia |]. zl.
Qed.

Lemma fcgi_header_ok st s h role d w st' :
  fcgi_header st s h role d = (w, Ok st') -> fcgi_ok st'.
Proof.
  unfold fcgi_header. intros H. inv_run.
  pose proof (byte_field_range h 4). pose proof (byte_field_range h 5).
  pose proof (byte_field_range h 6). unfold fcgi_ok.
  set (con := le_val (ztake 1 (zdrop 4 h)) * 256 + le_val (ztake 1 (zdrop 5 h))) in *.
  set (pad := le_val (ztake 1 (zdrop 6 h))) in *.
  assert (0 <= con + pad) by lia. clearbody con pad.
  unfold fcgi_msg in H. repeat case_match; inv_run; simplify_eq; simpl;
    destruct (Z.eqb_spec (con + pad) 0); lia.
Qed.

Lemma speak_fcgi_cases stk p s mem len role d w a p' :
  fcgi_ok p -> 0 < len -> speak_fcgi stk p s mem len role d = (w, Ok (a, p')) ->
  fcgi_ok p' /\
  ((a = -1 /\ p' = p /\ fcgi_done p = 0 /\ fcgi_success p = 0 /\ len < 8) \/
   (0 < a <= len /\ (fcgi_done p = 0 -> fcgi_success p = 0 -> 8 <= len /\ a = 8))).
Proof.
  intros Hok Hl H. unfold speak_fcgi in H.
  destruct (Z.eqb_spec (fcgi_done p) 0); cbn [negb] in H.
  2:{ inv_run. simplify_eq. split; [done | right; split; [lia | done]]. }
  destruct (Z.eqb_spec (fcgi_success p) 0) as [E | E].
  - unfold FCGI_HEADER_LEN in H. destruct (Z.ltb_spec len 8); inv_run; simplify_eq.
    + split; [done | by left].
    + split; [by eapply fcgi_header_ok | right; lia].
  - specialize (Hok E). inv_run. destruct (Z.leb_spec (conlen p + padlen p) len); inv_run; simplify_eq.
    + split; [by unfold fcgi_ok | right; split; [lia | done]].
    + split; [by unfold fcgi_ok | right; split; [lia | done]].
Qed.

#[export] Instance fcgi_law stk role dir : PpLaw (fcgi_io stk role dir) (fcgi_inv dir) (fcgi_refused dir).
Proof.
  constructor.
  - intros data s mem len w a data' (st & -> & Hi) Hl _ Hcall. unfold fcgi_io in Hcall.
    inv_runs. simplify_eq. apply speak_fcgi_cases in Hm as [Ho Hc]; [| done | lia].
    split; [| lia]. exists (set_fcgi dir st f). by rewrite fcgi_sel_set.
  - intros data s mem len w data' (st & -> & Hi) Hl _ Hcall. unfold fcgi_io in Hcall.
    inv_runs. simplify_eq. apply speak_fcgi_cases in Hm as [Ho Hc]; [| done | lia].
    exists (set_fcgi dir st f). rewrite fcgi_sel_set.
    destruct Hc as [(_ & -> & ? & ? & ?)|?]; [done | lia].
  - intros data n s mem len w a data' (st & -> & Hi) (st' & [= <-] & Hd & Hs & Hn8) Hl Hn _ Hcall Ha.
    unfold fcgi_io in Hcall. inv_runs. simplify_eq.
    apply speak_fcgi_cases in Hm as [Ho Hc]; [| done | lia].
    destruct Hc as [?|[_ Hc]]; [lia |]. destruct (Hc Hd Hs). lia.
Qed.

(** ** Properties *)

Record fcgi_record := mk_rec {
  rec_type : Z; rec_id : Z; rec_content : list byte; rec_padding : list byte }.
Definition rec_ok (r : fcgi_record) : Prop :=
  0 <= rec_type r < 256 /\ 0 <= rec_id r < 65536 /\
  zlen (rec_content r) < 65536 /\ zlen (rec_padding r) < 256.
Definition rec_header (r : fcgi_record) : list byte :=
  [zb 1; zb (rec_type r)] ++ be_bytes 2 (rec_id r) ++ be_bytes 2 (zlen (rec_content r)) ++
  [zb (zlen (rec_padding r)); NUL].

(** The events of a header. *)
Definition rec_events (role : Z) (dir : pp_direction) (s : Z) (r : fcgi_record) : list log_op :=
  LLog (mk_event SYS_PP_FCGI_HMM 0 [] (Some (type_of_record (rec_type r)))) ::
  (if decide (rec_type r ∈ [1; 3; 6]) then
     [LLog (mk_event (match dir with PP_READ => SYS_PP_MSG_RECV | PP_WRITE => SYS_PP_MSG_SEND end)
       (rec_type r) [role; s; rec_id r] (Some (sarg role)))]
   else []).

Definition ready (p : fcgi_side) : Prop :=
  fcgi_done p = 0 /\ fcgi_success p = 0 /\ stream_type p = None.

Lemma LOGBINs_fcgi sc t :
  LOGBINs sc 0 (type_of_record t) = emit (LLog (mk_event sc 0 [] (Some (type_of_record t)))).
Proof. apply LOGBINs_short. unfold type_of_record. repeat case_match; by_eval. Qed.

Lemma be_bytes_2 z : be_bytes 2 z = [zb (z / 256); zb z].
Proof. done. Qed.

Lemma byte_of z : le_val [zb z] = z mod 256.
Proof. unfold le_val. rewrite bz_zb. lia. Qed.

Lemma fcgi_header_rec p s r role dir :
  rec_ok r ->
  fcgi_header p s (rec_header r) role dir =
    (let con := zlen (rec_content r) in
     let pad := zlen (rec_padding r) in
     LOGBINs SYS_PP_FCGI_HMM 0 (type_of_record (rec_type r)) ;;;
     fcgi_msg (mk_fcgi (if con + pad =? 0 then 0 else 1) con pad
       (if rec_type r =? FCGI_PARAMS then Some (bs "PARAMS:") else stream_type p)
       (rec_id r) (fcgi_done p)) s role (rec_type r) dir).
Proof.
  intros (Ht & Hi & Hc & Hp). pose proof (zlen_nonneg (rec_content r)).
  pose proof (zlen_nonneg (rec_padding r)). unfold fcgi_header, rec_header.
  rewrite !be_bytes_2. cbn [app].
  change (ztake 1 (zdrop ?i (?a :: ?b :: ?c :: ?d :: ?e :: ?f :: ?g :: ?h :: [])))
    with (ztake 1 (zdrop i [a; b; c; d; e; f; g; h])).
  cbv [ztake zdrop Z.to_nat Pos.to_nat Pos.iter_op drop take Nat.add].
  rewrite !byte_of.
  pose proof (Z.div_mod (rec_id r) 256 ltac:(lia)).
  pose proof (Z.div_mod (zlen (rec_content r)) 256 ltac:(lia)).
  pose proof (Z.div_pos (rec_id r) 256 ltac:(lia) ltac:(lia)).
  pose proof (Z.div_pos (zlen (rec_content r)) 256 ltac:(lia) ltac:(lia)).
  pose proof (Z.mod_pos_bound (rec_id r) 256 ltac:(lia)).
  pose proof (Z.mod_pos_bound (zlen (rec_content r)) 256 ltac:(lia)).
  rewrite (Z.mod_small (rec_type r)), (Z.mod_small (rec_id r / 256)),
    (Z.mod_small (zlen (rec_content r) / 256)), (Z.mod_small (zlen (rec_padding r))) by lia.
  replace (rec_id r / 256 * 256 + rec_id r mod 256) with (rec_id r) by lia.
  replace (zlen (rec_content r) / 256 * 256 + zlen (rec_content r) mod 256)
    with (zlen (rec_content r)) by lia.
  done.
Qed.

(** The side after the header of a record that is not PARAMS. *)
Definition after_header (r : fcgi_record) : fcgi_side :=
  let body := zlen (rec_content r) + zlen (rec_padding r) in
  mk_fcgi (if body =? 0 then 0 else 1) (zlen (rec_content r)) (zlen (rec_padding r)) None (rec_id r)
    (if rec_type r =? FCGI_STDOUT then 1 else 0).

Lemma fcgi_header_taken stk p s r role dir more len :
  ready p -> rec_ok r -> rec_type r <> FCGI_PARAMS -> 8 <= len ->
  speak_fcgi stk p s (rec_header r ++ more) len role dir = (rec_events role dir s r, Ok (8, after_header r)).
Proof.
  intros (Hd & Hs & Hst) Hr Hp Hl.
  unfold speak_fcgi. rewrite Hd, Hs. change (negb (0 =? 0)) with false.
  change (0 =? 0) with true. cbn iota. unfold FCGI_HEADER_LEN.
  destruct (Z.ltb_spec len 8); [lia |].
  erewrite bind_ok_nil by (apply (load_mid [] (rec_header r)); done).
  rewrite fcgi_header_rec by done. cbv zeta. rewrite Hst, Hd, LOGBINs_fcgi.
  unfold fcgi_msg, rec_events, after_header. destruct (Z.eqb_spec (rec_type r) FCGI_PARAMS); [done |].
  unfold FCGI_BEGIN_REQUEST, FCGI_END_REQUEST, FCGI_STDOUT in *.
  rewrite LOGBINiiis_short by (unfold sarg; case_match; by_eval).
  destruct (decide (rec_type r ∈ [1; 3; 6])) as [E | E].
  - rewrite !elem_of_cons, elem_of_nil in E.
    destruct E as [-> | [-> | [-> | []]]]; by destruct dir.
  - assert ((rec_type r =? 1) || (rec_type r =? 3) = false) as ->.
    { apply orb_false_iff. rewrite !Z.eqb_neq. set_solver. }
    assert ((rec_type r =? 6) = false) as -> by (apply Z.eqb_neq; set_solver). done.
Qed.

(** C35: FastCGI records, and what a split body does.  For a record of any type but
    PARAMS, the plugin being ready, the header is taken whole; its type is logged, and
    for BEGIN_REQUEST, END_REQUEST and STDOUT the request id in a message record.  After
    the header of a STDOUT record all that follows is taken and ignored.  After another
    one, a body shown whole is skipped exactly and the plugin is ready for the next
    header; but a body shown in part leaves the state as it was: what has been taken of
    it is not remembered, so the same number of bytes will be skipped again. *)
Theorem fcgi_record_framing stk p s r role dir more len :
  ready p -> rec_ok r -> rec_type r <> FCGI_PARAMS -> 8 <= len ->
  let body := zlen (rec_content r) + zlen (rec_padding r) in
  exists p1, speak_fcgi stk p s (rec_header r ++ more) len role dir =
      (rec_events role dir s r, Ok (8, p1)) /\
    (rec_type r = FCGI_STDOUT -> forall mem n, speak_fcgi stk p1 s mem n role dir = ret (n, p1)) /\
    (rec_type r <> FCGI_STDOUT ->
      (body = 0 -> ready p1) /\
      (forall mem n, 0 < body <= n -> exists p2,
         speak_fcgi stk p1 s mem n role dir = ret (body, p2) /\ ready p2) /\
      (forall mem n, 0 < n < body -> speak_fcgi stk p1 s mem n role dir = ret (n, p1))).
Proof.
  intros Hrdy Hr Hp Hl body. pose proof (zlen_nonneg (rec_content r)).
  pose proof (zlen_nonneg (rec_padding r)).
  exists (after_header r). split; [by apply fcgi_header_taken |]. unfold after_header.
  destruct (Z.eqb_spec (rec_type r) FCGI_STDOUT) as [Eo | Eo]; [split; [| done] | split; [done |]].
  { intros _ mem n. done. }
  intros _. fold body. split_and!.
  - intros E. unfold ready. by rewrite E.
  - intros mem n Hn. unfold speak_fcgi. cbn [fcgi_done fcgi_success conlen padlen stream_type].
    destruct (Z.eqb_spec body 0); [lia |]. cbn [negb Z.eqb]. fold body.
    rewrite assert_true, bind_ret_l by zt. destruct (Z.leb_spec body n); [| lia].
    rewrite bind_ret_l. eexists. split; [reflexivity | done].
  - intros mem n Hn. unfold speak_fcgi. cbn [fcgi_done fcgi_success conlen padlen stream_type].
    destruct (Z.eqb_spec body 0); [lia |]. cbn [negb Z.eqb]. fold body.
    rewrite assert_true, bind_ret_l by zt. destruct (Z.leb_spec body n); [lia |]. done.
Qed.

Lemma fcgi_record_framing_witness :
  let r := mk_rec 5 1 (bs "abc") (replicate 5 NUL) in
  exists p1, speak_fcgi [] (mk_fcgi 0 0 0 None (-1) 0) 4 (rec_header r ++ []) 8 PP_FCGIS_ID PP_READ =
    (rec_events PP_FCGIS_ID PP_READ 4 r, Ok (8, p1)) /\
    speak_fcgi [] p1 4 (bs "abc") 3 PP_FCGIS_ID PP_READ = ret (3, p1).
Proof.
  destruct (fcgi_record_framing [] (mk_fcgi 0 0 0 None (-1) 0) 4
    (mk_rec 5 1 (bs "abc") (replicate 5 NUL)) PP_FCGIS_ID PP_READ [] 8) as (p1 & E & _ & H).
  - done.
  - unfold rec_ok. vm_compute. intuition congruence.
  - discriminate.
  - lia.
  - exists p1. split; [exact E |]. apply H; [discriminate |]. vm_compute. split; reflexivity.
Defined.
