(* ===== verification/Vbuf.v ===== *)
(** src/src/trace/vfd.c and vfd.h: the virtual buffers of a descriptor.

    When a descriptor has a protocol plugin, read(2) and its siblings go through a
    64 KiB buffer: [rbuf] holds [rbuflen] bytes, the plugin has dealt with the
    first [rbufofs], the application has received the first [rlastlen], and
    [tosend] more may be given to it.  Written bytes are copied to [wbuf] for the
    plugin to look at.

    The plugin is an interface here: the theorems hold for every dispatcher whose
    read side obeys [PpLaw].  The select cache's set of readable descriptors is
    threaded through ([rd]). *)
From S2P Require Import Prelude CInt CString Config Plugin Psql.

Record vfd := mk_vfd {
  v_type : vfd_types;
  rbuf : list byte;
  rbuflen : Z;
  rbufofs : Z;
  rlastlen : Z;
  tosend : Z;
  ppwantmore : Z;
  wbuf : list byte;
  wbuflen : Z;
  wbufofs : Z;
  in_prog : Z;
  dispatcher : option pp_dispatcher;
  ppdata : pp_data
}.

Definition set_rbuf (v : vfd) (buf : list byte) (len ofs last send more : Z) : vfd :=
  mk_vfd (v_type v) buf len ofs last send more (wbuf v) (wbuflen v) (wbufofs v) (in_prog v)
    (dispatcher v) (ppdata v).
Definition set_ppdata (v : vfd) (d : pp_data) : vfd :=
  mk_vfd (v_type v) (rbuf v) (rbuflen v) (rbufofs v) (rlastlen v) (tosend v) (ppwantmore v)
    (wbuf v) (wbuflen v) (wbufofs v) (in_prog v) (dispatcher v) d.
Definition set_wbuf (v : vfd) (buf : list byte) (len ofs : Z) : vfd :=
  mk_vfd (v_type v) (rbuf v) (rbuflen v) (rbufofs v) (rlastlen v) (tosend v) (ppwantmore v)
    buf len ofs (in_prog v) (dispatcher v) (ppdata v).

Section vbuf.
Context (fl : flags).

Definition when (b : Z) (m : logged unit) : logged unit := if b =? 0 then ret tt else m.

(** ** The reading side *)

Definition clear_readable_cache (s : Z) (rd : gset Z) : logged (gset Z) :=
  if negb (lock_rv fl =? 0) then LOGBINfatal (bs "read") ;;; ret rd else ret (rd ∖ {[s]}).
Definition set_readable_cache (s : Z) (rd : gset Z) : logged (gset Z) :=
  if negb (lock_rv fl =? 0) then LOGBINfatal (bs "read") ;;; ret rd else ret (rd ∪ {[s]}).

Definition show_buffer (sc : syscall) (v : vfd) : logged unit :=
  if debug_events fl =? 0 then ret tt else
  LOGBINiiis sc 0 (rbufofs v) (rbuflen v) (tosend v)
    (if 0 <? rbuflen v then bs "<occu>" else bs "<empty>") ;;;
  log_flush.

Definition buf_shift (v : vfd) : logged vfd :=
  let begin := Z.min (rbufofs v) (rlastlen v) in
  if begin =? 0 then ret v else
  let tomove := rbuflen v - begin in
  let! b := load (rbuf v) begin tomove in
  let! m := store (rbuf v) 0 b in
  let v := set_rbuf v m (rbuflen v - begin) (rbufofs v - begin) (rlastlen v - begin) (tosend v)
             (ppwantmore v) in
  show_buffer SYS_BUF_MOVED v ;;;
  ret v.

(** Returns the count and the bytes copied out. *)
Definition buf_ret (v : vfd) (s : Z) (rd : gset Z) (out_requested : Z) :
    logged (Z * list byte * vfd * gset Z) :=
  assert (negb (tosend v =? 0)) ;;;
  assert (rlastlen v <? VBUFSIZE) ;;;
  let out_cando := u64 (Z.min (s32 out_requested) (tosend v)) in
  let! out := load (rbuf v) (rlastlen v) out_cando in
  let v := set_rbuf v (rbuf v) (rbuflen v) (rbufofs v) (s32 (rlastlen v + s32 out_cando))
             (s32 (tosend v - s32 out_cando)) (ppwantmore v) in
  assert (0 <=? tosend v) ;;;
  let! rd := (if rlastlen v =? rbuflen v then clear_readable_cache s rd
              else set_readable_cache s rd) in
  show_buffer SYS_BUF_RETURNED v ;;;
  ret (out_cando, out, v, rd).

Definition present_pp (v : vfd) (s : Z) : logged vfd :=
  let amt := rbuflen v - rbufofs v in
  if amt =? 0 then ret v else
  let! d := of_opt (dispatcher v) in
  let! (a, data) := pp_read d (ppdata v) s (zdrop (rbufofs v) (rbuf v)) amt in
  let v := set_ppdata v data in
  let! v :=
    (if a <? 0 then
       ret (set_rbuf v (rbuf v) (rbuflen v) (rbufofs v) (rlastlen v) (rbuflen v - rlastlen v) 1)
     else
       (if a <? amt then LOGBINii SYS_PP_ISO_READ 0 a amt else ret tt) ;;;
       let ofs := s32 (rbufofs v + a) in
       ret (set_rbuf v (rbuf v) (rbuflen v) ofs (rlastlen v) (s32 (ofs - rlastlen v)) 0)) in
  show_buffer SYS_BUF_PPOFS v ;;;
  ret v.

(** After a successful real_read of [l]. *)
Definition refilled (strict : bool) (v : vfd) (s len : Z) (rd : gset Z) (l : list byte) (ans : answers) :
    logged (Z * list byte * vfd * gset Z * answers) :=
  let! m := store (rbuf v) (rbuflen v) l in
  let v := set_rbuf v m (rbuflen v + zlen l) (rbufofs v) (rlastlen v) (tosend v) (ppwantmore v) in
  show_buffer SYS_BUF_REFILLED v ;;;
  let! v := present_pp v s in
  (if strict then assert (negb (tosend v =? 0)) else ret tt) ;;;
  let! (r, out, v, rd) := buf_ret v s rd len in ret (r, out, v, rd, ans).

(** Nothing is left for the application: the real read. *)
Definition read_more (strict : bool) (v : vfd) (s len : Z) (rd : gset Z) (ans : answers) :
    logged (Z * list byte * vfd * gset Z * answers) :=
  let! v := buf_shift v in
  match ans with
  | [] => stop Pending
  | a :: ans =>
      match kread a (VBUFSIZE - rbuflen v) with
      | None => ret (-1, [], v, rd, ans)
      | Some [] => ret (0, [], v, rd, ans)
      | Some l => refilled strict v s len rd l ans
      end
  end.

(** virtual_read, virtual_recv and virtual_recvfrom: the same code around three
    system calls; only virtual_read asserts that the plugin gave something. *)
Definition virtual_io (strict : bool) (v : vfd) (s len : Z) (rd : gset Z) (ans : answers) :
    logged (Z * list byte * vfd * gset Z * answers) :=
  show_buffer SYS_BUF_PRE v ;;;
  if negb (tosend v =? 0) then
    when (debug_events fl) (LOGBINiii SYS_BUF_SHORT1 0 (rbufofs v) (rbuflen v) (tosend v)) ;;;
    let! (r, out, v, rd) := buf_ret v s rd len in ret (r, out, v, rd, ans)
  else
    let! v := (if (rbufofs v <? rbuflen v) && (ppwantmore v =? 0) then present_pp v s else ret v) in
    if negb (tosend v =? 0) then
      when (debug_events fl) (LOGBINiii SYS_BUF_SHORT2 0 (rbufofs v) (rbuflen v) (tosend v)) ;;;
      let! (r, out, v, rd) := buf_ret v s rd len in ret (r, out, v, rd, ans)
    else
      read_more strict v s len rd ans.

Definition virtual_read := virtual_io true.
Definition virtual_recv := virtual_io false.
Definition virtual_recvfrom := virtual_io false.

(** ** The writing side *)

(** The do-while loop; the plugin consumes a byte or more each turn but the last,
    so [S wbuflen] turns are enough for a plugin that obeys its laws. *)
Fixpoint vwrite_loop (fuel : nat) (d : pp_dispatcher) (v : vfd) (s : Z) : logged (vfd * Z) :=
  match fuel with
  | O => stop Pending
  | S fuel' =>
      let vlen := wbuflen v - wbufofs v in
      if vlen =? 0 then ret (v, vlen) else
      let! (req, data) := pp_write d (ppdata v) s (zdrop (wbufofs v) (wbuf v)) vlen in
      let v := set_ppdata v data in
      if 0 <? req then
        vwrite_loop fuel' d (set_wbuf v (wbuf v) (wbuflen v) (s32 (wbufofs v + req))) s
      else ret (v, vlen)
  end.

Definition vwrite_req (v : vfd) (s : Z) (buf : list byte) (len : Z) : logged vfd :=
  match dispatcher v with
  | None => ret v
  | Some d =>
      if len <=? 0 then ret v else
      let! b := load buf 0 len in
      let! m := store (wbuf v) (wbuflen v) b in
      let v := set_wbuf v m (wbuflen v + len) (wbufofs v) in
      let! (v, vlen) := vwrite_loop (S (Z.to_nat (wbuflen v))) d v s in
      let! b := load (wbuf v) (wbufofs v) vlen in
      let! m := store (wbuf v) 0 b in
      ret (set_wbuf v m vlen 0)
  end.

(** ** Invariant of the reading side *)

Section reading.
Context (d : pp_dispatcher) (Inv : pp_data -> Prop) (Refused : pp_data -> Z -> Prop).
Context `{Hlaw : !PpLaw (pp_read d) Inv Refused}.

(** The bytes read from the kernel that the application does not have yet. *)
Definition pending (v : vfd) : list byte :=
  ztake (rbuflen v - rlastlen v) (zdrop (rlastlen v) (rbuf v)).

Definition vwf (v : vfd) : Prop :=
  dispatcher v = Some d /\ zlen (rbuf v) = VBUFSIZE /\ Inv (ppdata v) /\
  0 <= rlastlen v <= rbuflen v /\ rbuflen v <= VBUFSIZE /\ 0 <= rbufofs v <= rbuflen v /\
  0 <= tosend v /\
  ((ppwantmore v = 0 /\ rlastlen v + tosend v = rbufofs v) \/
   (ppwantmore v = 1 /\ rlastlen v + tosend v = rbuflen v /\ rbufofs v <= rlastlen v /\
    rbufofs v < rbuflen v /\ Refused (ppdata v) (rbuflen v - rbufofs v))).

(** The bytes in the buffer that the plugin has not taken. *)
Definition unseen (v : vfd) : list byte :=
  ztake (rbuflen v - rbufofs v) (zdrop (rbufofs v) (rbuf v)).

(** Whatever goes wrong in here went wrong in the plugin, when it was shown what it
    had not taken of the stream and the [l] the kernel had just given. *)
Definition plugin_crash (v : vfd) (s : Z) (l : list byte) (c : crash) : Prop :=
  exists mem len w, 0 < len <= zlen mem /\ len < 2 ^ 31 /\ ztake len mem = unseen v ++ l /\
    pp_read d (ppdata v) s mem len = (w, Crash c).

Lemma zlen_pending v : vwf v -> zlen (pending v) = rbuflen v - rlastlen v.
Proof. intros (_&?&_&?&?&?&_). unfold pending. zl. Qed.

Lemma post_show sc v (Q : outcome unit -> Prop) : Q (Ok tt) -> post (show_buffer sc v) Q.
Proof.
  intros H. unfold show_buffer. destruct (debug_events fl =? 0); [by apply post_ret |].
  log_short. apply post_bind, post_emit. by apply post_emit.
Qed.

Lemma post_when b m (Q : outcome unit -> Prop) :
  Q (Ok tt) -> post m Q -> post (when b m) Q.
Proof. intros. unfold when. by destruct (b =? 0). Qed.

Lemma post_cache (m : logged (gset Z)) (Q : outcome (gset Z) -> Prop) s rd :
  m = clear_readable_cache s rd \/ m = set_readable_cache s rd ->
  (forall rd', Q (Ok rd')) -> post m Q.
Proof.
  intros [-> | ->] H; unfold clear_readable_cache, set_readable_cache;
    (destruct (negb (lock_rv fl =? 0)); [log_short; apply post_bind, post_emit |]; by apply post_ret).
Qed.

(** buf_ret gives the application the next bytes. *)
Lemma buf_ret_post v s rd len :
  vwf v -> 0 < tosend v -> 0 < len < 2 ^ 31 ->
  post (buf_ret v s rd len) (fun o => exists r out v' rd', o = Ok (r, out, v', rd') /\
    r = Z.min len (tosend v) /\ zlen out = r /\ pending v = out ++ pending v' /\ vwf v' /\
    ppdata v' = ppdata v).
Proof.
  intros Hv Ht Hl. pose proof Hv as (Hd&Hb&Hi&Hr&Hlen&Ho&_&Hc). unfold VBUFSIZE in *.
  unfold buf_ret. rewrite assert_true, bind_ret_l by zt.
  rewrite assert_true, bind_ret_l by (unfold VBUFSIZE; zt).
  assert (rlastlen v + tosend v <= rbuflen v) as Hle by lia.
  rewrite (s32_small len) by lia. set (r := Z.min len (tosend v)).
  assert (0 < r <= tosend v) as Hr0 by lia. cbv zeta. rewrite u64_small by lia.
  rewrite load_ok by lia. rewrite bind_ret_l. rewrite (s32_small r) by lia.
  rewrite (s32_small (rlastlen v + r)), (s32_small (tosend v - r)) by lia.
  rewrite assert_true, bind_ret_l by (cbn [tosend set_rbuf]; zt).
  apply post_bind. eapply post_cache; [case_match; eauto |]. intros rd'.
  apply post_bind, post_show. cbv beta. apply post_ret.
  do 4 eexists. split; [reflexivity |]. split; [done |].
  split; [zl |]. split.
  - unfold pending. cbn [rbuf rbuflen rlastlen set_rbuf].
    replace (rbuflen v - rlastlen v) with (r + (rbuflen v - (rlastlen v + r))) by lia.
    rewrite ztake_add, zdrop_zdrop by lia. done.
  - split; [| done]. unfold vwf. cbn [dispatcher rbuf ppdata rlastlen rbuflen rbufofs tosend
      ppwantmore set_rbuf]. unfold VBUFSIZE. split_and!; try done; try lia.
    destruct Hc as [Hc | Hc]; [left; lia | right; split_and!; try apply Hc; lia].
Qed.

(** The state in which present_pp is called: everything given has been received,
    and what the plugin refused of it is all of it. *)
Definition presentable (v : vfd) : Prop :=
  dispatcher v = Some d /\ zlen (rbuf v) = VBUFSIZE /\ Inv (ppdata v) /\
  0 <= rbufofs v <= rlastlen v /\ rlastlen v < rbuflen v <= VBUFSIZE /\
  (rlastlen v = rbufofs v \/ Refused (ppdata v) (rlastlen v - rbufofs v)).

Lemma present_post v s :
  presentable v ->
  post (present_pp v s) (fun o =>
    (exists v', o = Ok v' /\ vwf v' /\ 0 < tosend v' /\ pending v' = pending v) \/
    (exists c, o = Crash c /\ plugin_crash v s [] c)).
Proof.
  intros (Hd&Hb&Hi&Ho&Hl&Hr). unfold VBUFSIZE in *. unfold present_pp. cbv zeta.
  destruct (Z.eqb_spec (rbuflen v - rbufofs v) 0); [lia |].
  rewrite Hd. cbn [of_opt]. rewrite bind_ret_l.
  set (amt := rbuflen v - rbufofs v) in *. set (mem := zdrop (rbufofs v) (rbuf v)).
  assert (0 < amt <= zlen mem) as Hamt by (unfold mem; zl).
  destruct (pp_read d (ppdata v) s mem amt) as [w [[a data] | c]] eqn:E.
  2:{ right. exists c. split; [done |]. exists mem, amt, w. rewrite app_nil_r. split_and!; done || lia. }
  destruct (pp_takes _ _ _ _ _ _ _ Hi Hamt ltac:(lia) E) as [Hi' Ha].
  apply post_bind. unfold post at 1. cbn [snd]. destruct (Z.ltb_spec a 0) as [Hneg | Hpos].
  - assert (a = -1) as -> by lia. rewrite bind_ret_l. apply post_bind, post_show, post_ret. left.
    eexists. split; [reflexivity |]. unfold vwf, pending.
    cbn [dispatcher rbuf ppdata rlastlen rbuflen rbufofs tosend ppwantmore set_rbuf set_ppdata].
    unfold VBUFSIZE. split_and!; try done; try lia. right. split_and!; try done; try lia.
    exact (pp_refuses _ _ _ _ _ _ Hi Hamt ltac:(lia) E).
  - apply post_bind. apply post_bind. unfold post at 1. destruct (a <? amt); cbn [snd LOGBINii emit ret].
    all: apply post_ret, post_bind, post_show, post_ret; left.
    all: cbn [rbuf rbufofs rlastlen rbuflen set_ppdata]; rewrite (s32_small (rbufofs v + a)) by lia.
    all: rewrite s32_small by lia.
    all: assert (rlastlen v < rbufofs v + a) as Hgt by
      (destruct Hr as [Hr | Hr]; [lia |];
       destruct (Z.eq_dec (rlastlen v) (rbufofs v)); [lia |];
       pose proof (pp_waits _ _ _ _ _ _ _ _ Hi Hr Hamt ltac:(lia) ltac:(lia) E ltac:(lia)); lia).
    all: eexists; split; [reflexivity |]; unfold vwf, pending.
    all: cbn [dispatcher rbuf ppdata rlastlen rbuflen rbufofs tosend ppwantmore set_rbuf set_ppdata].
    all: unfold VBUFSIZE; split_and!; try done; try lia.
Qed.

(** The room real_read is given once the buffer has been shifted. *)
Definition room (v : vfd) : Z := VBUFSIZE - (rbuflen v - Z.min (rbufofs v) (rlastlen v)).

Lemma shifted (m : list byte) b l n :
  0 <= b <= n -> n <= l -> l <= zlen m ->
  ztake (l - b - (n - b)) (zdrop (n - b) (ztake (l - b) (zdrop b m) ++
    zdrop (0 + zlen (ztake (l - b) (zdrop b m))) m)) = ztake (l - n) (zdrop n m).
Proof.
  intros. rewrite zdrop_app_le, zdrop_ztake, zdrop_zdrop by zl.
  replace (l - b - (n - b)) with (l - n) by lia. replace (b + (n - b)) with n by lia.
  rewrite ztake_app_exact; [done | zl].
Qed.

Lemma buf_shift_post v :
  vwf v -> tosend v = 0 ->
  post (buf_shift v) (fun o => exists v', o = Ok v' /\ vwf v' /\ tosend v' = 0 /\
    ppwantmore v' = ppwantmore v /\ ppdata v' = ppdata v /\ pending v' = pending v /\
    unseen v' = unseen v /\ VBUFSIZE - rbuflen v' = room v /\ rbuflen v' - rbufofs v' = rbuflen v - rbufofs v).
Proof.
  intros Hv Ht. pose proof Hv as (Hd&Hb&Hi&Hr&Hlen&Ho&_&Hc). unfold VBUFSIZE in *.
  unfold buf_shift, room, VBUFSIZE. cbv zeta. set (b := Z.min (rbufofs v) (rlastlen v)).
  destruct (Z.eqb_spec b 0) as [E | E].
  - apply post_ret. exists v. split_and!; try done; lia.
  - rewrite load_ok by lia. rewrite bind_ret_l.
    rewrite store_ok by zl. rewrite bind_ret_l. apply post_bind, post_show, post_ret.
    eexists. split; [reflexivity |].
    assert (zlen (ztake (rbuflen v - b) (zdrop b (rbuf v))) = rbuflen v - b) as Hl by zl.
    split.
    + unfold vwf. cbn [dispatcher rbuf ppdata rlastlen rbuflen rbufofs tosend ppwantmore set_rbuf].
      unfold VBUFSIZE. split_and!; try done; try lia.
      * rewrite ztake_0, app_nil_l. zl.
      * destruct Hc as [Hc | (?&?&?&?&Hc)]; [left; lia | right; split_and!; try lia].
        by replace (rbuflen v - b - (rbufofs v - b)) with (rbuflen v - rbufofs v) by lia.
    + unfold pending, unseen.
      cbn [dispatcher rbuf ppdata rlastlen rbuflen rbufofs tosend ppwantmore set_rbuf].
      split_and!; try done; try lia; rewrite ztake_0, app_nil_l; apply shifted; lia.
Qed.

(** What a read may do to the stream: [l] are the bytes the kernel gave. *)
Definition delivers (v v' : vfd) (l out : list byte) : Prop := pending v ++ l = out ++ pending v'.

Definition io_result (v : vfd) (s : Z) (ans : answers) (len : Z)
    (o : outcome (Z * list byte * vfd * gset Z * answers)) : Prop :=
  (exists r out v' rd' ans', o = Ok (r, out, v', rd', ans') /\ vwf v' /\
     ((ans' = ans /\ delivers v v' [] out /\ 0 < r <= len /\ zlen out = r) \/
      (exists a, ans = a :: ans' /\ pending v = [] /\
         match kread a (room v) with
         | None => r = -1 /\ out = [] /\ pending v' = []
         | Some [] => r = 0 /\ out = [] /\ pending v' = []
         | Some l => delivers v v' l out /\ 0 < r <= len /\ zlen out = r
         end))) \/
  (o = Crash Pending /\ ans = [] /\ pending v = []) \/
  (exists c l, o = Crash c /\ plugin_crash v s l c /\
     (l = [] \/ exists a ans', ans = a :: ans' /\ kread a (room v) = Some l)).

(** The short loops of virtual_io: what is already there. *)
Lemma short_post v v0 s rd len ans sc :
  vwf v -> 0 < tosend v -> pending v = pending v0 -> 0 < len < 2 ^ 31 ->
  post (when (debug_events fl) (LOGBINiii sc 0 (rbufofs v) (rbuflen v) (tosend v)) ;;;
        let! (r, out, v, rd) := buf_ret v s rd len in ret (r, out, v, rd, ans))
    (io_result v0 s ans len).
Proof.
  intros Hv Ht Hp Hl. apply post_bind, post_when; [| apply post_emit]; cbv beta.
  all: apply post_bind; eapply post_mono; [by apply buf_ret_post |].
  all: intros o (r & out & v' & rd' & -> & Hr & Ho & Hpe & Hv' & _); apply post_ret.
  all: left; exists r, out, v', rd', ans; split; [done |]; split; [done |]; left.
  all: unfold delivers; rewrite app_nil_r, <- Hp; split_and!; try done; lia.
Qed.

Lemma kread_fits a n l : kread a n = Some l -> 0 <= n -> zlen l <= n.
Proof. destruct a; [| done]. intros [= <-] Hn. zl. Qed.

Lemma unseen_refill v l :
  zlen (rbuf v) = VBUFSIZE -> 0 <= rbufofs v <= rbuflen v -> zlen l <= VBUFSIZE - rbuflen v ->
  unseen (set_rbuf v (ztake (rbuflen v) (rbuf v) ++ l ++ zdrop (rbuflen v + zlen l) (rbuf v))
    (rbuflen v + zlen l) (rbufofs v) (rlastlen v) (tosend v) (ppwantmore v)) = unseen v ++ l.
Proof.
  intros Hb Ho Hl. unfold unseen. cbn [rbuf rbuflen rbufofs set_rbuf]. pose proof (zlen_nonneg l).
  rewrite zdrop_app_le, zdrop_ztake by zl. rewrite app_assoc. apply ztake_app_exact. zl.
Qed.

(** A successful real_read leaves everything ready for the plugin. *)
Lemma refill_presentable v l :
  vwf v -> tosend v = 0 -> pending v = [] -> 0 < zlen l <= VBUFSIZE - rbuflen v ->
  let m := ztake (rbuflen v) (rbuf v) ++ l ++ zdrop (rbuflen v + zlen l) (rbuf v) in
  let v1 := set_rbuf v m (rbuflen v + zlen l) (rbufofs v) (rlastlen v) (tosend v) (ppwantmore v) in
  presentable v1 /\ pending v1 = l.
Proof.
  intros Hv Ht Hp Hfit. pose proof Hv as (Hd&Hb&Hi&Hr&Hrl&Ho&_&Hc).
  pose proof (zlen_pending v Hv) as Hz. rewrite Hp, zlen_nil in Hz. unfold VBUFSIZE in *.
  cbv zeta. unfold presentable, pending, VBUFSIZE.
  cbn [dispatcher rbuf ppdata rlastlen rbuflen rbufofs set_rbuf]. split_and!; try done; try lia.
  - zl.
  - destruct Hc as [Hc | (_&_&?&?&Hc)]; [left; lia | right].
    by replace (rlastlen v - rbufofs v) with (rbuflen v - rbufofs v) by lia.
  - replace (rlastlen v) with (rbuflen v) by lia.
    rewrite zdrop_app_exact by zl. apply ztake_app_exact. lia.
Qed.

(** After a successful real_read. *)
Lemma refill_post (strict : bool) (v v0 : vfd) s rd len (ans ans0 : answers) a l :
  vwf v -> tosend v = 0 -> pending v = [] -> pending v0 = [] ->
  VBUFSIZE - rbuflen v = room v0 -> unseen v = unseen v0 -> ppdata v = ppdata v0 ->
  0 < len < 2 ^ 31 -> ans0 = a :: ans -> kread a (room v0) = Some l -> 0 < zlen l ->
  post (refilled strict v s len rd l ans) (io_result v0 s ans0 len).
Proof.
  intros Hv Ht Hp Hp0 Hroom Hun Hpd Hlen -> Hk Hl.
  pose proof Hv as (Hd&Hb&Hi&Hr&Hrl&Ho&_&Hc). pose proof (zlen_pending v Hv) as Hz.
  rewrite Hp, zlen_nil in Hz.
  assert (zlen l <= VBUFSIZE - rbuflen v) as Hfit.
  { rewrite Hroom. destruct a as [x |]; [| done]. injection Hk as <-. zl. }
  destruct (refill_presentable v l Hv Ht Hp ltac:(lia)) as [Hpr Hp1].
  unfold refilled. rewrite store_ok by (unfold VBUFSIZE in *; lia). rewrite bind_ret_l. cbv zeta in *.
  set (v1 := set_rbuf _ _ _ _ _ _ _) in *.
  apply post_bind, post_show. cbv beta. apply post_bind.
  eapply post_mono; [by apply (present_post v1) |].
  intros o [(v2 & -> & Hv2 & Ht2 & Hp2) | (c & -> & Hpc)]; [| right; right; exists c, l; split; [done |]; split; [| right; eauto]].
  2:{ destruct Hpc as (mem & len' & w & Hm & H31 & E & Hpc). exists mem, len', w. rewrite <- Hun, <- Hpd.
      split; [exact Hm |]. split; [exact H31 |]. split; [| exact Hpc]. etrans; [exact E |]. rewrite app_nil_r. by apply unseen_refill. }
  apply post_bind.
  assert (post (W:=log_op) (if strict then assert (negb (tosend v2 =? 0)) else ret tt)
    (fun o => o = Ok tt)) as Hs by (destruct strict; [apply post_assert; [zt | done] | done]).
  eapply post_mono; [exact Hs |]. intros o ->. apply post_bind.
  eapply post_mono; [by apply buf_ret_post |].
  intros o (r & out & v' & rd' & -> & Hr' & Ho' & Hpe & Hv' & _). apply post_ret.
  left. exists r, out, v', rd', ans. split; [done |]. split; [done |]. right.
  exists a. split; [done |]. split; [done |]. rewrite Hk.
  destruct l as [| b l]; [unfold zlen in Hl; simpl in Hl; lia |].
  unfold delivers. rewrite Hp0, app_nil_l, <- Hp1, <- Hp2. split_and!; try done; lia.
Qed.

(** The part after the plugin was given the chance to go on. *)
Lemma read_more_post strict v s len rd ans :
  vwf v -> tosend v = 0 -> rbufofs v = rbuflen v \/ ppwantmore v = 1 -> 0 < len < 2 ^ 31 ->
  post (read_more strict v s len rd ans) (io_result v s ans len).
Proof.
  intros Hv Ht Hend Hl. pose proof Hv as (Hd&Hb&Hi&Hr&Hlen&Ho&Ht0&Hc). unfold read_more.
  apply post_bind. eapply post_mono; [by apply buf_shift_post |].
  intros o (v1 & -> & Hv1 & Ht1 & Hm1 & Hd1 & Hp1 & Hu1 & Hroom & Hw1).
  assert (pending v = []) as Hp0.
  { apply zlen_0_inv. rewrite zlen_pending by done. lia. }
  destruct ans as [| a ans]; [apply post_stop; right; by left |].
  rewrite Hroom. destruct (kread a (room v)) as [[| b l] |] eqn:Hk.
  - apply post_ret. left. eexists 0, [], v1, rd, ans. split; [done |]. split; [done |].
    right. exists a. rewrite Hk. split_and!; try done. by rewrite Hp1.
  - apply refill_post with (v0 := v) (a := a); try done; try lia; by rewrite Hp1.
  - apply post_ret. left. eexists (-1), [], v1, rd, ans. split; [done |]. split; [done |].
    right. exists a. rewrite Hk. split_and!; try done. by rewrite Hp1.
Qed.

Lemma virtual_io_post strict v s len rd ans :
  vwf v -> 0 < len < 2 ^ 31 ->
  post (virtual_io strict v s len rd ans) (io_result v s ans len).
Proof.
  intros Hv Hl. pose proof Hv as (Hd&Hb&Hi&Hr&Hlen&Ho&Ht0&Hc). unfold virtual_io.
  apply post_bind, post_show. cbv beta.
  destruct (Z.eqb_spec (tosend v) 0) as [Ht | Ht]; cbn [negb]; [| apply short_post; done || lia].
  apply post_bind.
  destruct (Z.ltb_spec (rbufofs v) (rbuflen v)) as [Hlt | Hge]; cbn [andb];
    [destruct (Z.eqb_spec (ppwantmore v) 0) as [Hm | Hm]; cbn [andb] |].
  2,3: apply post_ret; rewrite Ht; change (negb (0 =? 0)) with false; cbn iota; apply read_more_post; done || lia.
  eapply post_mono; [apply (present_post v s) |].
  { unfold presentable. split_and!; try done; try lia. }
  intros o [(v2 & -> & Hv2 & Ht2 & Hp2) | (c & -> & Hpc)]; [| right; right; exists c, []; auto].
  destruct (Z.eqb_spec (tosend v2) 0); [lia |]. cbn [negb]. by apply short_post.
Qed.

(** The bytes the kernel gave to a call that left the answers [ans'] of [ans]. *)
Definition gave (v : vfd) (ans ans' : answers) : list byte :=
  match ans with
  | a :: _ => if decide (length ans' = length ans) then [] else default [] (kread a (room v))
  | [] => []
  end.

(** An application that reads again and again, with the given lengths: the bytes it
    has received and the bytes the kernel gave. *)
Fixpoint app_reads (strict : bool) (lens : list Z) (v : vfd) (s : Z) (rd : gset Z) (ans : answers) :
    logged (list byte * list byte * vfd * gset Z * answers) :=
  match lens with
  | [] => ret ([], [], v, rd, ans)
  | len :: lens' =>
      let! (r, out, v1, rd, ans1) := virtual_io strict v s len rd ans in
      let! (rest, got, v2, rd, ans2) := app_reads strict lens' v1 s rd ans1 in
      ret (out ++ rest, gave v ans ans1 ++ got, v2, rd, ans2)
  end.

Lemma app_reads_ok strict lens v s rd ans w out got v' rd' ans' :
  vwf v -> Forall (fun len => 0 < len < 2 ^ 31) lens ->
  app_reads strict lens v s rd ans = (w, Ok (out, got, v', rd', ans')) ->
  vwf v' /\ pending v ++ got = out ++ pending v'.
Proof.
  intros Hv Hlens. revert v rd ans w out got Hv.
  induction Hlens as [| len lens Hlen Hlens IH]; intros v rd ans w out got Hv H; cbn [app_reads] in H.
  - inv_run. simplify_eq. split; [done | apply app_nil_r].
  - inv_runs. simplify_eq.
    pose proof (post_ok _ _ _ _ Hm (virtual_io_post strict v s len rd ans Hv Hlen)) as Hio.
    destruct Hio as [(r & o1 & v1 & rd1 & ans1 & [= <- <- <- <- <-] & Hv1 & Hc) |
      [[? ?] | (c & ? & ? & ?)]]; [| done | done].
    apply IH in Hm0 as (Hv' & Hp); [| done]. split; [done |].
    destruct Hc as [(<- & Hdel & _) | (a & -> & Hp0 & Hc)].
    + assert (forall x : answers, gave v x x = []) as Hgv.
      { intros [| y x]; [done |]. unfold gave. by rewrite decide_True. }
      rewrite Hgv, app_nil_l. unfold delivers in Hdel. rewrite app_nil_r in Hdel.
      by rewrite Hdel, <- !app_assoc, Hp.
    + unfold gave. rewrite decide_False by (simpl; lia). rewrite Hp0, app_nil_l.
      destruct (kread a (room v)) as [[| b x] |]; cbn [from_option].
      * destruct Hc as (_ & -> & E). rewrite E in Hp. exact Hp.
      * destruct Hc as (Hdel & _). unfold delivers in Hdel. rewrite Hp0, app_nil_l in Hdel.
        unfold id. rewrite Hdel, <- !app_assoc, Hp. done.
      * destruct Hc as (_ & -> & E). rewrite E in Hp. exact Hp.
Qed.

(** A plugin that refused the whole buffer leaves no room to read into. *)
Lemma room_full v : vwf v -> tosend v = 0 -> ppwantmore v = 1 ->
  rbuflen v - rbufofs v = VBUFSIZE -> room v = 0 /\ pending v = [].
Proof.
  intros Hv Ht Hm Hf. pose proof Hv as (Hd&Hb&Hi&Hr&Hlen&Ho&_&Hc).
  split; [unfold room; lia |]. apply zlen_0_inv. rewrite zlen_pending by done. lia.
Qed.
End reading.

(** ** The writing side *)

Section writing.
Context (d : pp_dispatcher) (Inv : pp_data -> Prop) (Refused : pp_data -> Z -> Prop).
Context `{Hlaw : !PpLaw (pp_write d) Inv Refused}.

(** The written bytes the plugin has not taken. *)
Definition wpending (v : vfd) : list byte :=
  ztake (wbuflen v - wbufofs v) (zdrop (wbufofs v) (wbuf v)).

Definition wwf (v : vfd) : Prop :=
  dispatcher v = Some d /\ zlen (wbuf v) = VBUFSIZE /\ Inv (ppdata v) /\
  0 <= wbufofs v <= wbuflen v /\ wbuflen v <= VBUFSIZE.

Lemma crashed_in_more s d0 stream more c :
  crashed_in (pp_write d) s d0 stream c -> crashed_in (pp_write d) s d0 (stream ++ more) c.
Proof.
  intros (tk & data & w1 & mem & len & w2 & rest & Hc & Hl & H31 & <- & Hp).
  exists tk, data, w1, mem, len, w2, (rest ++ more). split_and!; try done; try lia.
  by rewrite <- !app_assoc.
Qed.

(** The plugin's last word on the bytes left in [wbuf]. *)
Definition refused_rest (s : Z) (v : vfd) : Prop :=
  wpending v = [] \/
  exists data mem len w, Inv data /\ 0 < len <= zlen mem /\ len < 2 ^ 31 /\
    pp_write d data s mem len = (w, Ok (-1, ppdata v)) /\ ztake len mem = wpending v.

Lemma vwrite_loop_ok fuel v s w o :
  wwf v -> wbuflen v - wbufofs v < Z.of_nat fuel -> vwrite_loop fuel d v s = (w, o) ->
  (exists v' taken, o = Ok (v', wbuflen v' - wbufofs v') /\ wwf v' /\
     pp_calls (pp_write d) s (ppdata v) taken w (ppdata v') /\ wpending v = taken ++ wpending v' /\
     refused_rest s v') \/
  (exists c, o = Crash c /\ crashed_in (pp_write d) s (ppdata v) (wpending v) c).
Proof.
  revert v w o; induction fuel as [| fuel IH]; intros v w o Hv Hf H; [destruct Hv; lia |].
  pose proof Hv as (Hd & Hb & Hi & Ho & Hl). unfold VBUFSIZE in *.
  cbn [vwrite_loop] in H. destruct (Z.eqb_spec (wbuflen v - wbufofs v) 0) as [E | E].
  { unfold ret in H. simplify_eq. left. exists v, [].
    split_and!; try done; [constructor |]. left. unfold wpending. rewrite E. apply ztake_0. }
  set (amt := wbuflen v - wbufofs v) in *. set (mem := zdrop (wbufofs v) (wbuf v)) in *.
  assert (0 < amt <= zlen mem) as Hamt by (unfold mem; zl).
  destruct (pp_write d (ppdata v) s mem amt) as [w1 [[a data] | c]] eqn:Ep.
  2:{ cbn [bind] in H. simplify_eq. right. exists c. split; [done |].
      exists [], (ppdata v), [], mem, amt, w, []. split_and!; try done; try lia; [constructor |].
      by rewrite app_nil_r, app_nil_l. }
  destruct (pp_takes _ _ _ _ _ _ _ Hi Hamt ltac:(lia) Ep) as [Hi' Ha].
  cbn [bind] in H. destruct (Z.ltb_spec 0 a) as [Hpos | Hneg].
  - cbn [wbufofs set_ppdata] in H. rewrite s32_small in H by lia.
    match type of H with context [vwrite_loop fuel d ?x s] => set (v1 := x) in * end.
    destruct (vwrite_loop fuel d v1 s) as [w2 o2] eqn:E2. simplify_eq.
    assert (wwf v1) as Hv1.
    { unfold wwf, v1. cbn [dispatcher wbuf ppdata wbuflen wbufofs set_wbuf set_ppdata].
      unfold VBUFSIZE. split_and!; try done; lia. }
    assert (wpending v = ztake a mem ++ wpending v1) as Hp1.
    { unfold wpending, v1, mem. cbn [wbuf wbuflen wbufofs set_wbuf set_ppdata].
      replace (wbuflen v - wbufofs v) with (a + (wbuflen v - (wbufofs v + a))) by lia.
      rewrite ztake_add, zdrop_zdrop by lia. done. }
    assert (pp_calls (pp_write d) s (ppdata v) (ztake a mem) w1 data) as Hc1.
    { rewrite <- (app_nil_r (ztake a mem)), <- (app_nil_r w1).
      eapply calls_take; [exact Hamt | lia | exact Ep | lia | constructor]. }
    rewrite Hp1. apply IH in E2 as [(v' & taken & -> & Hv' & Hc & Hp & Href) | (c & -> & Hc)];
      [| | done | unfold v1; cbn [wbuflen wbufofs set_wbuf set_ppdata]; lia].
    + left. exists v', (ztake a mem ++ taken). split_and!; try done.
      * by eapply pp_calls_trans.
      * by rewrite <- app_assoc, <- Hp.
    + right. exists c. split; [done |]. by eapply crashed_in_after.
  - assert (a = -1) as -> by lia. unfold ret in H. rewrite app_nil_r in H. simplify_eq.
    left. exists (set_ppdata v data), []. split_and!; try done.
    2:{ right. exists (ppdata v), mem, amt, w. split_and!; try done; lia. }
    rewrite <- (app_nil_r w). eapply calls_refuse; [exact Hamt | lia | exact Ep | constructor].
Qed.

Lemma vwrite_req_ok v s buf len w o :
  wwf v -> wbufofs v = 0 -> 0 < len <= zlen buf -> wbuflen v + len <= VBUFSIZE ->
  vwrite_req v s buf len = (w, o) ->
  (exists v' taken, o = Ok v' /\ wwf v' /\ wbufofs v' = 0 /\
     pp_calls (pp_write d) s (ppdata v) taken w (ppdata v') /\
     wpending v ++ ztake len buf = taken ++ wpending v' /\ refused_rest s v') \/
  (exists c, o = Crash c /\ crashed_in (pp_write d) s (ppdata v) (wpending v ++ ztake len buf) c).
Proof.
  intros Hv H0 Hl Hfit H. pose proof Hv as (Hd & Hb & Hi & Ho & Hlen). unfold VBUFSIZE in *.
  unfold vwrite_req in H. rewrite Hd in H. destruct (Z.leb_spec len 0); [lia |].
  rewrite load_ok, bind_ret_l, zdrop_0, store_ok, bind_ret_l in H by zl. cbv zeta in H.
  set (m := ztake _ _ ++ _) in *. set (v1 := set_wbuf v m _ _) in *.
  assert (zlen m = 65536) as Hm by (unfold m; zl).
  assert (wwf v1) as Hv1.
  { unfold wwf, v1. cbn [dispatcher wbuf ppdata wbuflen wbufofs set_wbuf]. unfold VBUFSIZE.
    split_and!; try done; lia. }
  assert (wpending v1 = wpending v ++ ztake len buf) as Hp1.
  { unfold wpending, v1, m. cbn [wbuf wbuflen wbufofs set_wbuf].
    rewrite H0, !zdrop_0, !Z.sub_0_r, app_assoc. apply ztake_app_exact. zl. }
  destruct (vwrite_loop (S (Z.to_nat (wbuflen v1))) d v1 s) as [w1 o1] eqn:El.
  pose proof Hv1 as (_&_&_&Ho1&_).
  apply vwrite_loop_ok in El as [(v2 & taken & -> & Hv2 & Hc & Hp & Href) | (c & -> & Hc)];
    [| cbn [bind] in H; simplify_eq; right; exists c; by rewrite <- Hp1 | done | lia].
  pose proof Hv2 as (Hd2 & Hb2 & Hi2 & Ho2 & Hl2). unfold VBUFSIZE in *.
  cbn [bind] in H. rewrite load_ok, bind_ret_l in H by lia. rewrite store_ok, bind_ret_l in H by zl.
  unfold ret in H. rewrite app_nil_r in H. simplify_eq. left.
  match goal with |- exists v' _, Ok ?x = _ /\ _ => set (v3 := x) end.
  assert (wpending v3 = wpending v2) as Hp3.
  { unfold wpending, v3. cbn [wbuf wbuflen wbufofs set_wbuf].
    rewrite ztake_0, app_nil_l, zdrop_0, Z.sub_0_r. apply ztake_app_exact. zl. }
  exists v3, taken. split; [done |]. split.
  { unfold wwf, v3. cbn [dispatcher wbuf ppdata wbuflen wbufofs set_wbuf]. unfold VBUFSIZE.
    rewrite ztake_0, app_nil_l. split_and!; try done; try lia. zl. }
  split; [done |]. split; [exact Hc |]. rewrite <- Hp1, Hp, Hp3. split; [done |].
  unfold refused_rest. rewrite Hp3. exact Href.
Qed.

(** An application that writes [chunks] one after the other. *)
Fixpoint app_writes (chunks : list (list byte)) (v : vfd) (s : Z) : logged vfd :=
  match chunks with
  | [] => ret v
  | c :: cs => let! v := vwrite_req v s c (zlen c) in app_writes cs v s
  end.

Lemma zlen_wpending v : wwf v -> zlen (wpending v) = wbuflen v - wbufofs v.
Proof. intros (_&?&_&?&?). unfold wpending. zl. Qed.

Lemma app_writes_ok chunks v s w o :
  wwf v -> wbufofs v = 0 -> Forall (fun c => 0 < zlen c) chunks ->
  wbuflen v + zlen (concat chunks) <= VBUFSIZE -> (chunks = [] -> wpending v = []) ->
  app_writes chunks v s = (w, o) ->
  (exists v' taken, o = Ok v' /\ wwf v' /\
     pp_calls (pp_write d) s (ppdata v) taken w (ppdata v') /\
     wpending v ++ concat chunks = taken ++ wpending v' /\ refused_rest s v') \/
  (exists c, o = Crash c /\ crashed_in (pp_write d) s (ppdata v) (wpending v ++ concat chunks) c).
Proof.
  revert v w; induction chunks as [| b cs IH]; intros v w Hv H0 Hne Hfit Hnil H; cbn [app_writes] in H.
  { unfold ret in H. simplify_eq. left. exists v, []. split_and!; try done; [constructor | |].
    - cbn [concat]. by rewrite app_nil_r.
    - left. by apply Hnil. }
  apply Forall_cons_1 in Hne as [Hb Hne]. rewrite concat_cons in *. rewrite zlen_app in Hfit.
  pose proof (zlen_nonneg (concat cs)).
  destruct (vwrite_req v s b (zlen b)) as [w1 o1] eqn:E1.
  apply vwrite_req_ok in E1 as [(v1 & tk & -> & Hv1 & H01 & Hc1 & Hp1 & Hr1) | (c & -> & Hc)];
    [| | done | done | lia | lia]; rewrite (ztake_all (zlen b) b) in * by lia; rewrite app_assoc.
  2:{ cbn [bind] in H. simplify_eq. right. exists c. split; [done |]. by apply crashed_in_more. }
  assert (wbuflen v1 + zlen (concat cs) <= VBUFSIZE) as Hfit1.
  { apply (f_equal zlen) in Hp1. rewrite !zlen_app, !zlen_wpending in Hp1 by done.
    pose proof (zlen_nonneg tk). lia. }
  cbn [bind] in H. destruct (app_writes cs v1 s) as [w2 o2] eqn:E2. simplify_eq.
  destruct (decide (cs = [])) as [-> | Hcs].
  { cbn [app_writes] in E2. unfold ret in E2. simplify_eq. left. exists v1, tk.
    rewrite app_nil_r. cbn [concat]. rewrite app_nil_r. done. }
  rewrite Hp1, <- app_assoc.
  apply IH in E2 as [(v2 & tk2 & -> & Hv2 & Hc2 & Hp2 & Hr2) | (c & -> & Hc)]; try done.
  - left. exists v2, (tk ++ tk2). split_and!; try done.
    + by eapply pp_calls_trans.
    + by rewrite <- app_assoc, Hp2.
  - right. exists c. split; [done |]. by eapply crashed_in_after.
Qed.

(** A write that does not fit is copied past the end of [wbuf]. *)
Lemma vwrite_req_overflow v s buf len :
  wwf v -> 0 < len <= zlen buf -> VBUFSIZE < wbuflen v + len ->
  vwrite_req v s buf len = stop Undef.
Proof.
  intros (Hd & Hb & _ & Ho & Hlen) Hl Hfit. unfold vwrite_req. rewrite Hd.
  destruct (Z.leb_spec len 0); [lia |]. rewrite load_ok, bind_ret_l, zdrop_0 by lia.
  unfold store, check. destruct (Z.leb_spec 0 (wbuflen v)); [| lia]. cbn [andb].
  destruct (Z.leb_spec (wbuflen v + zlen (ztake len buf)) (zlen (wbuf v))); [zl | done].
Qed.
End writing.
End vbuf.

(** ** Properties *)

(** C20: What one read through the buffer does.  For any plugin that obeys its laws,
    virtual_read (and virtual_recv, virtual_recvfrom) hands the application the next
    bytes of the stream, at least one and at most as many as it asked for, either
    from the buffer or after one read of the kernel; passes an error or an end of
    file on with nothing lost; keeps its invariant; and never fails an assert or
    leaves its buffer, unless the plugin's own code does on the bytes it has yet to
    take. *)
Theorem virtual_read_contract fl d Inv Refused strict v s len rd ans :
  PpLaw (pp_read d) Inv Refused -> vwf d Inv Refused v -> 0 < len < 2 ^ 31 ->
  post (virtual_io fl strict v s len rd ans) (io_result d Inv Refused v s ans len).
Proof. intros Hlaw Hv Hl. by apply virtual_io_post. Qed.

(** A descriptor with the trivial plugin and empty buffers. *)
Definition demo_flags : flags := mk_flags 0 0 0 0 0.
Definition demo_vfd (d : pp_dispatcher) (data : pp_data) : vfd :=
  mk_vfd VFD_SOCK (replicate (Z.to_nat VBUFSIZE) NUL) 0 0 0 0 0 (replicate (Z.to_nat VBUFSIZE) NUL) 0 0 0 (Some d) data.

Lemma demo_vfd_wf d Inv Refused data :
  Inv data -> vwf d Inv Refused (demo_vfd d data) /\ wwf d Inv (demo_vfd d data).
Proof.
  intros Hi. split; unfold vwf, wwf, VBUFSIZE; cbn [demo_vfd dispatcher rbuf ppdata rlastlen
    rbuflen rbufofs tosend ppwantmore wbuf wbuflen wbufofs]; split_and!; try done; try lia.
Qed.

Lemma virtual_read_contract_witness :
  post (virtual_read demo_flags (demo_vfd pp_trivial PD_null) 5 4 ∅ [Some (bs "hello")])
    (fun o => exists r out v' rd', o = Ok (r, out, v', rd', []) /\ 0 < r <= 4 /\
       bs "hello" = out ++ pending v').
Proof.
  pose proof (virtual_read_contract demo_flags pp_trivial (fun _ => True) (fun _ _ => False) true
    (demo_vfd pp_trivial PD_null) 5 4 ∅ [Some (bs "hello")] trivial_law
    (proj1 (demo_vfd_wf pp_trivial (fun _ => True) (fun _ _ => False) PD_null I))
    ltac:(lia)) as H.
  eapply post_mono; [exact H |]. intros o [(r & out & v' & rd' & ans' & -> & Hv & Hc) | [(-> & ? & _) | (c & l & -> & Hc & _)]].
  - destruct Hc as [(-> & Hdel & Hr & Hz) | (a & [= <- <-] & _ & Hc)].
    + unfold delivers in Hdel. change (pending (demo_vfd pp_trivial PD_null)) with (@nil Byte.byte) in Hdel.
      symmetry in Hdel. apply app_eq_nil in Hdel as [-> _]. change (zlen []) with 0 in Hz. lia.
    + change (kread (Some (bs "hello")) (room (demo_vfd pp_trivial PD_null))) with (Some (bs "hello")) in Hc.
      destruct Hc as (Hdel & Hr & _). exists r, out, v', rd'. done.
  - done.
  - destruct Hc as (mem & len & w & _ & _ & _ & Hc). done.
Defined.

(** C10: Reading through the buffer is transparent to a plugin that obeys its law: it
    takes nothing or between one and the bytes it was shown, and once it has refused
    some bytes it takes more than those (https's read function and perlp's client side
    do not).  Whatever lengths, from 1 to below 2 GiB, an application reads with and
    however the kernel splits the stream, when the reads have returned the bytes the
    application has received, followed by the bytes still pending in the buffer, are
    exactly those that were pending and those the kernel gave: none lost, repeated or
    reordered by the buffer's shifts or by what the plugin takes or refuses. *)
Theorem reads_transparent fl d Inv Refused strict lens v s rd ans w out got v' rd' ans' :
  PpLaw (pp_read d) Inv Refused -> vwf d Inv Refused v ->
  Forall (fun len => 0 < len < 2 ^ 31) lens ->
  app_reads fl strict lens v s rd ans = (w, Ok (out, got, v', rd', ans')) ->
  vwf d Inv Refused v' /\ pending v ++ got = out ++ pending v'.
Proof. intros Hlaw Hv Hl H. by eapply app_reads_ok. Qed.

Definition received {A B C D} (m : logged (A * B * vfd * C * D)) : option (A * B) :=
  match m with (_, Ok (out, got, _, _, _)) => Some (out, got) | _ => None end.

Lemma reads_transparent_witness :
  exists w v' rd' ans',
    app_reads demo_flags true [4; 10; 3] (demo_vfd pp_trivial PD_null) 5 ∅
      [Some (bs "hello"); Some (bs " world")] =
      (w, Ok (bs "hello wo", bs "hello world", v', rd', ans')) /\
    pending v' = bs "rld".
Proof.
  assert (received (app_reads demo_flags true [4; 10; 3] (demo_vfd pp_trivial PD_null) 5 ∅
    [Some (bs "hello"); Some (bs " world")]) = Some (bs "hello wo", bs "hello world")) as H
    by (vm_compute; reflexivity).
  destruct (app_reads _ _ _ _ _ _ _) as [w [[[[[out got] v'] rd'] ans'] | c]] eqn:E; [| done].
  injection H as -> ->. exists w, v', rd', ans'. split; [done |].
  destruct (reads_transparent demo_flags pp_trivial (fun _ => True) (fun _ _ => False) true
    [4; 10; 3] (demo_vfd pp_trivial PD_null) 5 ∅ [Some (bs "hello"); Some (bs " world")]
    w _ _ v' rd' ans' trivial_law
    (proj1 (demo_vfd_wf pp_trivial (fun _ => True) (fun _ _ => False) PD_null I))
    ltac:(repeat constructor) E) as [_ Hp].
  change (pending (demo_vfd pp_trivial PD_null)) with (@nil Byte.byte) in Hp.
  change (bs "hello world") with (bs "hello wo" ++ bs "rld") in Hp.
  rewrite app_nil_l in Hp. by apply app_inv_head in Hp.
Defined.

(** C39: A plugin that waits for more than the buffer holds ends the stream.  Once a
    plugin that obeys its law has refused a full buffer (a query of 64 KiB, a header
    that never ends) and nothing it took is left to hand over, every further read asks
    the kernel for zero bytes and tells the application that the stream has ended,
    whatever is still coming. *)
Theorem full_buffer_false_eof fl d Inv Refused strict v s len rd l ans :
  PpLaw (pp_read d) Inv Refused -> vwf d Inv Refused v ->
  tosend v = 0 -> ppwantmore v = 1 -> rbuflen v - rbufofs v = VBUFSIZE ->
  post (virtual_io fl strict v s len rd (Some l :: ans)) (fun o => exists v', 
    o = Ok (0, [], v', rd, ans) /\ vwf d Inv Refused v' /\
    tosend v' = 0 /\ ppwantmore v' = 1 /\ rbuflen v' - rbufofs v' = VBUFSIZE).
Proof.
  intros Hlaw Hv Ht Hm Hf. unfold virtual_io. apply post_bind, post_show. cbv beta.
  rewrite Ht, Hm. change (1 =? 0) with false. rewrite andb_false_r, bind_ret_l, Ht.
  change (negb (0 =? 0)) with false. cbn iota. unfold read_more. apply post_bind.
  eapply post_mono; [by eapply buf_shift_post |].
  intros o (v1 & -> & Hv1 & Ht1 & Hm1 & _ & _ & _ & Hroom & Hd).
  destruct (room_full _ _ _ _ Hv Ht Hm Hf) as [Hr _]. rewrite Hroom, Hr.
  cbn [kread fmap option_fmap option_map]. rewrite ztake_0. apply post_ret.
  exists v1. split_and!; try done; lia.
Qed.

Lemma full_buffer_false_eof_witness :
  post (virtual_read demo_flags
    (mk_vfd VFD_SOCK (replicate (Z.to_nat VBUFSIZE) NUL) 65536 0 65536 0 1 (replicate (Z.to_nat VBUFSIZE) NUL) 0 0 0
       (Some pp_psqls) (PD_psql (mk_psql_state (mk_psql 1 "Q"%byte 1 70000 0) (mk_psql 1 NUL 0 0 0))))
    5 100 ∅ [Some (bs "more")])
    (fun o => exists v', o = Ok (0, [], v', ∅, [])).
Proof.
  eapply post_mono; [apply (full_buffer_false_eof demo_flags pp_psqls (psql_data_inv PP_READ) (psql_refused PP_READ)
    true) | intros o (v' & -> & _); by exists v']; try done.
  - apply psql_law.
  - unfold vwf, VBUFSIZE. cbn [dispatcher rbuf ppdata rlastlen rbuflen rbufofs tosend ppwantmore].
    split_and!; try done; try lia.
    + eexists. split; [done |]. split; vm_compute; congruence.
    + right. split_and!; try done; try lia. eexists. split; [done |].
      cbn [side psql_read psql_todo psql_type gotStartup gotHeader]. split_and!; try done; lia.
Defined.

(** C12: Writing reaches the plugin in order, when its write function obeys its law:
    it takes nothing or between one and the bytes it was shown, and once it has
    refused some bytes it takes more than those (perlp's client side, for one, does
    not).  When an application writes non-empty [chunks] one after the other, into a
    buffer not read from the middle, and they fit the buffer with what the plugin had
    left, the plugin is called with exactly those bytes, in order and each byte taken
    once; what it has not taken stays in the buffer, and only because it refused it.
    The only way to fail is in the plugin's own code. *)
Theorem writes_reach_plugin d Inv Refused chunks v s w o :
  PpLaw (pp_write d) Inv Refused -> wwf d Inv v -> wbufofs v = 0 -> chunks <> [] ->
  Forall (fun c => 0 < zlen c) chunks -> wbuflen v + zlen (concat chunks) <= VBUFSIZE ->
  app_writes chunks v s = (w, o) ->
  (exists v' taken, o = Ok v' /\ wwf d Inv v' /\
     pp_calls (pp_write d) s (ppdata v) taken w (ppdata v') /\
     wpending v ++ concat chunks = taken ++ wpending v' /\ refused_rest d Inv s v') \/
  (exists c, o = Crash c /\ crashed_in (pp_write d) s (ppdata v) (wpending v ++ concat chunks) c).
Proof. intros. by eapply app_writes_ok. Qed.

Lemma writes_reach_plugin_witness :
  exists w v' taken,
    app_writes [bs "GET"; bs " /"] (demo_vfd pp_trivial PD_null) 5 = (w, Ok v') /\
    bs "GET /" = taken ++ wpending v'.
Proof.
  destruct (app_writes [bs "GET"; bs " /"] (demo_vfd pp_trivial PD_null) 5) as [w o] eqn:E.
  assert (wbuflen (demo_vfd pp_trivial PD_null) + zlen (concat [bs "GET"; bs " /"]) <= VBUFSIZE)
    as Hfit by (vm_compute; congruence).
  destruct (writes_reach_plugin pp_trivial (fun _ => True) (fun _ _ => False) [bs "GET"; bs " /"]
    (demo_vfd pp_trivial PD_null) 5 w o trivial_law
    (proj2 (demo_vfd_wf pp_trivial (fun _ => True) (fun _ _ => False) PD_null I))
    eq_refl ltac:(discriminate) ltac:(repeat constructor) Hfit E)
    as [(v' & taken & -> & _ & _ & Hp & _) | (c & -> & Hc)].
  - exists w, v', taken. split; [reflexivity | exact Hp].
  - destruct Hc as (? & ? & ? & ? & ? & ? & ? & _ & _ & _ & _ & Hc). discriminate Hc.
Defined.

(** A write larger than the room left in [wbuf] overruns it: vwrite_req copies
    [len] bytes to [wbuf + wbuflen] without comparing them with the buffer's size. *)
Theorem vwrite_req_overruns d Inv v s buf len :
  wwf d Inv v -> 0 < len <= zlen buf -> VBUFSIZE < wbuflen v + len ->
  vwrite_req v s buf len = stop Undef.
Proof. intros. by eapply vwrite_req_overflow. Qed.

Lemma vwrite_req_overruns_witness :
  vwrite_req (demo_vfd pp_trivial PD_null) 5 (NUL :: replicate (Z.to_nat VBUFSIZE) NUL) 65537 =
    stop Undef.
Proof.
  apply (vwrite_req_overruns pp_trivial (fun _ => True)).
  - apply (demo_vfd_wf pp_trivial (fun _ => True) (fun _ _ => False)). done.
  - vm_compute. split; congruence.
  - reflexivity.
Defined.
