(* ===== verification/Feed.v ===== *)
(** src/src/trace/vfd.c, the other half of the reading side's contract: what of the
    stream that virtual_read and its siblings take from the kernel the plugin is
    shown, and what it logs on the way.  Vbuf.v shows what the application gets. *)
From S2P Require Import Prelude CInt CString Config Plugin Vbuf.

(** The events that the wrappers of read and write and the buffer code log themselves. *)
Definition lib_event (sc : syscall) : bool :=
  match sc with
  | SYS_BUF_MOVED | SYS_BUF_PPOFS | SYS_BUF_PRE | SYS_BUF_REFILLED | SYS_BUF_RETURNED
  | SYS_BUF_SHORT1 | SYS_BUF_SHORT2 | SYS_PP_ISO_READ | SYS_FATAL
  | SYS_READ_BEGIN | SYS_READ | SYS_WRITE_BEGIN | SYS_WRITE => true
  | _ => false
  end.

(** A log without them. *)
Definition plugin_op (o : log_op) : bool :=
  match o with LLog e => negb (lib_event (ev_sc e)) | LFlush => false end.
Definition plugin_log (w : list log_op) : list log_op := List.filter plugin_op w.

Lemma plugin_log_app w1 w2 : plugin_log (w1 ++ w2) = plugin_log w1 ++ plugin_log w2.
Proof. apply filter_app. Qed.

Section feed.
Context (fl : flags).

(** ** The parts that do not call the plugin *)

Lemma show_buffer_quiet sc v w u :
  lib_event sc = true -> show_buffer fl sc v = (w, Ok u) -> plugin_log w = [].
Proof.
  intros Hsc H. unfold show_buffer in H. destruct (debug_events fl =? 0); inv_run; [done |].
  unfold LOGBINiiis, log_flush in *. inv_run. cbn. by rewrite Hsc.
Qed.

Lemma when_quiet b sc rv x y z w u :
  lib_event sc = true -> when b (LOGBINiii sc rv x y z) = (w, Ok u) -> plugin_log w = [].
Proof.
  intros Hsc H. unfold when, LOGBINiii in H. destruct (b =? 0); inv_run; [done |].
  cbn. by rewrite Hsc.
Qed.

Lemma cache_quiet (b : bool) s rd w rd' :
  (if b then clear_readable_cache fl s rd else set_readable_cache fl s rd) = (w, Ok rd') ->
  plugin_log w = [].
Proof.
  unfold clear_readable_cache, set_readable_cache, LOGBINfatal, LOGBINs. intros H.
  destruct b; case_match; inv_run; done.
Qed.

Ltac quiet :=
  repeat match goal with
  | H : load _ _ _ = (_, Ok _) |- _ => apply load_inv in H as (? & ? & ? & ? & ?); subst
  | H : store _ _ _ = (_, Ok _) |- _ => apply store_inv in H as (? & ? & ? & ? & ?); subst
  | H : show_buffer _ _ _ = (_, Ok _) |- _ => apply show_buffer_quiet in H; [| done]
  | H : when _ (LOGBINiii _ _ _ _ _) = (_, Ok _) |- _ => apply when_quiet in H; [| done]
  | H : (if _ then clear_readable_cache _ _ _ else _) = (_, Ok _) |- _ => apply cache_quiet in H
  end;
  rewrite ?plugin_log_app;
  repeat match goal with H : plugin_log _ = [] |- _ => rewrite H; clear H end;
  rewrite ?app_nil_r.

Lemma buf_ret_quiet v s rd len w r out v' rd' :
  buf_ret fl v s rd len = (w, Ok (r, out, v', rd')) ->
  plugin_log w = [] /\ ppdata v' = ppdata v /\ unseen v' = unseen v /\ rbuflen v' = rbuflen v.
Proof. unfold buf_ret. intros H. inv_run. simplify_eq. split; [by quiet | done]. Qed.

Section plugin.
Context (d : pp_dispatcher) (Inv : pp_data -> Prop) (Refused : pp_data -> Z -> Prop).
Context `{Hlaw : !PpLaw (pp_read d) Inv Refused}.

(** From [v] to [v'] the kernel gave [l] and the library logged [w]: the plugin was
    called with the next bytes of the stream, and the rest it has not taken. *)
Definition fed (s : Z) (v : vfd) (l : list byte) (v' : vfd) (w : list log_op) : Prop :=
  exists taken wp,
    pp_calls (pp_read d) s (ppdata v) taken wp (ppdata v') /\
    plugin_log w = plugin_log wp /\ unseen v ++ l = taken ++ unseen v' /\
    rbuflen v' <= rbuflen v + zlen l.

Lemma fed_trans s v l1 v1 w1 l2 v2 w2 :
  fed s v l1 v1 w1 -> fed s v1 l2 v2 w2 -> fed s v (l1 ++ l2) v2 (w1 ++ w2).
Proof.
  intros (t1 & p1 & Hc1 & Hw1 & Hu1 & Hl1) (t2 & p2 & Hc2 & Hw2 & Hu2 & Hl2).
  exists (t1 ++ t2), (p1 ++ p2). split_and!.
  - by eapply pp_calls_trans.
  - by rewrite !plugin_log_app, Hw1, Hw2.
  - by rewrite app_assoc, Hu1, <- !app_assoc, Hu2.
  - rewrite zlen_app. lia.
Qed.

(** Code that neither calls the plugin nor moves what it has not seen. *)
Lemma fed_quiet s v l v' w :
  plugin_log w = [] -> ppdata v' = ppdata v -> unseen v' = unseen v ++ l ->
  rbuflen v' <= rbuflen v + zlen l -> fed s v l v' w.
Proof. intros Hw Hd Hu Hl. exists [], []. rewrite Hd, Hu. split_and!; [constructor | done..]. Qed.

Lemma present_fed v s w v' :
  presentable d Inv Refused v -> present_pp fl v s = (w, Ok v') -> fed s v [] v' w.
Proof.
  intros (Hd & Hb & Hi & Ho & Hl & _) H. unfold VBUFSIZE in *. unfold present_pp in H. cbv zeta in H.
  destruct (Z.eqb_spec (rbuflen v - rbufofs v) 0); [lia |].
  rewrite Hd in H. cbn [of_opt] in H. rewrite bind_ret_l in H.
  set (amt := rbuflen v - rbufofs v) in *. set (mem := zdrop (rbufofs v) (rbuf v)) in *.
  assert (0 < amt <= zlen mem) as Hamt by (unfold mem; zl).
  inv_run. destruct a as [a data].
  destruct (pp_takes _ _ _ _ _ _ _ Hi Hamt ltac:(lia) Hm) as [_ Ha].
  apply bind_inv in H as (v1 & w2 & w3 & Hv1 & Hs & ->). inv_run.
  match goal with H : show_buffer _ _ _ = _ |- _ => apply show_buffer_quiet in H; [| done] end.
  unfold fed, unseen. rewrite app_nil_r. destruct (Z.ltb_spec a 0).
  - inv_run. exists [], (w0 ++ []). assert (a = -1) as -> by lia. quiet. split_and!; [| done | done |].
    2:{ cbn [rbuflen set_rbuf set_ppdata]. rewrite zlen_nil. lia. }
    rewrite <- (app_nil_r w0). eapply calls_refuse; [exact Hamt | lia | exact Hm | constructor].
  - inv_run. cbn [rbuf rbufofs rlastlen rbuflen ppdata set_rbuf set_ppdata].
    rewrite (s32_small (rbufofs v + a)) by lia. exists (ztake a mem ++ []), (w0 ++ []).
    split_and!.
    + eapply calls_take; [exact Hamt | lia | exact Hm | lia | constructor].
    + rewrite !plugin_log_app. repeat match goal with H : plugin_log _ = [] |- _ => rewrite H end.
      f_equal. destruct (a <? amt); unfold LOGBINii in *; inv_run; reflexivity.
    + rewrite app_nil_r. fold amt. fold mem.
      replace amt with (a + (rbuflen v - (rbufofs v + a))) by (unfold amt; lia).
      rewrite ztake_add by lia. unfold mem. by rewrite zdrop_zdrop, app_nil_r by lia.
    + rewrite zlen_nil. lia.
Qed.

Lemma buf_shift_quiet v w v' :
  buf_shift fl v = (w, Ok v') -> plugin_log w = [] /\ rbuflen v' <= Z.max (rbuflen v) (rbuflen v - Z.min (rbufofs v) (rlastlen v)).
Proof.
  intros H. unfold buf_shift in H. cbv zeta in H. case_match; inv_run; simplify_eq; [by split; [| lia] |].
  split; [by quiet | cbn; lia].
Qed.

(** The tail of virtual_io from buf_ret on. *)
Lemma ret_fed v0 v l s rd len (ans : answers) w0 w r out v' rd' ans' :
  fed s v0 l v w0 ->
  (let! (r, out, v, rd) := buf_ret fl v s rd len in ret (r, out, v, rd, ans)) =
    (w, Ok (r, out, v', rd', ans')) ->
  ans' = ans /\ fed s v0 l v' (w0 ++ w).
Proof.
  intros Hf H. inv_runs. simplify_eq. split; [done |].
  match goal with H : buf_ret _ _ _ _ _ = _ |- _ => apply buf_ret_quiet in H as (Hw & Hp & Hu & Hl) end.
  rewrite app_nil_r, <- (app_nil_r l). eapply fed_trans; [exact Hf |].
  apply fed_quiet; [exact Hw | exact Hp | by rewrite app_nil_r | rewrite zlen_nil; lia].
Qed.

Lemma gave_same v (ans : answers) : gave v ans ans = [].
Proof. destruct ans; [done |]. unfold gave. by rewrite decide_True. Qed.

(** After a successful real_read. *)
Lemma refilled_fed strict v s len rd l ans w r out v' rd' ans' :
  vwf d Inv Refused v -> tosend v = 0 -> pending v = [] -> 0 < zlen l <= VBUFSIZE - rbuflen v ->
  refilled fl strict v s len rd l ans = (w, Ok (r, out, v', rd', ans')) ->
  ans' = ans /\ fed s v l v' w.
Proof.
  intros Hv Ht Hp Hfit H. unfold refilled in H.
  destruct (refill_presentable d Inv Refused v l Hv Ht Hp Hfit) as [Hpr _].
  apply bind_inv in H as (m & w7 & w8 & Hst & H & ->).
  apply store_inv in Hst as (_ & _ & _ & -> & ->).
  set (v3 := set_rbuf v _ _ _ _ _ _) in *.
  assert (unseen v3 = unseen v ++ l) as Hu3.
  { destruct Hv as (_ & Hb2 & _ & Hr2 & _ & Ho2 & _). apply unseen_refill; [done | done | apply Hfit]. }
  apply bind_inv in H as (u3 & w9 & w10 & Hs3 & H & ->). apply show_buffer_quiet in Hs3; [| done].
  apply bind_inv in H as (v4 & w11 & w12 & Hpp & H & ->). apply present_fed in Hpp; [| done].
  apply bind_inv in H as (u4 & w13 & w14 & Has & H & ->).
  assert (w13 = []) as -> by (destruct strict; inv_run; done).
  apply (ret_fed v v4 l _ _ _ _ (w9 ++ w11)) in H as [-> H].
  - split; [done |]. by rewrite <- !app_assoc in H.
  - rewrite <- (app_nil_r l). eapply (fed_trans s v l v3); [| exact Hpp].
    apply fed_quiet; [by quiet | done | done | unfold v3; cbn [rbuflen set_rbuf]; lia].
Qed.

(** The real read. *)
Lemma read_more_fed strict v s len rd ans w r out v' rd' ans' :
  vwf d Inv Refused v -> tosend v = 0 -> rbufofs v = rbuflen v \/ ppwantmore v = 1 ->
  read_more fl strict v s len rd ans = (w, Ok (r, out, v', rd', ans')) ->
  fed s v (gave v ans ans') v' w.
Proof.
  intros Hv Ht Hend H. pose proof Hv as (Hd & Hb & Hi & Hr & Hlen & Ho & Ht0 & Hc).
  unfold read_more in H. apply bind_inv in H as (v2 & w5 & w6 & Hsh & H & ->).
  pose proof (post_ok _ _ _ _ Hsh (buf_shift_post fl d Inv Refused v Hv Ht))
    as (v2' & [= <-] & Hv2 & Ht2 & Hm2 & Hd2 & Hp2 & Hu2 & Hroom & Hw2).
  apply buf_shift_quiet in Hsh as (Hsq & Hl2).
  assert (fed s v [] v2 w5) as Hq.
  { apply fed_quiet; [done.. | by rewrite app_nil_r | rewrite zlen_nil; lia]. }
  assert (pending v = []) as Hp0.
  { apply zlen_0_inv. rewrite (zlen_pending d Inv Refused) by done. lia. }
  destruct ans as [| a ans]; [done |]. rewrite Hroom in H. unfold gave.
  destruct (kread a (room v)) as [[| b l] |] eqn:Hk.
  1,3: apply ret_inv in H as [[= <- <- <- <- <-] ->]; rewrite decide_False by (simpl; lia);
    by rewrite app_nil_r.
  apply refilled_fed in H as [-> H]; [| done | done | by rewrite Hp2 |].
  - rewrite decide_False by (simpl; lia). by apply (fed_trans s v []  v2 w5).
  - rewrite Hroom. split; [zl |]. apply (kread_fits a); [done |].
    destruct Hv2 as (_ & _ & _ & _ & ? & _). unfold VBUFSIZE in *. lia.
Qed.

Lemma virtual_io_fed strict v s len rd ans w r out v' rd' ans' :
  vwf d Inv Refused v ->
  virtual_io fl strict v s len rd ans = (w, Ok (r, out, v', rd', ans')) ->
  fed s v (gave v ans ans') v' w.
Proof.
  intros Hv H. pose proof Hv as (Hd & Hb & Hi & Hr & Hlen & Ho & Ht0 & Hc).
  unfold virtual_io in H.
  apply bind_inv in H as (u & w1 & w2 & Hs & H & ->). apply show_buffer_quiet in Hs; [| done].
  assert (forall w, plugin_log w = [] -> fed s v [] v w) as Hq.
  { intros w' Hw. apply fed_quiet; [done.. | by rewrite app_nil_r | rewrite zlen_nil; lia]. }
  destruct (Z.eqb_spec (tosend v) 0) as [Ht | Ht]; cbn [negb] in H.
  2:{ apply bind_inv in H as (u2 & w3 & w4 & Hw & H & ->).
      apply (ret_fed v v []  _ _ _ _ (w1 ++ w3)) in H as [-> H]; [| apply Hq; by quiet].
      by rewrite gave_same, app_assoc. }
  apply bind_inv in H as (v1 & w3 & w4 & Hpp & H & ->).
  destruct ((rbufofs v <? rbuflen v) && (ppwantmore v =? 0)) eqn:Hcond.
  - assert (presentable d Inv Refused v) as Hpr.
    { zbool. unfold presentable. split_and!; try done; lia. }
    pose proof (post_ok _ _ _ _ Hpp (present_post fl d Inv Refused v s Hpr))
      as [(v1' & [= <-] & _ & Ht1 & _) | (c & [=] & _)].
    apply present_fed in Hpp; [| done].
    destruct (Z.eqb_spec (tosend v1) 0); [lia |]. cbn [negb] in H.
    apply bind_inv in H as (u2 & w5 & w6 & Hw & H & ->). apply when_quiet in Hw; [| done].
    apply (ret_fed v v1 [] _ _ _ _ (w1 ++ w3 ++ w5)) in H as [-> H].
    + by rewrite gave_same, !app_assoc in *.
    + apply (fed_trans s v [] v w1 []); [by apply Hq |]. apply (fed_trans s v [] v1 w3 []); [done |].
      apply fed_quiet; [done.. | by rewrite app_nil_r | rewrite zlen_nil; lia].
  - apply ret_inv in Hpp as [<- ->]. rewrite Ht in H. change (negb (0 =? 0)) with false in H.
    cbn iota in H. apply read_more_fed in H; [| done | done | zbool; lia].
    apply (fed_trans s v [] v w1 (gave v ans ans')); [by apply Hq | exact H].
Qed.
Lemma app_reads_fed strict lens v s rd ans w out got v' rd' ans' :
  vwf d Inv Refused v -> Forall (fun len => 0 < len < 2 ^ 31) lens ->
  app_reads fl strict lens v s rd ans = (w, Ok (out, got, v', rd', ans')) -> fed s v got v' w.
Proof.
  intros Hv Hlens. revert v rd ans w out got Hv.
  induction Hlens as [| len lens Hlen Hlens IH]; intros v rd ans w out got Hv H; cbn [app_reads] in H.
  - inv_run. simplify_eq. apply fed_quiet; [done.. | by rewrite app_nil_r | rewrite zlen_nil; lia].
  - inv_runs. simplify_eq.
    pose proof (post_ok _ _ _ _ Hm (virtual_io_post fl d Inv Refused strict v s len rd ans Hv Hlen)) as Hio.
    destruct Hio as [(r & o1 & v1 & rd1 & ans1 & [= <- <- <- <- <-] & Hv1 & _) |
      [[? _] | (c & ? & ? & _)]]; [| done | done].
    apply virtual_io_fed in Hm; [| done]. apply IH in Hm0; [| done].
    rewrite app_nil_r. by eapply fed_trans.
Qed.

(** ** An application that reads until it has everything *)

(** One more read, when there is something to read: it makes progress. *)
Lemma read_step strict v s n rd chunks :
  vwf d Inv Refused v -> 0 < n < 2 ^ 31 -> Forall (fun c => 0 < zlen c) chunks ->
  rbuflen v + zlen (concat chunks) <= VBUFSIZE ->
  (forall c, ~ crashed_in (pp_read d) s (ppdata v) (unseen v ++ concat chunks) c) ->
  pending v <> [] \/ chunks <> [] ->
  exists w r out v1 rd1 chunks1, virtual_io fl strict v s n rd (Some <$> chunks) =
      (w, Ok (r, out, v1, rd1, Some <$> chunks1)) /\ vwf d Inv Refused v1 /\ 0 < zlen out /\
    Forall (fun c => 0 < zlen c) chunks1 /\
    gave v (Some <$> chunks) (Some <$> chunks1) ++ concat chunks1 = concat chunks /\
    pending v ++ concat chunks = out ++ pending v1 ++ concat chunks1.
Proof.
  intros Hv Hn Hch Hfit Hsafe Hmore.
  destruct (virtual_io fl strict v s n rd (Some <$> chunks)) as [w o] eqn:E.
  pose proof (post_ok _ _ _ _ E (virtual_io_post fl d Inv Refused strict v s n rd _ Hv Hn)) as Hio.
  assert (forall l rest c, plugin_crash d v s l c -> l ++ rest = concat chunks -> False) as Hno.
  { intros l rest c (mem & len & w' & Hm & H31 & Ht & Hp) Hl. apply (Hsafe c).
    exists [], (ppdata v), [], mem, len, w', rest. split_and!; try lia; [constructor | | done].
    cbn [app]. by rewrite Ht, <- app_assoc, Hl. }
  assert (VBUFSIZE - rbuflen v <= room v) as Hroom.
  { destruct Hv as (_&_&_&?&?&?&_). unfold room. lia. }
  destruct Hio as [(r & out & v1 & rd1 & ans1 & -> & Hv1 & Hc) | [(-> & Hnil & Hp) | (c & l & -> & Hcr & Hl)]].
  - destruct Hc as [(-> & Hdel & Hr & Hz) | (a & Ha & Hp & Hc)].
    + exists w, r, out, v1, rd1, chunks. split_and!; try done; [lia | by rewrite gave_same |].
      unfold delivers in Hdel. rewrite app_nil_r in Hdel. by rewrite Hdel, <- app_assoc.
    + destruct chunks as [| x chunks]; [done |]. injection Ha as <- <-.
      apply List.Forall_cons_iff in Hch as [Hx Hch]. cbn [concat] in *. rewrite zlen_app in Hfit.
      pose proof (zlen_nonneg (concat chunks)).
      assert (kread (Some x) (room v) = Some x) as Hk.
      { unfold kread. cbn. f_equal. apply ztake_all. lia. }
      rewrite Hk in Hc. destruct x as [| b x]; [by vm_compute in Hx |].
      destruct Hc as (Hdel & Hr & Hz). unfold delivers in Hdel. rewrite Hp, app_nil_l in Hdel.
      exists w, r, out, v1, rd1, chunks. split_and!; try done; [lia | |].
      * cbn [fmap list_fmap]. unfold gave. rewrite decide_False by (simpl; lia). by rewrite Hk.
      * by rewrite Hp, app_nil_l, Hdel, <- app_assoc.
  - exfalso. apply fmap_nil_inv in Hnil. naive_solver.
  - exfalso. destruct Hl as [-> | (a & ans' & Ha & Hk)]; [by eapply (Hno [] _ c) |].
    destruct chunks as [| x chunks]; [done |]. injection Ha as <- <-. cbn [concat] in *.
    rewrite zlen_app in Hfit. pose proof (zlen_nonneg (concat chunks)).
    unfold kread in Hk. cbn in Hk. rewrite ztake_all in Hk by lia. injection Hk as <-.
    by eapply (Hno x _ c).
Qed.

Lemma drain strict s n : 0 < n < 2 ^ 31 -> forall chunks v rd,
  vwf d Inv Refused v -> Forall (fun c => 0 < zlen c) chunks ->
  rbuflen v + zlen (concat chunks) <= VBUFSIZE ->
  (forall c, ~ crashed_in (pp_read d) s (ppdata v) (unseen v ++ concat chunks) c) ->
  exists k w v' rd', app_reads fl strict (replicate k n) v s rd (Some <$> chunks) =
      (w, Ok (pending v ++ concat chunks, concat chunks, v', rd', [])) /\
    vwf d Inv Refused v' /\ pending v' = [] /\ fed s v (concat chunks) v' w.
Proof.
  intros Hn chunks v rd. remember (Z.to_nat (zlen (pending v ++ concat chunks))) as m eqn:Em.
  revert chunks v rd Em. induction (lt_wf m) as [m _ IH]; intros chunks v rd -> Hv Hch Hfit Hsafe.
  destruct (decide (pending v = [] /\ chunks = [])) as [[Hp ->] | Hmore].
  { exists 0%nat, [], v, rd. rewrite Hp. split_and!; try done.
    apply fed_quiet; [done.. | by rewrite app_nil_r | cbn [concat]; rewrite zlen_nil; lia]. }
  destruct (read_step strict v s n rd chunks Hv Hn Hch Hfit Hsafe) as
    (w & r & out & v1 & rd1 & chunks1 & E & Hv1 & Hout & Hch1 & Hg & Hp).
  { destruct (decide (pending v = [])); naive_solver. }
  pose proof (virtual_io_fed _ _ _ _ _ _ _ _ _ _ _ _ Hv E) as Hf.
  destruct Hf as (taken & wp & Hcalls & Hlog & Hun & Hlen).
  destruct (IH (Z.to_nat (zlen (pending v1 ++ concat chunks1)))) with (chunks := chunks1) (v := v1) (rd := rd1)
    as (k & w2 & v2 & rd2 & E2 & Hv2 & Hp2 & Hf2); try done.
  - rewrite Hp, (zlen_app out). pose proof (zlen_nonneg (pending v1 ++ concat chunks1)). lia.
  - rewrite <- Hg, zlen_app in Hfit. lia.
  - intros c Hc. apply (Hsafe c). rewrite <- Hg, app_assoc, Hun, <- app_assoc.
    by eapply crashed_in_after.
  - exists (S k), (w ++ w2), v2, rd2. split_and!; try done.
    + cbn [replicate app_reads]. rewrite E. cbn [bind]. rewrite E2. cbn [bind].
      unfold ret. by rewrite app_nil_r, Hg, Hp.
    + rewrite <- Hg. eapply fed_trans; [| exact Hf2]. by exists taken, wp.
Qed.
End plugin.
End feed.

(** ** Properties *)

(** C13: Reading reaches the plugin in order, when its read function obeys its law: it
    takes nothing or between one and the bytes it was shown, and once it has refused
    some bytes it takes more than those (https and perlp's client side do not).
    Whatever lengths, from 1 to below 2 GiB, an application reads with and however the
    kernel splits the stream, once the reads have returned the plugin has been called
    with exactly the bytes the kernel gave, in order and each taken once, but for
    those it has refused so far or will be shown next; and apart from the events of
    the buffer code, the log is what the plugin wrote. *)
Theorem reads_reach_plugin fl d Inv Refused strict lens v s rd ans w out got v' rd' ans' :
  PpLaw (pp_read d) Inv Refused -> vwf d Inv Refused v ->
  Forall (fun len => 0 < len < 2 ^ 31) lens ->
  app_reads fl strict lens v s rd ans = (w, Ok (out, got, v', rd', ans')) ->
  exists taken wp,
    pp_calls (pp_read d) s (ppdata v) taken wp (ppdata v') /\
    plugin_log w = plugin_log wp /\ unseen v ++ got = taken ++ unseen v'.
Proof.
  intros Hlaw Hv Hl H. apply (app_reads_fed fl d Inv Refused) in H as (t & p & ? & ? & ? & _); [| done..].
  by exists t, p.
Qed.

Lemma reads_reach_plugin_witness :
  exists w v' rd' ans' taken wp,
    app_reads demo_flags true [4; 10; 3] (demo_vfd pp_trivial PD_null) 5 ∅
      [Some (bs "hello"); Some (bs " world")] =
      (w, Ok (bs "hello wo", bs "hello world", v', rd', ans')) /\
    pp_calls (pp_read pp_trivial) 5 PD_null taken wp (ppdata v') /\
    plugin_log w = plugin_log wp /\ bs "hello world" = taken ++ unseen v'.
Proof.
  assert (received (app_reads demo_flags true [4; 10; 3] (demo_vfd pp_trivial PD_null) 5 ∅
    [Some (bs "hello"); Some (bs " world")]) = Some (bs "hello wo", bs "hello world")) as H
    by (vm_compute; reflexivity).
  destruct (app_reads _ _ _ _ _ _ _) as [w [[[[[out got] v'] rd'] ans'] | c]] eqn:E; [| discriminate H].
  injection H as -> ->.
  destruct (reads_reach_plugin demo_flags pp_trivial (fun _ => True) (fun _ _ => False) true
    [4; 10; 3] (demo_vfd pp_trivial PD_null) 5 ∅ [Some (bs "hello"); Some (bs " world")]
    w _ _ v' rd' ans' trivial_law
    (proj1 (demo_vfd_wf pp_trivial (fun _ => True) (fun _ _ => False) PD_null I))
    ltac:(repeat constructor) E) as (taken & wp & Hc & Hw & Hu).
  change (unseen (demo_vfd pp_trivial PD_null)) with (@nil Byte.byte) in Hu.
  exists w, v', rd', ans', taken, wp. split; [reflexivity |]. split; [exact Hc |].
  split; [exact Hw | exact Hu].
Defined.
