(* ===== verification/Conv.v ===== *)
(** Plugins that follow a conversation to its end.

    [PpLaw] (Plugin.v) is what vfd.c's buffers need of any plugin.  [PpConv] is what a
    plugin promises of a stream it understands: [Expects data stream evs] says that in
    the state [data], with [stream] still to come, it will log [evs].  From the one
    interface follow the log of an application that writes the stream, and that of one
    that reads it, for every plugin that has an instance (Session.v). *)
From S2P Require Import Prelude CInt CString Config Plugin Vbuf Feed.

Class PpConv (f : pp_io) (Inv : pp_data -> Prop) (Refused : pp_data -> Z -> Prop) (s : Z)
    (Expects : pp_data -> list byte -> list log_op -> Prop) := {
  conv_law :: PpLaw f Inv Refused;
  conv_inv data stream evs : Expects data stream evs -> Inv data;
  (* it runs on any part of the stream, and takes some of all that is left *)
  conv_runs data stream evs mem len rest :
    Expects data stream evs -> 0 < len <= zlen mem -> len < 2 ^ 31 -> ztake len mem ++ rest = stream ->
    exists w a data', f data s mem len = (w, Ok (a, data')) /\ (rest = [] -> a <> -1);
  (* what it has taken is done with *)
  conv_takes data evs mem len w a data' rest :
    Expects data (ztake a mem ++ rest) evs -> 0 < len <= zlen mem -> len < 2 ^ 31 ->
    f data s mem len = (w, Ok (a, data')) -> 0 < a <= len ->
    exists evs', evs = w ++ evs' /\ Expects data' rest evs';
  (* refusing changes nothing *)
  conv_idle data mem len w data' :
    Inv data -> 0 < len <= zlen mem -> len < 2 ^ 31 -> f data s mem len = (w, Ok (-1, data')) ->
    w = [] /\ data' = data;
  conv_refused data stream evs :
    Expects data stream evs -> zlen stream < 2 ^ 31 -> Refused data (zlen stream) -> stream = [];
  conv_end data evs : Expects data [] evs -> evs = [];
  conv_plugin data stream evs : Expects data stream evs -> plugin_log evs = evs
}.

Section conv.
Context {f : pp_io} {Inv : pp_data -> Prop} {Refused : pp_data -> Z -> Prop} {s : Z}.
Context {Expects : pp_data -> list byte -> list log_op -> Prop} {Hconv : PpConv f Inv Refused s Expects}.

(** The calls so far, when the stream goes on with [rest]. *)
Lemma conv_calls rest d bytes w d' :
  pp_calls f s d bytes w d' -> forall evs, Expects d (bytes ++ rest) evs ->
  exists evs', evs = w ++ evs' /\ Expects d' rest evs'.
Proof.
  induction 1 as [d | d mem len w a d1 bytes w2 d2 Hl H31 Hf Ha Hc IH |
    d mem len w d1 bytes w2 d2 Hl H31 Hf Hc IH]; intros evs He.
  - by exists evs.
  - rewrite <- app_assoc in He. destruct (conv_takes _ _ _ _ _ _ _ _ He Hl H31 Hf Ha) as (e1 & -> & He1).
    destruct (IH e1 He1) as (e2 & -> & He2). exists e2. by rewrite app_assoc.
  - destruct (conv_idle _ _ _ _ _ (conv_inv _ _ _ He) Hl H31 Hf) as [-> ->].
    destruct (IH evs He) as (e2 & -> & He2). by exists e2.
Qed.

(** The plugin does not fail in the middle of its protocol. *)
Lemma conv_no_crash d stream evs c : Expects d stream evs -> ~ crashed_in f s d stream c.
Proof.
  intros He (tk & data & w1 & mem & len & w2 & rest & Hc & Hl & H31 & <- & Hp).
  destruct (conv_calls (ztake len mem ++ rest) _ _ _ _ Hc evs He) as (evs' & -> & He').
  destruct (conv_runs _ _ _ _ _ _ He' Hl H31 eq_refl) as (w & a & p' & Hs & _). congruence.
Qed.
End conv.

(** When the stream is complete nothing is left for another call of write. *)
Lemma conv_all_taken d Inv Refused s Expects `{!PpConv (pp_write d) Inv Refused s Expects} v evs :
  Expects (ppdata v) (wpending v) evs -> refused_rest d Inv s v -> wpending v = [].
Proof.
  intros He [? | (data & mem & len & w & Hi & Hl & H31 & Hc & Hm)]; [done |].
  destruct (conv_idle _ _ _ _ _ Hi Hl H31 Hc) as [_ E]. rewrite E in He.
  destruct (conv_runs _ _ _ mem len [] He Hl H31) as (w' & a & p' & Hs & Hne); [by rewrite app_nil_r |].
  rewrite Hs in Hc. injection Hc as _ -> _. by destruct Hne.
Qed.

(** Nor for another call of read. *)
Lemma unseen_at_end d Inv Refused v :
  vwf d Inv Refused v -> pending v = [] ->
  unseen v = [] \/ Refused (ppdata v) (zlen (unseen v)).
Proof.
  intros Hv Hp. pose proof (zlen_pending d Inv Refused v Hv) as Hz. rewrite Hp, zlen_nil in Hz.
  destruct Hv as (_ & Hb & _ & Hr & Hl & Ho & Ht & [(_ & Hc) | (_ & Hc & _ & _ & Href)]);
    unfold unseen.
  - left. assert (rbuflen v - rbufofs v = 0) as -> by lia. apply ztake_0.
  - right. replace (zlen _) with (rbuflen v - rbufofs v); [done | zl].
Qed.

(** ** An application that writes a conversation *)

(** However it cuts the stream into writes, every write returns, nothing is left, and
    the log is what the plugin owes. *)
Theorem conv_writes d Inv Refused s Expects `{!PpConv (pp_write d) Inv Refused s Expects} chunks v evs :
  wwf d Inv v -> wbuflen v = 0 -> wbufofs v = 0 -> Forall (fun c => 0 < zlen c) chunks ->
  Expects (ppdata v) (concat chunks) evs -> zlen (concat chunks) <= VBUFSIZE ->
  exists v', app_writes chunks v s = (evs, Ok v') /\ wpending v' = [] /\ wwf d Inv v'.
Proof.
  intros Hv Hl0 H0 Hne He Hfit.
  assert (wpending v = []) as Hp0 by (unfold wpending; rewrite Hl0, H0; apply ztake_0).
  destruct (app_writes chunks v s) as [w o] eqn:E.
  apply (app_writes_ok d _ Refused) in E; [| done.. | lia | done]. rewrite Hp0, app_nil_l in E.
  destruct E as [(v' & taken & -> & Hv' & Hc & Hp & Href) | (c & -> & Hc)].
  2:{ exfalso. by eapply conv_no_crash. }
  rewrite Hp in He. destruct (conv_calls _ _ _ _ _ Hc _ He) as (evs' & Ew & He').
  assert (wpending v' = []) as E by (by eapply conv_all_taken).
  rewrite E in He'. apply conv_end in He' as ->. rewrite app_nil_r in Ew. subst w. by exists v'.
Qed.

(** ** An application that reads one *)

Theorem conv_reads fl d Inv Refused s Expects `{!PpConv (pp_read d) Inv Refused s Expects} strict n chunks v rd evs :
  vwf d Inv Refused v -> rbuflen v = 0 -> 0 < n < 2 ^ 31 -> Forall (fun c => 0 < zlen c) chunks ->
  Expects (ppdata v) (concat chunks) evs -> zlen (concat chunks) <= VBUFSIZE ->
  exists k w v' rd',
    app_reads fl strict (replicate k n) v s rd (Some <$> chunks) =
      (w, Ok (concat chunks, concat chunks, v', rd', [])) /\ plugin_log w = evs.
Proof.
  intros Hv Hl0 Hn Hne He Hfit.
  assert (unseen v = [] /\ pending v = []) as [Hu Hp].
  { destruct Hv as (_ & Hb & _ & ? & ? & ? & _). unfold unseen, pending.
    split; apply zlen_0_inv; zl. }
  destruct (drain fl d _ _ strict s n Hn chunks v rd Hv Hne) as
    (k & w & v' & rd' & E & Hv' & Hp' & taken & wp & Hcalls & Hlog & Hun & _); [lia | |].
  { intros c. rewrite Hu, app_nil_l. by eapply conv_no_crash. }
  exists k, w, v', rd'. rewrite Hp, app_nil_l in E. split; [exact E |]. rewrite Hlog.
  pose proof (conv_plugin _ _ _ He) as Hpl. rewrite Hu, app_nil_l in Hun. rewrite Hun in He, Hfit.
  destruct (conv_calls _ _ _ _ _ Hcalls _ He) as (evs' & Ew & He').
  rewrite zlen_app in Hfit. pose proof (zlen_nonneg taken). unfold VBUFSIZE in Hfit.
  assert (unseen v' = []) as E'.
  { destruct (unseen_at_end d _ _ v' Hv' Hp') as [| Href]; [done |].
    eapply conv_refused; [exact He' | lia | exact Href]. }
  rewrite E' in He'. apply conv_end in He' as ->. rewrite app_nil_r in Ew. by rewrite <- Ew.
Qed.
