(* ===== verification/Session.v ===== *)
(** The plugins whose conversations are followed to the end: the instances of [PpConv]
    (Conv.v) for PostgreSQL, MySQL and the trivial protocol, and what an application's
    writes and reads log through them. *)
From S2P Require Import Prelude CInt CString Config Plugin Psql Mysql Vbuf Feed Conv.

(** ** PostgreSQL *)

(** Nor does it refuse all that is left of a complete stream. *)
Lemma psql_refused_end role dir s fin st stream evs :
  psql_expects role dir s fin (side dir st) stream evs -> zlen stream < 2 ^ 31 ->
  psql_refused dir (PD_psql st) (zlen stream) -> stream = [].
Proof.
  intros He H31 (st' & [= <-] & Hr1 & Hr2 & Hr3).
  destruct (decide (stream = [])) as [| Hne]; [done | exfalso].
  assert (0 < zlen stream) as Hpos by (destruct stream; [done | zl]).
  destruct (psql_runs _ _ _ _ _ _ _ stream (zlen stream) [] He ltac:(lia)
    ltac:(by rewrite app_nil_r, ztake_all)) as (w & a & p' & Hs & Hno).
  specialize (Hno eq_refl). pose proof (psql_expects_inv _ _ _ _ _ _ _ He) as Hinv.
  apply speak_psql_cases in Hs as [_ Hc]; [| done | lia]. unfold psql_inv, is_u in Hinv.
  destruct Hc as [?|[(?&?&Hq)|[(?&?&[?|[??]])|[(?&?&?&[?|[??]])|?]]]]; try lia.
  destruct Hr1 as [Hty ?]; [done |]. specialize (Hq Hty). lia.
Qed.

Lemma psql_events_plugin role dir s id l :
  plugin_log (psql_events role dir s id l) = psql_events role dir s id l.
Proof.
  revert id; induction l as [| m l IH]; intros id; [done |].
  cbn [psql_events]. rewrite !plugin_log_app, IH. f_equal; [| f_equal].
  - unfold header_events, psql_tracked. repeat case_match; try done; by simplify_eq.
  - unfold query_event. by case_match.
Qed.

(** A direction of a connection in the middle of its startup packet and messages. *)
Definition psql_stream (role : Z) (dir : pp_direction) (s : Z) (data : pp_data) (stream : list byte)
    (evs : list log_op) : Prop :=
  exists st fin, data = PD_psql st /\ psql_expects role dir s fin (side dir st) stream evs.

Lemma psql_expects_plugin role dir s fin p stream evs :
  psql_expects role dir s fin p stream evs -> plugin_log evs = evs.
Proof.
  destruct 1 as [| | g t h rem id l evs _ _ _ _ Hev]; try apply psql_events_plugin.
  rewrite plugin_log_app, psql_events_plugin. f_equal.
  destruct (Byte.eqb t "Q"%byte); [by destruct Hev as (q & _ & _ & _ & ->) | by subst].
Qed.

#[export] Instance psql_conv role dir s :
  PpConv (psql_io role dir) (psql_data_inv dir) (psql_refused dir) s (psql_stream role dir s).
Proof.
  constructor.
  - apply _.
  - intros data stream evs (st & fin & -> & He). exists st. split; [done |]. by eapply psql_expects_inv.
  - intros data stream evs mem len rest (st & fin & -> & He) Hl H31 Hs.
    destruct (psql_runs _ _ _ _ _ _ _ _ _ _ He Hl Hs) as (w & a & p' & E & Hne).
    rewrite psql_io_eq, u32_small by lia. rewrite E. do 3 eexists. split; [reflexivity | done].
  - intros data evs mem len w a data' rest (st & fin & -> & He) Hl H31 Hf Ha.
    rewrite psql_io_eq, u32_small in Hf by lia. inv_run. destruct a0 as [a1 p]. inv_run. simplify_eq.
    destruct (psql_step _ _ _ _ _ _ _ _ _ _ _ _ _ He Hm Ha ltac:(lia) H31 eq_refl) as (evs' & -> & He').
    exists evs'. rewrite app_nil_r. split; [done |]. exists (set_side dir st p), fin. by rewrite side_set.
  - intros data mem len w data' (st & -> & Hi) Hl H31 Hf.
    rewrite psql_io_eq, u32_small in Hf by lia. inv_run. destruct a as [a1 p]. inv_run. simplify_eq.
    apply speak_psql_refuse in Hm as [-> ->]; [| lia | done]. split; [done |]. by destruct dir, st.
  - intros data stream evs (st & fin & -> & He) Hz Hr. by eapply psql_refused_end.
  - intros data evs (st & fin & -> & He). by apply psql_expects_end in He as [-> _].
  - intros data stream evs (st & fin & -> & He). by eapply psql_expects_plugin.
Qed.

(** A new connection. *)
Lemma psql_stream_start role dir s st prot params l :
  side dir st = mk_psql 0 NUL 0 0 0 -> Forall psql_ok l -> zlen params < 2 ^ 31 -> is_u 32 prot ->
  psql_stream role dir s (PD_psql st) (startup_bytes prot params ++ concat (psql_bytes <$> l))
    (psql_events role dir s 0 l).
Proof. intros Hst Hok Hpar Hprot. eexists st, _. split; [done |]. rewrite Hst. by apply expects_start. Qed.

(** ** MySQL *)

Definition mysql_stream (role : Z) (dir : pp_direction) (s : Z) (data : pp_data) (stream : list byte)
    (evs : list log_op) : Prop :=
  exists st rem l, data = PD_mysql st /\ mysql_at (mside dir st) rem /\ Forall mysql_ok l /\
    stream = rem ++ concat (mysql_bytes <$> l) /\ evs = mysql_events role dir s l.

Lemma mysql_events_plugin role dir s l : plugin_log (mysql_events role dir s l) = mysql_events role dir s l.
Proof.
  unfold mysql_events. induction l as [| k l IH]; [done |]. rewrite fmap_cons, concat_cons, plugin_log_app, IH.
  f_equal. unfold mysql_events1, mysql_msg. by repeat case_match.
Qed.

Lemma mysql_io_eq role dir st s mem len :
  0 < len < 2 ^ 31 ->
  mysql_io role dir (PD_mysql st) s mem len =
    let! (a, p) := speak_mysql (mside dir st) s mem len role dir in ret (a, PD_mysql (set_mside dir st p)).
Proof. intros. unfold mysql_io. by rewrite u32_small by lia. Qed.

Lemma set_mside_same dir st : set_mside dir st (mside dir st) = st.
Proof. by destruct dir, st. Qed.

Lemma mysql_at_inv p rem : mysql_at p rem -> is_u 32 (mysql_todo p).
Proof. intros (Ht & Hr & _). pose proof (zlen_nonneg rem). unfold is_u. lia. Qed.

(** A call on part of what is to come: bytes of a payload, too little of a header, or
    a header. *)
Lemma mysql_call role dir s p rem l mem len rest :
  mysql_at p rem -> Forall mysql_ok l -> 0 < len <= zlen mem -> len < 2 ^ 31 ->
  ztake len mem ++ rest = rem ++ concat (mysql_bytes <$> l) ->
  exists w a p', speak_mysql p s mem len role dir = (w, Ok (a, p')) /\ (rest = [] -> a <> -1).
Proof.
  intros (Ht & Hr & Hid) Hok Hl H31 Hs. pose proof (zlen_nonneg rem). unfold speak_mysql. rewrite Ht.
  destruct (Z.ltb_spec 0 (zlen rem)).
  { do 3 eexists. split; [reflexivity |]. intros _.
    assert ((if zlen rem <? len then zlen rem else len) = Z.min len (zlen rem)) as -> by (case_z; lia).
    rewrite s32_small by lia. lia. }
  assert (rem = []) as -> by (apply zlen_0_inv; lia). rewrite app_nil_l in Hs.
  destruct (Z.ltb_spec len 4).
  - do 3 eexists. split; [reflexivity |]. intros ->. rewrite app_nil_r in Hs.
    apply (f_equal zlen) in Hs. rewrite zlen_ztake in Hs by lia.
    destruct l as [| k l]; [cbn in Hs; unfold zlen in Hs; simpl in Hs; unfold zlen in Hl; lia |].
    change (concat (mysql_bytes <$> k :: l)) with (mysql_bytes k ++ concat (mysql_bytes <$> l)) in Hs.
    unfold mysql_bytes at 1 in Hs. zl.
  - unfold get_mysql_size. rewrite !load_ok, !bind_ret_l by lia.
    pose proof (length_fmap char_val (ztake 3 (zdrop 0 mem))) as Hlen.
    assert (length (ztake 3 (zdrop 0 mem)) = 3%nat) as E3.
    { apply Nat2Z.inj. rewrite zdrop_0. change (zlen (ztake 3 mem) = 3). zl. }
    rewrite E3 in Hlen. destruct (char_val <$> _) as [| b0 [| b1 [| b2 [| ? ?]]]]; try discriminate Hlen.
    rewrite !bind_ret_l. cbv beta zeta. match goal with |- context [mysql_msg _ _ ?i _] => rewrite (mysql_msg_ok s role i dir) end.
    rewrite LOGBINs_mysql. do 3 eexists. split; [reflexivity |]. done.
Qed.

(** What a call takes. *)
Lemma mysql_step role dir s p rem l mem len w a p' rest :
  mysql_at p rem -> Forall mysql_ok l -> 0 < len <= zlen mem -> len < 2 ^ 31 ->
  speak_mysql p s mem len role dir = (w, Ok (a, p')) -> 0 < a <= len ->
  ztake a mem ++ rest = rem ++ concat (mysql_bytes <$> l) ->
  exists rem' l', mysql_events role dir s l = w ++ mysql_events role dir s l' /\ mysql_at p' rem' /\
    Forall mysql_ok l' /\ rest = rem' ++ concat (mysql_bytes <$> l').
Proof.
  intros Hat Hok Hl H31 Hf Ha Hs. pose proof (mysql_at_inv _ _ Hat) as Hinv.
  destruct Hat as (Ht & Hr & Hid). pose proof (zlen_nonneg rem). pose proof Hf as Hf'.
  apply speak_mysql_cases in Hf' as [_ [(Hpos&Ea&->&->)|[?|(H0&H4&->)]]]; [| lia | | done | lia].
  - rewrite Ht in *. destruct (zapp_cut _ _ _ _ (eq_sym Hs)) as [E1 ->]; [zl |].
    assert (zlen (ztake a mem) = a) as -> by zl. exists (zdrop a rem), l. split; [done |].
    split_and!; try done. unfold mysql_at. cbn [mysql_todo mysql_id]. split_and!; zl.
  - rewrite H0 in Ht. symmetry in Ht. apply zlen_0_inv in Ht as ->. rewrite app_nil_l in Hs.
    destruct l as [| k l]; [apply (f_equal zlen) in Hs; simpl in Hs; zl |].
    apply Forall_cons_1 in Hok as [Hk Hok].
    change (concat (mysql_bytes <$> k :: l)) with (mysql_bytes k ++ concat (mysql_bytes <$> l)) in Hs.
    unfold mysql_bytes at 1 in Hs. rewrite <- (app_assoc _ (k_body k)) in Hs.
    apply takes_head in Hs as [Em ->]; [| zl | lia].
    rewrite Em, mysql_head in Hf by done. injection Hf as <- <-.
    exists (k_body k), l. split; [done |]. split_and!; try done; by destruct Hk as (? & ? & _).
Qed.

#[export] Instance mysql_conv role dir s :
  PpConv (mysql_io role dir) (mysql_inv dir) (mysql_refused dir) s (mysql_stream role dir s).
Proof.
  constructor.
  - apply _.
  - intros data stream evs (st & rem & l & -> & Hat & _). exists st. split; [done |]. by eapply mysql_at_inv.
  - intros data stream evs mem len rest (st & rem & l & -> & Hat & Hok & -> & _) Hl H31 Hs.
    destruct (mysql_call role dir s _ _ _ _ _ _ Hat Hok Hl H31 Hs) as (w & a & p' & E & Hne).
    rewrite mysql_io_eq, E by lia. do 3 eexists. split; [reflexivity | done].
  - intros data evs mem len w a data' rest (st & rem & l & -> & Hat & Hok & Hs & ->) Hl H31 Hf Ha.
    rewrite mysql_io_eq in Hf by lia. inv_run. destruct a0 as [a1 p]. inv_run. simplify_eq.
    destruct (mysql_step _ _ _ _ _ _ _ _ _ _ _ _ Hat Hok Hl H31 Hm Ha Hs) as (rem' & l' & E & Hat' & Hok' & ->).
    exists (mysql_events role dir s l'). rewrite app_nil_r. split; [done |].
    exists (set_mside dir st p), rem', l'. by rewrite mside_set.
  - intros data mem len w data' (st & -> & Hi) Hl H31 Hf.
    rewrite mysql_io_eq in Hf by lia. inv_run. destruct a as [a1 p]. inv_run. simplify_eq.
    apply speak_mysql_cases in Hm as [_ [?|[(?&?&_&->&->)|?]]]; [lia | | lia | done | lia].
    by rewrite set_mside_same.
  - intros data stream evs (st & rem & l & -> & (Ht & _) & Hok & -> & _) Hz (st' & [= <-] & H0 & Hn).
    rewrite H0 in Ht. symmetry in Ht. apply zlen_0_inv in Ht as ->. destruct l as [| k l]; [done |].
    change (concat (mysql_bytes <$> k :: l)) with (mysql_bytes k ++ concat (mysql_bytes <$> l)) in Hn.
    unfold mysql_bytes at 1 in Hn. exfalso. zl.
  - intros data evs (st & rem & l & -> & _ & _ & E & ->). symmetry in E. apply app_nil in E as [_ E].
    destruct l as [| k l]; [done |]. apply (f_equal zlen) in E. simpl in E. unfold mysql_bytes in E. zl.
  - intros data stream evs (st & rem & l & -> & _ & _ & _ & ->). apply mysql_events_plugin.
Qed.

Lemma mysql_stream_start role dir s st l :
  mside dir st = mk_mysql 0 0 -> Forall mysql_ok l ->
  mysql_stream role dir s (PD_mysql st) (concat (mysql_bytes <$> l)) (mysql_events role dir s l).
Proof. intros Hst Hok. exists st, [], l. rewrite Hst. by split_and!. Qed.

(** ** The trivial protocol: nothing is logged. *)

#[export] Instance trivial_conv s :
  PpConv pp_trivial_read (fun _ => True) (fun _ _ => False) s (fun _ _ evs => evs = []).
Proof.
  constructor; try done; [apply _ | | | |].
  - intros data stream evs mem len rest _ Hl _ _. exists [], len, data. split; [done | lia].
  - intros data evs mem len w a data' rest -> _ _ [= <- <- <-] _. by exists [].
  - intros data mem len w data' _ Hl _ [= <- ? _]. lia.
  - by intros data stream evs ->.
Qed.

(** ** Properties *)

(** A PostgreSQL client is logged whatever way it writes.  However an application
    cuts a startup packet and the messages [l] into writes, if together they fit the
    64 KiB buffer every write returns, nothing is left unread, and the log is exactly
    the conversation's: one header line per message, numbered requests, the text of
    the queries. *)
Theorem psql_session_logged d role s prot params l chunks v st :
  pp_write d = psql_io role PP_WRITE -> wwf d (psql_data_inv PP_WRITE) v ->
  wbuflen v = 0 -> wbufofs v = 0 -> ppdata v = PD_psql st ->
  psql_write st = mk_psql 0 NUL 0 0 0 ->
  Forall psql_ok l -> zlen params < 2 ^ 31 -> is_u 32 prot ->
  Forall (fun c => 0 < zlen c) chunks ->
  concat chunks = startup_bytes prot params ++ concat (psql_bytes <$> l) ->
  zlen (concat chunks) <= VBUFSIZE ->
  exists v', app_writes chunks v s = (psql_events role PP_WRITE s 0 l, Ok v') /\ wpending v' = [].
Proof.
  intros Hd Hv Hl0 H0 Hpd Hst Hok Hpar Hprot Hne Hcat Hfit.
  assert (PpConv (pp_write d) (psql_data_inv PP_WRITE) (psql_refused PP_WRITE) s (psql_stream role PP_WRITE s))
    as Hc by (rewrite Hd; apply _).
  destruct (conv_writes d _ _ s _ chunks v (psql_events role PP_WRITE s 0 l)) as (v' & E & Hp & _); try done.
  - rewrite Hpd, Hcat. by apply psql_stream_start.
  - by exists v'.
Qed.

Lemma psql_session_logged_witness :
  exists v', app_writes [ztake 3 demo_session; ztake 20 (zdrop 3 demo_session); zdrop 23 demo_session]
      (demo_vfd pp_psqlc (PD_psql pp_psql_common_init)) 7 =
    ([LLog (mk_event SYS_PP_DATA 0 [] (Some (bs "psql: type=Q len=13 todo=9")));
      LLog (mk_event SYS_PP_MSG_SEND 0 [PP_PSQLC_ID; 7; 0] (Some (bs "psqlc")));
      LLog (mk_event SYS_PP_PROP 0 [] (Some (bs "QUERY=-=select 1")))], Ok v') /\
    wpending v' = [].
Proof.
  apply (psql_session_logged pp_psqlc PP_PSQLC_ID 7 196608 (bs "user" ++ [NUL]) [demo_query] _ _
    pp_psql_common_init); try reflexivity.
  - apply (demo_vfd_wf pp_psqlc (psql_data_inv PP_WRITE) (fun _ _ => False)).
    eexists. split; [done |]. split; vm_compute; congruence.
  - repeat constructor; [intros _; exists (bs "select 1"); split; [repeat constructor; discriminate | done]].
  - split; vm_compute; congruence.
  - repeat constructor.
  - vm_compute. congruence.
Defined.

(** The same of a MySQL client and its packets. *)
Theorem mysql_session_logged d role s l chunks v st :
  pp_write d = mysql_io role PP_WRITE -> wwf d (mysql_inv PP_WRITE) v ->
  wbuflen v = 0 -> wbufofs v = 0 -> ppdata v = PD_mysql st -> mysql_write st = mk_mysql 0 0 ->
  Forall mysql_ok l -> Forall (fun c => 0 < zlen c) chunks ->
  concat chunks = concat (mysql_bytes <$> l) -> zlen (concat chunks) <= VBUFSIZE ->
  exists v', app_writes chunks v s = (mysql_events role PP_WRITE s l, Ok v') /\ wpending v' = [].
Proof.
  intros Hd Hv Hl0 H0 Hpd Hst Hok Hne Hcat Hfit.
  assert (PpConv (pp_write d) (mysql_inv PP_WRITE) (mysql_refused PP_WRITE) s (mysql_stream role PP_WRITE s))
    as Hc by (rewrite Hd; apply _).
  destruct (conv_writes d _ _ s _ chunks v (mysql_events role PP_WRITE s l)) as (v' & E & Hp & _); try done.
  - rewrite Hpd, Hcat. by apply mysql_stream_start.
  - by exists v'.
Qed.

Lemma mysql_session_logged_witness :
  exists v', app_writes [ztake 2 (mysql_bytes demo_packet); zdrop 2 (mysql_bytes demo_packet)]
      (demo_vfd pp_mysqlc (PD_mysql pp_mysql_common_init)) 7 =
    ([LLog (mk_event SYS_PP_DATA 0 [] (Some (bs "mysql: id=3 todo=5")));
      LLog (mk_event SYS_PP_MSG_SEND 0 [PP_MYSQLC_ID; 7; 3] (Some (bs "mysqlc")))], Ok v') /\
    wpending v' = [].
Proof.
  apply (mysql_session_logged pp_mysqlc PP_MYSQLC_ID 7 [demo_packet] _ _ pp_mysql_common_init); try reflexivity.
  - apply (demo_vfd_wf pp_mysqlc (mysql_inv PP_WRITE) (fun _ _ => False)).
    eexists. split; [done |]. split; vm_compute; congruence.
  - repeat constructor; vm_compute; congruence.
  - repeat constructor.
  - vm_compute. congruence.
Defined.

(** A server's side of a conversation, read to the end. *)
Lemma psql_server_ok fl d role s n prot params l chunks v st rd strict :
  pp_read d = psql_io role PP_READ -> vwf d (psql_data_inv PP_READ) (psql_refused PP_READ) v ->
  rbuflen v = 0 -> ppdata v = PD_psql st -> psql_read st = mk_psql 0 NUL 0 0 0 ->
  Forall psql_ok l -> zlen params < 2 ^ 31 -> is_u 32 prot ->
  0 < n < 2 ^ 31 -> Forall (fun c => 0 < zlen c) chunks ->
  concat chunks = startup_bytes prot params ++ concat (psql_bytes <$> l) ->
  zlen (concat chunks) <= VBUFSIZE ->
  exists k w v' rd',
    app_reads fl strict (replicate k n) v s rd (Some <$> chunks) =
      (w, Ok (concat chunks, concat chunks, v', rd', [])) /\
    plugin_log w = psql_events role PP_READ s 0 l.
Proof.
  intros Hd Hv Hl0 Hpd Hst Hok Hpar Hprot Hn Hne Hcat Hfit.
  assert (PpConv (pp_read d) (psql_data_inv PP_READ) (psql_refused PP_READ) s (psql_stream role PP_READ s))
    as Hc by (rewrite Hd; apply _).
  apply (conv_reads fl d _ _ s _ strict n chunks v rd (psql_events role PP_READ s 0 l)); try done.
  rewrite Hpd, Hcat. by apply psql_stream_start.
Qed.
