(* ===== verification/Getservice.v ===== *)
(** src/src/trace/getservice.c: reading services files.

    A C string is the list of its bytes, without the terminator.  The file system
    is an argument: what fopen(3) finds under a path.  The mutex is not modelled:
    it is recursive and every entry point is one call.

    The loops count their turns, and [None] is a loop that has not ended when they are
    used up; that the code's loops never give it is [services_lookup_terminates]. *)
From S2P Require Import Prelude CInt CString.

Abbreviation file := (list byte).

Definition BUFSIZ : nat := Z.to_nat 8192.
Definition MAXALIASES : nat := 35%nat.
Definition _PATH_SERVICES : list byte := bs "/etc/services".

Record servent := mk_servent {
  s_name : list byte;
  s_aliases : list (list byte);
  s_port : Z;                     (* network byte order *)
  s_proto : list byte
}.

(** htons(3) on a little-endian machine; ntohs(3) is the same function. *)
Definition htons (x : Z) : Z := be_val (le_bytes 2 x).
Definition ntohs : Z -> Z := htons.

(** The static variables: the open file (its contents and what is unread),
    serv_stayopen, and getportbyname's is_set and services_file. *)
Record serv_state := mk_serv {
  servf : option (file * file);
  serv_stayopen : Z;
  services_file : option (option (list byte))
}.
Definition serv_init : serv_state := mk_serv None 0 None.
Definition set_servf (st : serv_state) (f : option (file * file)) : serv_state :=
  mk_serv f (serv_stayopen st) (services_file st).

(** fgets(3): a line, or what fits, and the rest; [None] at the end. *)
Fixpoint fgets_bytes (n : nat) (f : file) : list byte * file :=
  match n, f with
  | O, _ => ([], f)
  | _, [] => ([], [])
  | S n', b :: f' =>
      if Byte.eqb b LF then ([b], f')
      else let '(l, rest) := fgets_bytes n' f' in (b :: l, rest)
  end.
Definition fgets (size : nat) (f : file) : option (list byte * file) :=
  match f with
  | [] => None
  | _ => let '(l, rest) := fgets_bytes (size - 1) f in
         Some (default [] (cstr (l ++ [NUL])), rest)
  end.

(** [p = strpbrk(s, accept); if (p) *p++ = 0;]: what [s] has become, and [p]. *)
Fixpoint cut (accept s : list byte) : list byte * option (list byte) :=
  match s with
  | [] => ([], None)
  | b :: s' =>
      if byte_in b accept then ([], Some s')
      else let '(t, r) := cut accept s' in (b :: t, r)
  end.

Definition is_blank (b : byte) : bool := Byte.eqb b SPC || Byte.eqb b TAB.

(** Skips spaces and tabs. *)
Fixpoint skip_blank (s : list byte) : list byte :=
  match s with
  | b :: s' => if is_blank b then skip_blank s' else s
  | [] => []
  end.

(** The alias loop; [room] pointers are left.  Each turn consumes a byte. *)
Fixpoint alias_loop (fuel room : nat) (cp : option (list byte)) : option (list (list byte)) :=
  match cp with
  | Some (b :: s) =>
      match fuel with
      | O => None
      | S fuel' =>
          if is_blank b then alias_loop fuel' room (Some s)
          else
            let '(a, r) := cut [SPC; TAB] (b :: s) in
            match room with
            | O => alias_loop fuel' O r
            | S room' => cons a <$> alias_loop fuel' room' r
            end
      end
  | _ => Some []
  end.

(** The body of bpgetservent_r for one line; [Some None] is [goto again]. *)
Definition parse_line (p : list byte) : option (option servent) :=
  if bool_decide (head p = Some "#"%byte) then Some None else
  let '(p, nl) := cut [LF; "#"%byte] p in
  if bool_decide (nl = None) then Some None else
  let '(name, p) := cut [SPC; TAB] p in
  match p with
  | None => Some None
  | Some p =>
      let '(port, cp) := cut ["/"%byte; ","%byte] (skip_blank p) in
      match cp with
      | None => Some None
      | Some cp =>
          let '(proto, cp) := cut [SPC; TAB] cp in
          aliases ← alias_loop (length (default [] cp)) (MAXALIASES - 1) cp;
          Some (Some (mk_servent name aliases (htons (u16 (atoi port))) proto))
      end
  end.

(** The [again] loop over the lines of the open file. *)
Fixpoint getservent_loop (fuel : nat) (f : file) : option (option servent * file) :=
  match fuel with
  | O => None
  | S fuel' =>
      match fgets BUFSIZ f with
      | None => Some (None, f)
      | Some (l, rest) =>
          r ← parse_line l;
          match r with
          | Some s => Some (Some s, rest)
          | None => getservent_loop fuel' rest
          end
      end
  end.

Section fs.
(** What fopen(path, "r") gives. *)
Context (fs : list byte -> option file).

Definition path_of (sf : option (list byte)) : list byte := default _PATH_SERVICES sf.

Definition fopen (path : list byte) : option (file * file) := (fun f => (f, f)) <$> fs path.

Definition bpsetservent (f : Z) (sf : option (list byte)) (st : serv_state) : serv_state :=
  let fp := match servf st with
            | None => fopen (path_of sf)
            | Some (whole, _) => Some (whole, whole)
            end in
  mk_serv fp (if f =? 0 then serv_stayopen st else 1) (services_file st).

Definition bpendservent (st : serv_state) : serv_state := mk_serv None 0 (services_file st).

(** The entry read, none when the file cannot be opened or has ended. *)
Definition bpgetservent_r (sf : option (list byte)) (st : serv_state) :
    option (option servent * serv_state) :=
  match (match servf st with None => fopen (path_of sf) | Some f => Some f end) with
  | None => Some (None, st)
  | Some (whole, f) =>
      '(r, rest) ← getservent_loop (S (length f)) f;
      Some (r, set_servf st (Some (whole, rest)))
  end.

(** The test of the loop of bpgetservbyname_r. *)
Definition serv_matches (name : list byte) (proto : option (list byte)) (s : servent) : bool :=
  (bool_decide (name = s_name s) || existsb (fun a => bool_decide (name = a)) (s_aliases s)) &&
  match proto with None => true | Some p => bool_decide (s_proto s = p) end.

(** Every entry consumes a byte of the file or more. *)
Fixpoint servbyname_loop (fuel : nat) (name : list byte) (proto sf : option (list byte))
    (st : serv_state) : option (option servent * serv_state) :=
  match fuel with
  | O => None
  | S fuel' =>
      '(r, st) ← bpgetservent_r sf st;
      match r with
      | None => Some (None, st)
      | Some s => if serv_matches name proto s then Some (Some s, st)
                  else servbyname_loop fuel' name proto sf st
      end
  end.

Definition unread_bytes (sf : option (list byte)) (st : serv_state) : nat :=
  match servf st with
  | Some (_, f) => length f
  | None => length (default [] (fs (path_of sf)))
  end.

Definition bpgetservbyname (name : list byte) (proto sf : option (list byte)) (st : serv_state) :
    option (option servent * serv_state) :=
  let st := bpsetservent (serv_stayopen st) sf st in
  '(r, st) ← servbyname_loop (S (unread_bytes sf st)) name proto sf st;
  Some (r, if serv_stayopen st =? 0 then bpendservent st else st).

(** bpgetservent: an entry into the static buffer. *)
Definition bpgetservent (sf : option (list byte)) (st : serv_state) :
    option (option servent * serv_state) :=
  bpgetservent_r sf st.

(** The test of the loop of bpgetservbyport_r; the ports are in network order. *)
Definition port_matches (port : Z) (proto : option (list byte)) (s : servent) : bool :=
  (s_port s =? port) &&
  match proto with None => true | Some p => bool_decide (s_proto s = p) end.

Fixpoint servbyport_loop (fuel : nat) (port : Z) (proto sf : option (list byte))
    (st : serv_state) : option (option servent * serv_state) :=
  match fuel with
  | O => None
  | S fuel' =>
      '(r, st) ← bpgetservent_r sf st;
      match r with
      | None => Some (None, st)
      | Some s => if port_matches port proto s then Some (Some s, st)
                  else servbyport_loop fuel' port proto sf st
      end
  end.

Definition bpgetservbyport (port : Z) (proto sf : option (list byte)) (st : serv_state) :
    option (option servent * serv_state) :=
  let st := bpsetservent (serv_stayopen st) sf st in
  '(r, st) ← servbyport_loop (S (unread_bytes sf st)) port proto sf st;
  Some (r, if serv_stayopen st =? 0 then bpendservent st else st).

(** [env] is getenv("LIBBTRACE_SERVICES"). *)
Definition getportbyname (env : option (list byte)) (name : list byte) (st : serv_state) :
    option (Z * serv_state) :=
  let st := match services_file st with
            | None => mk_serv (servf st) (serv_stayopen st) (Some env)
            | Some _ => st
            end in
  '(service, st) ← bpgetservbyname name None None st;
  let dflt := match service with Some s => ntohs (s_port s) | None => -1 end in
  match services_file st with
  | Some (Some sf) =>
      '(user_service, st) ← bpgetservbyname name None (Some sf) st;
      Some (match user_service with Some s => ntohs (s_port s) | None => dflt end, st)
  | _ => Some (dflt, st)
  end.
End fs.

Example parse_http : parse_line (bs "http 80/tcp www  web" ++ [LF]) =
  Some (Some (mk_servent (bs "http") [bs "www"; bs "web"] (80 * 256) (bs "tcp"))).
Proof. vm_compute. reflexivity. Qed.

(** ** Services files *)

Inductive services_line :=
| SComment (text : list byte)
| SBlank
| SEntry (name : list byte) (port : Z) (proto : list byte) (aliases : list (list byte))
    (comment : option (list byte)).

Definition alias_text (aliases : list (list byte)) (tail : list byte) : list byte :=
  concat (cons SPC <$> aliases) ++ tail.

Definition comment_text (c : option (list byte)) : list byte :=
  match c with Some t => "#"%byte :: t | None => [] end.
Definition tail_of (c : option (list byte)) : list byte := if c is Some _ then [TAB] else [].

(** The part of the line that is read, and the whole line. *)
Definition entry_text (name : list byte) (port : Z) (proto : list byte)
    (aliases : list (list byte)) (c : option (list byte)) : list byte :=
  name ++ TAB :: fmt_d port ++ "/"%byte :: proto ++ alias_text aliases (tail_of c).

Definition line_text (l : services_line) : list byte :=
  match l with
  | SComment t => "#"%byte :: t
  | SBlank => []
  | SEntry name port proto aliases c => entry_text name port proto aliases c ++ comment_text c
  end.
Definition line_bytes (l : services_line) : list byte := line_text l ++ [LF].
Definition file_bytes (ls : list services_line) : file := concat (line_bytes <$> ls).

(** Bytes of a name, a protocol or an alias, and of a comment. *)
Definition word_byte (b : byte) : bool := negb (byte_in b [SPC; TAB; LF; "#"%byte; NUL]).
Definition text_byte (b : byte) : bool := negb (byte_in b [LF; NUL]).
Definition word (w : list byte) : Prop := forallb word_byte w = true.

Definition line_ok (l : services_line) : Prop :=
  (length (line_bytes l) < BUFSIZ)%nat /\
  match l with
  | SComment t => forallb text_byte t = true
  | SBlank => True
  | SEntry name port proto aliases c =>
      word name /\ word proto /\ 0 <= port < 65536 /\
      Forall (fun a => word a /\ a <> []) aliases /\ (length aliases < MAXALIASES)%nat /\
      forallb text_byte (default [] c) = true
  end.

Definition line_servent (l : services_line) : option servent :=
  match l with
  | SEntry name port proto aliases _ => Some (mk_servent name aliases (htons port) proto)
  | _ => None
  end.

Definition entries (ls : list services_line) : list servent := omap line_servent ls.

(** The first entry with that name or alias. *)
Definition services_find (ls : list services_line) (name : list byte) : option servent :=
  head (filter (fun s => serv_matches name None s = true) (entries ls)).

Definition services_by_port (ls : list services_line) (port : Z) (proto : option (list byte)) :
    option servent :=
  head (filter (fun s => port_matches port proto s = true) (entries ls)).

Definition services_port (ls : list services_line) (name : list byte) : option Z :=
  ntohs ∘ s_port <$> services_find ls name.

(** ** Reading a line *)

Lemma htons_htons x : 0 <= x < 65536 -> ntohs (htons x) = x.
Proof.
  intros Hx. unfold ntohs, htons, be_val.
  rewrite le_bytes_val_len by (by rewrite length_rev, length_le_bytes).
  rewrite rev_involutive, le_val_bytes. by apply Z.mod_small.
Qed.

Lemma forallb_sub (p q : byte -> bool) l :
  (forall b, p b = true -> q b = true) -> forallb p l = true -> forallb q l = true.
Proof. intros H. rewrite !forallb_forall. auto. Qed.

Lemma cut_found accept t d r :
  forallb (fun b => negb (byte_in b accept)) t = true -> byte_in d accept = true ->
  cut accept (t ++ d :: r) = (t, Some r).
Proof.
  intros Ht Hd. induction t as [| b t IH]; simpl in *; [by rewrite Hd |].
  apply andb_prop in Ht as [Hb Ht]. apply negb_true_iff in Hb. rewrite Hb, IH by done. done.
Qed.

Lemma cut_all accept t :
  forallb (fun b => negb (byte_in b accept)) t = true -> cut accept t = (t, None).
Proof.
  intros Ht. induction t as [| b t IH]; simpl in *; [done |].
  apply andb_prop in Ht as [Hb Ht]. apply negb_true_iff in Hb. rewrite Hb, IH by done. done.
Qed.

Lemma fgets_line n l rest :
  forallb text_byte l = true -> (length l < n)%nat ->
  fgets_bytes n (l ++ LF :: rest) = (l ++ [LF], rest).
Proof.
  revert n; induction l as [| b l IH]; intros n Hl Hn; destruct n as [| n]; simpl in *; try lia; [done |].
  apply andb_prop in Hl as [Hb Hl]. rewrite byte_eqb_false.
  - rewrite IH by (done || lia). done.
  - intros ->. done.
Qed.

Lemma text_nul_free l : forallb text_byte l = true -> nul_free l.
Proof.
  intros H. apply Forall_forall. intros b Hb ->. rewrite forallb_forall in H.
  by apply H in Hb.
Qed.

Lemma fgets_text l rest :
  forallb text_byte l = true -> (S (length l) < BUFSIZ)%nat ->
  fgets BUFSIZ (l ++ LF :: rest) = Some (l ++ [LF], rest).
Proof.
  intros Hl Hn. unfold fgets. rewrite fgets_line by (done || lia).
  rewrite cstr_app.
  - destruct l; done.
  - apply Forall_app. split; [by apply text_nul_free |]. by repeat constructor.
Qed.

Lemma word_sub p w :
  (forall b, word_byte b = true -> p b = true) -> word w -> forallb p w = true.
Proof. intros H. by apply forallb_sub. Qed.

Lemma word_byte_in b acc :
  word_byte b = true -> (forall x, byte_in x acc = true -> word_byte x = false) ->
  negb (byte_in b acc) = true.
Proof.
  intros Hb H. destruct (byte_in b acc) eqn:E; [| done]. by rewrite (H b E) in Hb.
Qed.

Lemma byte_in_cases b acc : byte_in b acc = true -> In b acc.
Proof.
  unfold byte_in. rewrite existsb_exists. intros (x & Hx & E).
  by apply Byte.byte_dec_bl in E as ->.
Qed.

(** A word has none of the delimiters. *)
Lemma word_free acc w :
  forallb (fun d => negb (word_byte d)) acc = true -> word w ->
  forallb (fun b => negb (byte_in b acc)) w = true.
Proof.
  intros Hacc. apply word_sub. intros b Hb. apply word_byte_in; [done |].
  intros x Hx. apply byte_in_cases in Hx. rewrite forallb_forall in Hacc.
  by apply Hacc, negb_true_iff in Hx.
Qed.

Lemma digits_free acc n :
  forallb (fun d => negb (is_digit d)) acc = true -> 0 <= n < 65536 ->
  forallb (fun b => negb (byte_in b acc)) (fmt_d n) = true.
Proof.
  intros Hacc Hn. unfold fmt_d. destruct (Z.ltb_spec n 0); [lia |]. unfold fmt_u.
  destruct (dec_digits_ok 20 n) as [Hall _]; [simpl; lia | lia |].
  apply forallb_forall. intros b Hb. rewrite Forall_forall in Hall.
  apply Hall in Hb. apply negb_true_iff.
  destruct (byte_in b acc) eqn:E; [| done]. apply byte_in_cases in E.
  rewrite forallb_forall in Hacc. apply Hacc in E. by rewrite Hb in E.
Qed.

(** What follows the protocol, and what is left of it after the first cut. *)
Definition after (l : list (list byte)) (tail : list byte) : option (list byte) :=
  match l with
  | [] => match tail with [] => None | _ => Some [] end
  | a :: l' => Some (a ++ alias_text l' tail)
  end.

Lemma cut_word w l tail :
  word w -> tail = [] \/ tail = [TAB] ->
  cut [SPC; TAB] (w ++ alias_text l tail) = (w, after l tail).
Proof.
  intros Hw Ht. assert (forallb (fun b => negb (byte_in b [SPC; TAB])) w = true) as Hf
    by (by apply word_free).
  destruct l as [| a l].
  - unfold alias_text. cbn. destruct Ht as [-> | ->].
    + rewrite app_nil_r. by apply cut_all.
    + by apply cut_found.
  - unfold alias_text. change (concat (cons SPC <$> a :: l) ++ tail) with
      (SPC :: (a ++ concat (cons SPC <$> l)) ++ tail).
    rewrite cut_found by done. by rewrite <- app_assoc.
Qed.

Lemma alias_loop_ok l tail fuel room :
  Forall (fun a => word a /\ a <> []) l -> tail = [] \/ tail = [TAB] ->
  (length l <= room)%nat -> (length (default [] (after l tail)) <= fuel)%nat ->
  alias_loop fuel room (after l tail) = Some l.
Proof.
  intros Hl Ht. revert fuel room. induction Hl as [| a l [Ha Hne] Hl IH]; intros fuel room Hroom Hfuel.
  - destruct Ht as [-> | ->], fuel; done.
  - destruct a as [| b a]; [done |]. cbn [after from_option id] in Hfuel.
    assert (default [] (after l tail) = drop 1 (alias_text l tail)) as Ed.
    { destruct l; unfold alias_text; cbn [after from_option id].
      - destruct Ht as [-> | ->]; done.
      - cbn. by rewrite <- app_assoc. }
    destruct fuel as [| fuel]; [cbn in Hfuel; lia |]. cbn [after].
    change ((b :: a) ++ alias_text l tail) with (b :: a ++ alias_text l tail). cbn [alias_loop].
    assert (is_blank b = false) as ->.
    { cbn in Ha. apply andb_prop in Ha as [Hb _]. unfold is_blank.
      apply orb_false_intro; apply byte_eqb_false; by intros ->. }
    change (b :: a ++ alias_text l tail) with ((b :: a) ++ alias_text l tail).
    rewrite cut_word by done. destruct room as [| room]; [cbn in Hroom; lia |].
    rewrite IH; [done | cbn in Hroom; lia |]. rewrite Ed, length_drop.
    rewrite length_app in Hfuel. cbn in Hfuel. lia.
Qed.

Lemma forallb_alias (p : byte -> bool) l tail :
  p SPC = true -> p TAB = true -> (forall b, word_byte b = true -> p b = true) ->
  Forall (fun a => word a /\ a <> []) l -> tail = [] \/ tail = [TAB] ->
  forallb p (alias_text l tail) = true.
Proof.
  intros Hs Ht Hp Hl Htl. unfold alias_text. rewrite forallb_app. apply andb_true_intro. split.
  - induction Hl as [| a l [Ha _] Hl IH]; [done |]. cbn. rewrite Hs, forallb_app. cbn.
    apply andb_true_intro. split; [by apply word_sub | exact IH].
  - destruct Htl as [-> | ->]; cbn; by rewrite ?Ht.
Qed.

(** What is read of an entry is made of words, digits, blanks and a slash. *)
Lemma forallb_entry (p : byte -> bool) name port proto aliases c :
  p SPC = true -> p TAB = true -> p "/"%byte = true ->
  (forall b, word_byte b = true -> p b = true) -> (forall b, is_digit b = true -> p b = true) ->
  word name -> word proto -> 0 <= port < 65536 -> Forall (fun a => word a /\ a <> []) aliases ->
  forallb p (entry_text name port proto aliases c) = true.
Proof.
  intros Hs Ht Hsl Hw Hd Hn Hp Hport Ha.
  assert (forallb p (fmt_d port) = true) as Hf.
  { unfold fmt_d. destruct (Z.ltb_spec port 0); [lia |]. unfold fmt_u.
    destruct (dec_digits_ok 20 port) as [Hall _]; [simpl; lia | lia |].
    apply forallb_forall. intros b Hb. rewrite Forall_forall in Hall. by apply Hd, Hall. }
  unfold entry_text. rewrite forallb_app. cbn [forallb]. rewrite forallb_app. cbn [forallb].
  rewrite forallb_app, Hf, Ht, Hsl, (word_sub p name), (word_sub p proto) by done.
  rewrite forallb_alias; [done.. | destruct c; cbn; eauto].
Qed.

Lemma delim_free acc b :
  forallb (fun d => negb (word_byte d) && negb (is_digit d)) acc = true ->
  word_byte b = true \/ is_digit b = true -> negb (byte_in b acc) = true.
Proof.
  intros Hacc Hb. apply negb_true_iff. destruct (byte_in b acc) eqn:E; [| done].
  apply byte_in_cases in E. rewrite forallb_forall in Hacc. apply Hacc, andb_prop in E as [E1 E2].
  apply negb_true_iff in E1, E2. destruct Hb; congruence.
Qed.

Lemma parse_line_ok l : line_ok l -> parse_line (line_bytes l) = Some (line_servent l).
Proof.
  intros [_ Hl]. destruct l as [t | | name port proto aliases c]; [done | done |].
  destruct Hl as (Hn & Hp & Hport & Ha & Hlen & Hc). unfold line_bytes. cbn [line_text].
  unfold parse_line. rewrite bool_decide_false.
  2:{ unfold entry_text. destruct name as [| b name]; cbn; [done |]. intros [= ->]. done. }
  set (e := entry_text name port proto aliases c).
  assert (cut [LF; "#"%byte] ((e ++ comment_text c) ++ [LF]) =
    (e, Some (match c with Some t => t ++ [LF] | None => [] end))) as ->.
  { rewrite <- app_assoc. assert (forallb (fun b => negb (byte_in b [LF; "#"%byte])) e = true) as He.
    { apply forallb_entry; try done; intros b Hb; apply delim_free; auto. }
    destruct c as [t |]; cbn [comment_text app]; by apply cut_found. }
  rewrite bool_decide_false by done. unfold e, entry_text.
  rewrite cut_found; [| by apply word_free | done]. cbn iota.
  assert (skip_blank (fmt_d port ++ "/"%byte :: proto ++ alias_text aliases (tail_of c)) =
    fmt_d port ++ "/"%byte :: proto ++ alias_text aliases (tail_of c)) as ->.
  { pose proof (digits_free [SPC; TAB] port eq_refl Hport) as Hf.
    destruct (fmt_d port) as [| b d]; [done |]. cbn in *. apply andb_prop in Hf as [Hb _].
    unfold is_blank. destruct (Byte.eqb b SPC); [done |]. by destruct (Byte.eqb b TAB). }
  rewrite cut_found; [| by apply digits_free | done]. cbn iota.
  rewrite cut_word by (done || (destruct c; cbn; eauto)).
  rewrite alias_loop_ok; [| done | destruct c; cbn; eauto | unfold MAXALIASES in *; lia | done].
  cbn [mbind option_bind]. rewrite atoi_fmt_d by lia. rewrite (wrapu_small 16 port) by (unfold is_u; lia). done.
Qed.

Lemma fgets_line_ok l rest :
  line_ok l -> fgets BUFSIZ (line_bytes l ++ rest) = Some (line_bytes l, rest).
Proof.
  intros [Hlen Hl]. unfold line_bytes in *. rewrite <- app_assoc. cbn [app].
  apply fgets_text; [| rewrite length_app in Hlen; cbn in Hlen; lia].
  destruct l as [t | | name port proto aliases c]; cbn [line_text]; [done | done |].
  destruct Hl as (Hn & Hp & Hport & Ha & _ & Hc). rewrite forallb_app. apply andb_true_intro. split.
  - apply forallb_entry; try done; intros b Hb; apply delim_free; auto.
  - destruct c; done.
Qed.

(** ** Looking a name up *)

Fixpoint next_entry (ls : list services_line) : option (servent * list services_line) :=
  match ls with
  | [] => None
  | l :: ls' => match line_servent l with Some s => Some (s, ls') | None => next_entry ls' end
  end.

Lemma file_bytes_cons l ls : file_bytes (l :: ls) = line_bytes l ++ file_bytes ls.
Proof. done. Qed.

Lemma length_line_bytes l : (1 <= length (line_bytes l))%nat.
Proof. unfold line_bytes. rewrite length_app. cbn. lia. Qed.

Lemma getservent_loop_ok ls fuel :
  Forall line_ok ls -> (length (file_bytes ls) < fuel)%nat ->
  getservent_loop fuel (file_bytes ls) =
  Some match next_entry ls with
       | Some (s, ls') => (Some s, file_bytes ls')
       | None => (None, [])
       end.
Proof.
  intros Hls. revert fuel. induction Hls as [| l ls Hl Hls IH]; intros fuel Hf.
  - destruct fuel; [lia |]. done.
  - destruct fuel as [| fuel]; [lia |]. cbn [getservent_loop].
    rewrite file_bytes_cons, fgets_line_ok, parse_line_ok by done. cbn [next_entry mbind option_bind].
    destruct (line_servent l); [done |]. apply IH.
    rewrite file_bytes_cons, length_app in Hf. pose proof (length_line_bytes l). lia.
Qed.

(** The rest of the file after an entry is shorter. *)
Lemma next_entry_spec ls :
  match next_entry ls with
  | Some (s, ls') => entries ls = s :: entries ls' /\
      (length (file_bytes ls') < length (file_bytes ls))%nat /\
      (Forall line_ok ls -> Forall line_ok ls')
  | None => entries ls = []
  end.
Proof.
  induction ls as [| l ls IH]; [done |]. cbn [next_entry]. unfold entries. cbn [omap list_omap].
  pose proof (length_line_bytes l). destruct (line_servent l) eqn:E.
  - split; [done |]. rewrite file_bytes_cons, length_app. split; [lia |].
    intros H'. by apply Forall_cons_1 in H' as [_ ?].
  - destruct (next_entry ls) as [[s ls'] |]; [| done].
    destruct IH as (E1 & E2 & E3). split; [done |]. rewrite file_bytes_cons, length_app.
    split; [lia |]. intros H'. apply Forall_cons_1 in H' as [_ H']. by apply E3.
Qed.

Section lookup.
Context (fs : list byte -> option file).

Lemma servbyname_loop_ok fuel name sf whole ls st :
  Forall line_ok ls -> servf st = Some (whole, file_bytes ls) ->
  (length (file_bytes ls) < fuel)%nat ->
  exists f, servbyname_loop fs fuel name None sf st =
    Some (services_find ls name, set_servf st (Some (whole, f))).
Proof.
  revert ls st. induction fuel as [| fuel IH]; intros ls st Hls Hst Hf; [lia |].
  cbn [servbyname_loop]. unfold bpgetservent_r. rewrite Hst, getservent_loop_ok by (done || lia).
  cbn [mbind option_bind]. pose proof (next_entry_spec ls) as Hn. unfold services_find.
  destruct (next_entry ls) as [[s ls'] |]; cbn [mbind option_bind].
  - destruct Hn as (-> & Hlt & Hok). cbn [filter list_filter].
    destruct (serv_matches name None s) eqn:Em.
    + rewrite decide_True by done. by eexists.
    + rewrite decide_False by done.
      apply (IH ls' (set_servf st (Some (whole, file_bytes ls')))); [by apply Hok | done | lia].
  - rewrite Hn. by eexists.
Qed.

(** Between calls no file is open. *)
Definition serv_closed (st : serv_state) : Prop := servf st = None /\ serv_stayopen st = 0.

(** What a path holds: nothing that can be opened, or well-formed lines. *)
Definition holds (sf : option (list byte)) (ls : list services_line) : Prop :=
  (fs (path_of sf) = None /\ ls = []) \/ (fs (path_of sf) = Some (file_bytes ls) /\ Forall line_ok ls).

Lemma bpgetservbyname_ok name sf ls st :
  serv_closed st -> holds sf ls ->
  bpgetservbyname fs name None sf st = Some (services_find ls name, st).
Proof.
  destruct st as [sv so sp]. intros [Hc Hs] Hh. cbn [servf serv_stayopen] in Hc, Hs. subst sv so.
  unfold bpgetservbyname, bpsetservent. cbn [servf serv_stayopen services_file].
  change (0 =? 0) with true. cbn iota. unfold fopen. destruct Hh as [[Hf ->] | [Hf Hls]]; rewrite Hf.
  - unfold unread_bytes. cbn [fmap option_fmap option_map servf]. rewrite Hf. cbn [default from_option id length].
    cbn [servbyname_loop]. unfold bpgetservent_r. cbn [servf]. unfold fopen. rewrite Hf. done.
  - cbn [fmap option_fmap option_map]. set (st1 := mk_serv (Some _) 0 sp).
    destruct (servbyname_loop_ok (S (unread_bytes fs sf st1)) name sf (file_bytes ls) ls st1)
      as (f & ->); [done | done | cbn; lia |]. done.
Qed.

Lemma servbyport_loop_ok fuel port proto sf whole ls st :
  Forall line_ok ls -> servf st = Some (whole, file_bytes ls) ->
  (length (file_bytes ls) < fuel)%nat ->
  exists f, servbyport_loop fs fuel port proto sf st =
    Some (services_by_port ls port proto, set_servf st (Some (whole, f))).
Proof.
  revert ls st. induction fuel as [| fuel IH]; intros ls st Hls Hst Hf; [lia |].
  cbn [servbyport_loop]. unfold bpgetservent_r. rewrite Hst, getservent_loop_ok by (done || lia).
  cbn [mbind option_bind]. pose proof (next_entry_spec ls) as Hn. unfold services_by_port.
  destruct (next_entry ls) as [[s ls'] |]; cbn [mbind option_bind].
  - destruct Hn as (-> & Hlt & Hok). cbn [filter list_filter].
    destruct (port_matches port proto s) eqn:Em.
    + rewrite decide_True by done. by eexists.
    + rewrite decide_False by done.
      apply (IH ls' (set_servf st (Some (whole, file_bytes ls')))); [by apply Hok | done | lia].
  - rewrite Hn. by eexists.
Qed.

(** bpgetservbyport finds the first entry of the file with that port and protocol. *)
Lemma bpgetservbyport_ok port proto sf ls st :
  serv_closed st -> holds sf ls ->
  bpgetservbyport fs port proto sf st = Some (services_by_port ls port proto, st).
Proof.
  destruct st as [sv so sp]. intros [Hc Hs] Hh. cbn [servf serv_stayopen] in Hc, Hs. subst sv so.
  unfold bpgetservbyport, bpsetservent. cbn [servf serv_stayopen services_file].
  change (0 =? 0) with true. cbn iota. unfold fopen. destruct Hh as [[Hf ->] | [Hf Hls]]; rewrite Hf.
  - unfold unread_bytes. cbn [fmap option_fmap option_map servf]. rewrite Hf. cbn [default from_option id length].
    cbn [servbyport_loop]. unfold bpgetservent_r. cbn [servf]. unfold fopen. rewrite Hf. done.
  - cbn [fmap option_fmap option_map]. set (st1 := mk_serv (Some _) 0 sp).
    destruct (servbyport_loop_ok (S (unread_bytes fs sf st1)) port proto sf (file_bytes ls) ls st1)
      as (f & ->); [done | done | cbn; lia |]. done.
Qed.

Lemma getportbyname_ok env' env name etc usr st :
  serv_closed st -> services_file st = None /\ env' = env \/ services_file st = Some env ->
  holds None etc -> (forall p, env = Some p -> holds (Some p) usr) -> (env = None -> usr = []) ->
  getportbyname fs env' name st =
    Some (default (default (-1) (services_port etc name)) (services_port usr name),
          mk_serv None 0 (Some env)).
Proof.
  intros Hc Hsf He Hu Hn. unfold getportbyname.
  set (st' := match services_file st with None => _ | Some _ => st end).
  assert (st' = mk_serv None 0 (Some env)) as ->.
  { subst st'. destruct st as [sv so sp], Hc as [Hc1 Hc2]. cbn in *. subst sv so.
    destruct Hsf as [[-> ->] | ->]; done. }
  rewrite bpgetservbyname_ok with (ls := etc) by done. cbn [mbind option_bind services_file].
  unfold services_port. destruct env as [p |].
  - rewrite bpgetservbyname_ok with (ls := usr) by (auto; done). cbn [mbind option_bind].
    destruct (services_find usr name), (services_find etc name); done.
  - rewrite Hn by done. by destruct (services_find etc name).
Qed.
End lookup.

(** A last line without a newline is not read. *)
Lemma parse_line_unterminated p :
  forallb (fun b => negb (byte_in b [LF; "#"%byte])) p = true -> parse_line p = Some None.
Proof.
  intros H. unfold parse_line. case_bool_decide; [done |]. by rewrite cut_all.
Qed.

(** ** The loops end

    Every turn of a loop consumes a byte of what it reads, so that the turns the
    callers give are never used up. *)

Lemma cut_shorter accept s t r : cut accept s = (t, Some r) -> (length r < length s)%nat.
Proof.
  revert t; induction s as [| b s IH]; intros t; cbn [cut]; [done |].
  destruct (byte_in b accept); [intros [= _ <-]; simpl; lia |].
  destruct (cut accept s) as [t' r'] eqn:E. intros [= _ ->]. specialize (IH _ eq_refl). simpl. lia.
Qed.

Lemma alias_loop_ends n room cp :
  (length (default [] cp) <= n)%nat -> is_Some (alias_loop n room cp).
Proof.
  revert room cp; induction n as [| n IH]; intros room cp Hn.
  - destruct cp as [[| b s] |]; [by eexists | simpl in Hn; lia | by eexists].
  - destruct cp as [[| b s] |]; [by eexists | | by eexists]. cbn [alias_loop]. simpl in Hn.
    destruct (is_blank b); [apply IH; simpl; lia |].
    destruct (cut _ (b :: s)) as [a r] eqn:E.
    assert (length (default [] r) <= length s)%nat.
    { destruct r as [r |]; [apply cut_shorter in E; simpl in *; lia | simpl; lia]. }
    destruct room; [apply IH; lia |]. apply fmap_is_Some, IH. lia.
Qed.

Lemma parse_line_ends l : is_Some (parse_line l).
Proof.
  unfold parse_line. case_bool_decide; [by eexists |]. destruct (cut _ l) as [p nl].
  case_bool_decide; [by eexists |]. destruct (cut _ p) as [name [q |]]; [| by eexists].
  destruct (cut _ (skip_blank q)) as [port [cp |]]; [| by eexists]. destruct (cut _ cp) as [proto r].
  destruct (alias_loop_ends (length (default [] r)) (MAXALIASES - 1) r (le_n _)) as [al ->]. by eexists.
Qed.

Lemma fgets_bytes_rest n f l rest :
  fgets_bytes n f = (l, rest) -> (length rest <= length f)%nat /\ (n <> 0%nat -> f <> [] -> length rest < length f)%nat.
Proof.
  revert f l; induction n as [| n IH]; intros f l; cbn [fgets_bytes]; [intros [= _ <-]; naive_solver lia |].
  destruct f as [| b f]; [intros [= _ <-]; naive_solver lia |].
  destruct (Byte.eqb b LF); [intros [= _ <-]; simpl; lia |].
  destruct (fgets_bytes n f) as [l' r'] eqn:E. intros [= _ <-]. apply IH in E as [E _]. simpl. lia.
Qed.

Lemma fgets_shorter f l rest : fgets BUFSIZ f = Some (l, rest) -> (length rest < length f)%nat.
Proof.
  unfold fgets. destruct f as [| b f]; [done |].
  destruct (fgets_bytes (BUFSIZ - 1) (b :: f)) as [l' r'] eqn:E. intros [= _ <-].
  apply fgets_bytes_rest in E as [_ E]. apply E; [| done].
  intros H. apply (f_equal (Nat.eqb 0)) in H. vm_compute in H. discriminate H.
Qed.

(** The loop ends, and an entry leaves less to read. *)
Lemma getservent_loop_ends n f :
  (length f < n)%nat -> exists r rest, getservent_loop n f = Some (r, rest) /\
    (is_Some r -> length rest < length f)%nat.
Proof.
  revert f; induction n as [| n IH]; intros f Hn; [lia |]. cbn [getservent_loop].
  destruct (fgets BUFSIZ f) as [[l rest] |] eqn:E; [| do 2 eexists; split; [done | by intros []]].
  apply fgets_shorter in E. destruct (parse_line_ends l) as [[s |] ->]; cbn [mbind option_bind].
  - by do 2 eexists.
  - destruct (IH rest) as (r & rest' & -> & H); [lia |]. do 2 eexists. split; [done |]. intros Hr.
    specialize (H Hr). lia.
Qed.

Lemma bpgetservent_ends fs sf st :
  exists r st', bpgetservent_r fs sf st = Some (r, st') /\
    (is_Some r -> unread_bytes fs sf st' < unread_bytes fs sf st)%nat.
Proof.
  unfold bpgetservent_r, unread_bytes, fopen. destruct (servf st) as [[w f] |].
  - destruct (getservent_loop_ends (S (length f)) f) as (r & rest & -> & H); [lia |].
    by do 2 eexists.
  - destruct (fs (path_of sf)) as [f |]; [| by do 2 eexists; split; [| intros []]].
    cbn [fmap option_fmap option_map].
    destruct (getservent_loop_ends (S (length f)) f) as (r & rest & -> & H); [lia |].
    by do 2 eexists.
Qed.

Lemma servbyname_loop_ends fs n name proto sf st :
  (unread_bytes fs sf st < n)%nat -> is_Some (servbyname_loop fs n name proto sf st).
Proof.
  revert st; induction n as [| n IH]; intros st Hn; [lia |]. cbn [servbyname_loop].
  destruct (bpgetservent_ends fs sf st) as ([s |] & st' & -> & H); cbn [mbind option_bind]; [| by eexists].
  specialize (H ltac:(by eexists)). destruct (serv_matches name proto s); [by eexists |]. apply IH. lia.
Qed.

Lemma servbyport_loop_ends fs n port proto sf st :
  (unread_bytes fs sf st < n)%nat -> is_Some (servbyport_loop fs n port proto sf st).
Proof.
  revert st; induction n as [| n IH]; intros st Hn; [lia |]. cbn [servbyport_loop].
  destruct (bpgetservent_ends fs sf st) as ([s |] & st' & -> & H); cbn [mbind option_bind]; [| by eexists].
  specialize (H ltac:(by eexists)). destruct (port_matches port proto s); [by eexists |]. apply IH. lia.
Qed.

Lemma bpgetservbyname_ends fs name proto sf st : is_Some (bpgetservbyname fs name proto sf st).
Proof.
  unfold bpgetservbyname. cbv zeta.
  match goal with |- context [servbyname_loop fs ?n name proto sf ?s] =>
    destruct (servbyname_loop_ends fs n name proto sf s) as [[r st'] ->]; [lia |] end. by eexists.
Qed.

Lemma bpgetservbyport_ends fs port proto sf st : is_Some (bpgetservbyport fs port proto sf st).
Proof.
  unfold bpgetservbyport. cbv zeta.
  match goal with |- context [servbyport_loop fs ?n port proto sf ?s] =>
    destruct (servbyport_loop_ends fs n port proto sf s) as [[r st'] ->]; [lia |] end. by eexists.
Qed.

Lemma getportbyname_ends fs env name st : is_Some (getportbyname fs env name st).
Proof.
  unfold getportbyname. cbv zeta.
  match goal with |- context [bpgetservbyname fs name None None ?s] =>
    destruct (bpgetservbyname_ends fs name None None s) as [[r st1] ->] end. cbn [mbind option_bind].
  destruct (services_file st1) as [[sf |] |]; try by eexists.
  destruct (bpgetservbyname_ends fs name None (Some sf) st1) as [[r2 st2] ->]. by eexists.
Qed.

(** ** Properties *)

(** C32: A services file reads back as it was written.  A well-formed line (a comment,
    an empty line, or a name, port/protocol, up to 34 aliases and an optional
    comment) parses to exactly the entry it states, with the port in network order,
    or to nothing when it states none. *)
Theorem services_line_roundtrip l : line_ok l -> parse_line (line_bytes l) = Some (line_servent l).
Proof. apply parse_line_ok. Qed.

Definition demo_line : services_line :=
  SEntry (bs "postgresql") 5432 (bs "tcp") [bs "postgres"; bs "pg"] (Some (bs " db")).
Definition demo_user_line : services_line := SEntry (bs "pg-alt") 6000 (bs "tcp") [bs "postgresql"] None.

Definition demo_comment : services_line := SComment (bs " mine").

Lemma demo_lines_ok :
  line_ok demo_line /\ line_ok demo_user_line /\ line_ok SBlank /\ line_ok demo_comment.
Proof.
  split_and!; (split; [apply Nat.ltb_lt; vm_compute; reflexivity |]); [| | exact I | reflexivity];
    (split_and!; [reflexivity | reflexivity | lia | lia | | apply Nat.ltb_lt; reflexivity | reflexivity]);
    repeat (apply List.Forall_cons; [split; [reflexivity | discriminate] |]); apply List.Forall_nil.
Qed.

Lemma services_line_roundtrip_witness :
  parse_line (bs "postgresql" ++ TAB :: bs "5432/tcp postgres pg" ++ TAB :: bs "# db" ++ [LF]) =
    Some (Some (mk_servent (bs "postgresql") [bs "postgres"; bs "pg"] (htons 5432) (bs "tcp"))).
Proof. apply (services_line_roundtrip demo_line). apply demo_lines_ok. Defined.

(** C31: getportbyname follows its documentation.  With well-formed services files
    (or none that can be opened), it returns the port of the first entry of the
    user's file with that name or alias, else that of /etc/services, else -1.  The
    user's file is the one the environment named at the first call ([env]): whatever
    the environment holds later ([env2]), a later call for any name is answered from
    the same files and leaves the same state, with no file open. *)
Theorem getportbyname_spec fs env name etc usr st :
  serv_closed st -> services_file st = None \/ services_file st = Some env ->
  holds fs None etc -> (forall p, env = Some p -> holds fs (Some p) usr) -> (env = None -> usr = []) ->
  exists st1, serv_closed st1 /\
    getportbyname fs env name st =
      Some (default (default (-1) (services_port etc name)) (services_port usr name), st1) /\
    forall env2 name2, getportbyname fs env2 name2 st1 =
      Some (default (default (-1) (services_port etc name2)) (services_port usr name2), st1).
Proof.
  intros Hc Hsf He Hu Hn. exists (mk_serv None 0 (Some env)). split; [done |].
  split; [| intros env2 name2]; apply getportbyname_ok; try done; [| by right].
  destruct Hsf; [by left | by right].
Qed.

Lemma getportbyname_spec_witness :
  let fs p := if bool_decide (p = _PATH_SERVICES) then Some (file_bytes [SBlank; demo_line])
              else Some (file_bytes [demo_comment; demo_user_line]) in
  exists st1, getportbyname fs (Some (bs "/home/u/services")) (bs "postgresql") serv_init = Some (6000, st1) /\
    getportbyname fs None (bs "pg") st1 = Some (5432, st1).
Proof.
  destruct demo_lines_ok as (H1 & H2 & H3 & H4). intros fs.
  destruct (getportbyname_spec fs (Some (bs "/home/u/services")) (bs "postgresql") [SBlank; demo_line]
    [demo_comment; demo_user_line] serv_init) as (st1 & _ & E1 & E2).
  - split; reflexivity.
  - left. reflexivity.
  - right. split; [reflexivity |]. apply List.Forall_cons; [exact H3 |]. by apply Forall_singleton.
  - intros p [= <-]. right. split; [reflexivity |].
    apply List.Forall_cons; [exact H4 |]. by apply Forall_singleton.
  - discriminate.
  - exists st1. split; [rewrite E1 | rewrite E2]; vm_compute; reflexivity.
Defined.

(** C33: The lookup ends on any file.  Whatever bytes the services files hold and
    whatever state the module is in, the loops over a line's aliases, over the lines of
    the file and over its entries end by themselves within one turn for each byte left to
    read (they count their turns and would be [None] if they used them up), and so does
    every lookup by name, by port or of a name's port. *)
Theorem services_lookup_terminates fs env name port proto sf st :
  (forall s room, is_Some (alias_loop (length s) room (Some s))) /\
  (forall f, is_Some (getservent_loop (S (length f)) f)) /\
  is_Some (servbyname_loop fs (S (unread_bytes fs sf st)) name proto sf st) /\
  is_Some (servbyport_loop fs (S (unread_bytes fs sf st)) port proto sf st) /\
  is_Some (bpgetservent fs sf st) /\
  is_Some (bpgetservbyname fs name proto sf st) /\ is_Some (bpgetservbyport fs port proto sf st) /\
  is_Some (getportbyname fs env name st).
Proof.
  split_and!; auto using bpgetservbyname_ends, bpgetservbyport_ends, getportbyname_ends.
  - intros s room. by apply alias_loop_ends.
  - intros f. destruct (getservent_loop_ends (S (length f)) f) as (r & rest & -> & _); [lia | by eexists].
  - apply servbyname_loop_ends. lia.
  - apply servbyport_loop_ends. lia.
  - destruct (bpgetservent_ends fs sf st) as (r & st' & E & _). unfold bpgetservent. rewrite E. by eexists.
Qed.
