(* ===== verification/PpId.v ===== *)
(** src/src/trace/protocol.c, protocol identification, and parse_sockaddr of vfd.c.

    A socket address is its family and the bytes from [sa_data] to the end of the
    object: for the internet families the port and the address follow, for the
    Unix family the path.  [fs] and [senv] are the file system and the value of
    LIBBTRACE_SERVICES that getportbyname sees; [fresh] and [stk] are the memory the
    https and fcgi plugins find (Http.v, Fcgi.v). *)
From S2P Require Import Prelude CInt CString Config Plugin Psql Mysql Http X11 Fcgi Getservice.

Definition AF_FILE : Z := 1.
Definition AF_INET : Z := 2.
Definition AF_INET6 : Z := 10.

Record sockaddr := mk_sa { sa_family : Z; sa_data : list byte }.

Definition is_inet (a : sockaddr) : bool := (sa_family a =? AF_INET) || (sa_family a =? AF_INET6).

(** ntohs(sin_port) *)
Definition sin_port (a : sockaddr) : logged Z :=
  let! b := load (sa_data a) 0 2 in ret (ntohs (le_val b)).

Section ppid.
Context (fl : flags) (fs : list byte -> option file) (senv : option (list byte)).
Context (fresh : byte) (stk : list byte).

Definition is_protocol_port (name : list byte) (port : Z) (sv : serv_state) : logged (bool * serv_state) :=
  match getportbyname fs senv name sv with
  | Some (protocol_port, sv) => ret ((0 <? protocol_port) && (port =? protocol_port), sv)
  | None => stop Pending     (* never: Getservice.services_lookup_terminates *)
  end.

(** A chain of "else if (is_protocol_port(d.name, port))": the tag is what is
    logged. *)
Fixpoint first_port (l : list (list byte * pp_dispatcher)) (port : Z) (sv : serv_state) :
    logged (option pp_dispatcher * serv_state) :=
  match l with
  | [] => ret (None, sv)
  | (tag, d) :: l' =>
      let! (m, sv) := is_protocol_port (pp_name d) port sv in
      if (m : bool) then LOGBINs SYS_PP_ID 0 tag ;;; ret (Some d, sv) else first_port l' port sv
  end.

Fixpoint first_path (l : list (list byte * list byte * pp_dispatcher)) (path : list byte) :
    logged (option pp_dispatcher) :=
  match l with
  | [] => ret None
  | (needle, tag, d) :: l' =>
      let! o := of_opt (strstr path needle) in
      if o is Some _ then LOGBINs SYS_PP_ID 0 tag ;;; ret (Some d) else first_path l' path
  end.

Definition bind_ports : list (list byte * pp_dispatcher) :=
  [(bs "https", pp_https fresh); (bs "psqls", pp_psqls); (bs "mysqls", pp_mysqls);
   (bs "perlps", pp_perlps); (bs "fcgis", pp_fcgis stk)].
Definition connect_ports : list (list byte * pp_dispatcher) :=
  [(bs "httpc", pp_httpc); (bs "psqlc", pp_psqlc); (bs "mysqlc", pp_mysqlc);
   (bs "fcgic", pp_fcgic stk)].
Definition bind_paths : list (list byte * list byte * pp_dispatcher) :=
  [(bs "/var/run/postgl", bs "psqls", pp_psqls); (bs "/var/run/mysql", bs "mysqls", pp_mysqls)].
Definition connect_paths : list (list byte * list byte * pp_dispatcher) :=
  [(bs "/var/run/postgl", bs "psqlc", pp_psqlc); (bs "/var/run/mysql", bs "mysqlc", pp_mysqlc);
   (bs "/usr/local/ze", bs "fcgic", pp_fcgic stk)].

Definition pp_id_bind (addr : sockaddr) (sv : serv_state) :
    logged (option pp_dispatcher * serv_state) :=
  if negb (bb_disable_pp fl =? 0) then ret (None, sv) else
  if is_inet addr then
    let! port := sin_port addr in first_port bind_ports port sv
  else if sa_family addr =? AF_FILE then
    let! d := first_path bind_paths (sa_data addr) in ret (d, sv)
  else ret (None, sv).

Definition pp_id_connect (addr : sockaddr) (sv : serv_state) :
    logged (option pp_dispatcher * serv_state) :=
  if negb (bb_disable_pp fl =? 0) then ret (None, sv) else
  if is_inet addr then
    let! port := sin_port addr in first_port connect_ports port sv
  else if sa_family addr =? AF_FILE then
    let! d := first_path connect_paths (sa_data addr) in
    if d is Some _ then ret (d, sv) else
    let! x := of_opt (c_prefix (bs "/tmp/.X11-unix") (sa_data addr)) in
    if (x : bool) then LOGBINs SYS_PP_ID 0 (bs "xc") ;;; ret (Some pp_xc, sv) else ret (None, sv)
  else ret (None, sv).

Definition pp_id_exec (foo : list byte) : logged (option pp_dispatcher) :=
  if negb (bb_disable_pp fl =? 0) then ret None else
  let! o := of_opt (strstr foo (bs ".fcgi")) in
  if o is Some _ then LOGBINs SYS_PP_ID 0 (bs "fcgis") ;;; ret (Some (pp_fcgis stk)) else ret None.
End ppid.

(** ** parse_sockaddr *)

Definition INET_ADDRSTRLEN : Z := 16.
Definition MAX_SOCK_FN : Z := 256.

(** inet_ntop(AF_INET, ...): dotted decimal. *)
Definition dotted (b : list byte) : list byte :=
  match b with
  | [a; b; c; d] => fmt_u (bz a) ++ bs "." ++ fmt_u (bz b) ++ bs "." ++ fmt_u (bz c) ++ bs "." ++ fmt_u (bz d)
  | _ => []
  end.

(** "%2x" of a (signed) char. *)
Definition hex_digit (n : Z) : byte := if n <? 10 then zb (48 + n) else zb (87 + n).
Fixpoint hex_digits (fuel : nat) (n : Z) : list byte :=
  match fuel with
  | O => []
  | S f => (if n <? 16 then [] else hex_digits f (n / 16)) ++ [hex_digit (n mod 16)]
  end.
Definition fmt_2x (b : byte) : list byte :=
  let h := hex_digits 8 (u32 (char_val b)) in
  if zlen h =? 1 then SPC :: h else h.

Section parse.
(** inet_ntop(AF_INET6, ...) without the limit on its length. *)
Context (ntop6 : list byte -> list byte).

(** The string left in [name], an object of [len] bytes. *)
Definition parse_sockaddr (addr : sockaddr) (addrlen len : Z) : logged (list byte) :=
  if is_inet addr then
    let! a := load (sa_data addr) 2 4 in
    let! host :=
      (if le_val a =? 0 then ret (bs "127.0.0.1")
       else if sa_family addr =? AF_INET then ret (dotted a)
       else
         let! b := load (sa_data addr) 2 16 in
         let h := ntop6 b in
         ret (if zlen h <? INET_ADDRSTRLEN then h else [])) in
    let! port := sin_port addr in
    ret (snprintf (Z.to_nat len) (host ++ bs ":" ++ fmt_d port))
  else if sa_family addr =? AF_FILE then
    let splen := addrlen - 2 in
    let! c := load (sa_data addr) 0 1 in
    let! f :=
      (if negb (bool_decide (c = [NUL])) then
         check ((0 <=? splen) && (splen <=? MAX_SOCK_FN)) ;;;
         let! copy := of_opt (strncpy (Z.to_nat splen) (sa_data addr)) in
         of_opt (cstr (copy ++ [NUL]))
       else if splen <=? 0 then ret []
       else
         let! sp := load (sa_data addr) 0 splen in
         let t := concat (fmt_2x <$> sp) in
         check (zlen t <=? MAX_SOCK_FN) ;;;
         ret t) in
    ret (snprintf (Z.to_nat len) f)
  else
    let! copy := of_opt (strncpy (Z.to_nat len) (bs "unset" ++ [NUL])) in
    of_opt (cstr copy).

(** protocol.c's own copy, from before the Unix family was added; only a comment of
    speak_fcgi calls it. *)
Definition parse_sockaddr_fcgi (addr : sockaddr) (addrlen len : Z) : logged (list byte) :=
  if is_inet addr then
    let! a := load (sa_data addr) 2 4 in
    let! host :=
      (if le_val a =? 0 then ret (bs "127.0.0.1")
       else if sa_family addr =? AF_INET then ret (dotted a)
       else
         let! b := load (sa_data addr) 2 16 in
         let h := ntop6 b in
         ret (if zlen h <? INET_ADDRSTRLEN then h else [])) in
    let! port := sin_port addr in
    ret (snprintf (Z.to_nat len) (host ++ bs ":" ++ fmt_d port))
  else
    let! copy := of_opt (strncpy (Z.to_nat len) (bs "unset" ++ [NUL])) in
    of_opt (cstr copy).
End parse.

(** An internet address that is all there. *)
Definition inet_ok (a : sockaddr) : Prop :=
  is_inet a = true /\ (if sa_family a =? AF_INET then 6 else 18) <= zlen (sa_data a).

Lemma zlen_dotted b : zlen (dotted b) <= 83.
Proof.
  unfold dotted. destruct b as [| a [| b [| c [| d [|]]]]]; try zl. rewrite !zlen_app.
  pose proof (zlen_fmt_u (bz a)). pose proof (zlen_fmt_u (bz b)). pose proof (zlen_fmt_u (bz c)).
  pose proof (zlen_fmt_u (bz d)). change (zlen (bs ".")) with 1. lia.
Qed.

Lemma parse_sockaddr_inet ntop6 a n len :
  inet_ok a -> exists h, parse_sockaddr ntop6 a n len = ret h /\ zlen h <= 105.
Proof.
  intros [Hi Hl]. unfold parse_sockaddr. rewrite Hi.
  destruct (Z.eqb_spec (sa_family a) AF_INET) as [E | E];
    rewrite load_ok, bind_ret_l by lia; unfold sin_port; rewrite (load_ok _ 0) by lia;
    destruct (le_val _ =? 0); rewrite ?(load_ok _ 2), ?bind_ret_l by lia.
  all: eexists; split; [reflexivity |]; etrans; [apply zlen_snprintf |].
  all: rewrite !zlen_app; match goal with |- context [fmt_d ?p] => pose proof (zlen_fmt_d p) end.
  all: change (zlen (bs ":")) with 1.
  - change (zlen (bs "127.0.0.1")) with 9. lia.
  - match goal with |- context [dotted ?b] => pose proof (zlen_dotted b) end. lia.
  - change (zlen (bs "127.0.0.1")) with 9. lia.
  - unfold INET_ADDRSTRLEN. case_z; zl.
Qed.

(** ** Which plugin *)

Section ident.
Context (fl : flags) (fs : list byte -> option file) (senv : option (list byte)).
Context (fresh : byte) (stk : list byte).
Context (etc usr : list services_line).
Context (Hetc : holds fs None etc) (Husr : forall p, senv = Some p -> holds fs (Some p) usr).
Context (Hnone : senv = None -> usr = []).

(** The state of getservice.c between two calls. *)
Definition serv_ok (sv : serv_state) : Prop :=
  serv_closed sv /\ (services_file sv = None \/ services_file sv = Some senv).

(** The port of a protocol: the user's file first. *)
Definition port_of (name : list byte) : Z :=
  default (default (-1) (services_port etc name)) (services_port usr name).

Definition port_is (port : Z) (d : pp_dispatcher) : bool :=
  (0 <? port_of (pp_name d)) && (port =? port_of (pp_name d)).

Lemma is_protocol_port_ok name port sv :
  serv_ok sv -> exists sv', serv_ok sv' /\
  is_protocol_port fs senv name port sv = ret ((0 <? port_of name) && (port =? port_of name), sv').
Proof.
  intros [Hc Hs]. unfold is_protocol_port.
  rewrite (getportbyname_ok fs senv senv name etc usr sv) by (done || naive_solver).
  eexists. split; [| done]. split; [done | by right].
Qed.

(** The plugin of a port: the first of the chain whose protocol has it. *)
Definition ident (l : list (list byte * pp_dispatcher)) (port : Z) : option (list byte * pp_dispatcher) :=
  List.find (fun x => port_is port x.2) l.

Definition ident_log (o : option (list byte * pp_dispatcher)) : list log_op :=
  match o with Some (tag, _) => [LLog (mk_event SYS_PP_ID 0 [] (Some tag))] | None => [] end.

Lemma first_port_ok l port sv :
  serv_ok sv -> Forall (fun x => zlen x.1 <= 4064) l -> exists sv', serv_ok sv' /\
  first_port fs senv l port sv = (ident_log (ident l port), Ok (snd <$> ident l port, sv')).
Proof.
  intros Hsv Hl. revert sv Hsv; induction Hl as [| [tag d] l Ht Hl IH]; intros sv Hsv; [by exists sv |].
  cbn [first_port]. destruct (is_protocol_port_ok (pp_name d) port sv Hsv) as (sv' & Hsv' & ->).
  rewrite bind_ret_l, LOGBINs_short by done.
  unfold ident. cbn [List.find snd]. unfold port_is at 1 3.
  destruct ((0 <? port_of (pp_name d)) && (port =? port_of (pp_name d))) eqn:E.
  - exists sv'. done.
  - destruct (IH sv' Hsv') as (sv2 & Hsv2 & ->). by exists sv2.
Qed.

Lemma sin_port_ok a : 2 <= zlen (sa_data a) ->
  exists p, sin_port a = ret p.
Proof. intros H. unfold sin_port. rewrite load_ok, bind_ret_l by lia. by eexists. Qed.

Lemma pp_id_bind_inet a sv port :
  bb_disable_pp fl = 0 -> is_inet a = true -> sin_port a = ret port -> serv_ok sv ->
  exists sv', serv_ok sv' /\ pp_id_bind fl fs senv fresh stk a sv =
    (ident_log (ident (bind_ports fresh stk) port),
     Ok (snd <$> ident (bind_ports fresh stk) port, sv')).
Proof.
  intros Hpp Hi Hp Hsv. unfold pp_id_bind. rewrite Hpp, Hi, Hp. cbn [Z.eqb negb].
  rewrite bind_ret_l. apply first_port_ok; [done |]. by repeat constructor; by_eval.
Qed.

Lemma pp_id_connect_inet a sv port :
  bb_disable_pp fl = 0 -> is_inet a = true -> sin_port a = ret port -> serv_ok sv ->
  exists sv', serv_ok sv' /\ pp_id_connect fl fs senv stk a sv =
    (ident_log (ident (connect_ports stk) port),
     Ok (snd <$> ident (connect_ports stk) port, sv')).
Proof.
  intros Hpp Hi Hp Hsv. unfold pp_id_connect. rewrite Hpp, Hi, Hp. cbn [Z.eqb negb].
  rewrite bind_ret_l. apply first_port_ok; [done |]. by repeat constructor; by_eval.
Qed.

(** The roles of one protocol. *)
Lemma ident_agree port tag dc :
  ident (connect_ports stk) port = Some (tag, dc) -> port_is port pp_perlps = false ->
  exists tag' ds, ident (bind_ports fresh stk) port = Some (tag', ds) /\ pp_name ds = pp_name dc.
Proof.
  unfold ident, connect_ports, bind_ports, port_is. cbn [List.find snd pp_name pp_httpc pp_https
    pp_psqlc pp_psqls pp_mysqlc pp_mysqls pp_fcgic pp_fcgis pp_perlps].
  intros H Hperl. rewrite Hperl. repeat case_match; simplify_eq; eauto.
Qed.

Lemma first_path_psql_mysql path d1 d2 w dc :
  first_path [(bs "/var/run/postgl", bs "psqlc", pp_psqlc); (bs "/var/run/mysql", bs "mysqlc", pp_mysqlc); d1]
    path = (w, Ok (Some dc)) ->
  pp_name dc <> pp_name d2 -> d1.2 = d2 ->
  exists w' ds, first_path bind_paths path = (w', Ok (Some ds)) /\ pp_name ds = pp_name dc.
Proof.
  intros H Hne Hd. cbn [first_path bind_paths] in *.
  destruct (strstr path (bs "/var/run/postgl")) as [[n |] |]; cbn [of_opt] in *; rewrite ?bind_ret_l in *;
    [| | done].
  { inv_run. simplify_eq. do 2 eexists. by split. }
  destruct (strstr path (bs "/var/run/mysql")) as [[n |] |]; cbn [of_opt] in *; rewrite ?bind_ret_l in *;
    [| | done].
  { inv_run. simplify_eq. do 2 eexists. by split. }
  destruct d1 as [[needle tag] d]. cbn in Hd. subst d2.
  destruct (strstr path needle) as [[n |] |]; cbn [of_opt] in *; rewrite ?bind_ret_l in *; [| done | done].
  inv_run. simplify_eq.
Qed.
End ident.

(** The two agree but on Unix addresses, which the copy shows as "unset". *)
Theorem parse_sockaddr_copies ntop6 addr addrlen len :
  (sa_family addr <> AF_FILE -> parse_sockaddr_fcgi ntop6 addr addrlen len = parse_sockaddr ntop6 addr addrlen len) /\
  (sa_family addr = AF_FILE -> 6 <= len -> parse_sockaddr_fcgi ntop6 addr addrlen len = ret (bs "unset")).
Proof.
  unfold parse_sockaddr_fcgi, parse_sockaddr. split; intros H.
  - destruct (is_inet addr); [done |]. destruct (Z.eqb_spec (sa_family addr) AF_FILE); done.
  - intros Hl. unfold is_inet. rewrite H. cbn [Z.eqb AF_FILE AF_INET AF_INET6 orb Pos.eqb].
    destruct (Z.to_nat len) as [| [| [| [| [| [| n]]]]]] eqn:E; try lia.
    change (strncpy _ _) with (Some (bs "unset" ++ NUL :: replicate n NUL)). cbn [of_opt]. rewrite bind_ret_l.
    rewrite cstr_app; [done |]. by repeat (constructor; [discriminate |]).
Qed.

(** ** Properties *)

(** C25: Both ends of a connection get the same protocol.  With well-formed services
    files, when an address makes connect(2) choose a plugin, accept(2) on that
    address chooses the plugin of the same protocol: for internet addresses unless
    the port is also perlp's, and for Unix sockets for the two databases. *)
Theorem pp_id_agree fl fs senv fresh stk etc usr a sv w dc sv1 :
  holds fs None etc -> (forall p, senv = Some p -> holds fs (Some p) usr) ->
  (senv = None -> usr = []) -> serv_ok senv sv ->
  pp_id_connect fl fs senv stk a sv = (w, Ok (Some dc, sv1)) ->
  (if is_inet a then
     forall port, sin_port a = ret port -> port <> port_of etc usr (bs "perlp")
   else pp_name dc <> bs "fcgi" /\ pp_name dc <> bs "x11") ->
  exists w2 ds sv2, pp_id_bind fl fs senv fresh stk a sv = (w2, Ok (Some ds, sv2)) /\
    pp_name ds = pp_name dc.
Proof.
  intros He Hu Hn Hsv H Hcond.
  destruct (Z.eqb_spec (bb_disable_pp fl) 0) as [Hpp | Hpp].
  2:{ unfold pp_id_connect in H. destruct (Z.eqb_spec (bb_disable_pp fl) 0); [done |].
      cbn [negb] in H. inv_run. simplify_eq. }
  destruct (is_inet a) eqn:Hi.
  - destruct (sin_port a) as [w0 [port | c]] eqn:Hp.
    2:{ unfold pp_id_connect in H. rewrite Hpp, Hi, Hp in H. done. }
    assert (sin_port a = ret port) as Hport.
    { rewrite Hp. unfold sin_port in Hp. inv_run. simplify_eq.
      unfold load, check in Hm. case_match; [| done]. inv_run. by simplify_eq. }
    destruct (pp_id_connect_inet fl fs senv stk etc usr He Hu Hn a sv port Hpp Hi Hport Hsv)
      as (sv' & Hsv' & E). rewrite E in H.
    assert (snd <$> ident etc usr (connect_ports stk) port = Some dc) as Hd by congruence. clear H E.
    apply fmap_Some in Hd as ([tag d] & Eid & ->). cbn [snd] in *.
    destruct (ident_agree fresh stk etc usr port tag d Eid) as (tag' & ds & Eb & Hname).
    { unfold port_is. cbn [pp_perlps pp_name]. specialize (Hcond port (eq_trans (eq_sym Hp) Hport)).
      destruct (Z.eqb_spec port (port_of etc usr (bs "perlp"))); [done | apply andb_false_r]. }
    destruct (pp_id_bind_inet fl fs senv fresh stk etc usr He Hu Hn a sv port Hpp Hi Hport Hsv)
      as (sv2 & _ & ->).
    rewrite Eb. do 3 eexists. by split.
  - destruct Hcond as [Hf Hx]. unfold pp_id_connect in H. unfold pp_id_bind.
    rewrite Hpp, Hi in *. cbn [Z.eqb negb] in *. destruct (sa_family a =? AF_FILE); [| by inv_run].
    destruct (first_path (connect_paths stk) (sa_data a)) as [w1 [[d |] | c]] eqn:Ef; [| | done].
    + cbn [bind] in H. injection H as <- <- <-.
      destruct (first_path_psql_mysql _ _ (pp_fcgic stk) _ _ Ef Hf eq_refl) as (w' & ds & -> & Hname).
      cbn [bind]. do 3 eexists. by split.
    + cbn [bind] in H. rewrite LOGBINs_short in H by by_eval.
      destruct (c_prefix _ _) as [[|] |]; cbn in H; simplify_eq.
Qed.


(** PostgreSQL's port on the loopback address, and a services file that names it. *)
Definition demo_addr : sockaddr := mk_sa AF_INET (be_bytes 2 5432 ++ [zb 127; NUL; NUL; zb 1]).
Definition demo_fs (p : list byte) : option file :=
  if bool_decide (p = _PATH_SERVICES) then Some (file_bytes [demo_line]) else None.

Lemma demo_fs_holds : holds demo_fs None [demo_line].
Proof. right. split; [reflexivity |]. apply Forall_singleton. apply demo_lines_ok. Qed.

Lemma pp_id_agree_witness :
  exists w2 ds sv2,
    pp_id_bind (mk_flags 0 0 0 0 0) demo_fs None NUL [] demo_addr serv_init = (w2, Ok (Some ds, sv2)) /\
    pp_name ds = bs "postgresql".
Proof.
  assert (serv_ok None serv_init) as Hsv by (split; [split; reflexivity | by left]).
  destruct (pp_id_connect_inet (mk_flags 0 0 0 0 0) demo_fs None [] [demo_line] [] demo_fs_holds
    ltac:(discriminate) ltac:(reflexivity) demo_addr serv_init 5432 eq_refl eq_refl
    ltac:(vm_compute; reflexivity) Hsv) as (sv' & _ & H).
  assert (pp_name <$> (snd <$> ident [demo_line] [] (connect_ports []) 5432) = Some (bs "postgresql"))
    as Hd by (vm_compute; reflexivity).
  apply fmap_Some in Hd as (dc & Hd & ->). rewrite Hd in H.
  apply (pp_id_agree _ _ _ NUL _ [demo_line] []) in H; [exact H | exact demo_fs_holds | discriminate |
    reflexivity | exact Hsv |].
  intros port Hp. vm_compute in Hp. injection Hp as <-. vm_compute. congruence.
Defined.
