(* ===== verification/Report.v ===== *)
(** From an application's session to the printed report: the PostgreSQL plugin
    (Session.v), the thread's buffer (Binlog.v), the collector (Logd.v) and expand
    (Expand.v), one behind the other.

    [event_line] is what a logged event must look like in the report, without any of
    the formats in between. *)
From S2P Require Import Prelude CInt CString Config Fmt Binlog Common Expand Logd Plugin Psql Mysql PpId Vbuf Feed Session.

Section report.
Context (syscall2string : Z -> list byte) (sysno : syscall -> Z) (nm : byte) (self pid : Z).

(** The time of a log call, as the record has it, shifted by the collector. *)
Definition wire_time (now : timeval) : timeval :=
  mk_tv (u32 (u64 (tv_sec now))) (u32 (u64 (tv_usec now))).
Definition shifted (d now : timeval) : timeval := timeradd (wire_time now) d.

(** tid|pid|seconds,microseconds|event|result|program|arg(...),str(length:text) *)
Definition event_line (t : timeval) (e : event) : list byte :=
  let a i := fmt_d (s32 (default 0 (ev_args e !! i))) in
  let s := underscore_lf <$> default [] (ev_str e) in
  fmt_u (u64 self) ++ bs "|" ++ fmt_d pid ++ bs "|" ++
  fmt_u (u32 (tv_sec t)) ++ bs "," ++ fmt_u (u32 (tv_usec t)) ++ bs "|" ++
  syscall2string (s16 (sysno (ev_sc e))) ++ bs "|" ++ fmt_d (s16 (ev_rv e)) ++ bs "|" ++
  [nm] ++ bs "|arg(" ++ a 0%nat ++ bs "," ++ a 1%nat ++ bs "," ++ a 2%nat ++
  bs "),str(" ++ fmt_d (zlen s) ++ bs ":" ++ cbytes s ++ bs ")" ++ [LF].

Definition report (d : timeval) (l : list (log_op * timeval)) : list (list byte) :=
  omap (fun x => match x.1 with LLog e => Some (event_line (shifted d x.2) e) | LFlush => None end) l.

(** ** One record *)

Lemma zb_char b : zb (char_val b) = b.
Proof.
  apply bz_inj. rewrite bz_zb. change 256 with (2 ^ 8).
  transitivity (wrapu 8 (bz b)); [exact (wrapu_wraps 8 (bz b) ltac:(lia)) |].
  apply Z.mod_small. apply bz_range.
Qed.

Lemma cbytes_eq s : cstr (s ++ [NUL]) = Some (cbytes s).
Proof. unfold cbytes. destruct (cstr_terminated s) as [t ->]. done. Qed.

Lemma arg_shown (l : list Z) (i : nat) :
  zlen l <= 3 -> (i < 3)%nat ->
  default 0 ((ztake (zlen l) [s32 (default 0 (l !! 0%nat)); s32 (default 0 (l !! 1%nat)); s32 (default 0 (l !! 2%nat))] ++
    replicate (3 - Z.to_nat (zlen l)) 0) !! i) = s32 (default 0 (l !! i)).
Proof.
  intros Hl Hi. destruct l as [| a [| b [| c [| x l]]]];
    [destruct i as [| [| [| i]]]; done || lia .. |].
  rewrite !zlen_cons in Hl. pose proof (zlen_nonneg l). lia.
Qed.

Lemma entry_event d now lfd junk e pad :
  is_s 32 pid -> zlen junk = PIPE_BUF -> event_fits e -> zlen pad = 4 ->
  entry_line syscall2string (restamp d (event_entry sysno nm now (alloc_ctx self pid lfd junk) e pad)) =
    event_line (shifted d now) e.
Proof.
  intros Hp Hj [Ha Hz] Hpad. unfold event_entry. set (le := log_entry _ _ _ _ _ _ _ _ _ _ _).
  destruct (log_entry_wf nm now (alloc_ctx self pid lfd junk) (sysno (ev_sc e)) (ev_rv e)
    (default 0 (ev_args e !! 0%nat)) (default 0 (ev_args e !! 1%nat)) (default 0 (ev_args e !! 2%nat))
    (zlen (ev_args e)) (ev_str e) pad) as (_ & _ & Hs); [by apply alloc_ctx_wf | zl | done | done |].
  fold le in Hs. unfold entry_line, output_le, canon.
  change (entry_str (restamp d le)) with (entry_str le). rewrite Hs.
  change (entry_args (restamp d le)) with (entry_args le). unfold le, log_entry, entry_args, restamp, set_cycles.
  cbn [th_fz th_str th_arg fz_tid fz_pid fz_cycle_high fz_cycle_low fz_sc fz_rv fz_nm fz_arg_len fz_str_len
    ctx_tid ctx_pid ctx_fz_high ctx_fz_low alloc_ctx Z.eqb].
  rewrite zb_char. replace (s32 (u32 pid)) with pid by (symmetry; by apply wraps_wrapu_id).
  set (s := default [] (ev_str e)). fold (wire_time now). unfold event_line. fold s. rewrite zlen_fmap.
  rewrite !arg_shown by (done || lia). fold (shifted d now).
  destruct (Z.eqb_spec (zlen s) 0) as [E | E].
  - apply zlen_0_inv in E as ->. done.
  - pose proof (zlen_nonneg s). destruct (Z.ltb_spec 0 (zlen s)); [| lia].
    cbn [mbind option_bind]. rewrite cbytes_eq. cbn [default id]. done.
Qed.

(** ** A log *)

Lemma report_entries d lfd junk l es :
  is_s 32 pid -> zlen junk = PIPE_BUF -> Forall op_fits l ->
  records sysno nm (alloc_ctx self pid lfd junk) l es ->
  entry_line syscall2string <$> (restamp d <$> es) = report d l /\
  Forall (fun le => fz_pid (th_fz le) = u32 pid) es.
Proof.
  intros Hp Hj Hf Hr. induction Hr as [| now l es _ IH | e now pad l es Hpad _ IH]; [done | |];
    apply List.Forall_cons_iff in Hf as [He Hf]; destruct (IH Hf) as [E1 E2].
  - done.
  - split; [| by constructor]. cbn [fmap list_fmap report omap list_omap fst snd].
    rewrite entry_event by done. f_equal. exact E1.
Qed.

Lemma selected_all arg es :
  arg = 0 \/ arg = u32 pid -> Forall (fun le => fz_pid (th_fz le) = u32 pid) es ->
  filter (selected arg) es = es.
Proof.
  intros Ha. induction 1 as [| le es Hle _ IH]; [done |].
  rewrite filter_cons_True; [by rewrite IH |]. destruct Ha as [-> | ->]; [by left | by right].
Qed.
End report.

(** ** The events of a session fit the buffer *)

Definition log_fits (o : log_op) : Prop := match o with LLog e => event_fits e | LFlush => True end.

Lemma zlen_psql_data t todo : zlen (psql_data t todo) <= 65.
Proof.
  unfold psql_data. etrans; [apply zlen_snprintf |]. rewrite !zlen_app.
  pose proof (zlen_fmt_d (s32 (u32 (todo + 4)))). pose proof (zlen_fmt_d (s32 todo)).
  change (zlen (bs "psql: type=")) with 11. change (zlen [t]) with 1.
  change (zlen (bs " len=")) with 5. change (zlen (bs " todo=")) with 6. lia.
Qed.

Lemma psql_events_fit role dir s k l :
  Forall psql_ok l -> Forall log_fits (psql_events role dir s k l).
Proof.
  intros Hl. revert k. induction Hl as [| m l Hm _ IH]; intros k; [constructor |]. cbn [psql_events].
  rewrite !Forall_app. split_and!; [| | apply IH].
  - constructor.
    + split; [vm_compute; congruence |]. unfold record_size, PIPE_BUF. cbn [ev_args ev_str default id].
      pose proof (zlen_psql_data (m_type m) (zlen (m_body m))). change (zlen (@nil Z)) with 0. lia.
    + unfold psql_tracked. repeat case_match; simplify_eq; repeat constructor; vm_compute; congruence.
  - unfold query_event. destruct (Byte.eqb _ _) eqn:Eq; constructor; [| constructor].
    apply Byte.byte_dec_bl in Eq. destruct (proj2 Hm Eq) as (q & _ & Hq & ->). rewrite removelast_last.
    split; [vm_compute; congruence |]. unfold record_size, PIPE_BUF. cbn [ev_args ev_str default id].
    rewrite !zlen_app.
    change (zlen (bs "QUERY")) with 5. change (zlen (bs "=-=")) with 3. change (zlen (@nil Z)) with 0. lia.
Qed.

Lemma zip_fits (ops : list log_op) (times : list timeval) : Forall log_fits ops -> Forall op_fits (zip ops times).
Proof.
  intros H. revert times. induction H as [| o ops Ho _ IH]; intros [| t times]; constructor; [exact Ho | apply IH].
Qed.

(** Only log calls are recorded, one record each. *)
Lemma records_length sysno nm c (ops : list log_op) times es :
  Forall (fun o => o <> LFlush) ops -> length times = length ops ->
  records sysno nm c (zip ops times) es -> length es = length ops.
Proof.
  intros H. revert times es. induction H as [| o ops Ho _ IH]; intros [| t times] es Hl Hr; simplify_eq/=.
  - by inversion Hr.
  - inversion Hr; simplify_eq/=. f_equal. by eapply IH.
Qed.

Lemma first_stamp sysno nm self pid lfd junk ops now times e es :
  Forall (fun o => o <> LFlush) ops ->
  records sysno nm (alloc_ctx self pid lfd junk) (zip ops (now :: times)) (e :: es) ->
  stamp e = wire_time now.
Proof. intros H Hr. destruct H as [| o ops Ho _]; inversion Hr; simplify_eq; done. Qed.

Lemma psql_events_log role dir s id l : Forall (fun o => o <> LFlush) (psql_events role dir s id l).
Proof.
  revert id; induction l as [| m l IH]; intros id; [constructor |]. cbn [psql_events]. rewrite !Forall_app.
  unfold header_events, query_event. split_and!; [| | apply IH]; repeat case_match; repeat constructor; done.
Qed.

Lemma zlen_mysql_data id todo : zlen (mysql_data id todo) <= 58.
Proof.
  unfold mysql_data. etrans; [apply zlen_snprintf |]. rewrite !zlen_app.
  pose proof (zlen_fmt_d id). pose proof (zlen_fmt_d (s32 todo)).
  change (zlen (bs "mysql: id=")) with 10. change (zlen (bs " todo=")) with 6. lia.
Qed.

Lemma mysql_events_fit role dir s l : Forall log_fits (mysql_events role dir s l).
Proof.
  unfold mysql_events. induction l as [| k l IH]; [constructor |]. rewrite fmap_cons, concat_cons.
  apply Forall_app. split; [| exact IH]. unfold mysql_events1. constructor.
  - split; [vm_compute; congruence |]. unfold record_size, PIPE_BUF, mysql_data. cbn [ev_args ev_str default id].
    pose proof (zlen_mysql_data (k_seq k) (zlen (k_body k))) as H. unfold mysql_data in H.
    change (zlen (@nil Z)) with 0. lia.
  - unfold mysql_msg. repeat case_match; repeat constructor; vm_compute; congruence.
Qed.

Lemma mysql_events_log role dir s l : Forall (fun o => o <> LFlush) (mysql_events role dir s l).
Proof.
  unfold mysql_events. induction l as [| k l IH]; [constructor |]. rewrite fmap_cons, concat_cons.
  apply Forall_app. split; [| exact IH]. unfold mysql_events1, mysql_msg.
  repeat case_match; repeat constructor; done.
Qed.

(** ** The system for one client *)

(** The collector has accepted the client on descriptor [i] and is about to read from it:
    [lt] is its clock at the client's first record, logged at [first]; the kernel has
    answers for [n] records. *)
Definition accepted (sock i : Z) (cst : logd) (ce : env) (lt first : timeval) (n : Z) : Prop :=
  i <> sock /\ 0 <= i /\ 0 <= outfd cst /\
  get_chan cst i = mk_chan (Some []) 0 RELAY_BUF (mk_tv 0 0) /\
  (exists clk, clock ce = lt :: clk) /\ timerisset (timersub lt (wire_time first)) = true /\
  full_writes (wr ce) /\ n <= zlen (wr ce).

(** [file] is what the collector wrote for a thread that made the log calls [ops] at
    [first :: times], in the pieces expand reads it in; the kernel, on either side of
    the socket, and the collector's clock are free.  [shift]: between the clocks. *)
Definition delivered (sysno : syscall -> Z) (nm : byte) (self pid : Z) (ops : list log_op) (first : timeval)
    (times : list timeval) (shift : timeval) (file : list (list byte)) : Prop :=
  exists lfd junk now ans cst ce sock i lt pieces,
    let calls := zip ops (first :: times) in
    length (first :: times) = length ops /\ zlen junk = PIPE_BUF /\
    kernel_takes ans (PIPE_BUF * (zlen calls + 1)) /\
    accepted sock i cst ce lt first (zlen ops) /\
    Forall (fun p => 0 < zlen p <= RELAY_BUF - 65536) pieces /\
    concat pieces =
      payload (run_log sysno nm (calls ++ [(LFlush, now)]) (alloc_ctx self pid lfd junk) ans).1 /\
    shift = timersub lt (wire_time first) /\
    Forall chunk_ok file /\ zlen (concat file) < 2147483648 /\
    concat file =
      written (serve_all sock (((fun p => (i, ARead (Some p))) <$> pieces) ++ [(i, ARead (Some []))]) cst ce).1.

(** What expand prints of it. *)
Lemma delivered_reported syscall2string sysno nm self pid ops first times shift file argv tl :
  Forall log_fits ops -> Forall (fun o => o <> LFlush) ops -> is_s 32 pid ->
  delivered sysno nm self pid ops first times shift file ->
  2 <= zlen argv -> pid_arg argv = 0 \/ pid_arg argv = u32 pid ->
  expand_main syscall2string argv true (Some (zlen (concat file))) ((Some <$> file) ++ Some [] :: tl) =
    (report syscall2string sysno nm self pid shift (zip ops (first :: times)) ++
       [bs "total: " ++ fmt_d (zlen ops) ++ [LF]; bs "bytes: " ++ fmt_d (zlen (concat file)) ++ [LF]], Ok 1).
Proof.
  intros Hef Hlog Hp (lfd & junk & now & ans & cst & ce & sock & i & lt & pieces & Hlen & Hj & Hk &
    (Hi & Hi0 & Ho & Hch & [clk Hclk] & Hset & Hw & Hn) & Hpc & Hpay & -> & Hf & Hlt & Hfile) Ha Harg.
  set (calls := zip ops (first :: times)) in *. set (c := alloc_ctx self pid lfd junk) in *.
  assert (Forall op_fits calls) as Hcf by apply zip_fits, Hef.
  destruct (log_stream sysno nm c calls now ans (alloc_ctx_wf self pid lfd junk Hj Hp))
    as (out & c' & ans' & es & El & Hr & Hes & Hout); [done | done |].
  rewrite El in Hpay. cbn [fst] in Hpay.
  pose proof (records_length _ _ _ _ _ _ Hlog Hlen Hr) as Hnum.
  destruct es as [| e1 es]; [rewrite <- Hlen in Hnum; done |].
  assert (stamp e1 = wire_time first) as Hst1 by (by eapply first_stamp; [exact Hlog | exact Hr]).
  destruct (logd_relays_stream cst ce sock i pieces e1 es lt clk) as (out' & st' & ce' & Es & Ew);
    rewrite ?Hst1; try done.
  { unfold zlen in *. by rewrite Hnum. }
  { by rewrite Hpay, Hout. }
  rewrite Hst1 in Ew. rewrite Es in Hfile. cbn [fst] in Hfile. rewrite Ew in Hfile.
  set (df := timersub lt (wire_time first)) in *.
  assert (Forall wf_entry (restamp df <$> e1 :: es)) as Hwf.
  { apply Forall_fmap. eapply List.Forall_impl; [| exact Hes]. intros le. apply restamp_wf. }
  rewrite (expand_main_ok _ argv file tl _ [] Ha Hf Hwf) by (rewrite ?app_nil_r; done).
  destruct (report_entries syscall2string sysno nm self pid df lfd junk calls (e1 :: es) Hp Hj Hcf Hr) as [Er Epid].
  unfold printed. rewrite (selected_all pid), Er; [| done | apply Forall_fmap; exact Epid].
  rewrite zlen_fmap. unfold zlen at 1. rewrite Hnum. done.
Qed.

(** ** Properties *)

(** C2: From an application's queries to the report.  A PostgreSQL client writes, on a
    fresh descriptor, its startup packet and its messages in any pieces: 64 KiB in all, no
    message with an empty body (Sync or Terminate stop the plugin), a query's text without
    a NUL and of at most 4000 bytes.  The new thread's buffer takes each event the plugin
    logs, at the times [times]; the kernel takes the buffer in any pieces and fails no
    write; it reaches the collector in any pieces, on a connection just accepted, where
    the collector's clock differs from the client's and its own writes to the file are
    whole; expand reads the file, of less than 2 GiB, in any pieces.  Then the client's
    writes return and expand prints exactly one line for each event of the conversation,
    in order: thread, process, the time of the log call shifted by the clocks' difference,
    the event, its arguments and its text, for a query the text of the query; then its
    totals. *)
Theorem queries_reported syscall2string sysno nm self pid d role s prot params l chunks v st
    first times shift argv file tl :
  pp_write d = psql_io role PP_WRITE -> wwf d (psql_data_inv PP_WRITE) v ->
  wbuflen v = 0 -> wbufofs v = 0 -> ppdata v = PD_psql st ->
  psql_write st = mk_psql 0 NUL 0 0 0 ->
  Forall psql_ok l -> zlen params < 2 ^ 31 -> is_u 32 prot ->
  Forall (fun c => 0 < zlen c) chunks ->
  concat chunks = startup_bytes prot params ++ concat (psql_bytes <$> l) ->
  zlen (concat chunks) <= VBUFSIZE ->
  let events := psql_events role PP_WRITE s 0 l in
  let calls := zip events (first :: times) in
  is_s 32 pid -> delivered sysno nm self pid (app_writes chunks v s).1 first times shift file ->
  2 <= zlen argv -> pid_arg argv = 0 \/ pid_arg argv = u32 pid ->
  (exists v', app_writes chunks v s = (events, Ok v')) /\
  expand_main syscall2string argv true (Some (zlen (concat file))) ((Some <$> file) ++ Some [] :: tl) =
    (report syscall2string sysno nm self pid shift calls ++
       [bs "total: " ++ fmt_d (zlen events) ++ [LF]; bs "bytes: " ++ fmt_d (zlen (concat file)) ++ [LF]], Ok 1).
Proof.
  intros Hd Hv Hl0 H0 Hpd Hst Hok Hpar Hprot Hne Hcat Hfit events calls Hp Hdel Ha Harg.
  destruct (psql_session_logged d role s prot params l chunks v st) as (v' & E & _); try done.
  rewrite E in Hdel. split; [by exists v' |]. apply delivered_reported; try done; [by apply psql_events_fit | apply psql_events_log].
Qed.

(** A query: three events, one second apart, and a collector whose clock is ahead. *)
Definition demo_writes : list (list byte) := [ztake 3 demo_session; zdrop 3 demo_session].
Definition demo_client : vfd := demo_vfd pp_psqlc (PD_psql pp_psql_common_init).
Definition demo_calls : list (log_op * timeval) :=
  zip (psql_events PP_PSQLC_ID PP_WRITE 7 0 [demo_query]) [mk_tv 10 5; mk_tv 11 5; mk_tv 12 5].
Definition demo_sent_bytes : list byte :=
  Eval vm_compute in
    payload (run_log (fun _ => 5) "x"%byte (demo_calls ++ [(LFlush, mk_tv 13 0)])
      (alloc_ctx 9 300 79 (replicate 4096 NUL)) (replicate (4 * 4096) 1)).1.
Definition demo_pieces : list (list byte) := [ztake 50 demo_sent_bytes; zdrop 50 demo_sent_bytes].
Definition demo_collector : env := mk_env (replicate 3 65536) [mk_tv 1000 7].
Definition demo_report_file : list byte :=
  Eval vm_compute in
    written (serve_all 3 (((fun p => (5, ARead (Some p))) <$> demo_pieces) ++ [(5, ARead (Some []))])
      demo_st demo_collector).1.

(** A delivery of a concrete log, part by part. *)
Ltac deliver lfd now ans lt pieces :=
  exists lfd, (replicate 4096 NUL), now, ans, demo_st, demo_collector, 3, 5, lt, pieces; cbv zeta; split_and!;
  [ reflexivity | reflexivity | split; [apply Forall_replicate; lia | vm_compute; congruence]
  | unfold accepted; split_and!;
      first [lia | reflexivity | by eexists | apply Forall_replicate; lia | vm_compute; congruence]
  | repeat constructor; vm_compute; congruence | vm_compute; reflexivity | reflexivity
  | repeat constructor; vm_compute; congruence | vm_compute; reflexivity | vm_compute; reflexivity ].

Lemma demo_writes_log :
  (app_writes demo_writes demo_client 7).1 = psql_events PP_PSQLC_ID PP_WRITE 7 0 [demo_query].
Proof. vm_compute. reflexivity. Qed.

Lemma demo_delivered :
  delivered (fun _ => 5) "x"%byte 9 300 (app_writes demo_writes demo_client 7).1 (mk_tv 10 5) [mk_tv 11 5; mk_tv 12 5]
    (timersub (mk_tv 1000 7) (wire_time (mk_tv 10 5))) [demo_report_file].
Proof. rewrite demo_writes_log. deliver 79 (mk_tv 13 0) (replicate (4 * 4096) 1) (mk_tv 1000 7) demo_pieces. Qed.

Lemma queries_reported_witness :
  (exists v', app_writes demo_writes demo_client 7 = (psql_events PP_PSQLC_ID PP_WRITE 7 0 [demo_query], Ok v')) /\
  expand_main (fun _ => bs "call") [bs "expand"; bs "log"; bs "300"] true (Some (zlen (concat [demo_report_file])))
    ((Some <$> [demo_report_file]) ++ [Some []]) =
    ([bs "9|300|1000,7|call|0|x|arg(0,0,0),str(26:psql: type=Q len=13 todo=9)" ++ [LF];
      bs "9|300|1001,7|call|0|x|arg(6,7,0),str(5:psqlc)" ++ [LF];
      bs "9|300|1002,7|call|0|x|arg(0,0,0),str(16:QUERY=-=select 1)" ++ [LF];
      bs "total: 3" ++ [LF]; bs "bytes: 155" ++ [LF]], Ok 1).
Proof.
  apply (queries_reported (fun _ => bs "call") (fun _ => 5) "x"%byte 9 300 pp_psqlc PP_PSQLC_ID 7 196608
    (bs "user" ++ [NUL]) [demo_query] demo_writes demo_client pp_psql_common_init
    (mk_tv 10 5) [mk_tv 11 5; mk_tv 12 5] (timersub (mk_tv 1000 7) (wire_time (mk_tv 10 5)))
    [bs "expand"; bs "log"; bs "300"] [demo_report_file] []).
  - reflexivity.
  - apply (demo_vfd_wf pp_psqlc (psql_data_inv PP_WRITE) (fun _ _ => False)).
    eexists. split; [done |]. split; vm_compute; congruence.
  - reflexivity.
  - reflexivity.
  - reflexivity.
  - reflexivity.
  - repeat constructor; [intros _; exists (bs "select 1"); split; [repeat constructor; discriminate | done]].
  - vm_compute. reflexivity.
  - split; vm_compute; congruence.
  - repeat constructor.
  - vm_compute. reflexivity.
  - vm_compute. congruence.
  - split; vm_compute; congruence.
  - exact demo_delivered.
  - vm_compute. congruence.
  - right. vm_compute. reflexivity.
Defined.

(** C21: From a MySQL client's packets to the report.  However the client cuts its
    packets into writes on a fresh descriptor (64 KiB in all, and no packet whose length
    has a byte of 0x80 or more, which the plugin misreads), every write returns.  And when
    the log has reached the collector's file (the thread new, its kernel failing no write;
    the connection just accepted, the collector's clock another than the client's and its
    own writes whole; the file under 2 GiB), expand prints exactly two lines for each
    packet, in order: one with the sequence number and the length of its header, one that
    says the packet was sent, with that number; their times shifted by the clocks'
    difference; then its totals. *)
Theorem mysql_reported syscall2string sysno nm self pid d role s l chunks v st
    first times shift argv file tl :
  pp_write d = mysql_io role PP_WRITE -> wwf d (mysql_inv PP_WRITE) v ->
  wbuflen v = 0 -> wbufofs v = 0 -> ppdata v = PD_mysql st -> mysql_write st = mk_mysql 0 0 ->
  Forall mysql_ok l -> Forall (fun c => 0 < zlen c) chunks ->
  concat chunks = concat (mysql_bytes <$> l) -> zlen (concat chunks) <= VBUFSIZE ->
  let events := mysql_events role PP_WRITE s l in
  let calls := zip events (first :: times) in
  is_s 32 pid -> delivered sysno nm self pid (app_writes chunks v s).1 first times shift file ->
  2 <= zlen argv -> pid_arg argv = 0 \/ pid_arg argv = u32 pid ->
  (exists v', app_writes chunks v s = (events, Ok v')) /\
  expand_main syscall2string argv true (Some (zlen (concat file))) ((Some <$> file) ++ Some [] :: tl) =
    (report syscall2string sysno nm self pid shift calls ++
       [bs "total: " ++ fmt_d (zlen events) ++ [LF]; bs "bytes: " ++ fmt_d (zlen (concat file)) ++ [LF]], Ok 1).
Proof.
  intros Hd Hv Hl0 H0 Hpd Hst Hok Hne Hcat Hfit events calls Hp Hdel Ha Harg.
  destruct (mysql_session_logged d role s l chunks v st) as (v' & E & _); try done.
  rewrite E in Hdel. split; [by exists v' |]. apply delivered_reported; try done; [apply mysql_events_fit | apply mysql_events_log].
Qed.

Definition demo_packets : list (list byte) := [ztake 2 (mysql_bytes demo_packet); zdrop 2 (mysql_bytes demo_packet)].
Definition demo_mysql_client : vfd := demo_vfd pp_mysqlc (PD_mysql pp_mysql_common_init).
Definition demo_packet_bytes : list byte :=
  Eval vm_compute in
    payload (run_log (fun _ => 5) "x"%byte
      (zip (mysql_events PP_MYSQLC_ID PP_WRITE 7 [demo_packet]) [mk_tv 10 5; mk_tv 11 5] ++ [(LFlush, mk_tv 13 0)])
      (alloc_ctx 9 300 79 (replicate 4096 NUL)) (replicate (4 * 4096) 1)).1.
Definition demo_packet_pieces : list (list byte) := [ztake 50 demo_packet_bytes; zdrop 50 demo_packet_bytes].
Definition demo_packet_file : list byte :=
  Eval vm_compute in
    written (serve_all 3 (((fun p => (5, ARead (Some p))) <$> demo_packet_pieces) ++ [(5, ARead (Some []))])
      demo_st demo_collector).1.

Lemma demo_packets_log :
  (app_writes demo_packets demo_mysql_client 7).1 = mysql_events PP_MYSQLC_ID PP_WRITE 7 [demo_packet].
Proof. vm_compute. reflexivity. Qed.

Lemma demo_packet_delivered :
  delivered (fun _ => 5) "x"%byte 9 300 (app_writes demo_packets demo_mysql_client 7).1 (mk_tv 10 5) [mk_tv 11 5]
    (timersub (mk_tv 1000 7) (wire_time (mk_tv 10 5))) [demo_packet_file].
Proof. rewrite demo_packets_log. deliver 79 (mk_tv 13 0) (replicate (4 * 4096) 1) (mk_tv 1000 7) demo_packet_pieces. Qed.

Lemma mysql_reported_witness :
  (exists v', app_writes demo_packets demo_mysql_client 7 =
    (mysql_events PP_MYSQLC_ID PP_WRITE 7 [demo_packet], Ok v')) /\
  expand_main (fun _ => bs "call") [bs "expand"; bs "log"; bs "300"] true (Some (zlen (concat [demo_packet_file])))
    ((Some <$> [demo_packet_file]) ++ [Some []]) =
    ([bs "9|300|1000,7|call|0|x|arg(0,0,0),str(18:mysql: id=3 todo=5)" ++ [LF];
      bs "9|300|1001,7|call|0|x|arg(12,7,3),str(6:mysqlc)" ++ [LF];
      bs "total: 2" ++ [LF]; bs "bytes: 100" ++ [LF]], Ok 1).
Proof.
  apply (mysql_reported (fun _ => bs "call") (fun _ => 5) "x"%byte 9 300 pp_mysqlc PP_MYSQLC_ID 7
    [demo_packet] demo_packets demo_mysql_client pp_mysql_common_init (mk_tv 10 5) [mk_tv 11 5]
    (timersub (mk_tv 1000 7) (wire_time (mk_tv 10 5))) [bs "expand"; bs "log"; bs "300"] [demo_packet_file] []).
  - reflexivity.
  - apply (demo_vfd_wf pp_mysqlc (mysql_inv PP_WRITE) (fun _ _ => False)).
    eexists. split; [done |]. split; vm_compute; congruence.
  - reflexivity.
  - reflexivity.
  - reflexivity.
  - reflexivity.
  - repeat constructor; vm_compute; congruence.
  - repeat constructor.
  - vm_compute. reflexivity.
  - vm_compute. congruence.
  - split; vm_compute; congruence.
  - exact demo_packet_delivered.
  - vm_compute. congruence.
  - right. vm_compute. reflexivity.
Defined.
