(* ===== verification/Shown.v ===== *)
(** What of a traced program's log fits a record.

    [tame] is a log entry that either is the plugin's or is the library's own and fits
    the thread's buffer; the buffer code and the two plugins followed to the report
    log nothing else. *)
From S2P Require Import Prelude CInt CString Config Binlog Plugin Psql Mysql Vbuf Feed Report.

(** Logged in one record each. *)
Definition shown_op (o : log_op) : Prop := log_fits o /\ o <> LFlush.
Definition shown (w : list log_op) : Prop := Forall shown_op w.

Lemma shown_fits w : shown w -> Forall log_fits w.
Proof. apply List.Forall_impl. by intros o []. Qed.
Lemma shown_log w : shown w -> Forall (fun o => o <> LFlush) w.
Proof. apply List.Forall_impl. by intros o []. Qed.

Lemma psql_events_shown role dir s k l :
  Forall psql_ok l -> shown (psql_events role dir s k l).
Proof. intros Hl. apply List.Forall_and; [by apply psql_events_fit | apply psql_events_log]. Qed.
Lemma mysql_events_shown role dir s l : shown (mysql_events role dir s l).
Proof. apply List.Forall_and; [apply mysql_events_fit | apply mysql_events_log]. Qed.

Definition tame (o : log_op) : Prop := plugin_op o = true \/ shown_op o.

Lemma tame_shown w : Forall tame w -> shown (plugin_log w) -> shown w.
Proof.
  unfold shown. induction 1 as [| o w Ho _ IH]; [done |]. unfold plugin_log. cbn [List.filter].
  destruct (plugin_op o) eqn:E; intros Hp.
  - apply List.Forall_cons_iff in Hp as [? ?]. constructor; [done | by apply IH].
  - constructor; [| by apply IH]. destruct Ho as [Ho | Ho]; [congruence | exact Ho].
Qed.

Lemma tame_plugin e : negb (lib_event (ev_sc e)) = true -> tame (LLog e).
Proof. intros H. by left. Qed.
Lemma tame_short e : zlen (ev_args e) <= 3 -> zlen (default [] (ev_str e)) <= 1000 -> tame (LLog e).
Proof.
  intros Ha Hs. right. split; [| done]. split; [done |]. unfold record_size, PIPE_BUF. lia.
Qed.

Ltac tame1 :=
  unfold LOGBINs, LOGBINii, LOGBINiii, LOGBINiiis, LOGBINss, LOGBINfatal, log_flush; first [apply logs_LOGBIN | apply logs_emit];
  first [by apply tame_plugin | apply tame_short; cbn [ev_args ev_str default]; vm_compute; congruence].

(** ** The plugins *)

Lemma speak_psql_tame p s mem len role dir : logs tame (speak_psql p s mem len role dir).
Proof.
  assert (forall off, logs tame (get_int mem off)) by (intros; unfold get_int; go_logs).
  unfold speak_psql, psql_msg. go_logs; try done; tame1.
Qed.

Lemma psql_io_tame role dir data s mem len : logs tame (psql_io role dir data s mem len).
Proof. unfold psql_io. go_logs; apply speak_psql_tame. Qed.

Lemma mysql_io_tame role dir data s mem len : logs tame (mysql_io role dir data s mem len).
Proof. unfold mysql_io, speak_mysql, get_mysql_size, mysql_msg. go_logs; tame1. Qed.

(** ** The buffer code *)

Section buffer.
Context (fl : flags) (Hdebug : debug_events fl = 0).

Lemma show_buffer_tame sc v : logs tame (show_buffer fl sc v).
Proof. unfold show_buffer. rewrite Hdebug. apply logs_ret. Qed.
Lemma clear_readable_tame s rd : logs tame (clear_readable_cache fl s rd).
Proof. unfold clear_readable_cache. go_logs. tame1. Qed.
Lemma set_readable_tame s rd : logs tame (set_readable_cache fl s rd).
Proof. unfold set_readable_cache. go_logs. tame1. Qed.
Lemma when_tame m : logs tame (when (debug_events fl) m).
Proof. unfold when. rewrite Hdebug. apply logs_ret. Qed.
Hint Resolve show_buffer_tame clear_readable_tame set_readable_tame when_tame : logs.

Lemma buf_ret_tame v s rd n : logs tame (buf_ret fl v s rd n).
Proof. unfold buf_ret. go_logs. Qed.
Lemma buf_shift_tame v : logs tame (buf_shift fl v).
Proof. unfold buf_shift. go_logs. Qed.
Hint Resolve buf_ret_tame buf_shift_tame : logs.

(** A plugin that logs what fits keeps its descriptor. *)
Definition pp_tame (d : pp_dispatcher) : Prop := forall data s mem len, logs tame (pp_read d data s mem len).

Definition plugin_tame (v : vfd) : Prop := forall d, dispatcher v = Some d -> pp_tame d.

Lemma present_pp_tame v s : plugin_tame v -> logs tame (present_pp fl v s).
Proof.
  intros Hd. unfold present_pp. cbv zeta. case_match; [go_logs |]. unfold plugin_tame in Hd.
  destruct (dispatcher v) as [d |] eqn:E; cbn [of_opt]; [| apply logs_stop].
  rewrite bind_ret_l. specialize (Hd d eq_refl). go_logs; first [by apply Hd | tame1].
Qed.

Lemma present_pp_keeps v s w v' : present_pp fl v s = (w, Ok v') -> dispatcher v' = dispatcher v.
Proof. unfold present_pp. intros H. repeat case_match; inv_runs; repeat (case_match; inv_runs); by simplify_eq. Qed.
Lemma buf_shift_keeps v w v' : buf_shift fl v = (w, Ok v') -> dispatcher v' = dispatcher v.
Proof. unfold buf_shift. cbv zeta. intros H. case_match; inv_runs; by simplify_eq. Qed.

Lemma read_more_tame strict v s n rd ans : plugin_tame v -> logs tame (read_more fl strict v s n rd ans).
Proof.
  intros Hd. unfold read_more, refilled. apply logs_bind; [go_logs |]. intros w v1 E%buf_shift_keeps.
  assert (plugin_tame v1) as Hd1 by (unfold plugin_tame; by rewrite E).
  go_logs; by apply present_pp_tame.
Qed.

Lemma virtual_io_tame strict v s n rd ans : plugin_tame v -> logs tame (virtual_io fl strict v s n rd ans).
Proof.
  intros Hd. unfold virtual_io. go_logs; [by apply present_pp_tame |].
  apply read_more_tame. match goal with H : _ = (_, Ok ?v') |- plugin_tame ?v' =>
    destruct (_ && _) in H; [apply present_pp_keeps in H; unfold plugin_tame; by rewrite H | by inv_run] end.
Qed.
End buffer.
