(* ===== verification/Vfd.v ===== *)
(** src/src/trace/vfd.c: the interposed calls on descriptors.

    [proc] is the process's static state: the descriptor table, the set of tracked
    descriptors, the select cache and getservice.c's variables.  A wrapper takes the
    kernel's answer, emits what it logs and the real calls it makes, and returns the
    new state.  The sets are fd_sets and the table an array, both of 1024 entries: an
    index outside is [Undef]. *)
From S2P Require Import Prelude CInt CString Config Plugin Getservice PpId Vbuf.

Record proc := mk_proc {
  vfd_tab : gmap Z vfd;
  tracked : gset Z;
  sel_read : gset Z;
  sel_write : gset Z;
  sel_except : gset Z;
  services : serv_state
}.

Definition LOGD_FD : Z := 79.

(** A descriptor of the static, zeroed table. *)
Definition vfd0 : vfd :=
  mk_vfd VFD_NONE (replicate (Z.to_nat VBUFSIZE) NUL) 0 0 0 0 0
    (replicate (Z.to_nat VBUFSIZE) NUL) 0 0 0 None PD_null.

Definition get_vfd (st : proc) (s : Z) : vfd := default vfd0 (vfd_tab st !! s).
Definition set_vfd (st : proc) (s : Z) (v : vfd) : proc :=
  mk_proc (<[s := v]> (vfd_tab st)) (tracked st) (sel_read st) (sel_write st) (sel_except st)
    (services st).
Definition set_tracked (st : proc) (t : gset Z) : proc :=
  mk_proc (vfd_tab st) t (sel_read st) (sel_write st) (sel_except st) (services st).
Definition set_sel (st : proc) (r w e : gset Z) : proc :=
  mk_proc (vfd_tab st) (tracked st) r w e (services st).
Definition set_services (st : proc) (sv : serv_state) : proc :=
  mk_proc (vfd_tab st) (tracked st) (sel_read st) (sel_write st) (sel_except st) sv.

Definition in_range (s : Z) : bool := negb ((s <? 0) || (MAX_FDS <=? s)).

(** FD_SET(s, &tracked) *)
Definition track {W} (s : Z) (st : proc) : run W proc :=
  check (in_range s) ;;; ret (set_tracked st ({[s]} ∪ tracked st)).

Definition vfd_tab_init_one (v : vfd) : vfd :=
  mk_vfd VFD_NONE (rbuf v) 0 0 0 0 0 (wbuf v) 0 0 0 None (ppdata v).

Definition set_type (v : vfd) (t : vfd_types) : vfd :=
  mk_vfd t (rbuf v) (rbuflen v) (rbufofs v) (rlastlen v) (tosend v) (ppwantmore v)
    (wbuf v) (wbuflen v) (wbufofs v) (in_prog v) (dispatcher v) (ppdata v).
Definition set_in_prog (v : vfd) (p : Z) : vfd :=
  mk_vfd (v_type v) (rbuf v) (rbuflen v) (rbufofs v) (rlastlen v) (tosend v) (ppwantmore v)
    (wbuf v) (wbuflen v) (wbufofs v) p (dispatcher v) (ppdata v).
Definition set_dispatcher (v : vfd) (d : option pp_dispatcher) : vfd :=
  mk_vfd (v_type v) (rbuf v) (rbuflen v) (rbufofs v) (rlastlen v) (tosend v) (ppwantmore v)
    (wbuf v) (wbuflen v) (wbufofs v) (in_prog v) d (ppdata v).

(** A tracked descriptor with a fresh table entry. *)
Definition fresh_vfd {W} (s : Z) (t : vfd_types) (st : proc) : run W proc :=
  let! st := track s st in
  ret (set_vfd st s (set_type (vfd_tab_init_one (get_vfd st s)) t)).

Definition vfd_tab_init (st : proc) : proc :=
  mk_proc (vfd_tab st) {[0; 1; 2]} ∅ ∅ ∅ (services st).

(** The whole structure is copied, then the copy initialised. *)
Definition dup_vfd {W} (oldfd newfd : Z) (st : proc) : run W proc :=
  check (in_range newfd && in_range oldfd) ;;;
  let v := vfd_tab_init_one (get_vfd st oldfd) in
  ret (set_vfd st newfd (set_in_prog (set_type v VFD_DUP) 0)).

Section wrappers.
Context (fl : flags) (fs : list byte -> option file) (senv : option (list byte)).
Context (fresh : byte) (stk : list byte) (ntop6 : list byte -> list byte).

Definition disabled : bool := negb (bb_disable_all fl =? 0).

(** pthread_mutex_lock, an update of the select cache, pthread_mutex_unlock. *)
Definition with_lock (name : list byte) (st' st : proc) : logged proc :=
  if negb (lock_rv fl =? 0) then LOGBINfatal name ;;; ret st else ret st'.

Definition pipe (filedes r fd0 fd1 : Z) (st : proc) : acts (Z * proc) :=
  real (bs "pipe") [filedes] ;;;
  if disabled then ret (r, st) else
  let! st :=
    (if r =? 0 then
       let! st := track fd0 st in
       let! st := track fd1 st in
       let st := set_vfd st fd0 (vfd_tab_init_one (get_vfd st fd0)) in
       let st := set_vfd st fd1 (vfd_tab_init_one (get_vfd st fd1)) in
       let st := set_vfd st fd0 (set_type (get_vfd st fd0) VFD_PIPE) in
       ret (set_vfd st fd1 (set_type (get_vfd st fd1) VFD_PIPE))
     else ret st) in
  lift (LOGBINii SYS_PIPE r fd0 fd1) ;;;
  ret (r, st).

Definition dup (oldfd newfd : Z) (st : proc) : acts (Z * proc) :=
  real (bs "dup") [oldfd] ;;;
  if disabled then ret (newfd, st) else
  if negb (in_range oldfd) then ret (newfd, st) else
  let! st :=
    (if 0 <=? newfd then let! st := track newfd st in dup_vfd oldfd newfd st else ret st) in
  lift (LOGBINi SYS_DUP newfd oldfd) ;;;
  ret (newfd, st).

Definition dup2 (oldfd newfd r : Z) (st : proc) : acts (Z * proc) :=
  real (bs "dup2") [oldfd; newfd] ;;;
  if disabled then ret (r, st) else
  if negb (in_range oldfd) || negb (in_range newfd) then ret (r, st) else
  let! st := (if 0 <=? r then let! st := track r st in dup_vfd oldfd r st else ret st) in
  lift (LOGBINi SYS_DUP r oldfd) ;;;
  ret (r, st).

Definition F_DUPFD : Z := 0.

Definition fcntl (fd cmd arg r : Z) (st : proc) : acts (Z * proc) :=
  real (bs "fcntl") [fd; cmd; arg] ;;;
  if disabled then ret (r, st) else
  if cmd =? F_DUPFD then
    let! st := (if 0 <=? r then let! st := track r st in dup_vfd fd r st else ret st) in
    lift (LOGBINi SYS_DUP_FCNTL r fd) ;;;
    ret (r, st)
  else ret (r, st).

Definition socket (domain type protocol s : Z) (st : proc) : acts (Z * proc) :=
  real (bs "socket") [domain; type; protocol] ;;;
  if disabled then ret (s, st) else
  let! st := (if 0 <=? s then fresh_vfd s VFD_SOCK st else ret st) in
  lift (LOGBINiii SYS_SOCKET s domain type protocol) ;;;
  ret (s, st).

Definition bind_ (s : Z) (my_addr : sockaddr) (addrlen r : Z) (st : proc) : acts (Z * proc) :=
  emit (AReal (bs "bind") [s; sa_family my_addr; addrlen] [sa_data my_addr]) ;;;
  if disabled then ret (r, st) else
  if negb (in_range s) then ret (r, st) else
  let! st :=
    (if r =? 0 then
       let! (d, sv) := lift (pp_id_bind fl fs senv fresh stk my_addr (services st)) in
       ret (set_services (set_vfd st s (set_dispatcher (get_vfd st s) d)) sv)
     else ret st) in
  (if debug_events fl =? 0 then ret tt else lift (LOGBINi SYS_BIND r s)) ;;;
  ret (r, st).

Definition listen (s backlog r : Z) (st : proc) : acts (Z * proc) :=
  real (bs "listen") [s; backlog] ;;;
  if disabled then ret (r, st) else
  if negb (in_range s) then ret (r, st) else
  (if debug_events fl =? 0 then ret tt else lift (LOGBINii SYS_LISTEN r s backlog)) ;;;
  ret (r, st).

(** getpeername(2) or getsockname(2): the address and its length; [None] is -1. *)
Abbreviation name_answer := (option (sockaddr * Z)).

Definition host_port (a : name_answer) (len : Z) : logged (list byte) :=
  match a with
  | None => ret (bs "other")
  | Some (addr, addrlen) => parse_sockaddr ntop6 addr addrlen len
  end.

(** The identified plugin takes the descriptor over. *)
Definition start_plugin (s : Z) (d : option pp_dispatcher) (sv : serv_state) (st : proc) :
    logged proc :=
  let v := set_dispatcher (get_vfd st s) d in
  let! v :=
    match d with
    | None => ret v
    | Some d => let! data := pp_init d s (ppdata v) in ret (set_ppdata v data)
    end in
  ret (set_services (set_vfd st s v) sv).

(** [addr] and [addrlen] are the program's pointers for the peer's address; [junk] is
    what laddr holds when getsockname fails. *)
Definition accept (s addr addrlen new_fd : Z) (peer sock : name_answer) (junk : sockaddr) (st : proc) :
    acts (Z * proc) :=
  if disabled || negb (in_range s) then real (bs "accept") [s; addr; addrlen] ;;; ret (new_fd, st) else
  lift (LOGBINi SYS_ACCEPT_BEGIN 0 s) ;;;
  real (bs "accept") [s; addr; addrlen] ;;;
  let! st := lift (with_lock (bs "accept")
    (set_sel st (sel_read st ∖ {[s]}) (sel_write st) (sel_except st)) st) in
  let! (rhostport, lhostport, st) :=
    (if negb (new_fd =? -1) then
       let! st := fresh_vfd new_fd VFD_SOCK st in
       let! rhostport := lift (host_port peer 512) in
       let! lhostport := lift (host_port sock 512) in
       let laddr := match sock with Some (a, _) => a | None => junk end in
       let! (d, sv) := lift (pp_id_bind fl fs senv fresh stk laddr (services st)) in
       let! st := lift (start_plugin new_fd d sv st) in
       ret (rhostport, lhostport, st)
     else ret (bs "other", bs "other", st)) in
  let ctmp := rhostport ++ bs "->" ++ lhostport in
  check (zlen ctmp <? MAX_LOG_LINE) ;;;
  lift (LOGBINis SYS_ACCEPT new_fd s ctmp) ;;;
  ret (new_fd, st).

Definition connect_event (s r : Z) (peer sock : name_answer) (junk : sockaddr) (st : proc) :
    logged proc :=
  let! rhostport := host_port peer 1024 in
  let! lhostport := host_port sock 1024 in
  let st := set_vfd st s (set_in_prog (get_vfd st s) 0) in
  let raddr := match peer with Some (a, _) => a | None => junk end in
  let! (d, sv) := pp_id_connect fl fs senv stk raddr (services st) in
  let! st := start_plugin s d sv st in
  let ctmp := lhostport ++ bs "->" ++ rhostport in
  check (zlen ctmp <? MAX_LOG_LINE + 1) ;;;
  LOGBINis SYS_CONNECT r s ctmp ;;;
  ret st.

(** [einprogress]: errno after the call. *)
Definition connect (s : Z) (serv_addr : sockaddr) (addrlen r : Z) (einprogress : bool)
    (peer sock : name_answer) (junk : sockaddr) (st : proc) : acts (Z * proc) :=
  let real_connect := emit (AReal (bs "connect") [s; sa_family serv_addr; addrlen] [sa_data serv_addr]) in
  if disabled || negb (in_range s) then real_connect ;;; ret (r, st) else
  lift (LOGBINi SYS_CONNECT_BEGIN 0 s) ;;;
  real_connect ;;;
  let! st :=
    (if negb (r =? -1) then lift (connect_event s r peer sock junk st)
     else if einprogress then
       lift (LOGBINs SYS_DEBUG r (bs "connect got EINPROGRESS")) ;;;
       ret (set_vfd st s (set_in_prog (get_vfd st s) 1))
     else lift (LOGBINis SYS_CONNECT r s (bs "failed->failed")) ;;; ret st) in
  ret (r, st).

Definition close (s r : Z) (st : proc) : acts (Z * proc) :=
  if s =? LOGD_FD then ret (1, st) else
  if disabled || negb (in_range s) then real (bs "close") [s] ;;; ret (r, st) else
  let st := set_tracked st (tracked st ∖ {[s]}) in
  let v := set_in_prog (set_type (get_vfd st s) VFD_NONE) 0 in
  let v := set_rbuf v (rbuf v) 0 0 (rlastlen v) (tosend v) (ppwantmore v) in
  let! v :=
    match dispatcher v with
    | None => ret v
    | Some d =>
        let! data := lift (pp_shutdown d (ppdata v)) in
        ret (set_dispatcher (set_ppdata v data) None)
    end in
  let st := set_vfd st s v in
  let! st := lift (with_lock (bs "close")
    (set_sel st (sel_read st ∖ {[s]}) (sel_write st ∖ {[s]}) (sel_except st ∖ {[s]})) st) in
  real (bs "close") [s] ;;;
  lift (LOGBINi SYS_CLOSE r s) ;;;
  ret (r, st).

(** open(pathname, flags, ...): the real function is called without the mode. *)
Definition open (pathname : list byte) (oflags : Z) (mode : option Z) (r : Z) (st : proc) :
    acts (Z * proc) :=
  emit (AReal (bs "open") [oflags] [pathname]) ;;;
  if disabled then ret (r, st) else
  let! st := (if negb (r =? -1) then fresh_vfd r VFD_FILE st else ret st) in
  lift (LOGBINis SYS_OPEN r oflags pathname) ;;;
  ret (r, st).

Definition creat (pathname : list byte) (mode r : Z) (st : proc) : acts (Z * proc) :=
  emit (AReal (bs "creat") [mode] [pathname]) ;;;
  if disabled then ret (r, st) else
  let! st := (if negb (r =? -1) then fresh_vfd r VFD_FILE st else ret st) in
  lift (LOGBINis SYS_CREATE r 0 pathname) ;;;
  ret (r, st).

(** ** Reading *)

(** The body of read, recv and recvfrom between their two log records: [strict] as
    in [virtual_io].  The read itself is an answer taken from [ans]. *)
Definition rd_wrap (strict : bool) (s len : Z) (st : proc) (ans : answers) :
    logged (Z * list byte * proc * answers) :=
  let v := get_vfd st s in
  match dispatcher v with
  | Some _ =>
      let! (r, out, v, rd, ans) := virtual_io fl strict v s len (sel_read st) ans in
      assert (rbufofs v <=? rbuflen v) ;;;
      ret (r, out, set_sel (set_vfd st s v) rd (sel_write st) (sel_except st), ans)
  | None =>
      match ans with
      | [] => stop Pending
      | a :: ans =>
          let '(r, out) := match kread a len with None => (-1, []) | Some l => (zlen l, l) end in
          let! rd := clear_readable_cache fl s (sel_read st) in
          ret (r, out, set_sel st rd (sel_write st) (sel_except st), ans)
      end
  end.

(** Nothing but the real call. *)
Definition rd_through (len : Z) (st : proc) (ans : answers) :
    logged (Z * list byte * proc * answers) :=
  match ans with
  | [] => stop Pending
  | a :: ans =>
      let '(r, out) := match kread a len with None => (-1, []) | Some l => (zlen l, l) end in
      ret (r, out, st, ans)
  end.

Definition read (s len : Z) (st : proc) (ans : answers) : logged (Z * list byte * proc * answers) :=
  if disabled || negb (in_range s) then rd_through len st ans else
  LOGBINii SYS_READ_BEGIN 0 s len ;;;
  let! (r, out, st, ans) := rd_wrap true s len st ans in
  LOGBINii SYS_READ r s len ;;;
  ret (r, out, st, ans).

(** Only the first vector is read into. *)
Definition readv (fd : Z) (iov_lens : list Z) (st : proc) (ans : answers) :
    logged (Z * list byte * proc * answers) :=
  if disabled || negb (in_range fd) then
    rd_through (foldr Z.add 0 iov_lens) st ans
  else
    let! len := of_opt (head iov_lens) in
    read fd len st ans.

Definition recvfrom (s len rflags : Z) (st : proc) (ans : answers) :
    logged (Z * list byte * proc * answers) :=
  if disabled || negb (in_range s) then rd_through len st ans else
  LOGBINiii SYS_RECVFROM_BEGIN 0 s len rflags ;;;
  let! (r, out, st, ans) := rd_wrap false s len st ans in
  LOGBINiii SYS_RECVFROM r s len rflags ;;;
  ret (r, out, st, ans).

Definition recv (s len rflags : Z) (st : proc) (ans : answers) :
    logged (Z * list byte * proc * answers) :=
  if disabled || negb (in_range s) then rd_through len st ans else
  LOGBINiii SYS_RECV_BEGIN 0 s len rflags ;;;
  let! (r, out, st, ans) := rd_wrap false s len st ans in
  LOGBINiii SYS_RECV r s len rflags ;;;
  ret (r, out, st, ans).

(** ** Writing *)

(** vwrite_req(&vfd_tab[s], s, buf, r) *)
Definition vwrite_at (s : Z) (buf : list byte) (r : Z) (st : proc) : logged proc :=
  let! v := vwrite_req (get_vfd st s) s buf (s32 r) in ret (set_vfd st s v).

Definition clear_write (name : list byte) (s : Z) (st : proc) : logged proc :=
  with_lock name (set_sel st (sel_read st) (sel_write st ∖ {[s]}) (sel_except st)) st.

Definition write (s : Z) (buf : list byte) (len r : Z) (st : proc) : acts (Z * proc) :=
  let real_write := emit (AReal (bs "write") [s; len] [buf]) in
  if disabled || negb (in_range s) then real_write ;;; ret (r, st) else
  lift (LOGBINii SYS_WRITE_BEGIN 0 s len) ;;;
  real_write ;;;
  let! st := lift (vwrite_at s buf r st) in
  let! st := lift (clear_write (bs "write") s st) in
  lift (LOGBINii SYS_WRITE r s len) ;;;
  ret (r, st).

(** The loop of writev: the vectors, as far as the kernel took them. *)
Fixpoint writev_loop (s : Z) (vec : list (list byte)) (todo : Z) (st : proc) : logged proc :=
  match vec with
  | [] => ret st
  | iov :: vec' =>
      let try_ := s32 (if u64 todo <? zlen iov then todo else zlen iov) in
      let! st := vwrite_at s iov try_ st in
      let todo := s32 (todo - try_) in
      if todo =? 0 then ret st else writev_loop s vec' todo st
  end.

Definition writev (s : Z) (vec : list (list byte)) (r : Z) (st : proc) : acts (Z * proc) :=
  let real_writev := emit (AReal (bs "writev") [s; zlen vec] vec) in
  if disabled || negb (in_range s) then real_writev ;;; ret (r, st) else
  lift (LOGBINii SYS_WRITEV_BEGIN 0 s (zlen vec)) ;;;
  real_writev ;;;
  let r := s32 r in
  let! st :=
    lift (if negb (r =? -1) && (0 <? r) && bool_decide (is_Some (dispatcher (get_vfd st s))) then
            writev_loop s vec r st
          else ret st) in
  let! st := lift (clear_write (bs "writev") s st) in
  lift (LOGBINii SYS_WRITEV r s (zlen vec)) ;;;
  ret (r, st).

Definition send (s : Z) (buf : list byte) (len sflags r : Z) (st : proc) : acts (Z * proc) :=
  let real_send := emit (AReal (bs "send") [s; len; sflags] [buf]) in
  if disabled || negb (in_range s) then real_send ;;; ret (r, st) else
  lift (LOGBINiii SYS_SEND_BEGIN 0 s len sflags) ;;;
  real_send ;;;
  let! st := lift (vwrite_at s buf r st) in
  let! st := lift (clear_write (bs "send") s st) in
  lift (LOGBINiii SYS_SEND r s len sflags) ;;;
  ret (r, st).

(** [to] and [tolen]: the pointer to the destination, and its length. *)
Definition sendto (s : Z) (buf : list byte) (len sflags to tolen r : Z) (st : proc) : acts (Z * proc) :=
  let real_sendto := emit (AReal (bs "sendto") [s; len; sflags; to; tolen] [buf]) in
  if disabled || negb (in_range s) then real_sendto ;;; ret (r, st) else
  lift (LOGBINiii SYS_SENDTO_BEGIN 0 s len sflags) ;;;
  real_sendto ;;;
  let! st := lift (vwrite_at s buf r st) in
  let! st := lift (clear_write (bs "sendto") s st) in
  lift (LOGBINiii SYS_SENDTO r s len sflags) ;;;
  ret (r, st).

(** sendfile and sendfile64, which differ in names only; [offset] is a pointer. *)
Definition sendfile_ (name lockname : list byte) (sc_begin sc : syscall) (out_fd in_fd offset count r : Z)
    (st : proc) : acts (Z * proc) :=
  if disabled || negb (in_range out_fd) then real name [out_fd; in_fd; offset; count] ;;; ret (r, st) else
  lift (LOGBINiii sc_begin 0 out_fd in_fd count) ;;;
  real name [out_fd; in_fd; offset; count] ;;;
  let! st := lift (clear_write lockname out_fd st) in
  lift (LOGBINiii sc r out_fd in_fd count) ;;;
  ret (r, st).

Definition sendfile := sendfile_ (bs "sendfile") (bs "sendfile") SYS_SENDFILE_BEGIN SYS_SENDFILE.
Definition sendfile64 :=
  sendfile_ (bs "sendfile64") (bs "sendfi64") SYS_SENDFILE64_BEGIN SYS_SENDFILE64.
End wrappers.
