(* ===== verification/Requests.v ===== *)
(** The interposed calls of Vfd.v, one by one: what they pass on, what they change,
    when they return.  A [request] is a call with the kernel's answer to it. *)
From S2P Require Import Prelude CInt CString Config Plugin Psql Mysql Http X11 Fcgi Getservice PpId Vbuf Vfd.

Inductive request :=
| Rq_pipe (filedes r fd0 fd1 : Z)
| Rq_dup (oldfd r : Z)
| Rq_dup2 (oldfd newfd r : Z)
| Rq_fcntl (fd cmd arg r : Z)
| Rq_socket (domain type protocol r : Z)
| Rq_bind (s : Z) (addr : sockaddr) (addrlen r : Z)
| Rq_listen (s backlog r : Z)
| Rq_accept (s addr addrlen r : Z) (peer sock : option (sockaddr * Z)) (junk : sockaddr)
| Rq_connect (s : Z) (addr : sockaddr) (addrlen r : Z) (einprogress : bool)
    (peer sock : option (sockaddr * Z)) (junk : sockaddr)
| Rq_close (s r : Z)
| Rq_open (path : list byte) (oflags : Z) (mode : option Z) (r : Z)
| Rq_creat (path : list byte) (mode r : Z)
| Rq_write (s : Z) (buf : list byte) (len r : Z)
| Rq_writev (s : Z) (vec : list (list byte)) (r : Z)
| Rq_send (s : Z) (buf : list byte) (len sflags r : Z)
| Rq_sendto (s : Z) (buf : list byte) (len sflags to tolen r : Z)
| Rq_sendfile (out_fd in_fd offset count r : Z)
| Rq_sendfile64 (out_fd in_fd offset count r : Z).

(** The call the application asked for, and the kernel's answer. *)
Definition asked (rq : request) : act :=
  match rq with
  | Rq_pipe p _ _ _ => AReal (bs "pipe") [p] []
  | Rq_dup oldfd _ => AReal (bs "dup") [oldfd] []
  | Rq_dup2 oldfd newfd _ => AReal (bs "dup2") [oldfd; newfd] []
  | Rq_fcntl fd cmd arg _ => AReal (bs "fcntl") [fd; cmd; arg] []
  | Rq_socket d t p _ => AReal (bs "socket") [d; t; p] []
  | Rq_bind s a n _ => AReal (bs "bind") [s; sa_family a; n] [sa_data a]
  | Rq_listen s b _ => AReal (bs "listen") [s; b] []
  | Rq_accept s a n _ _ _ _ => AReal (bs "accept") [s; a; n] []
  | Rq_connect s a n _ _ _ _ _ => AReal (bs "connect") [s; sa_family a; n] [sa_data a]
  | Rq_close s _ => AReal (bs "close") [s] []
  | Rq_open path oflags mode _ => AReal (bs "open") (oflags :: option_list mode) [path]
  | Rq_creat path mode _ => AReal (bs "creat") [mode] [path]
  | Rq_write s buf len _ => AReal (bs "write") [s; len] [buf]
  | Rq_writev s vec _ => AReal (bs "writev") [s; zlen vec] vec
  | Rq_send s buf len f _ => AReal (bs "send") [s; len; f] [buf]
  | Rq_sendto s buf len f to n _ => AReal (bs "sendto") [s; len; f; to; n] [buf]
  | Rq_sendfile o i p c _ => AReal (bs "sendfile") [o; i; p; c] []
  | Rq_sendfile64 o i p c _ => AReal (bs "sendfile64") [o; i; p; c] []
  end.

Definition answer (rq : request) : Z :=
  match rq with
  | Rq_pipe _ r _ _ | Rq_dup _ r | Rq_dup2 _ _ r | Rq_fcntl _ _ _ r | Rq_socket _ _ _ r
  | Rq_bind _ _ _ r | Rq_listen _ _ r | Rq_accept _ _ _ r _ _ _ | Rq_connect _ _ _ r _ _ _ _
  | Rq_close _ r | Rq_open _ _ _ r | Rq_creat _ _ r | Rq_write _ _ _ r | Rq_writev _ _ r
  | Rq_send _ _ _ _ r | Rq_sendto _ _ _ _ _ _ r | Rq_sendfile _ _ _ _ r | Rq_sendfile64 _ _ _ _ r => r
  end.

(** The descriptors whose entries a request may change. *)
Definition touched (rq : request) : list Z :=
  match rq with
  | Rq_pipe _ _ fd0 fd1 => [fd0; fd1]
  | Rq_bind s _ _ _ | Rq_connect s _ _ _ _ _ _ _ | Rq_close s _ | Rq_write s _ _ _
  | Rq_writev s _ _ | Rq_send s _ _ _ _ | Rq_sendto s _ _ _ _ _ _ => [s]
  | Rq_listen _ _ _ | Rq_sendfile _ _ _ _ _ | Rq_sendfile64 _ _ _ _ _ => []
  | _ => [answer rq]
  end.

(** What is passed on unchanged: not the library's own descriptor, not open's mode. *)
Definition passed_on (rq : request) : Prop :=
  match rq with
  | Rq_close s _ => s <> LOGD_FD
  | Rq_open _ _ mode _ => mode = None
  | Rq_writev _ _ r => is_s 32 r
  | _ => True
  end.

Section requests.
Context (fl : flags) (fs : list byte -> option file) (senv : option (list byte)).
Context (fresh : byte) (stk : list byte) (ntop6 : list byte -> list byte).

Definition run_request (rq : request) (st : proc) : acts (Z * proc) :=
  match rq with
  | Rq_pipe p r fd0 fd1 => pipe fl p r fd0 fd1 st
  | Rq_dup oldfd r => dup fl oldfd r st
  | Rq_dup2 oldfd newfd r => dup2 fl oldfd newfd r st
  | Rq_fcntl fd cmd arg r => fcntl fl fd cmd arg r st
  | Rq_socket d t p r => socket fl d t p r st
  | Rq_bind s a n r => bind_ fl fs senv fresh stk s a n r st
  | Rq_listen s b r => listen fl s b r st
  | Rq_accept s a n r peer sock junk => accept fl fs senv fresh stk ntop6 s a n r peer sock junk st
  | Rq_connect s a n r e peer sock junk => connect fl fs senv stk ntop6 s a n r e peer sock junk st
  | Rq_close s r => close fl s r st
  | Rq_open path f m r => open fl path f m r st
  | Rq_creat path m r => creat fl path m r st
  | Rq_write s buf len r => write fl s buf len r st
  | Rq_writev s vec r => writev fl s vec r st
  | Rq_send s buf len f r => send fl s buf len f r st
  | Rq_sendto s buf len f to n r => sendto fl s buf len f to n r st
  | Rq_sendfile o i p c r => sendfile fl o i p c r st
  | Rq_sendfile64 o i p c r => sendfile64 fl o i p c r st
  end.

Lemma reals_lift {A} (m : logged A) w o : lift m = (w, o) -> reals w = [].
Proof. intros H. apply lift_inv in H as (l & _ & ->). apply reals_log. Qed.

Lemma track_inv {W} s st (w : list W) st' :
  track s st = (w, Ok st') -> w = [] /\ in_range s = true /\ st' = set_tracked st ({[s]} ∪ tracked st).
Proof. unfold track. intros H. inv_run. by simplify_eq. Qed.

Lemma fresh_vfd_inv {W} s t st (w : list W) st' :
  fresh_vfd s t st = (w, Ok st') ->
  w = [] /\ in_range s = true /\
  st' = set_vfd (set_tracked st ({[s]} ∪ tracked st)) s (set_type (vfd_tab_init_one (get_vfd st s)) t).
Proof.
  unfold fresh_vfd. intros H. inv_run. apply track_inv in Hm as (-> & ? & ->). by simplify_eq.
Qed.

Lemma dup_vfd_inv {W} o n st (w : list W) st' :
  dup_vfd o n st = (w, Ok st') ->
  w = [] /\ st' = set_vfd st n (set_in_prog (set_type (vfd_tab_init_one (get_vfd st o)) VFD_DUP) 0).
Proof. unfold dup_vfd. intros H. inv_run. by simplify_eq. Qed.
Lemma with_lock_inv name a b w r : with_lock fl name a b = (w, Ok r) -> r = a \/ r = b.
Proof. unfold with_lock. intros H. case_match; inv_run; auto. Qed.

(** Opens a wrapper that returned, branch by branch. *)
Ltac inv_wrap :=
  repeat first
  [ progress inv_runs
  | match goal with
    | H : (if ?b then _ else _) = (_, Ok _) |- _ => destruct b eqn:?
    | H : lift _ = (_, Ok _) |- _ => apply lift_inv in H; destruct H as (?l & H & ?); subst
    | H : real _ _ = (_, Ok _) |- _ => unfold real in H
    | H : track _ _ = (_, Ok _) |- _ => apply track_inv in H; destruct H as (? & ? & ?); subst
    | H : fresh_vfd _ _ _ = (_, Ok _) |- _ => apply fresh_vfd_inv in H; destruct H as (? & ? & ?); subst
    | H : dup_vfd _ _ _ = (_, Ok _) |- _ => apply dup_vfd_inv in H; destruct H as (? & ?); subst
    | H : (_, _) = (_, _) |- _ => injection H as; subst
    end ].

Ltac reals_simpl :=
  repeat rewrite ?reals_app, ?reals_log, ?app_nil_r; cbn [reals List.filter is_real app].

Lemma run_request_reals rq st w rv st' :
  passed_on rq -> run_request rq st = (w, Ok (rv, st')) ->
  reals w = [asked rq] /\ rv = answer rq.
Proof.
  intros Hp H. destruct rq; cbn [run_request passed_on asked answer] in *.
  - unfold pipe in H. inv_wrap; reals_simpl; done.
  - unfold dup in H. inv_wrap; reals_simpl; done.
  - unfold dup2 in H. inv_wrap; reals_simpl; done.
  - unfold fcntl in H. inv_wrap; reals_simpl; done.
  - unfold socket in H. inv_wrap; reals_simpl; done.
  - unfold bind_ in H. inv_wrap; reals_simpl; done.
  - unfold listen in H. inv_wrap; reals_simpl; done.
  - unfold accept in H. inv_wrap; reals_simpl; done.
  - unfold connect in H. inv_wrap; reals_simpl; done.
  - unfold close in H. destruct (Z.eqb_spec s LOGD_FD); [done |]. inv_wrap; reals_simpl; try done.
    all: case_match; inv_wrap; reals_simpl; done.
  - unfold open in H. subst. inv_wrap; reals_simpl; done.
  - unfold creat in H. inv_wrap; reals_simpl; done.
  - unfold write in H. inv_wrap; reals_simpl; done.
  - unfold writev in H. inv_wrap; reals_simpl; rewrite ?s32_small by (unfold is_s in *; lia); done.
  - unfold send in H. inv_wrap; reals_simpl; done.
  - unfold sendto in H. inv_wrap; reals_simpl; done.
  - unfold sendfile, sendfile_ in H. inv_wrap; reals_simpl; done.
  - unfold sendfile64, sendfile_ in H. inv_wrap; reals_simpl; done.
Qed.
(** ** Which entries change *)

Lemma get_set st s v : get_vfd (set_vfd st s v) s = v.
Proof. unfold get_vfd. cbn. by rewrite lookup_insert_eq. Qed.
Lemma get_set_ne st s v t : t <> s -> get_vfd (set_vfd st s v) t = get_vfd st t.
Proof. intros. unfold get_vfd. cbn. by rewrite lookup_insert_ne. Qed.
Lemma get_tracked st x t : get_vfd (set_tracked st x) t = get_vfd st t.
Proof. done. Qed.
Lemma get_sel st r w e t : get_vfd (set_sel st r w e) t = get_vfd st t.
Proof. done. Qed.
Lemma get_services st sv t : get_vfd (set_services st sv) t = get_vfd st t.
Proof. done. Qed.

Lemma with_lock_get name a b w r t :
  with_lock fl name a b = (w, Ok r) -> get_vfd a t = get_vfd b t -> get_vfd r t = get_vfd b t.
Proof. intros H E. by apply with_lock_inv in H as [-> | ->]. Qed.

Lemma start_plugin_get s d sv st w st' t :
  start_plugin s d sv st = (w, Ok st') -> t <> s -> get_vfd st' t = get_vfd st t.
Proof.
  unfold start_plugin. intros H Ht. inv_wrap. by rewrite get_services, get_set_ne.
Qed.

Lemma connect_event_get s r peer sock junk st w st' t :
  connect_event fl fs senv stk ntop6 s r peer sock junk st = (w, Ok st') -> t <> s ->
  get_vfd st' t = get_vfd st t.
Proof.
  unfold connect_event. intros H Ht. inv_wrap.
  erewrite start_plugin_get by done. by rewrite get_set_ne.
Qed.

Lemma vwrite_at_get s buf r st w st' t :
  vwrite_at s buf r st = (w, Ok st') -> t <> s -> get_vfd st' t = get_vfd st t.
Proof. unfold vwrite_at. intros H Ht. inv_wrap. by rewrite get_set_ne. Qed.

Lemma writev_loop_get s vec todo st w st' t :
  writev_loop s vec todo st = (w, Ok st') -> t <> s -> get_vfd st' t = get_vfd st t.
Proof.
  revert todo st w; induction vec as [| iov vec IH]; intros todo st w H Ht; cbn [writev_loop] in H;
    [by inv_wrap |].
  inv_run. assert (get_vfd a t = get_vfd st t) as E by (by eapply vwrite_at_get).
  rewrite <- E. case_match; [by inv_run | by eapply IH].
Qed.

Lemma clear_write_get name s st w st' t :
  clear_write fl name s st = (w, Ok st') -> get_vfd st' t = get_vfd st t.
Proof. unfold clear_write. intros H. by eapply with_lock_get. Qed.

Lemma run_request_frame rq st w rv st' t :
  run_request rq st = (w, Ok (rv, st')) -> ~ In t (touched rq) -> get_vfd st' t = get_vfd st t.
Proof.
  intros H Ht. destruct rq; cbn [run_request touched answer In] in *.
  - unfold pipe in H. inv_wrap; rewrite ?get_set_ne by naive_solver; done.
  - unfold dup in H. inv_wrap; rewrite ?get_set_ne by naive_solver; done.
  - unfold dup2 in H. inv_wrap; rewrite ?get_set_ne by naive_solver; done.
  - unfold fcntl in H. inv_wrap; rewrite ?get_set_ne by naive_solver; done.
  - unfold socket in H. inv_wrap; rewrite ?get_set_ne by naive_solver; done.
  - unfold bind_ in H. inv_wrap; rewrite ?get_services, ?get_set_ne by naive_solver; done.
  - unfold listen in H. by inv_wrap.
  - unfold accept in H. inv_wrap; try done;
      repeat (erewrite start_plugin_get by (eassumption || naive_solver));
      rewrite ?get_set_ne, ?get_tracked by naive_solver; by eapply with_lock_get.
  - unfold connect in H. inv_wrap; try done; [eapply connect_event_get; [done | naive_solver] |].
    by rewrite get_set_ne by naive_solver.
  - unfold close in H. inv_wrap; try done. case_match; inv_wrap;
      (erewrite with_lock_get by done); by rewrite get_set_ne by naive_solver.
  - unfold open in H. inv_wrap; rewrite ?get_set_ne by naive_solver; done.
  - unfold creat in H. inv_wrap; rewrite ?get_set_ne by naive_solver; done.
  - unfold write in H. inv_wrap; try done. erewrite clear_write_get by done.
    eapply vwrite_at_get; [done | naive_solver].
  - unfold writev in H. inv_wrap; try done; erewrite clear_write_get by done; [| done].
    eapply writev_loop_get; [done | naive_solver].
  - unfold send in H. inv_wrap; try done. erewrite clear_write_get by done.
    eapply vwrite_at_get; [done | naive_solver].
  - unfold sendto in H. inv_wrap; try done. erewrite clear_write_get by done.
    eapply vwrite_at_get; [done | naive_solver].
  - unfold sendfile, sendfile_ in H. inv_wrap; try done. by eapply clear_write_get.
  - unfold sendfile64, sendfile_ in H. inv_wrap; try done. by eapply clear_write_get.
Qed.
(** ** New descriptors *)

(** The entry of a descriptor that has just been accepted. *)
Definition new_conn (old : vfd) (d : option pp_dispatcher) (data : pp_data) : vfd :=
  mk_vfd VFD_SOCK (rbuf old) 0 0 0 0 0 (wbuf old) 0 0 0 d data.

Lemma start_plugin_ok s d sv st w st' :
  start_plugin s d sv st = (w, Ok st') ->
  exists data, get_vfd st' s = set_ppdata (set_dispatcher (get_vfd st s) d) data /\
    tracked st' = tracked st /\ services st' = sv /\
    match d with
    | None => data = ppdata (get_vfd st s) /\ w = []
    | Some d' => pp_init d' s (ppdata (get_vfd st s)) = (w, Ok data)
    end.
Proof.
  unfold start_plugin. intros H. destruct d as [d' |]; inv_run.
  - exists a0. rewrite get_services, get_set, !app_nil_r. split_and!; done.
  - eexists. rewrite get_services, get_set. by split_and!.
Qed.

(** Once accept has returned, and without disable switch, the new descriptor has a
    fresh entry and the plugin of the local address. *)
Lemma accept_ok s pa pl r peer laddr n junk st w rv st' :
  disabled fl = false -> in_range s = true -> r <> -1 ->
  accept fl fs senv fresh stk ntop6 s pa pl r peer (Some (laddr, n)) junk st = (w, Ok (rv, st')) ->
  exists d sv data wi wd,
    pp_id_bind fl fs senv fresh stk laddr (services st) = (wi, Ok (d, sv)) /\
    get_vfd st' r = new_conn (get_vfd st r) d data /\
    r ∈ tracked st' /\ in_range r = true /\
    match d with
    | None => data = ppdata (get_vfd st r) /\ wd = []
    | Some d' => pp_init d' r (ppdata (get_vfd st r)) = (wd, Ok data)
    end.
Proof.
  intros Hd Hs Hr H. unfold accept in H. rewrite Hd, Hs in H. cbn [orb negb] in H.
  destruct (Z.eqb_spec r (-1)); [done |]. cbn [negb] in H. inv_wrap.
  match goal with H : start_plugin _ _ _ _ = _ |- _ =>
    apply start_plugin_ok in H as (data & Hg & Ht & _ & Hi) end.
  match goal with H : with_lock _ _ _ _ = _ |- _ => apply with_lock_inv in H as E end.
  rewrite get_set in Hg, Hi. rewrite Hg, Ht.
  destruct E as [-> | ->]; do 5 eexists; split_and!; try done; try reflexivity; try set_solver.
Qed.

(** ** The table's invariant *)

(** A plugin whose start and end cannot fail. *)
Definition pp_ok (d : pp_dispatcher) : Prop :=
  (forall s data, returns (pp_init d s data)) /\ (forall data, returns (pp_shutdown d data)).

Lemma all_pp_ok :
  Forall pp_ok (snd <$> bind_ports fresh stk ++ connect_ports stk) /\
  Forall pp_ok (snd <$> bind_paths ++ connect_paths stk) /\ pp_ok pp_xc.
Proof.
  split_and!; cbn; repeat apply List.Forall_cons; try apply List.Forall_nil.
  all: split; intros; do 2 eexists; reflexivity.
Qed.

Lemma first_port_known l port sv w d sv' :
  first_port fs senv l port sv = (w, Ok (Some d, sv')) -> In d (snd <$> l).
Proof.
  revert sv w; induction l as [| [tag x] l IH]; intros sv w H; cbn [first_port] in H; [by inv_run |].
  apply bind_inv in H as ([m sv2] & w1 & w2 & _ & H & _). destruct m; inv_run; simplify_eq.
  - by left.
  - right. by eapply IH.
Qed.

Lemma first_port_returns l port sv :
  Forall (fun x => zlen x.1 <= 4064) l -> returns (first_port fs senv l port sv).
Proof.
  intros Hl. revert sv; induction Hl as [| [tag x] l Ht _ IH]; intros sv; cbn [first_port]; [apply returns_ret |].
  unfold is_protocol_port. destruct (getportbyname_ends fs senv (pp_name x) sv) as [[p sv2] ->].
  rewrite bind_ret_l. destruct (_ && _); [| apply IH]. rewrite LOGBINs_short by done. do 2 eexists. reflexivity.
Qed.

Lemma first_path_known l path w d :
  first_path l path = (w, Ok (Some d)) -> In d (snd <$> l).
Proof.
  revert w; induction l as [| [[needle tag] x] l IH]; intros w H; cbn [first_path] in H; [by inv_run |].
  inv_run. destruct a; inv_run; simplify_eq; [by left | right; by eapply IH].
Qed.

Lemma pp_id_bind_known a sv w d sv' :
  pp_id_bind fl fs senv fresh stk a sv = (w, Ok (Some d, sv')) -> pp_ok d.
Proof.
  destruct all_pp_ok as (Hports & Hpaths & _).
  rewrite fmap_app, Forall_app in Hports. rewrite fmap_app, Forall_app in Hpaths.
  destruct Hports as [Hpb Hpc], Hpaths as [Hub Huc].
  unfold pp_id_bind. intros H. repeat case_match; inv_run; simplify_eq.
  - apply (proj1 (List.Forall_forall _ _) Hpb). by eapply first_port_known.
  - apply (proj1 (List.Forall_forall _ _) Hub). by eapply first_path_known.
Qed.

Lemma pp_id_connect_known a sv w d sv' :
  pp_id_connect fl fs senv stk a sv = (w, Ok (Some d, sv')) -> pp_ok d.
Proof.
  destruct all_pp_ok as (Hports & Hpaths & Hx).
  rewrite fmap_app, Forall_app in Hports. rewrite fmap_app, Forall_app in Hpaths.
  destruct Hports as [Hpb Hpc], Hpaths as [Hub Huc].
  unfold pp_id_connect. intros H. repeat case_match; inv_run; simplify_eq.
  - apply (proj1 (List.Forall_forall _ _) Hpc). by eapply first_port_known.
  - destruct a0; inv_run; simplify_eq.
    + apply (proj1 (List.Forall_forall _ _) Huc). by eapply first_path_known.
    + destruct a0; inv_run; by simplify_eq.
Qed.

(** Every entry has its two buffers, and a plugin that cannot fail to start or end. *)
Definition vfd_wf (v : vfd) : Prop :=
  zlen (rbuf v) = VBUFSIZE /\ zlen (wbuf v) = VBUFSIZE /\
  (forall d, dispatcher v = Some d -> pp_ok d).
Definition proc_wf (st : proc) : Prop := forall s, vfd_wf (get_vfd st s).

Lemma wf_set st s v : proc_wf st -> vfd_wf v -> proc_wf (set_vfd st s v).
Proof.
  intros Hst Hv t. destruct (decide (t = s)) as [-> |]; [by rewrite get_set | by rewrite get_set_ne].
Qed.

(** Only the buffers and the dispatcher matter. *)
Lemma wf_same v v' :
  vfd_wf v -> rbuf v' = rbuf v -> wbuf v' = wbuf v ->
  (dispatcher v' = None \/ dispatcher v' = dispatcher v) -> vfd_wf v'.
Proof.
  intros (Hr & Hw & Hd) Er Ew Ed. unfold vfd_wf. rewrite Er, Ew. split_and!; try done.
  intros d H. apply Hd. destruct Ed; congruence.
Qed.

Lemma wf_keep st st' :
  proc_wf st -> (forall t, get_vfd st' t = get_vfd st t) -> proc_wf st'.
Proof. intros H E t. rewrite E. apply H. Qed.

Lemma with_lock_wf name a b w r :
  with_lock fl name a b = (w, Ok r) -> proc_wf a -> proc_wf b -> proc_wf r.
Proof. intros H Ha Hb. by apply with_lock_inv in H as [-> | ->]. Qed.

Lemma vwrite_loop_same fuel d v s w v' n :
  vwrite_loop fuel d v s = (w, Ok (v', n)) ->
  rbuf v' = rbuf v /\ wbuf v' = wbuf v /\ dispatcher v' = dispatcher v.
Proof.
  revert v w; induction fuel as [| f IH]; intros v w H; cbn [vwrite_loop] in H; [by inv_run |].
  cbv zeta in H. case_match; [inv_run; by simplify_eq |]. inv_runs. case_match.
  - by apply IH in H.
  - inv_run. by simplify_eq.
Qed.

Lemma vwrite_req_wf v s buf len w v' :
  vfd_wf v -> vwrite_req v s buf len = (w, Ok v') -> vfd_wf v'.
Proof.
  intros Hv H. unfold vwrite_req in H. destruct (dispatcher v) as [d |] eqn:Ed; [| by inv_run; subst].
  destruct (len <=? 0); [by inv_run; subst |]. inv_runs.
  repeat match goal with
  | H : load _ _ _ = (_, Ok _) |- _ => apply load_inv in H as (_ & _ & _ & _ & _)
  | H : store _ _ _ = (_, Ok _) |- _ => apply store_inv in H as (_ & _ & ? & _ & _)
  | H : vwrite_loop _ _ _ _ = _ |- _ => apply vwrite_loop_same in H as (? & ? & ?)
  end.
  cbn [rbuf wbuf dispatcher set_wbuf] in *. destruct Hv as (? & ? & Hd). unfold vfd_wf.
  cbn [rbuf wbuf dispatcher set_wbuf]. split_and!; [congruence.. |]. intros d' ?. apply Hd. congruence.
Qed.

Lemma start_plugin_wf s d sv st w st' :
  start_plugin s d sv st = (w, Ok st') -> (forall d', d = Some d' -> pp_ok d') ->
  proc_wf st -> proc_wf st'.
Proof.
  intros H Hd Hst. pose proof H as H'. apply start_plugin_ok in H' as (data & E & _).
  intros t. destruct (decide (t = s)) as [-> |]; [| by erewrite start_plugin_get].
  rewrite E. destruct (Hst s) as (? & ? & _). by split_and!.
Qed.

Lemma connect_event_wf s r peer sock junk st w st' :
  connect_event fl fs senv stk ntop6 s r peer sock junk st = (w, Ok st') -> proc_wf st -> proc_wf st'.
Proof.
  unfold connect_event. intros H Hst. inv_wrap. eapply start_plugin_wf; [done | |].
  - intros d' ->. by eapply pp_id_connect_known.
  - apply wf_set; [done |]. eapply wf_same; [apply (Hst s) | auto..].
Qed.

Lemma vwrite_at_wf s buf r st w st' : vwrite_at s buf r st = (w, Ok st') -> proc_wf st -> proc_wf st'.
Proof.
  unfold vwrite_at. intros H Hst. inv_wrap. apply wf_set; [done |]. by eapply vwrite_req_wf.
Qed.

Lemma writev_loop_wf s vec todo st w st' :
  writev_loop s vec todo st = (w, Ok st') -> proc_wf st -> proc_wf st'.
Proof.
  revert todo st w; induction vec as [| iov vec IH]; intros todo st w H Hst; cbn [writev_loop] in H;
    [by inv_wrap |].
  inv_run. match goal with H : vwrite_at _ _ _ _ = _ |- _ => apply vwrite_at_wf in H; [| done] end.
  case_match; [by inv_run; subst | by eapply IH].
Qed.

Lemma clear_write_wf name s st w st' : clear_write fl name s st = (w, Ok st') -> proc_wf st -> proc_wf st'.
Proof. unfold clear_write. intros H ?. by eapply with_lock_wf. Qed.

(** What the wrappers do to an entry keeps it well formed. *)
Lemma wf_get st s : proc_wf st -> vfd_wf (get_vfd st s).
Proof. intros H. apply H. Qed.
Lemma wf_init v : vfd_wf v -> vfd_wf (vfd_tab_init_one v).
Proof. intros H. eapply wf_same; [apply H | auto..]. Qed.
Lemma wf_type v t : vfd_wf v -> vfd_wf (set_type v t).
Proof. intros H. eapply wf_same; [apply H | auto..]. Qed.
Lemma wf_in_prog v p : vfd_wf v -> vfd_wf (set_in_prog v p).
Proof. intros H. eapply wf_same; [apply H | auto..]. Qed.
Lemma wf_ppdata v p : vfd_wf v -> vfd_wf (set_ppdata v p).
Proof. intros H. eapply wf_same; [apply H | auto..]. Qed.
Lemma wf_rbuf_same v a b c d e : vfd_wf v -> vfd_wf (set_rbuf v (rbuf v) a b c d e).
Proof. intros H. eapply wf_same; [apply H | auto..]. Qed.
Lemma wf_dispatcher v d : vfd_wf v -> (forall d', d = Some d' -> pp_ok d') -> vfd_wf (set_dispatcher v d).
Proof. by intros (? & ? & _) ?. Qed.
Lemma wf_tracked st t : proc_wf st -> proc_wf (set_tracked st t).
Proof. done. Qed.
Lemma wf_sel st r w e : proc_wf st -> proc_wf (set_sel st r w e).
Proof. done. Qed.
Lemma wf_services st sv : proc_wf st -> proc_wf (set_services st sv).
Proof. done. Qed.
Create HintDb wf discriminated.
Hint Resolve wf_get wf_init wf_type wf_in_prog wf_ppdata wf_rbuf_same wf_tracked wf_sel wf_services
  wf_set clear_write_wf vwrite_at_wf writev_loop_wf connect_event_wf with_lock_wf : wf.

Ltac wf_solve := solve [done | auto 40 with wf | eauto 8 with wf].

Lemma close_wf v (data : pp_data) :
  vfd_wf v -> vfd_wf (set_dispatcher (set_ppdata v data) None).
Proof. intros. apply wf_dispatcher; [by apply wf_ppdata | done]. Qed.

Lemma run_request_wf rq st w rv st' :
  proc_wf st -> run_request rq st = (w, Ok (rv, st')) -> proc_wf st'.
Proof.
  intros Hst H. destruct rq; cbn [run_request] in *.
  - unfold pipe in H. inv_wrap; wf_solve.
  - unfold dup in H. inv_wrap; wf_solve.
  - unfold dup2 in H. inv_wrap; wf_solve.
  - unfold fcntl in H. inv_wrap; wf_solve.
  - unfold socket in H. inv_wrap; wf_solve.
  - unfold bind_ in H. inv_wrap; try done. all: apply wf_services, wf_set, wf_dispatcher; auto with wf.
    all: intros d' ->; by eapply pp_id_bind_known.
  - unfold listen in H. by inv_wrap.
  - unfold accept in H. inv_wrap; try done.
    + match goal with H : start_plugin _ _ _ _ = _ |- _ => apply start_plugin_wf in H; [done | |] end.
      * intros d' ->. by eapply pp_id_bind_known.
      * wf_solve.
    + wf_solve.
  - unfold connect in H. inv_wrap; try done; wf_solve.
  - unfold close in H. inv_wrap; try done. case_match; inv_wrap.
    all: eapply with_lock_wf; [done | |]; try apply wf_sel; apply wf_set; auto with wf.
    all: apply close_wf; auto with wf.
  - unfold open in H. inv_wrap; wf_solve.
  - unfold creat in H. inv_wrap; wf_solve.
  - unfold write in H. inv_wrap; wf_solve.
  - unfold writev in H. inv_wrap; wf_solve.
  - unfold send in H. inv_wrap; wf_solve.
  - unfold sendto in H. inv_wrap; wf_solve.
  - unfold sendfile, sendfile_ in H. inv_wrap; wf_solve.
  - unfold sendfile64, sendfile_ in H. inv_wrap; wf_solve.
Qed.

(** ** The descriptors that are tracked *)

(** The set after a call: what the kernel has given is in, what is closed is out. *)
Definition tracks (rq : request) (s : gset Z) : gset Z :=
  if disabled fl then s else
  match rq with
  | Rq_pipe _ r fd0 fd1 => if r =? 0 then {[fd1]} ∪ ({[fd0]} ∪ s) else s
  | Rq_dup oldfd r => if in_range oldfd && (0 <=? r) then {[r]} ∪ s else s
  | Rq_dup2 oldfd newfd r => if in_range oldfd && in_range newfd && (0 <=? r) then {[r]} ∪ s else s
  | Rq_fcntl _ cmd _ r => if (cmd =? F_DUPFD) && (0 <=? r) then {[r]} ∪ s else s
  | Rq_socket _ _ _ r => if 0 <=? r then {[r]} ∪ s else s
  | Rq_accept fd _ _ r _ _ _ => if in_range fd && negb (r =? -1) then {[r]} ∪ s else s
  | Rq_open _ _ _ r | Rq_creat _ _ r => if negb (r =? -1) then {[r]} ∪ s else s
  | Rq_close fd _ => if in_range fd then s ∖ {[fd]} else s
  | _ => s
  end.

Lemma vwrite_at_tracked s buf r st w st' : vwrite_at s buf r st = (w, Ok st') -> tracked st' = tracked st.
Proof. unfold vwrite_at. intros H. by inv_wrap. Qed.
Lemma writev_loop_tracked s vec todo st w st' :
  writev_loop s vec todo st = (w, Ok st') -> tracked st' = tracked st.
Proof.
  revert todo st w; induction vec as [| iov vec IH]; intros todo st w H; cbn [writev_loop] in H; [by inv_wrap |].
  inv_run. match goal with H : vwrite_at _ _ _ _ = _ |- _ => apply vwrite_at_tracked in H as <- end.
  case_match; [by inv_run; subst | by eapply IH].
Qed.
Lemma with_lock_tracked name a b w r :
  with_lock fl name a b = (w, Ok r) -> tracked a = tracked b -> tracked r = tracked b.
Proof. intros H E. by apply with_lock_inv in H as [-> | ->]. Qed.
Lemma clear_write_tracked name s st w st' : clear_write fl name s st = (w, Ok st') -> tracked st' = tracked st.
Proof. unfold clear_write. intros H. by eapply with_lock_tracked. Qed.
Lemma start_plugin_tracked s d sv st w st' : start_plugin s d sv st = (w, Ok st') -> tracked st' = tracked st.
Proof. intros H. by apply start_plugin_ok in H as (? & _ & ? & _). Qed.
Lemma connect_event_tracked s r peer sock junk st w st' :
  connect_event fl fs senv stk ntop6 s r peer sock junk st = (w, Ok st') -> tracked st' = tracked st.
Proof. unfold connect_event. intros H. inv_wrap. by match goal with H : start_plugin _ _ _ _ = _ |- _ => apply start_plugin_tracked in H end. Qed.

(** The state changes of a wrapper that do not concern the set. *)
Ltac tracked_norm :=
  repeat match goal with
  | H : clear_write _ _ _ _ = (_, Ok _) |- _ => apply clear_write_tracked in H
  | H : vwrite_at _ _ _ _ = (_, Ok _) |- _ => apply vwrite_at_tracked in H
  | H : writev_loop _ _ _ _ = (_, Ok _) |- _ => apply writev_loop_tracked in H
  | H : start_plugin _ _ _ _ = (_, Ok _) |- _ => apply start_plugin_tracked in H
  | H : connect_event _ _ _ _ _ _ _ _ _ _ _ = (_, Ok _) |- _ => apply connect_event_tracked in H
  | H : with_lock _ _ _ _ = (_, Ok _) |- _ => apply with_lock_tracked in H; [| done]
  end;
  cbn [tracked set_vfd set_tracked set_sel set_services] in *;
  repeat match goal with H : tracked _ = _ |- _ => rewrite H in *; clear H end.

(** Opens a wrapper by the tests it makes. *)
Ltac tracked_cases :=
  unfold pipe, dup, dup2, fcntl, socket, bind_, listen, accept, connect, close, open, creat, write, writev,
    send, sendto, sendfile, sendfile64, sendfile_;
  destruct (disabled fl);
  repeat match goal with
  | |- context [in_range ?x] => destruct (in_range x) eqn:?
  | |- context [?a =? ?b] => destruct (Z.eqb_spec a b)
  | |- context [0 <=? ?x] => destruct (0 <=? x)
  end; cbn [orb andb negb]; try done; intros H; inv_wrap;
  try (case_match; inv_wrap); tracked_norm.

Lemma run_request_tracked rq st w rv st' :
  passed_on rq -> run_request rq st = (w, Ok (rv, st')) -> tracked st' = tracks rq (tracked st).
Proof.
  intros Hp H. unfold tracks. revert H.
  destruct rq; cbn [run_request passed_on] in *; tracked_cases; congruence.
Qed.

Lemma run_request_tracked_range rq st w rv st' :
  run_request rq st = (w, Ok (rv, st')) ->
  forall x, x ∈ tracked st' -> x ∈ tracked st \/ in_range x = true.
Proof.
  intros H x. revert H. destruct rq; cbn [run_request]; tracked_cases; set_solver.
Qed.

(** ** When a call returns *)

Definition name_ok (a : option (sockaddr * Z)) : Prop :=
  match a with Some (addr, _) => inet_ok addr | None => False end.

(** New descriptors are below MAX_FDS, addresses are internet addresses, the path of a
    file fits a record with its flags, and what is written goes to a descriptor without a
    plugin (Vbuf.v is about the others). *)
Definition request_ok (rq : request) (st : proc) : Prop :=
  match rq with
  | Rq_pipe _ r fd0 fd1 => r = 0 -> in_range fd0 = true /\ in_range fd1 = true
  | Rq_dup _ r | Rq_dup2 _ _ r | Rq_socket _ _ _ r => 0 <= r -> in_range r = true
  | Rq_fcntl fd cmd _ r => cmd = F_DUPFD -> 0 <= r -> in_range r = true /\ in_range fd = true
  | Rq_bind _ a _ r => r = 0 -> inet_ok a
  | Rq_accept _ _ _ r peer sock _ => r <> -1 -> in_range r = true /\ name_ok peer /\ name_ok sock
  | Rq_connect _ _ _ r _ peer sock _ => r <> -1 -> name_ok peer /\ name_ok sock
  | Rq_open path _ _ r | Rq_creat path _ r => (r <> -1 -> in_range r = true) /\ zlen path <= 4060
  | Rq_write s _ _ _ | Rq_writev s _ _ | Rq_send s _ _ _ _ | Rq_sendto s _ _ _ _ _ _ =>
      dispatcher (get_vfd st s) = None
  | Rq_listen _ _ _ | Rq_close _ _ | Rq_sendfile _ _ _ _ _ | Rq_sendfile64 _ _ _ _ _ => True
  end.

Lemma lift_returns {A} (m : logged A) : returns m -> returns (lift m).
Proof. intros (w & a & ->). unfold lift. cbn. by eexists _, _. Qed.
Lemma with_lock_returns name a b : zlen name <= 4064 -> returns (with_lock fl name a b).
Proof. intros. unfold with_lock. rewrite LOGBINfatal_short by done. case_match; do 2 eexists; reflexivity. Qed.
Lemma track_returns {W} s st : in_range s = true -> returns (track (W:=W) s st).
Proof. intros H. unfold track. rewrite H. do 2 eexists. reflexivity. Qed.
Lemma fresh_vfd_returns {W} s t st : in_range s = true -> returns (fresh_vfd (W:=W) s t st).
Proof. intros H. unfold fresh_vfd, track. rewrite H. do 2 eexists. reflexivity. Qed.
Lemma dup_vfd_returns {W} o n st :
  in_range o = true -> in_range n = true -> returns (dup_vfd (W:=W) o n st).
Proof. intros H1 H2. unfold dup_vfd. rewrite H1, H2. do 2 eexists. reflexivity. Qed.
Lemma clear_write_returns name s st : zlen name <= 4064 -> returns (clear_write fl name s st).
Proof. apply with_lock_returns. Qed.
Lemma vwrite_at_plain s buf r st :
  dispatcher (get_vfd st s) = None -> vwrite_at s buf r st = ret (set_vfd st s (get_vfd st s)).
Proof. intros H. unfold vwrite_at, vwrite_req. by rewrite H. Qed.
Lemma vwrite_at_returns s buf r st :
  dispatcher (get_vfd st s) = None -> returns (vwrite_at s buf r st).
Proof. intros H. rewrite vwrite_at_plain by done. apply returns_ret. Qed.

Lemma writev_loop_returns s vec todo st :
  dispatcher (get_vfd st s) = None -> returns (writev_loop s vec todo st).
Proof.
  revert todo st; induction vec as [| iov vec IH]; intros todo st H; cbn [writev_loop];
    [apply returns_ret |].
  cbv zeta. rewrite vwrite_at_plain, bind_ret_l by done. case_match; [apply returns_ret |].
  apply IH. by rewrite get_set.
Qed.

Lemma pp_id_bind_returns a sv : inet_ok a -> returns (pp_id_bind fl fs senv fresh stk a sv).
Proof.
  intros [Hi Hl]. unfold pp_id_bind. rewrite Hi.
  destruct (negb (bb_disable_pp fl =? 0)); [apply returns_ret |].
  destruct (sin_port_ok a) as [p ->]; [by destruct (sa_family a =? AF_INET); lia |]. rewrite bind_ret_l.
  apply first_port_returns. by repeat constructor; by_eval.
Qed.
Lemma pp_id_connect_returns a sv : inet_ok a -> returns (pp_id_connect fl fs senv stk a sv).
Proof.
  intros [Hi Hl]. unfold pp_id_connect. rewrite Hi.
  destruct (negb (bb_disable_pp fl =? 0)); [apply returns_ret |].
  destruct (sin_port_ok a) as [p ->]; [by destruct (sa_family a =? AF_INET); lia |]. rewrite bind_ret_l.
  apply first_port_returns. by repeat constructor; by_eval.
Qed.

Lemma start_plugin_returns s d sv st :
  (forall d', d = Some d' -> pp_ok d') -> returns (start_plugin s d sv st).
Proof.
  intros H. unfold start_plugin. destruct d as [d |]; [| do 2 eexists; reflexivity].
  destruct (proj1 (H d eq_refl) s (ppdata (set_dispatcher (get_vfd st s) (Some d)))) as (w & x & E).
  cbn [ppdata set_dispatcher] in *. rewrite E. do 2 eexists. reflexivity.
Qed.

Lemma host_port_ok a len : name_ok a -> exists h, host_port ntop6 a len = ret h /\ zlen h <= 105.
Proof. destruct a as [[a n] |]; [| done]. intros H. by apply parse_sockaddr_inet. Qed.

Hint Resolve lift_returns with_lock_returns track_returns fresh_vfd_returns dup_vfd_returns
  clear_write_returns vwrite_at_returns writev_loop_returns pp_id_bind_returns
  pp_id_connect_returns : returns.
Hint Extern 2 (zlen _ <= 4064) => by_eval : returns.

(** Runs a wrapper branch by branch. *)
Ltac go_returns :=
  repeat first
  [ solve [auto with returns]
  | match goal with
    | |- returns (bind _ _) => apply returns_bind; [| intros ? ? ?]
    | |- returns (let '(_, _) := ?p in _) => destruct p
    | |- returns (if ?b then _ else _) => destruct b eqn:?
    | |- returns (real _ _) => apply returns_emit
    | |- returns (lift (LOGBINi _ _ _)) => apply lift_returns, returns_emit
    | |- returns (lift (LOGBINs _ _ _)) => apply lift_returns; rewrite LOGBINs_short by log_bound; apply returns_emit
    | |- returns (lift (LOGBINii _ _ _ _)) => apply lift_returns, returns_emit
    | |- returns (lift (LOGBINis _ _ _ _)) => apply lift_returns; rewrite LOGBINis_short by log_bound; apply returns_emit
    | |- returns (lift (LOGBINiii _ _ _ _ _)) => apply lift_returns, returns_emit
    | |- returns (lift _) => apply lift_returns
    end ].

Lemma connect_event_returns s r peer sock junk st :
  name_ok peer -> name_ok sock -> returns (connect_event fl fs senv stk ntop6 s r peer sock junk st).
Proof.
  intros Hp Hs. unfold connect_event.
  destruct (host_port_ok peer 1024 Hp) as (h1 & -> & Hz1).
  destruct (host_port_ok sock 1024 Hs) as (h2 & -> & Hz2). rewrite !bind_ret_l.
  destruct peer as [[raddr n] |]; [| done]. cbv zeta.
  apply returns_bind; [by apply pp_id_connect_returns |]. intros w [d sv] E.
  apply returns_bind; [apply start_plugin_returns; intros d' ->; by eapply pp_id_connect_known |].
  intros w2 st2 E2. assert (zlen (h2 ++ bs "->" ++ h1) <= 212) as Hz
    by (rewrite !zlen_app; change (zlen (bs "->")) with 2; lia).
  rewrite check_true by (unfold MAX_LOG_LINE; zt). rewrite LOGBINis_short by lia. do 2 eexists. reflexivity.
Qed.

Lemma accept_returns s pa pl r peer sock junk st :
  (r <> -1 -> in_range r = true /\ name_ok peer /\ name_ok sock) ->
  returns (accept fl fs senv fresh stk ntop6 s pa pl r peer sock junk st).
Proof.
  intros H. unfold accept. destruct (disabled fl || negb (in_range s)); [do 2 eexists; reflexivity |].
  apply returns_bind; [apply returns_emit |]. intros _ _ _.
  apply returns_bind; [apply returns_emit |]. intros _ _ _.
  apply returns_bind; [auto with returns |]. intros _ st1 _.
  destruct (Z.eqb_spec r (-1)) as [-> | Hr]; cbn [negb].
  { rewrite bind_ret_l. cbv zeta iota beta. do 2 eexists. reflexivity. }
  destruct (H Hr) as (Hin & Hp & Hs).
  destruct (host_port_ok peer 512 Hp) as (h1 & -> & Hz1).
  destruct (host_port_ok sock 512 Hs) as (h2 & -> & Hz2). rewrite !lift_ret.
  apply returns_bind.
  - apply returns_bind; [auto with returns |]. intros _ st2 _. rewrite !bind_ret_l.
    destruct sock as [[laddr n] |]; [| done]. cbv zeta.
    apply returns_bind; [by apply lift_returns, pp_id_bind_returns |]. intros w [d sv] E.
    apply lift_inv in E as (l & E & _).
    apply returns_bind; [| intros; apply returns_ret]. apply lift_returns, start_plugin_returns.
    intros d' ->. by eapply pp_id_bind_known.
  - intros w [[rh lh] st3] E.
    assert (rh = h1 /\ lh = h2) as [-> ->].
    { clear Hz1 Hz2. inv_run. destruct a2 as [d sv]. inv_run. by simplify_eq. }
    cbv zeta iota beta. assert (zlen (h1 ++ bs "->" ++ h2) <= 212) as Hz
      by (rewrite !zlen_app; change (zlen (bs "->")) with 2; lia).
    rewrite check_true by (unfold MAX_LOG_LINE; zt). rewrite LOGBINis_short by lia.
    do 2 eexists. reflexivity.
Qed.

Lemma close_returns s r st : proc_wf st -> returns (close fl s r st).
Proof.
  intros Hst. unfold close. destruct (s =? LOGD_FD); [apply returns_ret |].
  destruct (disabled fl || negb (in_range s)); [do 2 eexists; reflexivity |]. cbv zeta.
  set (v := set_rbuf _ _ _ _ _ _ _).
  assert (dispatcher v = dispatcher (get_vfd st s)) as -> by reflexivity.
  apply returns_bind.
  - destruct (dispatcher (get_vfd st s)) as [d |] eqn:Ed; [| apply returns_ret].
    apply returns_bind; [| intros; apply returns_ret]. apply lift_returns.
    destruct (Hst s) as (_ & _ & Hd). by apply (Hd d).
  - intros. apply returns_bind; [auto with returns |]. intros. do 2 eexists. reflexivity.
Qed.

Lemma run_request_returns rq st : proc_wf st -> request_ok rq st -> returns (run_request rq st).
Proof.
  intros Hst Hok. destruct rq; cbn [run_request request_ok] in *.
  - unfold pipe. go_returns; apply track_returns; zbool; naive_solver.
  - unfold dup. go_returns; zbool; [apply track_returns | apply dup_vfd_returns]; auto.
  - unfold dup2. go_returns; zbool; [apply track_returns | apply dup_vfd_returns]; auto.
  - unfold fcntl. go_returns; zbool; [apply track_returns | apply dup_vfd_returns]; naive_solver.
  - unfold socket. go_returns; zbool; apply fresh_vfd_returns; auto.
  - unfold bind_. go_returns; zbool. apply pp_id_bind_returns. auto.
  - unfold listen. go_returns.
  - by apply accept_returns.
  - unfold connect. go_returns; zbool.
    by apply connect_event_returns; apply Hok.
  - by apply close_returns.
  - destruct Hok as [Hok Hz]. unfold open. go_returns; zbool; apply fresh_vfd_returns; auto.
  - destruct Hok as [Hok Hz]. unfold creat. go_returns; zbool; apply fresh_vfd_returns; auto.
  - unfold write. go_returns.
  - unfold writev. go_returns.
  - unfold send. go_returns.
  - unfold sendto. go_returns.
  - unfold sendfile, sendfile_. go_returns.
  - unfold sendfile64, sendfile_. go_returns.
Qed.
End requests.

(** The process's state before its first call: the zeroed table. *)
Definition proc0 : proc := vfd_tab_init (mk_proc ∅ ∅ ∅ ∅ ∅ serv_init).

Lemma proc0_wf : proc_wf proc0.
Proof.
  intros s. unfold get_vfd, proc0. cbn [vfd_tab_init vfd_tab]. rewrite lookup_empty.
  cbn [from_option id]. unfold vfd_wf, vfd0. cbn [rbuf wbuf dispatcher].
  rewrite zlen_replicate. unfold VBUFSIZE. split_and!; [lia | lia | done].
Qed.

(** Calls that give the process a new descriptor, when they get as far as the table. *)
Definition creates (rq : request) : option Z :=
  match rq with
  | Rq_socket _ _ _ r | Rq_open _ _ _ r | Rq_creat _ _ r => Some r
  | Rq_dup oldfd r => if in_range oldfd then Some r else None
  | Rq_fcntl _ cmd _ r => if cmd =? F_DUPFD then Some r else None
  | Rq_accept s _ _ r _ _ _ => if in_range s then Some r else None
  | _ => None
  end.

Lemma request_transparent fl fs senv fresh stk ntop6 rq st :
  proc_wf st -> request_ok rq st -> passed_on rq ->
  exists w st', run_request fl fs senv fresh stk ntop6 rq st = (w, Ok (answer rq, st')) /\
    reals w = [asked rq] /\ proc_wf st' /\
    (forall t, ~ In t (touched rq) -> get_vfd st' t = get_vfd st t).
Proof.
  intros Hst Hok Hp.
  destruct (run_request_returns fl fs senv fresh stk ntop6 rq st Hst Hok) as (w & [rv st'] & E).
  pose proof E as E1. apply run_request_reals in E1 as [Hr ->]; [| done].
  exists w, st'. split_and!; [done | done | by eapply run_request_wf |].
  intros t Ht. by eapply run_request_frame.
Qed.

(** A sequence of calls, the answers in order. *)
Section sequence.
Context (fl : flags) (fs : list byte -> option file) (senv : option (list byte)).
Context (fresh : byte) (stk : list byte) (ntop6 : list byte -> list byte).

Fixpoint run_requests (rqs : list request) (st : proc) : acts (list Z * proc) :=
  match rqs with
  | [] => ret ([], st)
  | rq :: rqs =>
      let! (rv, st) := run_request fl fs senv fresh stk ntop6 rq st in
      let! (rvs, st) := run_requests rqs st in
      ret (rv :: rvs, st)
  end.

(** Each call is one [request_ok] allows in the state the earlier ones leave. *)
Fixpoint requests_ok (rqs : list request) (st : proc) : Prop :=
  match rqs with
  | [] => True
  | rq :: rqs =>
      request_ok rq st /\
      forall w rv st', run_request fl fs senv fresh stk ntop6 rq st = (w, Ok (rv, st')) ->
        requests_ok rqs st'
  end.

Lemma run_requests_ok rqs st :
  proc_wf st -> Forall passed_on rqs -> requests_ok rqs st ->
  exists w st', run_requests rqs st = (w, Ok (answer <$> rqs, st')) /\
    reals w = asked <$> rqs /\ proc_wf st' /\
    tracked st' = foldl (fun t rq => tracks fl rq t) (tracked st) rqs /\
    ((forall x, x ∈ tracked st -> in_range x = true) -> forall x, x ∈ tracked st' -> in_range x = true).
Proof.
  intros Hst Hp. revert st Hst. induction Hp as [| rq rqs Hrq _ IH]; intros st Hst Hok.
  - by exists [], st.
  - destruct Hok as [Hok Hnext].
    destruct (request_transparent fl fs senv fresh stk ntop6 rq st Hst Hok Hrq)
      as (w1 & st1 & E1 & R1 & W1 & _).
    pose proof (run_request_tracked _ _ _ _ _ _ _ _ _ _ _ Hrq E1) as T1.
    pose proof (run_request_tracked_range _ _ _ _ _ _ _ _ _ _ _ E1) as I1.
    destruct (IH st1 W1 (Hnext _ _ _ E1)) as (w2 & st2 & E2 & R2 & W2 & T2 & I2).
    exists (w1 ++ w2), st2. cbn [run_requests]. rewrite E1. cbn [bind]. rewrite E2. cbn [bind ret].
    rewrite app_nil_r, reals_app, R1, R2. split_and!; [done | done | done | by rewrite T2, T1 |].
    intros Hin. apply I2. intros x Hx. by destruct (I1 x Hx) as [Hx' |]; [apply Hin |].
Qed.
End sequence.

(** ** Properties *)

(** C9: The calls that create, pass on and write descriptors behave as the calls they
    stand for: pipe, dup, dup2, fcntl, socket, bind, listen, accept, connect, close, open,
    creat, write, writev, send, sendto, sendfile and sendfile64.  Whatever the switches
    and the state, when new descriptors are below 1024, addresses are internet addresses,
    a path opened or created has at most 4060 bytes (its record ends the process
    otherwise), and what is written goes to a descriptor without a plugin, the call
    returns; it has made exactly the one real call it was asked for, with the same
    arguments, and returns the kernel's answer; the entries of other descriptors are as
    before, and the table's invariant holds again.  Excluded are the two ways the library
    changes a call: close of its own descriptor, and open with a mode, which it drops. *)
Theorem calls_transparent fl fs senv fresh stk ntop6 rq st :
  proc_wf st -> request_ok rq st -> passed_on rq ->
  exists w st', run_request fl fs senv fresh stk ntop6 rq st = (w, Ok (answer rq, st')) /\
    reals w = [asked rq] /\ proc_wf st' /\
    (forall t, ~ In t (touched rq) -> get_vfd st' t = get_vfd st t).
Proof. apply request_transparent. Qed.

Lemma calls_transparent_witness :
  exists w st', run_request (mk_flags 0 0 0 0 0) demo_fs None NUL [] (fun _ => [])
      (Rq_accept 3 4096 4112 5 (Some (demo_addr, 16)) (Some (demo_addr, 16)) demo_addr) proc0 = (w, Ok (5, st')) /\
    reals w = [AReal (bs "accept") [3; 4096; 4112] []] /\ get_vfd st' 3 = get_vfd proc0 3.
Proof.
  destruct (calls_transparent (mk_flags 0 0 0 0 0) demo_fs None NUL [] (fun _ => [])
    (Rq_accept 3 4096 4112 5 (Some (demo_addr, 16)) (Some (demo_addr, 16)) demo_addr) proc0) as (w & st' & E & Hr & _ & Hf).
  - exact proc0_wf.
  - intros _. split; [reflexivity |]. split; (split; [reflexivity | vm_compute; congruence]).
  - exact I.
  - exists w, st'. split; [exact E |]. split; [exact Hr |]. apply Hf. intros [H | []]. discriminate H.
Defined.

(** A descriptor of 1024 or more breaks the library.  socket, open, creat, dup,
    fcntl and accept index the table and the set of tracked descriptors with what the
    kernel returned, unchecked: beyond the table that is undefined behaviour, in a
    program that may well have that many descriptors. *)
Theorem fd_beyond_table fl fs senv fresh stk ntop6 rq r st :
  bb_disable_all fl = 0 -> creates rq = Some r -> MAX_FDS <= r ->
  post (run_request fl fs senv fresh stk ntop6 rq st) (fun o => o = Crash Undef).
Proof.
  intros Hd Hc Hr. unfold MAX_FDS in Hr.
  assert (in_range r = false) as Hin.
  { unfold in_range, MAX_FDS. apply negb_false_iff, orb_true_intro. right. apply Z.leb_le. lia. }
  assert (disabled fl = false) as Hdis by (unfold disabled; by rewrite Hd).
  assert ((0 <=? r) = true) as Hle by (apply Z.leb_le; lia).
  assert ((r =? -1) = false) as Hne by (apply Z.eqb_neq; lia).
  destruct rq; cbn [creates] in Hc; try discriminate; try destruct (in_range _) eqn:Hs in Hc;
    try destruct (_ =? F_DUPFD) eqn:Hcmd in Hc; try discriminate; injection Hc as ->;
    cbn [run_request].
  - unfold dup. rewrite Hdis, Hs, Hle. unfold track. by rewrite Hin.
  - unfold fcntl. rewrite Hdis, Hcmd, Hle. unfold track. by rewrite Hin.
  - unfold socket. rewrite Hdis, Hle. unfold fresh_vfd, track. by rewrite Hin.
  - unfold accept. rewrite Hdis, Hs, Hne. unfold fresh_vfd, track. rewrite Hin.
    unfold with_lock. destruct (negb (lock_rv fl =? 0)); reflexivity.
  - unfold open. rewrite Hdis, Hne. unfold fresh_vfd, track. by rewrite Hin.
  - unfold creat. rewrite Hdis, Hne. unfold fresh_vfd, track. by rewrite Hin.
Qed.

Lemma fd_beyond_table_witness :
  post (run_request (mk_flags 0 0 0 0 0) demo_fs None NUL [] (fun _ => []) (Rq_socket 2 1 0 1024) proc0)
    (fun o => o = Crash Undef).
Proof. apply (fd_beyond_table _ _ _ _ _ _ _ 1024); [reflexivity | reflexivity | vm_compute; congruence]. Defined.

(** A long path ends the process.  open and creat of a path of more than 4060 bytes (the
    kernel's own limit is 4096 with the terminator) make the real call, and then the
    process exits with status 1 because the record of the call does not fit. *)
Theorem open_long_path_exits fl fs senv fresh stk ntop6 path oflags r st :
  bb_disable_all fl = 0 -> 4060 < zlen path -> (r <> -1 -> in_range r = true) ->
  run_request fl fs senv fresh stk ntop6 (Rq_open path oflags None r) st =
    ([AReal (bs "open") [oflags] [path]], Crash (Exit 1)).
Proof.
  intros Hd Hz Hr. cbn [run_request]. unfold open, disabled. rewrite Hd. cbn [Z.eqb negb].
  assert (LOGBINis SYS_OPEN r oflags path = stop (Exit 1)) as ->.
  { apply LOGBIN_oversize. unfold event_size, PIPE_BUF. cbn [ev_args ev_str default from_option id].
    change (zlen [oflags]) with 1. lia. }
  destruct (Z.eqb_spec r (-1)) as [-> | Hne]; cbn [negb]; [done |].
  unfold fresh_vfd, track. by rewrite (Hr Hne).
Qed.

Lemma open_long_path_exits_witness :
  (run_request (mk_flags 0 0 0 0 0) demo_fs None NUL [] (fun _ => [])
    (Rq_open (replicate 4061 "a"%byte) 0 None 3) proc0).2 = Crash (Exit 1).
Proof. rewrite open_long_path_exits; [reflexivity | reflexivity | vm_compute; reflexivity | reflexivity]. Defined.

(** C19: The descriptor table follows a program from its first call on.  For any sequence
    of the calls of C9, each within its conditions in the state the earlier ones leave
    (descriptors below 1024, internet addresses, paths up to 4060 bytes, writes while no
    plugin is attached; not close of the library's descriptor, nor open with a mode),
    every call returns the kernel's answer, and the kernel has seen exactly those calls in
    that order.  At the end the library tracks exactly the standard descriptors and those
    the kernel gave, less those closed, whether or not the close succeeded, all of them
    indices of the table; and every entry of the table has its two whole buffers and a
    plugin that starts and ends without failing.  With the library switched off it tracks
    none of it. *)
Theorem descriptor_table_sound fl fs senv fresh stk ntop6 rqs :
  Forall passed_on rqs -> requests_ok fl fs senv fresh stk ntop6 rqs proc0 ->
  exists w st, run_requests fl fs senv fresh stk ntop6 rqs proc0 = (w, Ok (answer <$> rqs, st)) /\
    reals w = asked <$> rqs /\ proc_wf st /\
    tracked st = foldl (fun t rq => tracks fl rq t) {[0; 1; 2]} rqs /\
    (forall x, x ∈ tracked st -> in_range x = true).
Proof.
  intros Hp Hok. destruct (run_requests_ok fl fs senv fresh stk ntop6 rqs proc0 proc0_wf Hp Hok)
    as (w & st & E & Hr & Hw & Ht & Hin).
  exists w, st. split_and!; [done.. |]. apply Hin. unfold proc0. cbn [vfd_tab_init tracked].
  intros x Hx. assert (x = 0 \/ x = 1 \/ x = 2) as [-> | [-> | ->]] by set_solver; done.
Qed.

Lemma descriptor_table_sound_witness :
  let rqs := [Rq_socket 2 1 0 3; Rq_listen 3 5 0;
    Rq_accept 3 0 0 4 (Some (demo_addr, 16)) (Some (demo_addr, 16)) demo_addr; Rq_dup 4 5; Rq_close 4 0] in
  exists w st, run_requests (mk_flags 0 0 0 0 0) demo_fs None NUL [] (fun _ => []) rqs proc0 =
      (w, Ok ([3; 0; 4; 5; 0], st)) /\
    reals w = [AReal (bs "socket") [2; 1; 0] []; AReal (bs "listen") [3; 5] [];
      AReal (bs "accept") [3; 0; 0] []; AReal (bs "dup") [4] []; AReal (bs "close") [4] []] /\
    tracked st = {[0; 1; 2; 3; 5]}.
Proof.
  cbv zeta. destruct (descriptor_table_sound (mk_flags 0 0 0 0 0) demo_fs None NUL [] (fun _ => [])
    [Rq_socket 2 1 0 3; Rq_listen 3 5 0;
     Rq_accept 3 0 0 4 (Some (demo_addr, 16)) (Some (demo_addr, 16)) demo_addr; Rq_dup 4 5; Rq_close 4 0])
    as (w & st & E & Hr & _ & Ht & _).
  - repeat constructor; discriminate.
  - split; [intros _; reflexivity |]. intros _ _ st1 _. split; [exact I |]. intros _ _ st2 _.
    split; [intros _; split; [reflexivity |]; split; (split; [reflexivity | vm_compute; congruence]) |].
    intros _ _ st3 _. split; [intros _; reflexivity |]. intros _ _ st4 _. split; [exact I |]. by intros.
  - exists w, st. split; [exact E |]. split; [exact Hr |]. rewrite Ht. by_eval.
Defined.
