(* ===== verification/Server.v ===== *)
(** A traced server from end to end: accept identifies the protocol of the local
    address (PpId.v), starts its plugin on a fresh entry (Vfd.v), and the program's
    calls of read feed it through the buffer (Vbuf.v, Feed.v, Session.v). *)
From S2P Require Import Prelude CInt CString Config Plugin Psql Mysql Http Getservice PpId Vbuf Feed Conv Session Binlog Expand Report Shown Vfd Requests.

(** A program that reads from [s] again and again. *)
Fixpoint proc_reads (fl : flags) (lens : list Z) (s : Z) (st : proc) (ans : answers) :
    logged (list byte * proc * answers) :=
  match lens with
  | [] => ret ([], st, ans)
  | len :: lens' =>
      let! (r, out, st, ans) := read fl s len st ans in
      let! (rest, st, ans) := proc_reads fl lens' s st ans in
      ret (out ++ rest, st, ans)
  end.

Section server.
Context (fl : flags) (Hon : bb_disable_all fl = 0).

Lemma on_disabled : disabled fl = false.
Proof. unfold disabled. by rewrite Hon. Qed.

(** read is virtual_read on the descriptor's entry. *)
Lemma read_virtual d Inv Refused s len st ans w r out v' rd' ans' :
  PpLaw (pp_read d) Inv Refused -> in_range s = true -> vwf d Inv Refused (get_vfd st s) ->
  0 < len < 2 ^ 31 ->
  virtual_io fl true (get_vfd st s) s len (sel_read st) ans = (w, Ok (r, out, v', rd', ans')) ->
  exists w' st', read fl s len st ans = (w', Ok (r, out, st', ans')) /\
    plugin_log w' = plugin_log w /\ get_vfd st' s = v' /\ sel_read st' = rd' /\
    (debug_events fl = 0 -> pp_tame d -> Forall tame w').
Proof.
  intros Hlaw Hs Hv Hl E.
  pose proof (post_ok _ _ _ _ E (virtual_io_post fl d Inv Refused true _ s len _ ans Hv Hl)) as
    [(r1 & o1 & v1 & rd1 & a1 & [= <- <- <- <- <-] & Hv' & _) | [[? _] | (c & l & ? & _)]]; [| done..].
  exists ([LLog (mk_event SYS_READ_BEGIN 0 [s; len] None)] ++ w ++
    [LLog (mk_event SYS_READ r [s; len] None)]), (set_sel (set_vfd st s v') rd' (sel_write st) (sel_except st)).
  split_and!.
  - unfold read. rewrite on_disabled, Hs. cbn [orb negb]. unfold rd_wrap.
    destruct Hv as (Hd & _). rewrite Hd, E. cbn [bind LOGBINii emit].
    destruct Hv' as (_ & _ & _ & _ & _ & Ho & _). rewrite assert_true by (apply Z.leb_le; lia).
    cbn. by rewrite app_nil_r.
  - rewrite !plugin_log_app. cbn. by rewrite app_nil_r.
  - by rewrite get_sel, get_set.
  - done.
  - intros Hdb Ht. pose proof (virtual_io_tame fl Hdb true (get_vfd st s) s len (sel_read st) ans) as Hw.
    rewrite E in Hw. rewrite !Forall_app. split_and!; [| apply Hw |]; try (constructor; [| constructor]; by apply tame_short).
    intros d' Hd'. destruct Hv as (Hd & _). by simplify_eq.
Qed.

Lemma proc_reads_app d Inv Refused s lens st ans w out got v' rd' ans' :
  PpLaw (pp_read d) Inv Refused -> in_range s = true -> vwf d Inv Refused (get_vfd st s) ->
  Forall (fun len => 0 < len < 2 ^ 31) lens ->
  app_reads fl true lens (get_vfd st s) s (sel_read st) ans = (w, Ok (out, got, v', rd', ans')) ->
  exists w' st', proc_reads fl lens s st ans = (w', Ok (out, st', ans')) /\
    plugin_log w' = plugin_log w /\ (debug_events fl = 0 -> pp_tame d -> Forall tame w').
Proof.
  intros Hlaw Hs Hv Hlens. revert st ans w out got Hv.
  induction Hlens as [| len lens Hlen Hlens IH]; intros st ans w out got Hv E; cbn [app_reads proc_reads] in *.
  - inv_run. simplify_eq. by exists [], st.
  - inv_runs. simplify_eq.
    pose proof (post_ok _ _ _ _ Hm (virtual_io_post fl d Inv Refused true _ s len _ ans Hv Hlen)) as
      [(r1 & o1 & v1 & rd1 & a1 & [= <- <- <- <- <-] & Hv' & _) | [[? _] | (c & x & ? & _)]]; [| done..].
    destruct (read_virtual d Inv Refused _ _ _ _ _ _ _ _ _ _ Hlaw Hs Hv Hlen Hm)
      as (w' & st1 & -> & Hl1 & Hg & Hrd & Ht1).
    rewrite <- Hg, <- Hrd in Hm0. apply IH in Hm0 as (w2 & st2 & E2 & Hl2 & Ht2); [| by rewrite Hg].
    exists (w' ++ w2), st2. cbn [bind]. rewrite E2. cbn [bind ret]. unfold ret.
    rewrite !app_nil_r. split; [done |]. split; [by rewrite !plugin_log_app, Hl1, Hl2 |].
    intros Hdb Ht. apply Forall_app. auto.
Qed.
End server.

(** A freshly accepted connection. *)
Lemma new_conn_wf d Inv Refused old data :
  vfd_wf old -> Inv data -> vwf d Inv Refused (new_conn old (Some d) data).
Proof.
  intros (Hr & _) Hi. unfold vwf, new_conn, VBUFSIZE in *.
  cbn [dispatcher rbuf ppdata rlastlen rbuflen rbufofs tosend ppwantmore].
  split_and!; try done; lia.
Qed.

Section accepted.
Context (fl : flags) (Hon : bb_disable_all fl = 0) (Hpp : bb_disable_pp fl = 0).
Context (fs : list byte -> option file) (senv : option (list byte)).
Context (fresh : byte) (stk : list byte) (ntop6 : list byte -> list byte).
Context (etc usr : list services_line).
Context (Hetc : holds fs None etc) (Husr : forall p, senv = Some p -> holds fs (Some p) usr).
Context (Hnone : senv = None -> usr = []).
(* the connection: the services files give the local port to the plugin [d] *)
Context (s pa pl r : Z) (peer : option (sockaddr * Z)) (laddr : sockaddr) (n : Z) (junk : sockaddr) (st : proc) (port : Z).
Context (tag : list byte) (d : pp_dispatcher).
Context (Hst : proc_wf st) (Hs : in_range s = true) (Hr : in_range r = true).
Context (Hpeer : name_ok peer) (Hladdr : inet_ok laddr) (Hsv : serv_ok senv (services st)).
Context (Hport : sin_port laddr = ret port) (Hid : ident etc usr (bind_ports fresh stk) port = Some (tag, d)).

(** accept starts the plugin of the port on a fresh entry. *)
Lemma accept_known :
  exists w st' wi data, accept fl fs senv fresh stk ntop6 s pa pl r peer (Some (laddr, n)) junk st = (w, Ok (r, st')) /\
    reals w = [AReal (bs "accept") [s; pa; pl] []] /\ get_vfd st' r = new_conn (get_vfd st r) (Some d) data /\
    pp_init d r (ppdata (get_vfd st r)) = (wi, Ok data).
Proof.
  assert (r <> -1) as Hr1 by (intros ->; discriminate Hr).
  destruct (accept_returns fl fs senv fresh stk ntop6 s pa pl r peer (Some (laddr, n)) junk st)
    as (w & [rv st'] & E); [done |].
  pose proof E as Erv. apply (run_request_reals fl fs senv fresh stk ntop6
    (Rq_accept s pa pl r peer (Some (laddr, n)) junk)) in Erv as [Hreal ->]; [| done].
  pose proof E as Eok. apply accept_ok in Eok as (d' & sv & data & wi & wd & Eid & Eg & _ & _ & Hi);
    [| unfold disabled; by rewrite Hon | done | done].
  destruct (pp_id_bind_inet fl fs senv fresh stk etc usr Hetc Husr Hnone laddr (services st) port
    Hpp (proj1 Hladdr) Hport Hsv) as (sv' & _ & Eid').
  rewrite Hid in Eid'. cbn [fmap option_fmap option_map snd] in Eid'.
  assert (d' = Some d) as -> by congruence. exists w, st', wd, data. by rewrite Hreal.
Qed.

(** A server whose plugin understands what the client sends. *)
Lemma conv_server_traced Inv Refused Expects len chunks evs `{Hc : !PpConv (pp_read d) Inv Refused r Expects} :
  (forall old wi data, pp_init d r old = (wi, Ok data) -> Expects data (concat chunks) evs) ->
  0 < len < 2 ^ 31 -> Forall (fun c => 0 < zlen c) chunks -> zlen (concat chunks) <= VBUFSIZE ->
  exists w0 st1 k w st2,
    accept fl fs senv fresh stk ntop6 s pa pl r peer (Some (laddr, n)) junk st = (w0, Ok (r, st1)) /\
    proc_reads fl (replicate k len) r st1 (Some <$> chunks) = (w, Ok (concat chunks, st2, [])) /\
    reals w0 = [AReal (bs "accept") [s; pa; pl] []] /\ plugin_log w = evs /\ (debug_events fl = 0 -> pp_tame d -> shown evs -> shown w).
Proof.
  intros Hstart Hn Hch Hfit. destruct accept_known as (w0 & st1 & wi & data & Ea & Hra & Eg & Hi).
  apply Hstart in Hi. pose proof (@conv_law _ _ _ _ _ Hc) as Hlaw.
  assert (vwf d Inv Refused (get_vfd st1 r)) as Hv.
  { rewrite Eg. apply new_conn_wf; [apply Hst |]. by eapply (@conv_inv _ _ _ _ _ Hc). }
  destruct (conv_reads fl d Inv Refused r Expects true len chunks (get_vfd st1 r) (sel_read st1) evs)
    as (k & w & v' & rd' & E & Hlog); [done | by rewrite Eg | done | done | by rewrite Eg | done |].
  apply (proc_reads_app fl Hon d Inv Refused) in E
    as (w' & st2 & E & Hl & Ht); [| exact Hlaw | done | done | by apply Forall_replicate].
  exists w0, st1, k, w', st2. split_and!; [exact Ea | exact E | exact Hra | by rewrite Hl |].
  intros Hdb Htame Hsh. apply tame_shown; [by apply Ht | by rewrite Hl, Hlog].
Qed.
End accepted.

(** The ports of the servers that are followed. *)
Lemma ident_psqls fresh stk etc usr port :
  0 < port -> port = port_of etc usr (bs "postgresql") -> port <> port_of etc usr (bs "http") ->
  ident etc usr (bind_ports fresh stk) port = Some (bs "psqls", pp_psqls).
Proof.
  intros Hpos Hp Hne. unfold ident, bind_ports. cbn [List.find snd]. unfold port_is. cbn [pp_https pp_psqls pp_name].
  destruct (Z.eqb_spec port (port_of etc usr (bs "http"))); [done |]. rewrite andb_false_r, <- Hp.
  by rewrite (proj2 (Z.ltb_lt 0 port)), Z.eqb_refl.
Qed.

Lemma ident_mysqls fresh stk etc usr port :
  0 < port -> port = port_of etc usr (bs "mysql") -> port <> port_of etc usr (bs "http") ->
  port <> port_of etc usr (bs "postgresql") ->
  ident etc usr (bind_ports fresh stk) port = Some (bs "mysqls", pp_mysqls).
Proof.
  intros Hpos Hp Hne Hnp. unfold ident, bind_ports. cbn [List.find snd]. unfold port_is.
  cbn [pp_https pp_psqls pp_mysqls pp_name].
  destruct (Z.eqb_spec port (port_of etc usr (bs "http"))); [done |].
  destruct (Z.eqb_spec port (port_of etc usr (bs "postgresql"))); [done |].
  rewrite !andb_false_r, <- Hp. by rewrite (proj2 (Z.ltb_lt 0 port)), Z.eqb_refl.
Qed.

(** ** Properties *)

(** A PostgreSQL server is traced from accept on.  When the services files give
    the protocol the port of the connection's local address, accept returns the new
    descriptor; whatever size the server reads with and however the network cuts the
    client's startup packet and messages (up to 64 KiB), it receives exactly those
    bytes, and the log of the reads is, but for the library's own events, exactly one
    header line per message, numbered requests and the text of the queries. *)
Theorem psql_server_traced fl fs senv fresh stk ntop6 etc usr s pa pl r peer laddr na junk st port n
    prot params l chunks :
  bb_disable_all fl = 0 -> bb_disable_pp fl = 0 ->
  holds fs None etc -> (forall p, senv = Some p -> holds fs (Some p) usr) -> (senv = None -> usr = []) ->
  proc_wf st -> serv_ok senv (services st) ->
  in_range s = true -> in_range r = true -> name_ok peer -> inet_ok laddr ->
  sin_port laddr = ret port -> 0 < port -> port = port_of etc usr (bs "postgresql") ->
  port <> port_of etc usr (bs "http") ->
  Forall psql_ok l -> zlen params < 2 ^ 31 -> is_u 32 prot -> 0 < n < 2 ^ 31 ->
  Forall (fun c => 0 < zlen c) chunks ->
  concat chunks = startup_bytes prot params ++ concat (psql_bytes <$> l) ->
  zlen (concat chunks) <= VBUFSIZE ->
  exists w0 st1 k w st2,
    accept fl fs senv fresh stk ntop6 s pa pl r peer (Some (laddr, na)) junk st = (w0, Ok (r, st1)) /\
    proc_reads fl (replicate k n) r st1 (Some <$> chunks) = (w, Ok (concat chunks, st2, [])) /\
    plugin_log w = psql_events PP_PSQLS_ID PP_READ r 0 l.
Proof.
  intros Hon Hpp Hetc Husr Hnone Hst Hsv Hs Hr Hpeer Hladdr Hport Hpos Hp Hne Hok Hpar Hprot Hn Hch Hcat Hfit.
  pose proof (ident_psqls fresh stk etc usr port Hpos Hp Hne) as Hid.
  assert (PpConv (pp_read pp_psqls) (psql_data_inv PP_READ) (psql_refused PP_READ) r
    (psql_stream PP_PSQLS_ID PP_READ r)) as Hc by exact (psql_conv PP_PSQLS_ID PP_READ r).
  edestruct conv_server_traced as (w0 & st1 & k & w & st2 & ? & ? & ? & ? & _);
    [.. | by exists w0, st1, k, w, st2]; try done. intros old wi data Hi.
  unfold pp_psqls, pp_init, pp_psqls_init in Hi. inv_run. simplify_eq. rewrite Hcat. by apply psql_stream_start.
Qed.

Lemma psql_server_traced_witness :
  exists w0 st1 k w st2,
    accept (mk_flags 0 0 0 0 0) demo_fs None NUL [] (fun _ => []) 3 0 0 5 (Some (demo_addr, 16))
      (Some (demo_addr, 16)) demo_addr proc0 = (w0, Ok (5, st1)) /\
    proc_reads (mk_flags 0 0 0 0 0) (replicate k 8) 5 st1
      (Some <$> [ztake 3 demo_session; zdrop 3 demo_session]) = (w, Ok (demo_session, st2, [])) /\
    plugin_log w =
      [LLog (mk_event SYS_PP_DATA 0 [] (Some (bs "psql: type=Q len=13 todo=9")));
       LLog (mk_event SYS_PP_MSG_RECV 0 [PP_PSQLS_ID; 5; 0] (Some (bs "psqls")));
       LLog (mk_event SYS_PP_PROP 0 [] (Some (bs "QUERY=-=select 1")))].
Proof.
  apply (psql_server_traced (mk_flags 0 0 0 0 0) demo_fs None NUL [] (fun _ => []) [demo_line] [] 3 0 0 5
    (Some (demo_addr, 16)) demo_addr 16 demo_addr proc0 5432 8 196608 (bs "user" ++ [NUL]) [demo_query]
    [ztake 3 demo_session; zdrop 3 demo_session]).
  1-2: reflexivity.
  - exact demo_fs_holds.
  - discriminate.
  - reflexivity.
  - exact proc0_wf.
  - split; [split; reflexivity | left; reflexivity].
  - reflexivity.
  - reflexivity.
  - split; [reflexivity | vm_compute; congruence].
  - split; [reflexivity | vm_compute; congruence].
  - vm_compute; reflexivity.
  - reflexivity.
  - vm_compute; reflexivity.
  - vm_compute; congruence.
  - repeat constructor; [intros _; exists (bs "select 1"); split; [repeat constructor; discriminate | done]].
  - reflexivity.
  - split; vm_compute; congruence.
  - split; reflexivity.
  - repeat constructor.
  - reflexivity.
  - vm_compute; congruence.
Defined.

(** C7: A traced PostgreSQL server, from accept to the report.  With the library switched
    on and its debugging off, and a connection between internet addresses whose local port
    the services files give to PostgreSQL and not to HTTP, accept returns the new
    descriptor after the one real call.  Whatever size the server reads with and however
    the network cuts the client's startup packet and messages (64 KiB in all, no message
    with an empty body, a query's text without a NUL and of at most 4000 bytes), it
    receives exactly those bytes; the log of the reads is, but for the library's own
    events, exactly one header line per message, numbered requests and the text of the
    queries; and when that log has reached the collector's file ([delivered]: a new thread
    whose kernel fails no write, a connection just accepted, a collector with another
    clock and whole writes, a file under 2 GiB), expand prints exactly one line for each
    event, in order, its time shifted by the clocks' difference. *)
Theorem server_reported fl fs senv fresh stk ntop6 etc usr s pa pl r peer laddr na junk st port n
    prot params l chunks syscall2string sysno nm self pid :
  bb_disable_all fl = 0 -> bb_disable_pp fl = 0 -> debug_events fl = 0 ->
  holds fs None etc -> (forall p, senv = Some p -> holds fs (Some p) usr) -> (senv = None -> usr = []) ->
  proc_wf st -> serv_ok senv (services st) ->
  in_range s = true -> in_range r = true -> name_ok peer -> inet_ok laddr ->
  sin_port laddr = ret port -> 0 < port -> port = port_of etc usr (bs "postgresql") ->
  port <> port_of etc usr (bs "http") ->
  Forall psql_ok l -> zlen params < 2 ^ 31 -> is_u 32 prot ->
  0 < n < 2 ^ 31 -> Forall (fun c => 0 < zlen c) chunks ->
  concat chunks = startup_bytes prot params ++ concat (psql_bytes <$> l) ->
  zlen (concat chunks) <= VBUFSIZE -> is_s 32 pid ->
  exists w0 st1 k w st2,
    accept fl fs senv fresh stk ntop6 s pa pl r peer (Some (laddr, na)) junk st = (w0, Ok (r, st1)) /\
    proc_reads fl (replicate k n) r st1 (Some <$> chunks) = (w, Ok (concat chunks, st2, [])) /\
    reals w0 = [AReal (bs "accept") [s; pa; pl] []] /\
    plugin_log w = psql_events PP_PSQLS_ID PP_READ r 0 l /\
    forall first times shift file argv tl,
      delivered sysno nm self pid w first times shift file ->
      2 <= zlen argv -> pid_arg argv = 0 \/ pid_arg argv = u32 pid ->
      expand_main syscall2string argv true (Some (zlen (concat file))) ((Some <$> file) ++ Some [] :: tl) =
        (report syscall2string sysno nm self pid shift (zip w (first :: times)) ++
           [bs "total: " ++ fmt_d (zlen w) ++ [LF]; bs "bytes: " ++ fmt_d (zlen (concat file)) ++ [LF]], Ok 1).
Proof.
  intros Hon Hpp Hdb Hetc Husr Hnone Hst Hsv Hs Hr Hpeer Hladdr Hport Hpos Hp Hne Hok Hpar Hprot Hn Hch
    Hcat Hfit Hpid.
  pose proof (ident_psqls fresh stk etc usr port Hpos Hp Hne) as Hid.
  assert (PpConv (pp_read pp_psqls) (psql_data_inv PP_READ) (psql_refused PP_READ) r
    (psql_stream PP_PSQLS_ID PP_READ r)) as Hc by exact (psql_conv PP_PSQLS_ID PP_READ r).
  edestruct conv_server_traced as (w0 & st1 & k & w & st2 & E1 & E2 & E0 & E3 & Hsh);
    [.. | exists w0, st1, k, w, st2; split_and!; [exact E1 | exact E2 | exact E0 | exact E3 |]]; try done.
  - intros old wi data Hi. unfold pp_psqls, pp_init, pp_psqls_init in Hi. inv_run. simplify_eq.
    rewrite Hcat. by apply psql_stream_start.
  - assert (shown w) as Hw.
    { apply Hsh; [done | intros data x mem len; apply psql_io_tame | by apply psql_events_shown]. }
    intros. apply delivered_reported; try done; [by apply shown_fits | by apply shown_log].
Qed.

Lemma server_reported_witness :
  exists w0 st1 k w st2,
    accept (mk_flags 0 0 0 0 0) demo_fs None NUL [] (fun _ => []) 3 0 0 5 (Some (demo_addr, 16))
      (Some (demo_addr, 16)) demo_addr proc0 = (w0, Ok (5, st1)) /\
    proc_reads (mk_flags 0 0 0 0 0) (replicate k 8) 5 st1
      (Some <$> [ztake 3 demo_session; zdrop 3 demo_session]) = (w, Ok (demo_session, st2, [])) /\
    reals w0 = [AReal (bs "accept") [3; 0; 0] []] /\
    plugin_log w =
      [LLog (mk_event SYS_PP_DATA 0 [] (Some (bs "psql: type=Q len=13 todo=9")));
       LLog (mk_event SYS_PP_MSG_RECV 0 [PP_PSQLS_ID; 5; 0] (Some (bs "psqls")));
       LLog (mk_event SYS_PP_PROP 0 [] (Some (bs "QUERY=-=select 1")))] /\
    forall first times shift file argv tl,
      delivered (fun _ => 5) "x"%byte 9 300 w first times shift file ->
      2 <= zlen argv -> pid_arg argv = 0 \/ pid_arg argv = u32 300 ->
      expand_main (fun _ => bs "call") argv true (Some (zlen (concat file))) ((Some <$> file) ++ Some [] :: tl) =
        (report (fun _ => bs "call") (fun _ => 5) "x"%byte 9 300 shift (zip w (first :: times)) ++
           [bs "total: " ++ fmt_d (zlen w) ++ [LF]; bs "bytes: " ++ fmt_d (zlen (concat file)) ++ [LF]], Ok 1).
Proof.
  apply (server_reported (mk_flags 0 0 0 0 0) demo_fs None NUL [] (fun _ => []) [demo_line] [] 3 0 0 5
    (Some (demo_addr, 16)) demo_addr 16 demo_addr proc0 5432 8 196608 (bs "user" ++ [NUL]) [demo_query]
    [ztake 3 demo_session; zdrop 3 demo_session] (fun _ => bs "call") (fun _ => 5) "x"%byte 9 300).
  1-3: reflexivity.
  - exact demo_fs_holds.
  - discriminate.
  - reflexivity.
  - exact proc0_wf.
  - split; [split; reflexivity | left; reflexivity].
  - reflexivity.
  - reflexivity.
  - split; [reflexivity | vm_compute; congruence].
  - split; [reflexivity | vm_compute; congruence].
  - vm_compute; reflexivity.
  - reflexivity.
  - vm_compute; reflexivity.
  - vm_compute; congruence.
  - repeat constructor; [intros _; exists (bs "select 1"); split; [repeat constructor; discriminate | done]].
  - reflexivity.
  - split; vm_compute; congruence.
  - split; reflexivity.
  - repeat constructor.
  - reflexivity.
  - vm_compute; congruence.
  - split; vm_compute; congruence.
Defined.

(** The same of a MySQL server: two events for each packet, with its sequence number. *)
Theorem mysql_server_traced fl fs senv fresh stk ntop6 etc usr s pa pl r peer laddr na junk st port n l chunks :
  bb_disable_all fl = 0 -> bb_disable_pp fl = 0 ->
  holds fs None etc -> (forall p, senv = Some p -> holds fs (Some p) usr) -> (senv = None -> usr = []) ->
  proc_wf st -> serv_ok senv (services st) ->
  in_range s = true -> in_range r = true -> name_ok peer -> inet_ok laddr ->
  sin_port laddr = ret port -> 0 < port -> port = port_of etc usr (bs "mysql") ->
  port <> port_of etc usr (bs "http") -> port <> port_of etc usr (bs "postgresql") ->
  Forall mysql_ok l -> 0 < n < 2 ^ 31 -> Forall (fun c => 0 < zlen c) chunks ->
  concat chunks = concat (mysql_bytes <$> l) -> zlen (concat chunks) <= VBUFSIZE ->
  exists w0 st1 k w st2,
    accept fl fs senv fresh stk ntop6 s pa pl r peer (Some (laddr, na)) junk st = (w0, Ok (r, st1)) /\
    proc_reads fl (replicate k n) r st1 (Some <$> chunks) = (w, Ok (concat chunks, st2, [])) /\
    plugin_log w = mysql_events PP_MYSQLS_ID PP_READ r l.
Proof.
  intros Hon Hpp Hetc Husr Hnone Hst Hsv Hs Hr Hpeer Hladdr Hport Hpos Hp Hne Hnp Hok Hn Hch Hcat Hfit.
  pose proof (ident_mysqls fresh stk etc usr port Hpos Hp Hne Hnp) as Hid.
  assert (PpConv (pp_read pp_mysqls) (mysql_inv PP_READ) (mysql_refused PP_READ) r
    (mysql_stream PP_MYSQLS_ID PP_READ r)) as Hc by exact (mysql_conv PP_MYSQLS_ID PP_READ r).
  edestruct conv_server_traced as (w0 & st1 & k & w & st2 & ? & ? & ? & ? & _);
    [.. | by exists w0, st1, k, w, st2]; try done. intros old wi data Hi.
  unfold pp_mysqls, pp_init, pp_mysqls_init in Hi. inv_run. simplify_eq. rewrite Hcat. by apply mysql_stream_start.
Qed.

Definition demo_my_line : services_line := SEntry (bs "mysql") 3306 (bs "tcp") [] None.
Definition demo_my_fs (p : list byte) : option file :=
  if bool_decide (p = _PATH_SERVICES) then Some (file_bytes [demo_line; demo_my_line]) else None.
Definition demo_my_addr : sockaddr := mk_sa AF_INET (be_bytes 2 3306 ++ [zb 127; NUL; NUL; zb 1]).

Lemma demo_my_fs_holds : holds demo_my_fs None [demo_line; demo_my_line].
Proof.
  right. split; [reflexivity |]. apply List.Forall_cons; [apply demo_lines_ok |]. apply Forall_singleton.
  split; [apply Nat.ltb_lt; vm_compute; reflexivity |].
  split_and!; [reflexivity | reflexivity | lia | lia | apply List.Forall_nil | apply Nat.ltb_lt; reflexivity | reflexivity].
Qed.

Lemma mysql_server_traced_witness :
  exists w0 st1 k w st2,
    accept (mk_flags 0 0 0 0 0) demo_my_fs None NUL [] (fun _ => []) 3 0 0 5 (Some (demo_my_addr, 16))
      (Some (demo_my_addr, 16)) demo_my_addr proc0 = (w0, Ok (5, st1)) /\
    proc_reads (mk_flags 0 0 0 0 0) (replicate k 8) 5 st1
      (Some <$> [ztake 2 (mysql_bytes demo_packet); zdrop 2 (mysql_bytes demo_packet)]) =
      (w, Ok (mysql_bytes demo_packet, st2, [])) /\
    plugin_log w =
      [LLog (mk_event SYS_PP_DATA 0 [] (Some (bs "mysql: id=3 todo=5")));
       LLog (mk_event SYS_PP_MSG_RECV 0 [PP_MYSQLS_ID; 5; 3] (Some (bs "mysqls")))].
Proof.
  apply (mysql_server_traced (mk_flags 0 0 0 0 0) demo_my_fs None NUL [] (fun _ => [])
    [demo_line; demo_my_line] [] 3 0 0 5 (Some (demo_my_addr, 16)) demo_my_addr 16 demo_my_addr proc0 3306 8
    [demo_packet] [ztake 2 (mysql_bytes demo_packet); zdrop 2 (mysql_bytes demo_packet)]).
  1-2: reflexivity.
  - exact demo_my_fs_holds.
  - discriminate.
  - reflexivity.
  - exact proc0_wf.
  - split; [split; reflexivity | left; reflexivity].
  - reflexivity.
  - reflexivity.
  - split; [reflexivity | vm_compute; congruence].
  - split; [reflexivity | vm_compute; congruence].
  - vm_compute; reflexivity.
  - reflexivity.
  - vm_compute; reflexivity.
  - vm_compute; congruence.
  - vm_compute; congruence.
  - repeat constructor; vm_compute; congruence.
  - split; reflexivity.
  - repeat constructor.
  - reflexivity.
  - vm_compute; congruence.
Defined.
