(* ===== verification/Client.v ===== *)
(** A traced client from end to end: socket gives a fresh entry, connect identifies the
    protocol of the peer (PpId.v) and starts its plugin on it (Vfd.v), the program's
    calls of write feed it (Vbuf.v, Conv.v, Session.v), and what all of them logged
    becomes the report (Report.v). *)
From S2P Require Import Prelude CInt CString Config Plugin Psql Mysql Http Binlog Expand Getservice PpId Vbuf Feed Conv Session Report Shown Vfd Requests.

(** A program that writes to [s] again and again: the buffers, and how much of each the
    kernel takes. *)
Fixpoint proc_writes (fl : flags) (s : Z) (calls : list (list byte * Z)) (st : proc) : acts (list Z * proc) :=
  match calls with
  | [] => ret ([], st)
  | (buf, r) :: calls' =>
      let! (r, st) := write fl s buf (zlen buf) r st in
      let! (rs, st) := proc_writes fl s calls' st in
      ret (r :: rs, st)
  end.

(** What the kernel took. *)
Definition taken (calls : list (list byte * Z)) : list (list byte) := (fun c => ztake c.2 c.1) <$> calls.
Definition call_ok (c : list byte * Z) : Prop := 0 < c.2 <= zlen c.1 /\ c.2 < 2 ^ 31.

Section client.
Context (fl : flags) (Hon : bb_disable_all fl = 0).

(** Only the bytes the kernel took are looked at. *)
Lemma vwrite_req_taken v s buf r :
  0 < r <= zlen buf -> vwrite_req v s buf r = vwrite_req v s (ztake r buf) (zlen (ztake r buf)).
Proof.
  intros Hr. assert (zlen (ztake r buf) = r) as E by zl. unfold vwrite_req. rewrite E.
  destruct (dispatcher v) as [d |]; [| done]. destruct (Z.leb_spec r 0); [done |].
  rewrite !load_ok, !bind_ret_l by (rewrite ?E; lia). by rewrite !zdrop_0, (ztake_all r (ztake r buf)) by lia.
Qed.

Lemma clear_write_quiet s st :
  exists w st', clear_write fl (bs "write") s st = (w, Ok st') /\
    plugin_log w = [] /\ shown w /\ forall t, get_vfd st' t = get_vfd st t.
Proof.
  unfold clear_write, with_lock. log_short. unfold emit. destruct (negb _); do 2 eexists;
    (split; [reflexivity |]); split_and!; try done; [| constructor].
  constructor; [| constructor]. split; [split; vm_compute; congruence | done].
Qed.

(** write is vwrite on the descriptor's entry. *)
Lemma write_virtual s buf len r st w v' :
  in_range s = true -> vwrite_req (get_vfd st s) s buf (s32 r) = (w, Ok v') ->
  exists wa st', write fl s buf len r st = (wa, Ok (r, st')) /\
    (forall t, get_vfd st' t = get_vfd (set_vfd st s v') t) /\
    reals wa = [AReal (bs "write") [s; len] [buf]] /\
    plugin_log (log_of wa) = plugin_log w /\ (shown w -> shown (log_of wa)).
Proof.
  intros Hs E.
  assert (vwrite_at s buf r st = (w ++ [], Ok (set_vfd st s v'))) as Ev.
  { unfold vwrite_at. by rewrite E. }
  destruct (clear_write_quiet s (set_vfd st s v')) as (w2 & st2 & Ec & Hq & Hsh & Hg).
  unfold write, disabled. rewrite Hon, Hs. cbn [Z.eqb orb negb]. unfold LOGBINii, lift.
  rewrite Ev. cbn [fst snd]. cbn [emit bind fst snd]. rewrite Ec.
  cbn [fst snd bind ret]. do 2 eexists. split; [reflexivity |]. split; [exact Hg |].
  rewrite !app_nil_r. split; [| split].
  - rewrite !reals_app, !reals_log. done.
  - rewrite !log_of_app, !log_of_log, !plugin_log_app, Hq. cbn. by rewrite app_nil_r.
  - intros Hw. rewrite !log_of_app, !log_of_log. unfold shown in *. rewrite !Forall_app.
    split_and!; try done; (constructor; [split; [split; vm_compute; congruence | done] | constructor]).
Qed.

Lemma proc_writes_app s calls st w v' :
  in_range s = true -> Forall call_ok calls ->
  app_writes (taken calls) (get_vfd st s) s = (w, Ok v') ->
  exists wa st', proc_writes fl s calls st = (wa, Ok (snd <$> calls, st')) /\
    reals wa = (fun c => AReal (bs "write") [s; zlen c.1] [c.1]) <$> calls /\
    plugin_log (log_of wa) = plugin_log w /\ (shown w -> shown (log_of wa)).
Proof.
  intros Hs Hok. revert st w. induction Hok as [| [buf r] calls Hc _ IH]; intros st w E.
  - cbn in E. unfold ret in E. simplify_eq. by exists [], st.
  - cbn [taken fmap list_fmap app_writes fst snd] in E. fold (taken calls) in E. inv_run. simplify_eq.
    destruct Hc as [Hr H31]. cbn [fst snd] in *. rewrite <- vwrite_req_taken in Hm by done.
    rewrite <- (s32_small r) in Hm by lia.
    destruct (write_virtual s buf (zlen buf) r st _ _ Hs Hm) as (wb & st1 & E1 & Hg & Hr1 & Hl1 & Hs1).
    specialize (Hg s). rewrite get_set in Hg.
    match goal with H : app_writes _ _ _ = _ |- _ => rewrite <- Hg in H;
      destruct (IH _ _ H) as (wc & st2 & E2 & Hr2 & Hl2 & Hs2) end.
    cbn [proc_writes]. rewrite E1. cbn [bind]. rewrite E2. do 2 eexists. split; [reflexivity |].
    cbn [fmap list_fmap fst snd]. rewrite ?app_nil_r, reals_app, Hr1, Hr2, !log_of_app, !plugin_log_app, Hl1, Hl2.
    split_and!; [done | done |]. unfold shown in *. rewrite !Forall_app. intros [? ?]. auto.
Qed.
End client.

Section connected.
Context (fl : flags) (Hon : bb_disable_all fl = 0) (Hpp : bb_disable_pp fl = 0).
Context (fs : list byte -> option file) (senv : option (list byte)).
Context (stk : list byte) (ntop6 : list byte -> list byte).
Context (etc usr : list services_line).
Context (Hetc : holds fs None etc) (Husr : forall p, senv = Some p -> holds fs (Some p) usr).
Context (Hnone : senv = None -> usr = []).
(* the connection: the services files give the peer's port to the plugin [d] *)
Context (dom type protocol s alen r n : Z) (addr raddr junk : sockaddr) (sock : option (sockaddr * Z)) (st : proc).
Context (port : Z) (tag : list byte) (d : pp_dispatcher).
Context (Hst : proc_wf st) (Hs : in_range s = true) (Hr : r <> -1).
Context (Hsock : name_ok sock) (Hraddr : inet_ok raddr) (Hsv : serv_ok senv (services st)).
Context (Hport : sin_port raddr = ret port) (Hid : ident etc usr (connect_ports stk) port = Some (tag, d)).

(** Once connected, the plugin of the peer's port has the entry. *)
Lemma connect_event_known st1 :
  services st1 = services st ->
  exists w st2 wi data, connect_event fl fs senv stk ntop6 s r (Some (raddr, n)) sock junk st1 = (w, Ok st2) /\
    pp_init d s (ppdata (get_vfd st1 s)) = (wi, Ok data) /\
    get_vfd st2 s = set_ppdata (set_dispatcher (set_in_prog (get_vfd st1 s) 0) (Some d)) data.
Proof.
  intros Es.
  destruct (connect_event_returns fl fs senv NUL stk ntop6 s r (Some (raddr, n)) sock junk st1 Hraddr Hsock)
    as (w & st2 & E).
  pose proof E as E'. unfold connect_event in E'.
  destruct (pp_id_connect_inet fl fs senv stk etc usr Hetc Husr Hnone raddr (services st) port
    Hpp (proj1 Hraddr) Hport Hsv) as (sv' & _ & Eid).
  rewrite Hid in Eid. cbn [fmap option_fmap option_map snd] in Eid.
  change (services (set_vfd ?a ?b ?x)) with (services a) in E'. rewrite Es in E'.
  inv_runs. rewrite Eid in Hm1. injection Hm1 as _ <- <-.
  apply start_plugin_ok in Hm2 as (data & Hg & _ & _ & Hi).
  rewrite get_set in Hg, Hi. do 4 eexists. split; [exact E | split; [exact Hi | exact Hg]].
Qed.

(** socket makes a fresh entry, connect starts the plugin on it. *)
Lemma connect_known :
  exists w1 st1 w2 st2 wi data old,
    socket fl dom type protocol s st = (w1, Ok (s, st1)) /\
    connect fl fs senv stk ntop6 s addr alen r false (Some (raddr, n)) sock junk st1 = (w2, Ok (r, st2)) /\
    reals w1 = [asked (Rq_socket dom type protocol s)] /\
    reals w2 = [asked (Rq_connect s addr alen r false (Some (raddr, n)) sock junk)] /\
    pp_init d s old = (wi, Ok data) /\
    get_vfd st2 s = mk_vfd VFD_SOCK (rbuf (get_vfd st s)) 0 0 0 0 0 (wbuf (get_vfd st s)) 0 0 0 (Some d) data.
Proof.
  set (st1 := set_vfd (set_tracked st ({[s]} ∪ tracked st)) s
    (set_type (vfd_tab_init_one (get_vfd st s)) VFD_SOCK)).
  assert (exists w1, socket fl dom type protocol s st = (w1, Ok (s, st1))) as [w1 E1].
  { assert (0 <= s) as Hs0 by (unfold in_range in Hs; lia).
    unfold socket, disabled, fresh_vfd, track. rewrite Hon. cbn [Z.eqb negb]. rewrite Hs.
    destruct (Z.leb_spec 0 s); [| lia]. eexists. reflexivity. }
  destruct (connect_event_known st1 eq_refl) as (wc & st2 & wi & data & E2 & Hi & Hg).
  assert (exists w2, connect fl fs senv stk ntop6 s addr alen r false (Some (raddr, n)) sock junk st1 = (w2, Ok (r, st2)))
    as [w2 E].
  { unfold connect, disabled. rewrite Hon, Hs. destruct (Z.eqb_spec r (-1)); [done |]. cbn [Z.eqb orb negb].
    unfold lift at 2. rewrite E2. eexists. reflexivity. }
  exists w1, st1, w2, st2, wi, data, (ppdata (get_vfd st1 s)). split_and!; try done.
  - by apply (run_request_reals fl fs senv NUL stk ntop6 (Rq_socket dom type protocol s)) in E1 as [-> _].
  - by apply (run_request_reals fl fs senv NUL stk ntop6
      (Rq_connect s addr alen r false (Some (raddr, n)) sock junk)) in E as [-> _].
  - rewrite Hg. unfold st1. by rewrite get_set.
Qed.

(** A client whose plugin understands what it sends. *)
Lemma conv_client_traced Inv Refused Expects calls evs `{Hc : !PpConv (pp_write d) Inv Refused s Expects} :
  (forall old wi data, pp_init d s old = (wi, Ok data) -> Expects data (concat (taken calls)) evs) ->
  Forall call_ok calls -> zlen (concat (taken calls)) <= VBUFSIZE -> shown evs ->
  exists w1 st1 w2 st2 w3 st3,
    socket fl dom type protocol s st = (w1, Ok (s, st1)) /\
    connect fl fs senv stk ntop6 s addr alen r false (Some (raddr, n)) sock junk st1 = (w2, Ok (r, st2)) /\
    proc_writes fl s calls st2 = (w3, Ok (snd <$> calls, st3)) /\
    reals w1 = [asked (Rq_socket dom type protocol s)] /\
    reals w2 = [asked (Rq_connect s addr alen r false (Some (raddr, n)) sock junk)] /\
    reals w3 = (fun c => AReal (bs "write") [s; zlen c.1] [c.1]) <$> calls /\
    plugin_log (log_of w3) = evs /\ shown (log_of w3).
Proof.
  intros Hstart Hok Hfit Hsh. destruct connect_known as (w1 & st1 & w2 & st2 & wi & data & old & E1 & E2 & R1 & R2 & Hi & Hg).
  apply Hstart in Hi. pose proof (@conv_inv _ _ _ _ _ Hc _ _ _ Hi) as Hinv.
  assert (wwf d Inv (get_vfd st2 s)) as Hv.
  { rewrite Hg. destruct (Hst s) as (_ & Hw & _). unfold wwf.
    cbn [dispatcher wbuf ppdata wbufofs wbuflen]. unfold VBUFSIZE in *. split_and!; done || lia. }
  destruct (conv_writes d Inv Refused s Expects (taken calls) (get_vfd st2 s) evs) as (v' & E & _);
    [exact Hv | by rewrite Hg | by rewrite Hg | | by rewrite Hg | done |].
  { apply Forall_fmap. eapply List.Forall_impl; [| exact Hok]. intros [b k] [? _]. cbn in *. zl. }
  destruct (proc_writes_app fl Hon s calls st2 evs v' Hs Hok E) as (w3 & st3 & E3 & Hr3 & Hl3 & Hs3).
  exists w1, st1, w2, st2, w3, st3. split_and!; try done; [| by apply Hs3].
  rewrite Hl3. eapply (@conv_plugin _ _ _ _ _ Hc). exact Hi.
Qed.
End connected.

(** The ports of the clients that are followed. *)
Lemma ident_psqlc stk etc usr port :
  0 < port -> port = port_of etc usr (bs "postgresql") -> port <> port_of etc usr (bs "http") ->
  ident etc usr (connect_ports stk) port = Some (bs "psqlc", pp_psqlc).
Proof.
  intros Hpos Hp Hne. unfold ident, connect_ports. cbn [List.find snd]. unfold port_is. cbn [pp_httpc pp_psqlc pp_name].
  destruct (Z.eqb_spec port (port_of etc usr (bs "http"))); [done |]. rewrite andb_false_r, <- Hp.
  by rewrite (proj2 (Z.ltb_lt 0 port)), Z.eqb_refl.
Qed.

(** ** Properties *)

(** C6: A traced PostgreSQL client, from its calls to the report.  With the library
    switched on, a program opens a socket, connects (at once, with internet addresses) to
    a peer whose port the services files give to PostgreSQL and not to HTTP, and writes a
    startup packet and messages in any pieces, the kernel taking any part of each: 64 KiB
    in all, no message with an empty body, a query's text without a NUL and of at most
    4000 bytes.  Every call returns the kernel's answer after the one real call, with the
    program's arguments; the log of the writes is, but for the library's own events,
    exactly one header line per message, numbered requests and the text of the queries;
    and when that log has reached the collector's file ([delivered]: a new thread whose
    kernel fails no write, a connection just accepted, a collector with another clock and
    whole writes, a file under 2 GiB), expand prints exactly one line for each event, in
    order, its time shifted by the clocks' difference. *)
Theorem client_reported fl fs senv stk ntop6 etc usr dom type protocol s alen r n addr raddr junk sock st port
    prot params l calls syscall2string sysno nm self pid :
  bb_disable_all fl = 0 -> bb_disable_pp fl = 0 ->
  holds fs None etc -> (forall p, senv = Some p -> holds fs (Some p) usr) -> (senv = None -> usr = []) ->
  proc_wf st -> serv_ok senv (services st) -> in_range s = true -> r <> -1 ->
  name_ok sock -> inet_ok raddr -> sin_port raddr = ret port -> 0 < port ->
  port = port_of etc usr (bs "postgresql") -> port <> port_of etc usr (bs "http") ->
  Forall psql_ok l -> zlen params < 2 ^ 31 -> is_u 32 prot ->
  Forall call_ok calls -> concat (taken calls) = startup_bytes prot params ++ concat (psql_bytes <$> l) ->
  zlen (concat (taken calls)) <= VBUFSIZE -> is_s 32 pid ->
  exists w1 st1 w2 st2 w3 st3,
    socket fl dom type protocol s st = (w1, Ok (s, st1)) /\
    connect fl fs senv stk ntop6 s addr alen r false (Some (raddr, n)) sock junk st1 = (w2, Ok (r, st2)) /\
    proc_writes fl s calls st2 = (w3, Ok (snd <$> calls, st3)) /\
    reals w1 = [AReal (bs "socket") [dom; type; protocol] []] /\
    reals w2 = [AReal (bs "connect") [s; sa_family addr; alen] [sa_data addr]] /\
    reals w3 = (fun c => AReal (bs "write") [s; zlen c.1] [c.1]) <$> calls /\
    plugin_log (log_of w3) = psql_events PP_PSQLC_ID PP_WRITE s 0 l /\
    forall first times shift file argv tl,
      delivered sysno nm self pid (log_of w3) first times shift file ->
      2 <= zlen argv -> pid_arg argv = 0 \/ pid_arg argv = u32 pid ->
      expand_main syscall2string argv true (Some (zlen (concat file))) ((Some <$> file) ++ Some [] :: tl) =
        (report syscall2string sysno nm self pid shift (zip (log_of w3) (first :: times)) ++
           [bs "total: " ++ fmt_d (zlen (log_of w3)) ++ [LF];
            bs "bytes: " ++ fmt_d (zlen (concat file)) ++ [LF]], Ok 1).
Proof.
  intros Hon Hpp Hetc Husr Hnone Hst Hsv Hs Hr Hsock Hraddr Hport Hpos Hp Hne Hok Hpar Hprot Hcalls Hcat Hfit Hpid.
  pose proof (ident_psqlc stk etc usr port Hpos Hp Hne) as Hid.
  assert (PpConv (pp_write pp_psqlc) (psql_data_inv PP_WRITE) (psql_refused PP_WRITE) s
    (psql_stream PP_PSQLC_ID PP_WRITE s)) as Hc by exact (psql_conv PP_PSQLC_ID PP_WRITE s).
  destruct (conv_client_traced fl Hon Hpp fs senv stk ntop6 etc usr Hetc Husr Hnone dom type protocol s alen r n addr raddr
    junk sock st port (bs "psqlc") pp_psqlc Hst Hs Hr Hsock Hraddr Hsv Hport Hid _ _ _ calls
    (psql_events PP_PSQLC_ID PP_WRITE s 0 l)) as (w1 & st1 & w2 & st2 & w3 & st3 & E1 & E2 & E3 & Hr1 & Hr2 & Hr3 & Hl3 & Hs3);
    [| done | done | by apply psql_events_shown |].
  - intros old wi data Hi. unfold pp_psqlc, pp_init, pp_psqlc_init in Hi. inv_run. simplify_eq.
    rewrite Hcat. by apply psql_stream_start.
  - exists w1, st1, w2, st2, w3, st3. split_and!; try done.
    intros. eapply delivered_reported; try done; [by apply shown_fits | by apply shown_log].
Qed.

(** A startup packet and a query in three writes, the second taken in two parts. *)
Definition demo_client_calls : list (list byte * Z) :=
  [(ztake 3 demo_session, 3); (ztake 20 (zdrop 3 demo_session), 9);
   (ztake 11 (zdrop 12 demo_session), 11); (zdrop 23 demo_session, zlen demo_session - 23)].

Lemma client_reported_witness :
  exists w1 st1 w2 st2 w3 st3,
    socket (mk_flags 0 0 0 0 0) 2 1 0 7 proc0 = (w1, Ok (7, st1)) /\
    connect (mk_flags 0 0 0 0 0) demo_fs None [] (fun _ => []) 7 demo_addr 16 0 false (Some (demo_addr, 16))
      (Some (demo_addr, 16)) demo_addr st1 = (w2, Ok (0, st2)) /\
    proc_writes (mk_flags 0 0 0 0 0) 7 demo_client_calls st2 = (w3, Ok ([3; 9; 11; 4], st3)) /\
    reals w1 = [AReal (bs "socket") [2; 1; 0] []] /\
    reals w2 = [AReal (bs "connect") [7; AF_INET; 16] [sa_data demo_addr]] /\
    reals w3 = (fun c => AReal (bs "write") [7; zlen c.1] [c.1]) <$> demo_client_calls /\
    plugin_log (log_of w3) =
      [LLog (mk_event SYS_PP_DATA 0 [] (Some (bs "psql: type=Q len=13 todo=9")));
       LLog (mk_event SYS_PP_MSG_SEND 0 [PP_PSQLC_ID; 7; 0] (Some (bs "psqlc")));
       LLog (mk_event SYS_PP_PROP 0 [] (Some (bs "QUERY=-=select 1")))] /\
    forall first times shift file argv tl,
      delivered (fun _ => 5) "x"%byte 9 300 (log_of w3) first times shift file ->
      2 <= zlen argv -> pid_arg argv = 0 \/ pid_arg argv = u32 300 ->
      expand_main (fun _ => bs "call") argv true (Some (zlen (concat file))) ((Some <$> file) ++ Some [] :: tl) =
        (report (fun _ => bs "call") (fun _ => 5) "x"%byte 9 300 shift (zip (log_of w3) (first :: times)) ++
           [bs "total: " ++ fmt_d (zlen (log_of w3)) ++ [LF];
            bs "bytes: " ++ fmt_d (zlen (concat file)) ++ [LF]], Ok 1).
Proof.
  apply (client_reported (mk_flags 0 0 0 0 0) demo_fs None [] (fun _ => []) [demo_line] [] 2 1 0 7 16 0 16
    demo_addr demo_addr demo_addr (Some (demo_addr, 16)) proc0 5432 196608 (bs "user" ++ [NUL]) [demo_query]
    demo_client_calls (fun _ => bs "call") (fun _ => 5) "x"%byte 9 300).
  1-2: reflexivity.
  - exact demo_fs_holds.
  - discriminate.
  - reflexivity.
  - exact proc0_wf.
  - split; [split; reflexivity | left; reflexivity].
  - reflexivity.
  - discriminate.
  - split; [reflexivity | vm_compute; congruence].
  - split; [reflexivity | vm_compute; congruence].
  - vm_compute; reflexivity.
  - reflexivity.
  - vm_compute; reflexivity.
  - vm_compute; congruence.
  - repeat constructor; [intros _; exists (bs "select 1"); split; [repeat constructor; discriminate | done]].
  - reflexivity.
  - split; vm_compute; congruence.
  - repeat constructor; vm_compute; congruence.
  - vm_compute; reflexivity.
  - vm_compute; congruence.
  - split; vm_compute; congruence.
Defined.
