(* ===== verification/Multiplex.v ===== *)
(** Many descriptors at once.  A process interleaves its reads and writes of several
    descriptors; each one's answers, log and table entry are what they would be if its
    calls were the only ones ([fd_io]).  So a server that serves many connections is
    traced as if it served each alone. *)
From stdpp Require Import functions.
From S2P Require Import Prelude CInt CString Config Plugin Psql Mysql Getservice PpId Vbuf Feed Conv Session Binlog Expand Report Shown Vfd Requests Server Client.

Inductive io :=
| Rd (s len : Z)
| Wr (s : Z) (buf : list byte) (r : Z).

Definition fd_of (op : io) : Z := match op with Rd s _ => s | Wr s _ _ => s end.
Definition on (s : Z) (ops : list io) : list io := filter (fun op => fd_of op = s) ops.

(** A log with the descriptor each entry is about. *)
Definition tag {A} (s : Z) (m : logged A) : run (Z * log_op) A := ((fun o => (s, o)) <$> m.1, m.2).
Definition for_fd {A} (s : Z) (w : list (Z * A)) : list A := omap (fun x => if x.1 =? s then Some x.2 else None) w.
Definition only_log {A} (m : acts A) : logged A := (log_of m.1, m.2).

Section multiplex.
Context (fl : flags).

(** One call of the process; [a]: what the kernel has for its descriptor. *)
Definition proc_one (op : io) (st : proc) (a : answers) : logged (Z * list byte * proc * answers) :=
  match op with
  | Rd s len => let! (r, out, st, a) := read fl s len st a in ret (r, out, st, a)
  | Wr s buf r => let! (r, st) := only_log (write fl s buf (zlen buf) r st) in ret (r, [], st, a)
  end.

Fixpoint proc_io (ops : list io) (st : proc) (ans : Z -> answers) :
    run (Z * log_op) (list (Z * (Z * list byte)) * proc * (Z -> answers)) :=
  match ops with
  | [] => ret ([], st, ans)
  | op :: ops =>
      let s := fd_of op in
      let! (r, out, st, a) := tag s (proc_one op st (ans s)) in
      let! (rest, st, ans) := proc_io ops st (<[s := a]> ans) in
      ret ((s, (r, out)) :: rest, st, ans)
  end.

(** One descriptor alone: its entry and its answers. *)
Definition fd_read (s len : Z) (v : vfd) (ans : answers) : logged (Z * list byte * vfd * answers) :=
  match dispatcher v with
  | Some _ =>
      let! (r, out, v, rd, ans) := virtual_io fl true v s len ∅ ans in
      assert (rbufofs v <=? rbuflen v) ;;;
      ret (r, out, v, ans)
  | None =>
      match ans with
      | [] => stop Pending
      | a :: ans => ret (match kread a len with None => (-1, []) | Some l => (zlen l, l) end, v, ans)
      end
  end.

Definition fd_one (s : Z) (op : io) (v : vfd) (a : answers) : logged (Z * list byte * vfd * answers) :=
  match op with
  | Rd _ len => fd_read s len v a
  | Wr _ buf r => let! v := vwrite_req v s buf (s32 r) in ret (r, [], v, a)
  end.

Fixpoint fd_io (s : Z) (ops : list io) (v : vfd) (a : answers) : logged (list (Z * list byte) * vfd * answers) :=
  match ops with
  | [] => ret ([], v, a)
  | op :: ops =>
      let! (r, out, v, a) := fd_one s op v a in
      let! (rest, v, a) := fd_io s ops v a in
      ret ((r, out) :: rest, v, a)
  end.

(** ** What is shared does not matter *)

(** Two runs with the same log that return related results. *)
Definition sim {A B} (R : A -> B -> Prop) (m1 : logged A) (m2 : logged B) : Prop :=
  m1.1 = m2.1 /\
  match m1.2, m2.2 with Ok a, Ok b => R a b | Crash c, Crash c' => c = c' | _, _ => False end.

Lemma sim_bind {A B C D} (R : A -> B -> Prop) (S : C -> D -> Prop) m1 m2 k1 k2 :
  sim R m1 m2 -> (forall a b, R a b -> sim S (k1 a) (k2 b)) -> sim S (bind m1 k1) (bind m2 k2).
Proof.
  destruct m1 as [w1 [a | c]], m2 as [w2 [b | c']]; intros [Hw Hr] Hk; cbn [fst snd] in *; try done.
  specialize (Hk a b Hr). unfold sim in *. cbn [bind]. destruct (k1 a), (k2 b). cbn [fst snd] in *.
  destruct Hk as [-> Hk]. by subst.
Qed.

Lemma sim_same {A} (m : logged A) : sim eq m m.
Proof. split; [done |]. by destruct (m.2). Qed.
Lemma sim_ret {A B} (R : A -> B -> Prop) a b : R a b -> sim R (ret a) (ret b).
Proof. by split. Qed.
Lemma sim_stop {A B} (R : A -> B -> Prop) c : sim R (stop c) (stop c).
Proof. done. Qed.

Ltac go_sim :=
  repeat first
  [ progress cbv zeta
  | match goal with
    | |- sim _ (bind ?m _) (bind ?m _) => apply (sim_bind eq); [apply sim_same | intros ? ? <-]
    | |- sim _ (ret _) (ret _) => apply sim_ret
    | |- sim _ (stop _) (stop _) => apply sim_stop
    | |- sim _ (match ?x with _ => _ end) (match ?x with _ => _ end) => destruct x
    end ].

(** The select cache is kept but never looked at. *)
Definition cacheless (x : Z * list byte * vfd * gset Z * answers) : Z * list byte * vfd * answers :=
  let '(r, out, v, rd, ans) := x in (r, out, v, ans).

Lemma buf_ret_sim v s rd1 rd2 n :
  sim (fun x y => x.1 = y.1) (buf_ret fl v s rd1 n) (buf_ret fl v s rd2 n).
Proof.
  unfold buf_ret, clear_readable_cache, set_readable_cache. go_sim.
  apply (sim_bind (fun _ _ => True)); [go_sim; done |]. intros ? ? _. go_sim. done.
Qed.

Lemma buf_ret_tail_sim v s rd1 rd2 n ans :
  sim (fun x y => cacheless x = cacheless y)
    (let! (r, out, v, rd) := buf_ret fl v s rd1 n in ret (r, out, v, rd, ans))
    (let! (r, out, v, rd) := buf_ret fl v s rd2 n in ret (r, out, v, rd, ans)).
Proof.
  eapply sim_bind; [apply buf_ret_sim |]. intros [[[r out] v1] c] [[[r2 out2] v2] c2] E.
  cbn [fst] in E. simplify_eq. by apply sim_ret.
Qed.

Lemma virtual_io_sim strict v s n rd1 rd2 ans :
  sim (fun x y => cacheless x = cacheless y) (virtual_io fl strict v s n rd1 ans) (virtual_io fl strict v s n rd2 ans).
Proof.
  unfold virtual_io, read_more, refilled. go_sim; try done; apply buf_ret_tail_sim.
Qed.

Lemma virtual_io_any strict v s n rd1 ans w r out v' rd' ans' :
  virtual_io fl strict v s n rd1 ans = (w, Ok (r, out, v', rd', ans')) ->
  forall rd, exists rd2, virtual_io fl strict v s n rd ans = (w, Ok (r, out, v', rd2, ans')).
Proof.
  intros E rd. destruct (virtual_io_sim strict v s n rd1 rd ans) as [Hw Hr]. rewrite E in Hw, Hr.
  destruct (virtual_io fl strict v s n rd ans) as [w2 [[[[[r2 o2] v2] rd2] a2] | c]]; [| done].
  cbn [fst snd cacheless] in *. simplify_eq. by exists rd2.
Qed.

(** ** One call *)

Section on.
Context (Hon : bb_disable_all fl = 0).

Lemma clear_any s rd : exists w rd', clear_readable_cache fl s rd = (w, Ok rd') /\ plugin_log w = [].
Proof.
  unfold clear_readable_cache, LOGBINfatal, LOGBINs, emit.
  destruct (negb _); do 2 eexists; (split; [reflexivity | done]).
Qed.

Lemma read_alone s len st ans w r out v' ans' :
  in_range s = true -> fd_read s len (get_vfd st s) ans = (w, Ok (r, out, v', ans')) ->
  exists w' st', read fl s len st ans = (w', Ok (r, out, st', ans')) /\
    plugin_log w' = plugin_log w /\ forall t, get_vfd st' t = get_vfd (set_vfd st s v') t.
Proof.
  intros Hs E. unfold read. rewrite on_disabled, Hs by done. cbn [orb negb]. unfold rd_wrap. unfold fd_read in E.
  destruct (dispatcher (get_vfd st s)) as [d |] eqn:Hd.
  - inv_runs. simplify_eq. rewrite app_nil_r.
    match goal with H : virtual_io _ _ _ _ _ _ _ = _ |- _ =>
      destruct (virtual_io_any _ _ _ _ _ _ _ _ _ _ _ _ H (sel_read st)) as [rd2 ->] end.
    match goal with H : (_ <=? _) = true |- _ => cbn [bind LOGBINii emit]; rewrite H end.
    do 2 eexists. split; [reflexivity |]. split; [| intros t; by rewrite get_sel].
    rewrite !app_nil_r. cbn [app]. unfold plugin_log. cbn [List.filter plugin_op lib_event ev_sc negb].
    rewrite List.filter_app. cbn. by rewrite app_nil_r.
  - destruct ans as [| a ans]; [done |]. destruct (clear_any s (sel_read st)) as (wc & rd' & Ec & Hq).
    destruct (match kread a len with None => _ | Some l => _ end) as [r1 out1] eqn:Ek.
    unfold ret in E. simplify_eq.
    cbn [bind LOGBINii emit]. rewrite Ec. do 2 eexists. split; [reflexivity |]. split.
    + cbn [app]. rewrite !app_nil_r. unfold plugin_log in *. cbn [List.filter plugin_op lib_event ev_sc negb].
      rewrite List.filter_app, Hq. done.
    + intros t. rewrite get_sel. destruct (decide (t = s)) as [-> |]; [by rewrite get_set | by rewrite get_set_ne].
Qed.
Lemma one_alone op st a w r out v' a' :
  in_range (fd_of op) = true -> fd_one (fd_of op) op (get_vfd st (fd_of op)) a = (w, Ok (r, out, v', a')) ->
  exists w' st', proc_one op st a = (w', Ok (r, out, st', a')) /\
    plugin_log w' = plugin_log w /\ forall t, get_vfd st' t = get_vfd (set_vfd st (fd_of op) v') t.
Proof.
  destruct op as [s len | s buf r0]; cbn [fd_of fd_one proc_one]; intros Hs E.
  - destruct (read_alone _ _ _ _ _ _ _ _ _ Hs E) as (w' & st' & -> & Hl & Hg).
    exists (w' ++ []), st'. split; [reflexivity |]. by rewrite app_nil_r.
  - inv_run. simplify_eq.
    destruct (write_virtual fl Hon s buf (zlen buf) r st _ _ Hs Hm) as (wa & st' & E & Hg & _ & Hl & _).
    unfold only_log. rewrite E. exists (log_of wa ++ []), st'. split; [reflexivity |]. rewrite !app_nil_r. by split.
Qed.

(** ** All calls *)

Lemma for_fd_app {A} s (w1 w2 : list (Z * A)) : for_fd s (w1 ++ w2) = for_fd s w1 ++ for_fd s w2.
Proof. apply omap_app. Qed.
Lemma for_fd_tag {A} s t (w : list A) : for_fd t ((fun o => (s, o)) <$> w) = if s =? t then w else [].
Proof.
  unfold for_fd. induction w as [| o w IH]; [by case_match |]. cbn [fmap list_fmap omap list_omap fst snd].
  fold (fmap (M := list) (fun o : A => (s, o)) w). rewrite IH. by destruct (s =? t).
Qed.

Lemma for_fd_cons {A} s t (x : A) l : for_fd t ((s, x) :: l) = (if s =? t then [x] else []) ++ for_fd t l.
Proof. unfold for_fd. cbn [omap list_omap fst snd]. by destruct (s =? t). Qed.

Lemma on_same op ops : on (fd_of op) (op :: ops) = op :: on (fd_of op) ops.
Proof. unfold on. by rewrite filter_cons_True. Qed.
Lemma on_other t op ops : fd_of op <> t -> on t (op :: ops) = on t ops.
Proof. intros. unfold on. by rewrite filter_cons_False. Qed.

Lemma proc_io_alone ops st ans :
  Forall (fun op => in_range (fd_of op) = true) ops ->
  (forall s, returns (fd_io s (on s ops) (get_vfd st s) (ans s))) ->
  exists w outs st' ans', proc_io ops st ans = (w, Ok (outs, st', ans')) /\
    forall s ws rs v a, fd_io s (on s ops) (get_vfd st s) (ans s) = (ws, Ok (rs, v, a)) ->
      plugin_log (for_fd s w) = plugin_log ws /\ for_fd s outs = rs /\ get_vfd st' s = v /\ ans' s = a.
Proof.
  intros Hin. revert st ans. induction Hin as [| op ops Hs Hin IH]; intros st ans Hret.
  { exists [], [], st, ans. split; [done |]. intros s ws rs v a [= <- <- <- <-]. done. }
  set (s := fd_of op) in *.
  destruct (Hret s) as (ws & [[rs v] a] & E). unfold s in E. rewrite on_same in E. cbn [fd_io] in E. fold s in E.
  apply bind_inv in E as ([[[r1 out1] v1] a1] & w1 & w2 & H1 & E & ->).
  apply bind_inv in E as ([[rest v2] a2] & w3 & w4 & H2 & E & ->). apply ret_inv in E as [E ->].
  destruct (one_alone _ _ _ _ _ _ _ _ Hs H1) as (wa & st1 & E1 & Hl1 & Hg1). fold s in Hg1.
  destruct (IH st1 (<[s := a1]> ans)) as (wb & outs & st2 & ans2 & E2 & Hall).
  { intros t. rewrite Hg1. destruct (decide (t = s)) as [-> | Ht].
    - rewrite get_set, fn_lookup_insert. do 2 eexists. exact H2.
    - rewrite get_set_ne, fn_lookup_insert_ne by done.
      specialize (Hret t). by rewrite on_other in Hret. }
  cbn [proc_io]. fold s. unfold tag at 1. rewrite E1. cbn [fst snd bind]. rewrite E2. cbn [bind ret].
  do 4 eexists. split; [reflexivity |]. intros t wt rt vt at_ Et. rewrite for_fd_app, for_fd_tag, for_fd_cons, app_nil_r.
  specialize (Hall t). rewrite Hg1 in Hall. destruct (Z.eqb_spec s t) as [<- | Ht].
  - rewrite get_set, fn_lookup_insert in Hall. destruct (Hall _ _ _ _ H2) as (Hp & Ho & Hv & Ha).
    unfold s in Et. rewrite on_same in Et. fold s in Et. cbn [fd_io] in Et. rewrite H1 in Et. cbn [bind] in Et.
    rewrite H2 in Et. cbn [bind ret] in Et. injection Et as <- <- <- <-.
    rewrite !app_nil_r, !plugin_log_app, Hl1, Hp, Ho. done.
  - rewrite get_set_ne, fn_lookup_insert_ne in Hall by done. rewrite on_other in Et by done.
    apply (Hall _ _ _ _ Et).
Qed.

(** ** A descriptor whose plugin follows a conversation *)

Lemma reads_alone d Inv Refused s lens v rd ans w out got v' rd' ans' :
  PpLaw (pp_read d) Inv Refused -> vwf d Inv Refused v -> Forall (fun len => 0 < len < 2 ^ 31) lens ->
  app_reads fl true lens v s rd ans = (w, Ok (out, got, v', rd', ans')) ->
  exists w' rs, fd_io s (Rd s <$> lens) v ans = (w', Ok (rs, v', ans')) /\
    plugin_log w' = plugin_log w /\ concat (snd <$> rs) = out.
Proof.
  intros Hlaw Hv Hlens. revert v rd ans w out got Hv.
  induction Hlens as [| len lens Hlen _ IH]; intros v rd ans w out got Hv E; cbn [app_reads] in E.
  { unfold ret in E. simplify_eq. by exists [], []. }
  inv_runs. simplify_eq.
  pose proof (post_ok _ _ _ _ Hm (virtual_io_post fl d Inv Refused true _ s len _ ans Hv Hlen)) as
    [(r1 & o1 & v1 & rd1 & a1 & [= <- <- <- <- <-] & Hv' & _) | [[? _] | (c & x & ? & _)]]; [| done..].
  destruct (IH _ _ _ _ _ _ Hv' Hm0) as (wb & rs & E2 & Hl & Ho).
  destruct (virtual_io_any _ _ _ _ _ _ _ _ _ _ _ _ Hm ∅) as [rd2 E1].
  cbn [fmap list_fmap fd_io fd_one]. fold (fmap (M := list) (Rd s) lens). unfold fd_read.
  destruct Hv as (Hd & _). rewrite Hd, E1. cbn [bind].
  destruct Hv' as (_ & _ & _ & _ & _ & Hofs & _). rewrite assert_true by (apply Z.leb_le; lia).
  unfold ret. cbn [bind]. rewrite E2. cbn [bind]. do 2 eexists. split; [reflexivity |].
  cbn [fmap list_fmap snd concat]. rewrite !app_nil_r, !plugin_log_app, Hl, Ho. done.
Qed.

Lemma writes_alone s calls v (a : answers) w v' :
  Forall call_ok calls -> app_writes (taken calls) v s = (w, Ok v') ->
  exists rs, fd_io s ((fun c => Wr s c.1 c.2) <$> calls) v a = (w, Ok (rs, v', a)) /\ rs.*1 = snd <$> calls.
Proof.
  intros Hok. revert v w. induction Hok as [| [buf r] calls [Hr H31] _ IH]; intros v w E.
  - cbn in E. unfold ret in E. simplify_eq. by exists [].
  - cbn [taken fmap list_fmap app_writes fst snd] in E, Hr, H31. fold (taken calls) in E. apply bind_inv in E as (v1 & w1 & w2 & Hm & H & ->).
    rewrite <- vwrite_req_taken in Hm by done. destruct (IH _ _ H) as (rs & E & Hrs).
    cbn [fmap list_fmap fd_io fd_one fst snd]. rewrite s32_small, Hm by lia. unfold ret. cbn [bind].
    fold (fmap (M := list) (fun c : list byte * Z => Wr s c.1 c.2) calls). rewrite E. cbn [bind].
    eexists. split; [rewrite !app_nil_r; reflexivity |]. cbn [fmap list_fmap fst snd]. by rewrite Hrs.
Qed.

(** One of a process's connections: the program either reads [n] bytes at a time what
    the network brings in [chunks], or writes. *)
Inductive traffic := Reads (n : Z) (chunks : list (list byte)) | Writes (calls : list (list byte * Z)).

(** The plugin of [s] understands the traffic, and owes [evs] for it. *)
Definition follows (s : Z) (v : vfd) (a : answers) (t : traffic) (evs : list log_op) : Prop :=
  exists d Inv Refused Expects,
    match t with
    | Reads n chunks =>
        PpConv (pp_read d) Inv Refused s Expects /\ vwf d Inv Refused v /\ rbuflen v = 0 /\
        Expects (ppdata v) (concat chunks) evs /\ a = Some <$> chunks /\ 0 < n < 2 ^ 31 /\
        Forall (fun c => 0 < zlen c) chunks /\ zlen (concat chunks) <= VBUFSIZE
    | Writes calls =>
        PpConv (pp_write d) Inv Refused s Expects /\ wwf d Inv v /\ wbuflen v = 0 /\ wbufofs v = 0 /\
        Expects (ppdata v) (concat (taken calls)) evs /\
        Forall call_ok calls /\ zlen (concat (taken calls)) <= VBUFSIZE
    end.

(** The calls the program makes for it, and what they return. *)
Definition calls_of (s : Z) (t : traffic) (k : nat) : list io :=
  match t with
  | Reads n _ => replicate k (Rd s n)
  | Writes calls => (fun c => Wr s c.1 c.2) <$> calls
  end.
Definition served (t : traffic) (rs : list (Z * list byte)) : Prop :=
  match t with
  | Reads _ chunks => concat rs.*2 = concat chunks
  | Writes calls => rs.*1 = snd <$> calls
  end.

Lemma follows_alone s v a t evs :
  follows s v a t evs ->
  exists k w rs v' a', fd_io s (calls_of s t k) v a = (w, Ok (rs, v', a')) /\ plugin_log w = evs /\ served t rs.
Proof.
  intros (d & Inv & Refused & Expects & H). destruct t as [n chunks | calls]; cbn [calls_of served].
  - destruct H as (Hc & Hv & Hl & He & -> & Hn & Hch & Hfit). pose proof conv_law as Hlaw.
    destruct (conv_reads fl d Inv Refused s Expects true n chunks v ∅ evs)
      as (k & w & v' & rd' & E & Hlog); [done.. |].
    apply (reads_alone d Inv Refused) in E as (w' & rs & E & Hl' & Ho); [| done | done | by apply Forall_replicate].
    exists k, w', rs, v', []. rewrite fmap_replicate in E. split_and!; [exact E | by rewrite Hl' | exact Ho].
  - destruct H as (Hc & Hv & Hl & H0 & He & Hok & Hfit).
    destruct (conv_writes d Inv Refused s Expects (taken calls) v evs) as (v' & E & _); [done.. | | done | done |].
    { apply Forall_fmap. eapply List.Forall_impl; [| exact Hok]. intros [b k] [? _]. cbn in *. zl. }
    destruct (writes_alone s calls v a evs v' Hok E) as (rs & E' & Hrs).
    exists 0%nat, evs, rs, v', a. split_and!; [exact E' | by eapply conv_plugin | exact Hrs].
Qed.

(** ** Several connections *)

Record conn := mk_conn { c_fd : Z; c_traffic : traffic; c_events : list log_op }.

Definition plan (c : conn) (p : list io) : Prop := exists k, p = calls_of (c_fd c) (c_traffic c) k.

Lemma plan_fd c p : plan c p -> Forall (fun op => fd_of op = c_fd c) p.
Proof.
  intros [k ->]. destruct (c_traffic c); cbn [calls_of]; [by apply Forall_replicate |].
  apply Forall_fmap, Forall_true. done.
Qed.

Lemma on_all s p : Forall (fun op => fd_of op = s) p -> on s p = p.
Proof. unfold on. induction 1 as [| op p Hop _ IH]; [done |]. rewrite filter_cons_True by done. by rewrite IH. Qed.
Lemma on_none s t p : Forall (fun op => fd_of op = s) p -> s <> t -> on t p = [].
Proof.
  unfold on. induction 1 as [| op p Hop _ IH]; intros Ht; [done |]. rewrite filter_cons_False by congruence. auto.
Qed.

(** The calls about one connection among those of all. *)
Lemma on_plans conns plans :
  Forall2 plan conns plans -> NoDup (c_fd <$> conns) ->
  (forall i c p, conns !! i = Some c -> plans !! i = Some p -> on (c_fd c) (concat plans) = p) /\
  forall s, s ∉ (c_fd <$> conns) -> on s (concat plans) = [].
Proof.
  induction 1 as [| c p conns plans Hp Hps IH]; intros Hnd; [done |].
  cbn [fmap list_fmap] in Hnd. apply list.NoDup_cons in Hnd as [Hc Hnd].
  destruct (IH Hnd) as [IH1 IH2]. pose proof (plan_fd _ _ Hp) as Hfd.
  assert (forall s, on s (concat (p :: plans)) = on s p ++ on s (concat plans)) as Happ.
  { intros s. cbn [concat]. unfold on. by rewrite list.filter_app. }
  split.
  - intros [| i] c0 p0 Hi Hj; rewrite Happ; [injection Hi as <-; injection Hj as <- |].
    + by rewrite on_all, IH2, app_nil_r.
    + rewrite (on_none (c_fd c)); [by apply (IH1 i) | done |].
      intros E. apply Hc. rewrite E. apply list_elem_of_fmap. exists c0. split; [done |].
      by eapply list_elem_of_lookup_2.
  - intros s Hs. cbn [fmap list_fmap] in Hs. apply not_elem_of_cons in Hs as [Hs Hs'].
    by rewrite Happ, (on_none (c_fd c)), IH2.
Qed.

Definition conn_ok (st : proc) (ans : Z -> answers) (c : conn) : Prop :=
  in_range (c_fd c) = true /\
  follows (c_fd c) (get_vfd st (c_fd c)) (ans (c_fd c)) (c_traffic c) (c_events c).

Definition alone_ok (st : proc) (ans : Z -> answers) (c : conn) (p : list io) : Prop :=
  exists w rs v a, fd_io (c_fd c) p (get_vfd st (c_fd c)) (ans (c_fd c)) = (w, Ok (rs, v, a)) /\
    plugin_log w = c_events c /\ served (c_traffic c) rs.

Lemma plans_exist st ans conns :
  Forall (conn_ok st ans) conns -> exists plans, Forall2 plan conns plans /\ Forall2 (alone_ok st ans) conns plans.
Proof.
  induction 1 as [| c conns [_ Hc] _ (plans & Hp & Ha)]; [by exists [] |].
  destruct (follows_alone _ _ _ _ _ Hc) as (k & w & rs & v & a & E & Hl & Hs).
  exists (calls_of (c_fd c) (c_traffic c) k :: plans). split; constructor; try done; [by exists k |].
  by exists w, rs, v, a.
Qed.

(** Every call is about one of the connections. *)
Lemma planned conns plans ops st ans :
  Forall (conn_ok st ans) conns -> Forall2 plan conns plans -> (forall s, on s ops = on s (concat plans)) ->
  Forall (fun op => in_range (fd_of op) = true) ops.
Proof.
  intros Hok Hp Hops. apply list.Forall_forall. intros op Hop.
  assert (op ∈ concat plans) as Hin.
  { assert (op ∈ on (fd_of op) ops) as H by (by apply list_elem_of_filter).
    rewrite Hops in H. by apply list_elem_of_filter in H as [_ H]. }
  clear Hops Hop. induction Hp as [| c p conns plans Hp _ IH]; [by apply elem_of_nil in Hin |].
  apply List.Forall_cons_iff in Hok as [[Hr _] Hok]. cbn [concat] in Hin.
  apply elem_of_app in Hin as [Hin | Hin]; [| by apply IH].
  apply plan_fd in Hp. rewrite list.Forall_forall in Hp. by rewrite (Hp op Hin).
Qed.

Lemma connections_run conns st ans plans ops :
  NoDup (c_fd <$> conns) -> Forall (conn_ok st ans) conns ->
  Forall2 plan conns plans -> Forall2 (alone_ok st ans) conns plans ->
  (forall s, on s ops = on s (concat plans)) ->
  exists w outs st' ans', proc_io ops st ans = (w, Ok (outs, st', ans')) /\
    Forall (fun c => plugin_log (for_fd (c_fd c) w) = c_events c /\ served (c_traffic c) (for_fd (c_fd c) outs)) conns.
Proof.
  intros Hnd Hok Hp Ha Hops. destruct (on_plans _ _ Hp Hnd) as [Hon1 Hon2].
  assert (forall i c p, conns !! i = Some c -> plans !! i = Some p -> on (c_fd c) ops = p) as Hi.
  { intros i c p Hc Hpi. rewrite Hops. by apply (Hon1 i). }
  destruct (proc_io_alone ops st ans) as (w & outs & st' & ans' & E & Hall).
  - by eapply planned.
  - intros s. destruct (decide (s ∈ c_fd <$> conns)) as [Hs | Hs].
    + apply list_elem_of_fmap in Hs as (c & -> & Hc). apply list_elem_of_lookup_1 in Hc as [i Hc].
      destruct (Forall2_lookup_l _ _ _ _ _ Ha Hc) as (p & Hpi & w & rs & v & a & E & _).
      rewrite (Hi i c p) by done. do 2 eexists. exact E.
    + rewrite Hops, Hon2 by done. do 2 eexists. reflexivity.
  - exists w, outs, st', ans'. split; [exact E |]. apply Forall_lookup. intros i c Hc.
    destruct (Forall2_lookup_l _ _ _ _ _ Ha Hc) as (p & Hpi & ws & rs & v & a & Es & Hl & Hsv).
    rewrite <- (Hi i c p) in Es by done. destruct (Hall _ _ _ _ _ Es) as (-> & -> & _). done.
Qed.
End on.
End multiplex.

(** ** Properties *)

(** C8: A process that serves many connections is traced as if it served each alone.
    The library is switched on; each connection is on a descriptor of its own, below 1024,
    whose buffer is empty, and has traffic in one direction, 64 KiB of it at most: what
    the network brings, read in pieces of any size, or what the program writes.  Its
    plugin keeps [PpConv] (PostgreSQL's, MySQL's and the trivial one do) and is at the
    start of a conversation it understands, [Expects], with this traffic.  Then there are
    calls for each connection that end it, and however the process interleaves them with
    those of the others, every call returns, each connection's reads give exactly its
    bytes and its writes the kernel's answers, and the plugin events logged about its
    descriptor are exactly those of its own conversation, in order. *)
Theorem connections_independent fl conns st ans :
  bb_disable_all fl = 0 -> NoDup (c_fd <$> conns) -> Forall (conn_ok st ans) conns ->
  exists plans, Forall2 plan conns plans /\
    forall ops, (forall s, on s ops = on s (concat plans)) ->
      exists w outs st' ans', proc_io fl ops st ans = (w, Ok (outs, st', ans')) /\
        Forall (fun c => plugin_log (for_fd (c_fd c) w) = c_events c /\
                         served (c_traffic c) (for_fd (c_fd c) outs)) conns.
Proof.
  intros Hon Hnd Hok. destruct (plans_exist fl st ans conns Hok) as (plans & Hp & Ha).
  exists plans. split; [exact Hp |]. intros ops Hops. by eapply connections_run.
Qed.

(** A PostgreSQL server on one descriptor and a MySQL client on another. *)
Definition demo_psql_state : psql_state := mk_psql_state (mk_psql 0 NUL 0 0 0) (start_side (mk_psql 0 NUL 0 0 0)).
Definition demo_two : proc :=
  set_vfd (set_vfd proc0 5 (demo_vfd pp_psqls (PD_psql demo_psql_state))) 6
    (demo_vfd pp_mysqlc (PD_mysql pp_mysql_common_init)).
Definition demo_chunks : list (list byte) := [ztake 3 demo_session; zdrop 3 demo_session].
Definition demo_mysql_calls : list (list byte * Z) := [(mysql_bytes demo_packet, 2); (zdrop 2 (mysql_bytes demo_packet), 7)].
Definition demo_net (s : Z) : answers := if s =? 5 then Some <$> demo_chunks else [].
Definition demo_conns : list conn :=
  [mk_conn 5 (Reads 8 demo_chunks) (psql_events PP_PSQLS_ID PP_READ 5 0 [demo_query]);
   mk_conn 6 (Writes demo_mysql_calls) (mysql_events PP_MYSQLC_ID PP_WRITE 6 [demo_packet])].

Lemma demo_conns_ok : Forall (conn_ok demo_two demo_net) demo_conns.
Proof.
  constructor; [| constructor; [| constructor]]; (split; [reflexivity |]); cbn [c_fd c_traffic c_events];
    unfold demo_two; rewrite ?get_set, ?(get_set_ne _ 6 5), ?get_set by done.
  - exists pp_psqls, (psql_data_inv PP_READ), (psql_refused PP_READ), (psql_stream PP_PSQLS_ID PP_READ 5). split_and!.
    + exact (psql_conv PP_PSQLS_ID PP_READ 5).
    + apply (demo_vfd_wf pp_psqls (psql_data_inv PP_READ) (psql_refused PP_READ)).
      eexists. split; [done |]. split; vm_compute; congruence.
    + reflexivity.
    + replace (concat demo_chunks) with (startup_bytes 196608 (bs "user" ++ [NUL]) ++ concat (psql_bytes <$> [demo_query]))
        by (vm_compute; reflexivity).
      apply psql_stream_start; [done | | reflexivity | split; vm_compute; congruence].
      repeat constructor; [intros _; exists (bs "select 1"); split; [repeat constructor; discriminate | done]].
    + reflexivity.
    + lia.
    + reflexivity.
    + repeat constructor.
    + vm_compute. congruence.
  - exists pp_mysqlc, (mysql_inv PP_WRITE), (mysql_refused PP_WRITE), (mysql_stream PP_MYSQLC_ID PP_WRITE 6). split_and!.
    + exact (mysql_conv PP_MYSQLC_ID PP_WRITE 6).
    + apply (demo_vfd_wf pp_mysqlc (mysql_inv PP_WRITE) (mysql_refused PP_WRITE)).
      eexists. split; [done |]. split; vm_compute; congruence.
    + reflexivity.
    + reflexivity.
    + replace (concat (taken demo_mysql_calls)) with (concat (mysql_bytes <$> [demo_packet])) by (vm_compute; reflexivity).
      apply mysql_stream_start; [done |]. repeat constructor; vm_compute; congruence.
    + repeat constructor; vm_compute; congruence.
    + vm_compute. congruence.
Qed.

Lemma connections_independent_witness :
  exists plans, Forall2 plan demo_conns plans /\
    forall ops, (forall s, on s ops = on s (concat plans)) ->
      exists w outs st' ans', proc_io (mk_flags 0 0 0 0 0) ops demo_two demo_net = (w, Ok (outs, st', ans')) /\
        Forall (fun c => plugin_log (for_fd (c_fd c) w) = c_events c /\
                         served (c_traffic c) (for_fd (c_fd c) outs)) demo_conns.
Proof.
  apply (connections_independent (mk_flags 0 0 0 0 0) demo_conns demo_two demo_net).
  - reflexivity.
  - by_eval.
  - exact demo_conns_ok.
Defined.
