(* ===== verification/Select.v ===== *)
(** src/src/trace/vfd.c: select and poll over the cache of ready descriptors.

    The kernel tells of many ready descriptors at once, the library of one at a time:
    what it has not told yet stays in the select cache ([sel_read], [sel_write],
    [sel_except] of the process).  A set is an fd_set of 1024 entries; [None] is the
    NULL an application may pass. *)
From S2P Require Import Prelude CInt CString Config Plugin Getservice PpId Vbuf Vfd Requests.

Inductive sel_kind := VFD_SEL_READ | VFD_SEL_WRITE | VFD_SEL_EXCEPT.
#[global] Instance sel_kind_eq_dec : EqDecision sel_kind.
Proof. solve_decision. Defined.

(** Three sets: readfds, writefds and exceptfds. *)
Record fdsets := mk_sets { fs_read : gset Z; fs_write : gset Z; fs_except : gset Z }.

Definition no_fds : fdsets := mk_sets ∅ ∅ ∅.
Definition sets_of (r w e : option (gset Z)) : fdsets :=
  mk_sets (default ∅ r) (default ∅ w) (default ∅ e).
Definition cached (st : proc) : fdsets := mk_sets (sel_read st) (sel_write st) (sel_except st).
Definition set_cached (st : proc) (c : fdsets) : proc :=
  set_sel st (fs_read c) (fs_write c) (fs_except c).

Definition sel_in (k : sel_kind) (i : Z) (s : fdsets) : bool :=
  match k with
  | VFD_SEL_READ => bool_decide (i ∈ fs_read s)
  | VFD_SEL_WRITE => bool_decide (i ∈ fs_write s)
  | VFD_SEL_EXCEPT => bool_decide (i ∈ fs_except s)
  end.

(** The sets as an argument of a call: the descriptors of each, closed by -1. *)
Definition sets_arg (s : fdsets) : list Z :=
  elements (fs_read s) ++ [-1] ++ elements (fs_write s) ++ [-1] ++ elements (fs_except s) ++ [-1].

(** FD_CLR, and FD_SET in empty sets *)
Definition sel_clr (k : sel_kind) (i : Z) (s : fdsets) : fdsets :=
  match k with
  | VFD_SEL_READ => mk_sets (fs_read s ∖ {[i]}) (fs_write s) (fs_except s)
  | VFD_SEL_WRITE => mk_sets (fs_read s) (fs_write s ∖ {[i]}) (fs_except s)
  | VFD_SEL_EXCEPT => mk_sets (fs_read s) (fs_write s) (fs_except s ∖ {[i]})
  end.
Definition sel_only (k : sel_kind) (i : Z) : fdsets :=
  match k with
  | VFD_SEL_READ => mk_sets {[i]} ∅ ∅
  | VFD_SEL_WRITE => mk_sets ∅ {[i]} ∅
  | VFD_SEL_EXCEPT => mk_sets ∅ ∅ {[i]}
  end.

(** for(i=0;i<n;i++) over read, write, except: the first hit. *)
Definition hit (p : sel_kind -> Z -> bool) (i : Z) : option sel_kind :=
  if p VFD_SEL_READ i then Some VFD_SEL_READ
  else if p VFD_SEL_WRITE i then Some VFD_SEL_WRITE
  else if p VFD_SEL_EXCEPT i then Some VFD_SEL_EXCEPT else None.
Fixpoint first_hit (p : sel_kind -> Z -> bool) (l : list Z) : option (Z * sel_kind) :=
  match l with
  | [] => None
  | i :: l' => match hit p i with Some k => Some (i, k) | None => first_hit p l' end
  end.

(** The copy of the kernel's sets into the cache, up to [n]. *)
Definition below (n : Z) (s : gset Z) : gset Z := filter (fun i => 0 <= i < n) s.
Definition remember (n : Z) (k c : fdsets) : fdsets :=
  mk_sets (fs_read c ∪ below n (fs_read k)) (fs_write c ∪ below n (fs_write k))
    (fs_except c ∪ below n (fs_except k)).

Section select.
Context (fl : flags) (fs : list byte -> option file) (senv : option (list byte)).
Context (stk : list byte) (ntop6 : list byte -> list byte).

(** maybe a connect event *)
Definition sel_done (fd : Z) (peer sock : option (sockaddr * Z)) (junk : sockaddr) (st : proc) :
    acts proc :=
  if (-1 <? fd) && negb (in_prog (get_vfd st fd) =? 0) then
    lift (connect_event fl fs senv stk ntop6 fd 1 peer sock junk st)
  else ret st.

(** The kernel's answer [kr], [ks] is what real_select returns and leaves in the
    sets; [tv] the timeout.  Returns r, *rfd and what the sets hold. *)
Definition speak_select (n : Z) (want : fdsets) (tv : list Z) (kr : Z) (ks : fdsets)
    (peer sock : option (sockaddr * Z)) (junk : sockaddr) (st : proc) :
    acts (Z * Z * fdsets * proc) :=
  match first_hit (fun k i => sel_in k i want && sel_in k i (cached st)) (seqZ 0 (Z.min n MAX_FDS)) with
  | Some (fd, k) =>
      let st := set_cached st (sel_clr k fd (cached st)) in
      if negb (lock_rv fl =? 0) then lift (LOGBINfatal (bs "select")) ;;; ret (-1, -1, want, st) else
      let! st := sel_done fd peer sock junk st in
      ret (1, fd, sel_only k fd, st)
  | None =>
      check (n <=? MAX_FDS) ;;;
      emit (AReal (bs "select") (n :: sets_arg want ++ tv) []) ;;;
      if negb (lock_rv fl =? 0) then lift (LOGBINfatal (bs "select")) ;;; ret (-1, -1, ks, st) else
      if 0 <? kr then
        (if 1 <? kr then lift (LOGBIN0 SYS_PP_ISO_POLL kr) else ret tt) ;;;
        let c := remember n ks (cached st) in
        let st := set_cached st c in
        match first_hit (fun k i => sel_in k i c) (seqZ 0 n) with
        | Some (fd, k) =>
            let! st := sel_done fd peer sock junk st in
            ret (1, fd, sel_only k fd, st)
        | None => ret (1, -1, no_fds, st)
        end
      else ret (kr, -1, ks, st)
  end.

Definition select (n : Z) (r w e : option (gset Z)) (tv : list Z) (kr : Z) (ks : fdsets)
    (peer sock : option (sockaddr * Z)) (junk : sockaddr) (st : proc) : acts (Z * fdsets * proc) :=
  if disabled fl then emit (AReal (bs "select") (n :: sets_arg (sets_of r w e) ++ tv) []) ;;; ret (kr, ks, st) else
  lift (LOGBIN0 SYS_SELECT_BEGIN 0) ;;;
  let! (r, rfd, got, st) := speak_select n (sets_of r w e) tv kr ks peer sock junk st in
  lift (LOGBINii SYS_SELECT r n rfd) ;;;
  ret (r, got, st).

(** ** poll *)

Definition POLLIN : Z := 1.
Definition POLLOUT : Z := 4.

(** struct pollfd without revents, which is the result. *)
Record pollfd := mk_pollfd { pfd : Z; events : Z }.

Definition wants (b : Z) (u : pollfd) : bool := negb (Z.land (events u) b =? 0).

(** The loop that builds the sets: the sets and maxfd. *)
Fixpoint poll_sets (l : list pollfd) (s : fdsets) (maxfd : Z) : acts (fdsets * Z) :=
  match l with
  | [] => ret (s, maxfd)
  | u :: l' =>
      check (in_range (pfd u) || negb (wants POLLIN u || wants POLLOUT u)) ;;;
      let s := if wants POLLIN u then mk_sets ({[pfd u]} ∪ fs_read s) (fs_write s) (fs_except s) else s in
      let s := if wants POLLOUT u then mk_sets (fs_read s) ({[pfd u]} ∪ fs_write s) (fs_except s) else s in
      poll_sets l' s (Z.max maxfd (pfd u))
  end.

(** The loop that sets revents, which stops at the first it sets. *)
Fixpoint poll_revents (l : list pollfd) (rfd : Z) (s : fdsets) : acts (list Z) :=
  match l with
  | [] => ret []
  | u :: l' =>
      if negb (pfd u =? rfd) then let! x := poll_revents l' rfd s in ret (0 :: x) else
      check (in_range (pfd u)) ;;;
      if sel_in VFD_SEL_READ (pfd u) s then ret (POLLIN :: replicate (length l') 0) else
      if sel_in VFD_SEL_WRITE (pfd u) s then ret (POLLOUT :: replicate (length l') 0) else
      let! x := poll_revents l' rfd s in ret (0 :: x)
  end.

(** The timeval of a timeout in milliseconds; nothing to wait forever. *)
Definition poll_tv (timeout : Z) : list Z :=
  if 0 <=? timeout then
    let sec := Z.quot timeout 1000 in [sec; s32 (timeout - s32 (s32 sec * 1000)) * 1000]
  else [].

(** [krev]: the revents of the real poll, when it is called. *)
Definition poll (ufds : list pollfd) (timeout : Z) (krev : list Z) (kr : Z) (ks : fdsets)
    (peer sock : option (sockaddr * Z)) (junk : sockaddr) (st : proc) : acts (Z * list Z * proc) :=
  let nfds := zlen ufds in
  if disabled fl then
    real (bs "poll") (nfds :: timeout :: flat_map (fun u => [pfd u; events u]) ufds) ;;; ret (kr, krev, st) else
  lift (LOGBINii SYS_POLL_BEGIN 0 nfds timeout) ;;;
  let! (want, maxfd) := poll_sets ufds no_fds 0 in
  let! (r, rfd, got, st) := speak_select (maxfd + 1) want (poll_tv timeout) kr ks peer sock junk st in
  let! revents := poll_revents ufds rfd got in
  lift (LOGBINiii SYS_POLL r nfds timeout rfd) ;;;
  ret (r, revents, st).
End select.

(** ** What is told and what is kept *)

Lemma first_hit_some p l i k : first_hit p l = Some (i, k) -> In i l /\ p k i = true.
Proof.
  induction l as [| x l IH]; cbn; [done |]. unfold hit.
  destruct (p VFD_SEL_READ x) eqn:E1; [by intros [= <- <-]; split; [left |] |].
  destruct (p VFD_SEL_WRITE x) eqn:E2; [by intros [= <- <-]; split; [left |] |].
  destruct (p VFD_SEL_EXCEPT x) eqn:E3; [by intros [= <- <-]; split; [left |] |].
  intros H. destruct (IH H). by split; [right |].
Qed.

Lemma first_hit_none p l i k : first_hit p l = None -> In i l -> p k i = false.
Proof.
  induction l as [| x l IH]; cbn; [done |]. unfold hit.
  destruct (p VFD_SEL_READ x) eqn:E1; [done |]. destruct (p VFD_SEL_WRITE x) eqn:E2; [done |].
  destruct (p VFD_SEL_EXCEPT x) eqn:E3; [done |]. intros H [-> | Hi]; [by destruct k | by apply IH].
Qed.

Lemma in_seqZ n i : In i (seqZ 0 n) <-> 0 <= i < n.
Proof. rewrite <- list_elem_of_In, elem_of_seqZ. lia. Qed.

Lemma sel_in_remember n ks c k i : 0 <= i < n ->
  sel_in k i (remember n ks c) = sel_in k i c || sel_in k i ks.
Proof.
  intros Hi. destruct k; cbn; unfold below; repeat case_bool_decide; cbn; try done; exfalso; set_solver.
Qed.

(** The cache only grows, by what the kernel said. *)
Lemma sel_in_remember_keep n ks c k i : sel_in k i c = true -> sel_in k i (remember n ks c) = true.
Proof. destruct k; cbn; rewrite !bool_decide_eq_true; set_solver. Qed.
Lemma sel_in_remember_only n ks c k i :
  sel_in k i (remember n ks c) = true -> sel_in k i c = true \/ sel_in k i ks = true.
Proof. destruct k; cbn; unfold below; rewrite !bool_decide_eq_true; set_solver. Qed.

Lemma sel_in_clr_same k i c : sel_in k i (sel_clr k i c) = false.
Proof. destruct k; cbn; apply bool_decide_eq_false; set_solver. Qed.
Lemma sel_in_clr_sub k i k' j c : sel_in k' j (sel_clr k i c) = true -> sel_in k' j c = true.
Proof. destruct k, k'; cbn; rewrite ?bool_decide_eq_true; set_solver. Qed.

Lemma sel_in_clr k i k' j c :
  sel_in k' j c = true -> (k', j) = (k, i) \/ sel_in k' j (sel_clr k i c) = true.
Proof.
  intros H. destruct (decide ((k', j) = (k, i))) as [| Hne]; [by left | right].
  destruct k, k'; cbn in *; try done; apply bool_decide_eq_true in H; apply bool_decide_eq_true;
    assert (j <> i) by congruence; set_solver.
Qed.

Lemma cached_set st c : cached (set_cached st c) = c.
Proof. by destruct c. Qed.

(** The cache can answer: something wanted below [n] is in it. *)
Definition answerable (n : Z) (want c : fdsets) : Prop :=
  exists k i, 0 <= i < n /\ sel_in k i want = true /\ sel_in k i c = true.

Lemma first_hit_answerable n want c :
  match first_hit (fun k i => sel_in k i want && sel_in k i c) (seqZ 0 n) with
  | Some (fd, k) => 0 <= fd < n /\ sel_in k fd want = true /\ sel_in k fd c = true
  | None => ~ answerable n want c
  end.
Proof.
  destruct (first_hit _ _) as [[fd k] |] eqn:E.
  - apply first_hit_some in E as [Hin Hp]. apply in_seqZ in Hin. by apply andb_prop in Hp.
  - intros (k & i & Hi & Hw & Hc). apply (first_hit_none _ _ i k) in E; [| by apply in_seqZ].
    cbn beta in E. by rewrite Hw, Hc in E.
Qed.

Section told.
Context (fl : flags) (fs : list byte -> option file) (senv : option (list byte)).
Context (stk : list byte) (ntop6 : list byte -> list byte).
Context (peer sock : option (sockaddr * Z)) (junk : sockaddr).

(** The addresses of a connection in progress are there to ask for. *)
Definition names_known (st : proc) : Prop :=
  (forall fd, in_prog (get_vfd st fd) = 0) \/ (name_ok peer /\ name_ok sock).

Lemma start_plugin_cached s d sv st w st' :
  start_plugin s d sv st = (w, Ok st') -> cached st' = cached st.
Proof. unfold start_plugin. intros H. inv_run. done. Qed.

Lemma sel_done_ok fd st :
  names_known st -> exists w st', sel_done fl fs senv stk ntop6 fd peer sock junk st = (w, Ok st') /\
    reals w = [] /\ cached st' = cached st.
Proof.
  intros H. unfold sel_done.
  destruct ((-1 <? fd) && negb (in_prog (get_vfd st fd) =? 0)) eqn:Hp; [| by exists [], st].
  destruct H as [H | [Hpe Hso]]; [rewrite H in Hp; by rewrite andb_false_r in Hp |].
  destruct (connect_event_returns fl fs senv NUL stk ntop6 fd 1 peer sock junk st Hpe Hso) as (w & st' & E).
  rewrite E. unfold lift. exists (ALog <$> w), st'. split_and!; [done | apply reals_log |].
  unfold connect_event in E. inv_runs.
  match goal with H : start_plugin _ _ _ _ = _ |- _ => by apply start_plugin_cached in H end.
Qed.

(** What the kernel may answer to a select of [want] below [n]. *)
Definition select_law (n : Z) (want : fdsets) (kr : Z) (ks : fdsets) : Prop :=
  (forall k i, sel_in k i ks = true -> sel_in k i want = true) /\
  (0 < kr -> exists k i, 0 <= i < n /\ sel_in k i ks = true).

(** Descriptor [fd] and nothing else was told. *)
Definition tells (r rfd : Z) (got : fdsets) (k : sel_kind) (fd : Z) : Prop :=
  r = 1 /\ rfd = fd /\ got = sel_only k fd.

Lemma speak_select_hit n want tv kr ks st fd k :
  lock_rv fl = 0 -> names_known st ->
  first_hit (fun k i => sel_in k i want && sel_in k i (cached st)) (seqZ 0 (Z.min n MAX_FDS)) = Some (fd, k) ->
  exists w st', speak_select fl fs senv stk ntop6 n want tv kr ks peer sock junk st = (w, Ok (1, fd, sel_only k fd, st')) /\
    reals w = [] /\ cached st' = sel_clr k fd (cached st).
Proof.
  intros Hl Hn Hh. unfold speak_select. rewrite Hh, Hl. change (negb (0 =? 0)) with false.
  destruct (sel_done_ok fd (set_cached st (sel_clr k fd (cached st)))) as (w & st' & -> & Hr & Hc);
    [exact Hn |].
  exists (w ++ []), st'. cbn [bind ret]. rewrite reals_app, Hr, Hc, cached_set. done.
Qed.

Lemma speak_select_miss n want tv kr ks st :
  lock_rv fl = 0 -> names_known st -> n <= MAX_FDS ->
  first_hit (fun k i => sel_in k i want && sel_in k i (cached st)) (seqZ 0 (Z.min n MAX_FDS)) = None ->
  exists w r rfd got st', speak_select fl fs senv stk ntop6 n want tv kr ks peer sock junk st = (w, Ok (r, rfd, got, st')) /\
    reals w = [AReal (bs "select") (n :: sets_arg want ++ tv) []] /\
    if 0 <? kr then
      cached st' = remember n ks (cached st) /\
      match first_hit (fun k i => sel_in k i (remember n ks (cached st))) (seqZ 0 n) with
      | Some (fd, k) => tells r rfd got k fd
      | None => r = 1 /\ rfd = -1 /\ got = no_fds
      end
    else r = kr /\ rfd = -1 /\ got = ks /\ st' = st.
Proof.
  intros Hl Hn Hfds Hh. unfold speak_select.
  rewrite Hh, Hl, check_true, bind_ret_l by (by apply Z.leb_le).
  change (negb (0 =? 0)) with false. cbn iota. destruct (0 <? kr); [| by do 5 eexists].
  assert (exists w, (if 1 <? kr then lift (LOGBIN0 SYS_PP_ISO_POLL kr) else ret tt) = (w, Ok tt) /\
    reals w = []) as (w1 & -> & Hr1) by (destruct (1 <? kr); eexists; by split).
  cbv zeta. destruct (first_hit _ (seqZ 0 n)) as [[fd k] |] eqn:E.
  - destruct (sel_done_ok fd (set_cached st (remember n ks (cached st)))) as (w & st' & E2 & Hr & Hc);
      [exact Hn |].
    do 5 eexists. split; [cbn [bind emit]; rewrite E2; cbn [bind ret]; reflexivity |].
    rewrite Hc, cached_set. split; [| done]. rewrite reals_app. cbn [app reals List.filter is_real].
    fold (reals (w1 ++ w ++ [])). by rewrite !reals_app, Hr1, Hr.
  - do 5 eexists. split; [reflexivity |]. rewrite cached_set. split; [| done].
    cbn [app reals List.filter is_real]. fold (reals (w1 ++ [])). by rewrite reals_app, Hr1.
Qed.

(** What is told after the kernel has been asked. *)
Lemma miss_told n want kr ks c r rfd got :
  select_law n want kr ks -> 0 < kr ->
  match first_hit (fun k i => sel_in k i (remember n ks c)) (seqZ 0 n) with
  | Some (fd, k) => tells r rfd got k fd
  | None => r = 1 /\ rfd = -1 /\ got = no_fds
  end ->
  exists k fd, tells r rfd got k fd /\ 0 <= fd < n /\ (sel_in k fd c = true \/ sel_in k fd ks = true) /\
    ((forall k i, 0 <= i < n -> sel_in k i c = true -> sel_in k i want = true) -> sel_in k fd want = true).
Proof.
  intros [Hk1 Hk2] Hpos. destruct (first_hit _ (seqZ 0 n)) as [[fd k] |] eqn:E.
  - intros Ht. apply first_hit_some in E as [Hin Hp]. apply in_seqZ in Hin.
    rewrite sel_in_remember in Hp by done. apply orb_prop in Hp. exists k, fd.
    split_and!; [done | lia | lia | done |]. intros Hag. destruct Hp as [Hp | Hp]; [by apply Hag | by apply Hk1].
  - intros _. exfalso. destruct (Hk2 Hpos) as (k & i & Hi & Hki).
    apply (first_hit_none _ _ i k) in E; [| by apply in_seqZ].
    cbn beta in E. rewrite sel_in_remember, Hki, orb_true_r in E; done.
Qed.
End told.

(** ** Properties *)

(** C17: select tells one ready descriptor at a time and forgets none.  Let the lock not
    fail, [n] be at most 1024, the kernel report only what it was asked for and the
    addresses of connections in progress be known.  If something the program wants is in
    the cache, the kernel is not asked: exactly one such descriptor is told, and taken out
    of the cache.  If not, there is one real select with the program's arguments; its
    timeout or error is passed on; otherwise exactly one descriptor that the cache or the
    kernel knew to be ready is told, one the program asked for if the cache holds nothing
    below [n] that it did not, and all the kernel reported is in the cache.  Whatever
    descriptor was in the cache, below [n] or not, has been told or is still there, and
    nothing is there that the cache did not have nor the kernel report. *)
Theorem select_answers fl fs senv stk ntop6 peer sock junk n want tv kr ks st :
  lock_rv fl = 0 -> names_known peer sock st -> n <= MAX_FDS -> select_law n want kr ks ->
  exists w r rfd got st',
    speak_select fl fs senv stk ntop6 n want tv kr ks peer sock junk st = (w, Ok (r, rfd, got, st')) /\
    (answerable n want (cached st) -> reals w = [] /\ exists k fd, tells r rfd got k fd /\ 0 <= fd < n /\
       sel_in k fd want = true /\ sel_in k fd (cached st) = true /\ sel_in k fd (cached st') = false) /\
    (~ answerable n want (cached st) -> reals w = [AReal (bs "select") (n :: sets_arg want ++ tv) []] /\
       ((kr <= 0 /\ r = kr /\ rfd = -1 /\ got = ks /\ st' = st) \/
        (0 < kr /\ (exists k fd, tells r rfd got k fd /\ 0 <= fd < n /\
           (sel_in k fd (cached st) = true \/ sel_in k fd ks = true) /\
           ((forall k i, 0 <= i < n -> sel_in k i (cached st) = true -> sel_in k i want = true) ->
            sel_in k fd want = true)) /\
         forall k i, 0 <= i < n -> sel_in k i ks = true -> sel_in k i (cached st') = true))) /\
    (forall k i, sel_in k i (cached st) = true -> sel_in k i (cached st') = true \/ tells r rfd got k i) /\
    (forall k i, sel_in k i (cached st') = true -> sel_in k i (cached st) = true \/ sel_in k i ks = true).
Proof.
  intros Hl Hn Hfds Hlaw. pose proof (Z.min_l n MAX_FDS Hfds) as Hmin.
  pose proof (first_hit_answerable n want (cached st)) as Hans.
  destruct (first_hit (fun k i => sel_in k i want && sel_in k i (cached st)) (seqZ 0 n)) as [[fd k] |] eqn:E.
  - destruct Hans as (Hfd & Hw & Hc). rewrite <- Hmin in E.
    destruct (speak_select_hit fl fs senv stk ntop6 peer sock junk n want tv kr ks st fd k Hl Hn E)
      as (w & st' & -> & Hr & Hc').
    exists w, 1, fd, (sel_only k fd), st'. split; [done |]. rewrite Hc'. split_and!.
    + intros _. split; [done |]. exists k, fd. split_and!; try done; try lia. apply sel_in_clr_same.
    + intros Hno. destruct Hno. by exists k, fd.
    + intros k' i Hci. destruct (sel_in_clr k fd k' i _ Hci) as [[= -> ->] | ?]; [by right | by left].
    + intros k' i Hci. left. by eapply sel_in_clr_sub.
  - rewrite <- Hmin in E.
    destruct (speak_select_miss fl fs senv stk ntop6 peer sock junk n want tv kr ks st Hl Hn Hfds E)
      as (w & r & rfd & got & st' & -> & Hr & Hres).
    exists w, r, rfd, got, st'. split; [done |]. split; [done |].
    destruct (Z.ltb_spec 0 kr) as [Hpos | Hneg].
    2:{ destruct Hres as (-> & -> & -> & ->). split_and!; try (by left). intros _. split; [done | by left]. }
    destruct Hres as [Hc Hres]. rewrite Hc. split_and!.
    + intros _. split; [done |]. right. split_and!; [done | by eapply miss_told |].
      intros k i Hi Hki. by rewrite sel_in_remember, Hki, orb_true_r.
    + intros k i Hci. left. by apply sel_in_remember_keep.
    + intros k i. apply sel_in_remember_only.
Qed.

(** A process that knows descriptor 4 to be readable. *)
Definition demo_proc : proc := set_cached proc0 (mk_sets {[4]} ∅ ∅).
Definition ask_read (i : Z) : fdsets := mk_sets {[i]} ∅ ∅.

Lemma demo_names : names_known None None demo_proc.
Proof. left. intros fd. reflexivity. Qed.

Lemma select_answers_witness :
  exists w r rfd got st',
    speak_select (mk_flags 0 0 0 0 0) demo_fs None [] (fun _ => []) 9 (ask_read 4) [] 1 (ask_read 4)
      None None demo_addr demo_proc = (w, Ok (r, rfd, got, st')) /\
    reals w = [] /\ exists k fd, tells r rfd got k fd /\ sel_in k fd (cached st') = false.
Proof.
  destruct (select_answers (mk_flags 0 0 0 0 0) demo_fs None [] (fun _ => []) None None demo_addr 9
    (ask_read 4) [] 1 (ask_read 4) demo_proc) as (w & r & rfd & got & st' & E & Hc & _).
  - reflexivity.
  - exact demo_names.
  - vm_compute. congruence.
  - split; [auto |]. intros _. exists VFD_SEL_READ, 4. split; [lia | reflexivity].
  - destruct Hc as (Hr & k & fd & Ht & _ & _ & _ & Hf).
    { exists VFD_SEL_READ, 4. split; [lia |]. split; reflexivity. }
    exists w, r, rfd, got, st'. split; [exact E |]. split; [exact Hr |]. by exists k, fd.
Defined.

(** select may report a descriptor the program did not ask for.  When the cache
    holds a readable descriptor from an earlier call, below all that is ready now,
    and has nothing of what this call asks for, the call asks the kernel and then
    reports the old one: a program that trusts its sets reads the wrong descriptor,
    and what it asked for is not reported. *)
Theorem select_unrequested fl fs senv stk ntop6 peer sock junk n want tv kr ks st fd :
  lock_rv fl = 0 -> names_known peer sock st -> n <= MAX_FDS -> 0 < kr -> 0 <= fd < n ->
  sel_in VFD_SEL_READ fd (cached st) = true -> sel_in VFD_SEL_READ fd want = false ->
  (forall k i, 0 <= i < n -> sel_in k i want && sel_in k i (cached st) = false) ->
  (forall k i, 0 <= i < fd -> sel_in k i (cached st) = false /\ sel_in k i ks = false) ->
  exists w got st',
    speak_select fl fs senv stk ntop6 n want tv kr ks peer sock junk st = (w, Ok (1, fd, got, st')) /\
    fs_read got = {[fd]} /\ fs_write got = ∅ /\ fs_except got = ∅.
Proof.
  intros Hl Hn Hfds Hkr Hfd Hc Hw Hnone Hlow.
  assert (forall p l, (forall k i, In i l -> p k i = false) -> first_hit p l = None) as Hmiss.
  { intros p l. induction l as [| x l IH]; intros H; [done |]. cbn. unfold hit.
    rewrite !(H _ x) by (by left). apply IH. intros. apply H. by right. }
  assert (first_hit (fun k i => sel_in k i want && sel_in k i (cached st)) (seqZ 0 (Z.min n MAX_FDS)) = None)
    as E.
  { apply Hmiss. intros k i Hi. apply in_seqZ in Hi. apply Hnone. lia. }
  destruct (speak_select_miss fl fs senv stk ntop6 peer sock junk n want tv kr ks st Hl Hn Hfds E)
    as (w & r & rfd & got & st' & -> & _ & Hres).
  rewrite (proj2 (Z.ltb_lt 0 kr) Hkr) in Hres. destruct Hres as [_ Hres].
  assert (first_hit (fun k i => sel_in k i (remember n ks (cached st))) (seqZ 0 n) = Some (fd, VFD_SEL_READ))
    as E2.
  { assert (seqZ 0 n = seqZ 0 fd ++ fd :: seqZ (Z.succ fd) (n - fd - 1)) as ->.
    { replace n with (fd + (n - fd)) at 1 by lia. rewrite seqZ_app by lia. f_equal.
      rewrite Z.add_0_l, seqZ_cons by lia. f_equal; lia. }
    assert (forall p l l', first_hit p l = None -> first_hit p (l ++ l') = first_hit p l') as Happ.
    { intros p l l'. induction l as [| x l IH]; [done |]. cbn. by destruct (hit p x). }
    rewrite Happ.
    - cbn [first_hit]. unfold hit. by rewrite sel_in_remember, Hc.
    - apply Hmiss. intros k i Hi. apply in_seqZ in Hi. rewrite sel_in_remember by lia.
      by destruct (Hlow k i Hi) as [-> ->]. }
  rewrite E2 in Hres. destruct Hres as (-> & -> & ->). by exists w, (sel_only VFD_SEL_READ fd), st'.
Qed.

(** 4 is left over from an earlier call; 8 is asked for and is ready. *)
Lemma select_unrequested_witness :
  exists w got st',
    speak_select (mk_flags 0 0 0 0 0) demo_fs None [] (fun _ => []) 9 (ask_read 8) [] 1 (ask_read 8)
      None None demo_addr demo_proc = (w, Ok (1, 4, got, st')) /\
    fs_read got = {[4]} /\ fs_write got = ∅ /\ fs_except got = ∅.
Proof.
  assert (forall i, i <> 4 -> sel_in VFD_SEL_READ i (cached demo_proc) = false) as H4
    by (intros i Hi; cbn; apply bool_decide_eq_false; set_solver).
  assert (forall i, i <> 8 -> sel_in VFD_SEL_READ i (ask_read 8) = false) as H8
    by (intros i Hi; cbn; apply bool_decide_eq_false; set_solver).
  apply select_unrequested; try reflexivity; try lia.
  - exact demo_names.
  - vm_compute. congruence.
  - intros [] i Hi; [| reflexivity..]. destruct (decide (i = 4)) as [-> |]; [reflexivity |].
    by rewrite (H4 i), andb_false_r.
  - intros [] i Hi; [| by split..]. split; [apply H4 | apply H8]; lia.
Defined.

(** poll with a negative descriptor writes outside its sets.  poll(2) ignores
    such an entry; the wrapper sets a bit for it in an fd_set on the stack. *)
Theorem poll_negative_fd fl fs senv stk ntop6 ufds timeout krev kr ks peer sock junk st u :
  bb_disable_all fl = 0 -> In u ufds -> pfd u < 0 -> wants POLLIN u = true ->
  post (poll fl fs senv stk ntop6 ufds timeout krev kr ks peer sock junk st) (fun o => o = Crash Undef).
Proof.
  intros Hd Hin Hneg Hw. unfold poll, disabled. rewrite Hd. change (negb (0 =? 0)) with false.
  apply post_bind. cbn [lift fmap post snd LOGBINii emit]. apply post_bind.
  assert (forall s m, post (poll_sets ufds s m) (fun o => o = Crash Undef)) as H; [| eapply post_mono; [apply H | by intros o ->]].
  induction ufds as [| x l IH]; [done |]. intros s m. cbn [poll_sets].
  destruct (in_range (pfd x) || negb (wants POLLIN x || wants POLLOUT x)) eqn:E.
  - cbn [check]. rewrite bind_ret_l. apply IH. destruct Hin as [-> | Hin]; [| done].
    exfalso. rewrite Hw in E. cbn in E. rewrite orb_false_r in E. unfold in_range in E.
    apply negb_true_iff, orb_false_iff in E as [E _]. apply Z.ltb_ge in E. lia.
  - reflexivity.
Qed.

Lemma poll_negative_fd_witness :
  post (poll (mk_flags 0 0 0 0 0) demo_fs None [] (fun _ => []) [mk_pollfd (-1) 1] 0 [] 0 no_fds
    None None demo_addr proc0) (fun o => o = Crash Undef).
Proof.
  apply (poll_negative_fd _ _ _ _ _ _ _ _ _ _ _ _ _ _ (mk_pollfd (-1) 1));
    [reflexivity | by left | reflexivity | reflexivity].
Defined.

(** The timeval of a non-negative timeout is that many milliseconds. *)
Lemma poll_tv_ok timeout : 0 <= timeout < 2 ^ 31 ->
  exists sec usec, poll_tv timeout = [sec; usec] /\ sec * 1000000 + usec = timeout * 1000 /\
    0 <= usec < 1000000.
Proof.
  intros H. unfold poll_tv. rewrite (proj2 (Z.leb_le 0 timeout)) by lia.
  pose proof (Z.quot_rem' timeout 1000) as Hq. pose proof (Z.rem_bound_pos timeout 1000 ltac:(lia) ltac:(lia)).
  assert (0 <= Z.quot timeout 1000) by (apply Z.quot_pos; lia).
  cbv zeta. do 2 eexists. split; [reflexivity |].
  rewrite (s32_small (Z.quot timeout 1000)), s32_small, s32_small by (rewrite ?s32_small; lia). lia.
Qed.
