(* ===== verification/Env.v ===== *)
(** src/src/trace/vfd.c, the environment: getenv, clearenv and unsetenv, and what of
    stdlib.h they use.

    An environment is the list of its "NAME=value" strings.  [TRACE_LIB] is the
    library's path, given at build time. *)
From S2P Require Import Prelude CInt CString Config Plugin.

Abbreviation env := (list (list byte)).

Definition EQ : byte := "="%byte.

Fixpoint strip_prefix (p s : list byte) : option (list byte) :=
  match p, s with
  | [], _ => Some s
  | _, [] => None
  | a :: p', b :: s' => if Byte.eqb a b then strip_prefix p' s' else None
  end.

(** The value, if the string sets [name]. *)
Definition env_value (name x : list byte) : option (list byte) := strip_prefix (name ++ [EQ]) x.

Fixpoint real_getenv (name : list byte) (e : env) : option (list byte) :=
  match e with
  | [] => None
  | x :: e' => match env_value name x with Some v => Some v | None => real_getenv name e' end
  end.

Definition assign (name v : list byte) : list byte := name ++ EQ :: v.

(** setenv(name, v, 1) for a valid name. *)
Fixpoint setenv (name v : list byte) (e : env) : env :=
  match e with
  | [] => [assign name v]
  | x :: e' => if env_value name x is Some _ then assign name v :: e' else x :: setenv name v e'
  end.

Definition valid_name (name : list byte) : bool :=
  negb (bool_decide (name = [])) && negb (byte_in EQ name).

(** unsetenv(3): what it returns and leaves. *)
Definition real_unsetenv (name : list byte) (e : env) : Z * env :=
  if valid_name name then (0, List.filter (fun x => if env_value name x is Some _ then false else true) e)
  else (-1, e).
Definition real_clearenv (e : env) : Z * env := (0, []).

Section env.
Context (fl : flags) (TRACE_LIB prog_name : list byte).

Definition lib_path (e : env) : list byte := default TRACE_LIB (real_getenv (bs "LIBBTRACE_PATH") e).

(** The switches handed on. *)
Definition carry_flags (e : env) : env :=
  let e := if bb_disable_pp fl =? 0 then e else setenv (bs "BB_DISABLE_PP") (bs "yes") e in
  let e := if bb_disable_log fl =? 0 then e else setenv (bs "BB_DISABLE_LOG") (bs "yes") e in
  if bb_disable_all fl =? 0 then e else setenv (bs "BB_DISABLE_ALL") (bs "yes") e.

Definition getenv (name : list byte) (e : env) : logged (option (list byte)) :=
  let r := real_getenv name e in
  if negb (bb_disable_all fl =? 0) then ret r else
  let tmp := snprintf 1024 (name ++ EQ :: default (bs "(undef)") r) in
  (if debug_events fl =? 0 then ret tt else LOGBINs SYS_GETENV 0 tmp) ;;;
  ret r.

Definition clearenv (e : env) : logged (Z * env) :=
  let lib := lib_path e in
  let '(r, e) := real_clearenv e in
  let e := carry_flags (setenv (bs "LD_PRELOAD") lib e) in
  (if debug_events fl =? 0 then ret tt else LOGBIN0 SYS_CLEARENV r) ;;;
  ret (r, e).

Definition unsetenv (name : list byte) (e : env) : logged (Z * env) :=
  let lib := lib_path e in
  let '(r, e) := real_unsetenv name e in
  let e := setenv (bs "LD_PRELOAD") lib e in
  let e := carry_flags (setenv (bs "TRACE_FN") prog_name e) in
  (if debug_events fl =? 0 then ret tt else LOGBINs SYS_UNSETENV 0 name) ;;;
  ret (r, e).
End env.

(** ** Reading back *)

Definition eq_free (name : list byte) : Prop := forallb (fun b => negb (Byte.eqb b EQ)) name = true.

Lemma strip_prefix_app p s : strip_prefix p (p ++ s) = Some s.
Proof. induction p as [| a p IH]; [done |]. cbn. by rewrite byte_eqb_refl. Qed.

Lemma env_value_assign name v : env_value name (assign name v) = Some v.
Proof.
  unfold env_value, assign. change (EQ :: v) with ([EQ] ++ v). rewrite app_assoc.
  apply strip_prefix_app.
Qed.

Lemma strip_prefix_some p s r : strip_prefix p s = Some r -> s = p ++ r.
Proof.
  revert s; induction p as [| a p IH]; intros s H; [by injection H as -> |].
  destruct s as [| b s]; [done |]. cbn in H. destruct (Byte.eqb a b) eqn:E; [| done].
  apply Byte.byte_dec_bl in E as ->. by rewrite (IH _ H).
Qed.

Lemma eq_split n m v w : eq_free n -> eq_free m -> n ++ EQ :: v = m ++ EQ :: w -> n = m.
Proof.
  revert m; induction n as [| a n IH]; intros m Hn Hm E; destruct m as [| b m]; cbn in *; try done.
  - injection E as <- _. apply andb_prop in Hm as [Hm _]. done.
  - injection E as -> _. apply andb_prop in Hn as [Hn _]. done.
  - injection E as -> E. apply andb_prop in Hn as [_ Hn]. apply andb_prop in Hm as [_ Hm].
    f_equal. by apply IH.
Qed.

Lemma env_value_two n m x v w : eq_free n -> eq_free m ->
  env_value n x = Some v -> env_value m x = Some w -> n = m.
Proof.
  intros Hn Hm H1 H2. apply strip_prefix_some in H1, H2. rewrite H1 in H2.
  rewrite <- !app_assoc in H2. cbn in H2. by eapply eq_split.
Qed.

Lemma env_value_other n m v : eq_free n -> eq_free m -> n <> m -> env_value n (assign m v) = None.
Proof.
  intros Hn Hm Hne. destruct (env_value n (assign m v)) eqn:E; [| done].
  destruct Hne. eapply env_value_two; [done.. | apply env_value_assign].
Qed.

Lemma getenv_setenv name v e : real_getenv name (setenv name v e) = Some v.
Proof.
  induction e as [| x e IH]; cbn; [by rewrite env_value_assign |].
  destruct (env_value name x) eqn:E; cbn; [by rewrite env_value_assign | by rewrite E].
Qed.

Lemma getenv_setenv_other n m v e : eq_free n -> eq_free m -> n <> m ->
  real_getenv n (setenv m v e) = real_getenv n e.
Proof.
  intros Hn Hm Hne. induction e as [| x e IH]; cbn; [by rewrite env_value_other |].
  destruct (env_value m x) eqn:E; cbn.
  - rewrite env_value_other by done. destruct (env_value n x) eqn:En; [| done].
    destruct Hne. by eapply env_value_two.
  - by rewrite IH.
Qed.

Lemma getenv_unsetenv name e : valid_name name = true -> real_getenv name (real_unsetenv name e).2 = None.
Proof.
  intros H. unfold real_unsetenv. rewrite H. cbn [snd].
  induction e as [| x e IH]; [done |]. cbn. destruct (env_value name x) eqn:E; cbn; [done | by rewrite E].
Qed.

Lemma getenv_unsetenv_other n m e : eq_free n -> eq_free m -> n <> m ->
  real_getenv n (real_unsetenv m e).2 = real_getenv n e.
Proof.
  intros Hn Hm Hne. unfold real_unsetenv. destruct (valid_name m); [| done]. cbn [snd].
  induction e as [| x e IH]; [done |]. cbn. destruct (env_value m x) eqn:E; cbn.
  - rewrite IH. destruct (env_value n x) eqn:En; [| done]. destruct Hne. by eapply env_value_two.
  - by rewrite IH.
Qed.

Lemma getenv_carry_flags fl n e :
  eq_free n -> n <> bs "BB_DISABLE_PP" -> n <> bs "BB_DISABLE_LOG" -> n <> bs "BB_DISABLE_ALL" ->
  real_getenv n (carry_flags fl e) = real_getenv n e.
Proof.
  intros Hn H1 H2 H3. unfold carry_flags.
  repeat case_match; rewrite ?getenv_setenv_other by done; done.
Qed.

(** What the switches add. *)
Lemma get_carry_flags fl name e :
  eq_free name -> real_getenv name (carry_flags fl e) =
    if bool_decide (name = bs "BB_DISABLE_ALL") && negb (bb_disable_all fl =? 0) ||
       bool_decide (name = bs "BB_DISABLE_LOG") && negb (bb_disable_log fl =? 0) ||
       bool_decide (name = bs "BB_DISABLE_PP") && negb (bb_disable_pp fl =? 0)
    then Some (bs "yes") else real_getenv name e.
Proof.
  intros Hn. unfold carry_flags.
  destruct (bool_decide_reflect (name = bs "BB_DISABLE_ALL")) as [-> | H1];
    [| destruct (bool_decide_reflect (name = bs "BB_DISABLE_LOG")) as [-> | H2];
      [| destruct (bool_decide_reflect (name = bs "BB_DISABLE_PP")) as [-> | H3]]];
    destruct (bb_disable_all fl =? 0), (bb_disable_log fl =? 0), (bb_disable_pp fl =? 0);
    cbn [negb andb orb bool_decide]; rewrite ?getenv_setenv, ?getenv_setenv_other, ?getenv_setenv by done;
    reflexivity.
Qed.

(** ** Properties *)

(** The switches, and the names the wrappers below set. *)
Definition switches (fl : flags) : list (list byte * Z) :=
  [(bs "BB_DISABLE_PP", bb_disable_pp fl); (bs "BB_DISABLE_LOG", bb_disable_log fl);
   (bs "BB_DISABLE_ALL", bb_disable_all fl)].
Definition library_names (fl : flags) : list (list byte) :=
  bs "LD_PRELOAD" :: bs "TRACE_FN" :: (switches fl).*1.

(** A switch that is on is handed on; one that is off is left as it is. *)
Lemma carried_switch fl e n b :
  In (n, b) (switches fl) ->
  real_getenv n (carry_flags fl e) = if b =? 0 then real_getenv n e else Some (bs "yes").
Proof.
  intros [[= <- <-] | [[= <- <-] | [[= <- <-] | []]]]; rewrite get_carry_flags by done;
    repeat match goal with |- context [bool_decide ?P] =>
      let x := eval vm_compute in (bool_decide P) in change (bool_decide P) with x end; cbn [andb orb];
    destruct (_ =? 0); reflexivity.
Qed.

Lemma switch_name fl n b : In (n, b) (switches fl) -> eq_free n /\ n <> bs "LD_PRELOAD" /\ n <> bs "TRACE_FN".
Proof. by intros [[= <- <-] | [[= <- <-] | [[= <- <-] | []]]]. Qed.

(** C26: A program cannot shake the library off.  Whatever a program removes from its
    environment with unsetenv or clearenv (with the library's debugging on, a name of at
    most 4064 bytes, which a record holds), LD_PRELOAD names the library again when the
    call returns, each of the three switches BB_DISABLE_PP, BB_DISABLE_LOG and
    BB_DISABLE_ALL that is on is set, and the result is that of the real function; of the
    other names (and the switches that are off), unsetenv removes exactly the one it was
    given and clearenv all, the library's own LIBBTRACE_PATH included. *)
Theorem env_stays_traced fl TRACE_LIB prog name e :
  debug_events fl = 0 \/ zlen name <= 4064 ->
  let path := Some (lib_path TRACE_LIB e) in
  (exists w e', unsetenv fl TRACE_LIB prog name e = (w, Ok ((real_unsetenv name e).1, e')) /\
     real_getenv (bs "LD_PRELOAD") e' = path /\ real_getenv (bs "TRACE_FN") e' = Some prog /\
     (forall n b, In (n, b) (switches fl) -> real_getenv n e' =
        if b =? 0 then real_getenv n (real_unsetenv name e).2 else Some (bs "yes")) /\
     (forall n, eq_free n -> ~ In n (library_names fl) ->
        real_getenv n e' = real_getenv n (real_unsetenv name e).2)) /\
  (exists w e', clearenv fl TRACE_LIB e = (w, Ok (0, e')) /\
     real_getenv (bs "LD_PRELOAD") e' = path /\
     (forall n b, In (n, b) (switches fl) ->
        real_getenv n e' = if b =? 0 then None else Some (bs "yes")) /\
     (forall n, eq_free n -> ~ In n (library_names fl) -> real_getenv n e' = None)).
Proof.
  intros Hz. cbv zeta. split.
  - unfold unsetenv. destruct (real_unsetenv name e) as [r e1]. cbv zeta. cbn [fst snd].
    set (e2 := carry_flags _ _).
    exists (if debug_events fl =? 0 then [] else [LLog (mk_event SYS_UNSETENV 0 [] (Some name))]), e2.
    split; [destruct (Z.eqb_spec (debug_events fl) 0); [done | by rewrite LOGBINs_short by lia] |].
    unfold e2. split_and!.
    + rewrite get_carry_flags by done. cbn [bool_decide andb orb].
      rewrite getenv_setenv_other by done. apply getenv_setenv.
    + rewrite get_carry_flags by done. cbn [bool_decide andb orb]. apply getenv_setenv.
    + intros n b Hin. rewrite (carried_switch fl _ n b Hin). apply switch_name in Hin as (? & ? & ?).
      by rewrite !getenv_setenv_other.
    + intros n Hn Hni. cbn in Hni. rewrite get_carry_flags by done.
      rewrite !bool_decide_eq_false_2 by naive_solver. cbn [andb orb].
      rewrite !getenv_setenv_other by naive_solver. done.
  - unfold clearenv, real_clearenv. cbv zeta. set (e2 := carry_flags _ _).
    exists (if debug_events fl =? 0 then [] else [LLog (mk_event SYS_CLEARENV 0 [] None)]), e2.
    split; [by destruct (debug_events fl =? 0) |]. unfold e2. split_and!.
    + rewrite get_carry_flags by done. cbn [bool_decide andb orb]. apply getenv_setenv.
    + intros n b Hin. rewrite (carried_switch fl _ n b Hin). apply switch_name in Hin as (? & ? & ?).
      by rewrite getenv_setenv_other.
    + intros n Hn Hni. cbn in Hni. rewrite get_carry_flags by done.
      rewrite !bool_decide_eq_false_2 by naive_solver. cbn [andb orb].
      rewrite !getenv_setenv_other by naive_solver. done.
Qed.

Lemma env_stays_traced_witness :
  exists w e', unsetenv (mk_flags 0 1 0 0 0) (bs "/lib/bb.so") (bs "prog") (bs "LD_PRELOAD")
      [assign (bs "LD_PRELOAD") (bs "/lib/bb.so"); assign (bs "HOME") (bs "/root")] = (w, Ok (0, e')) /\
    real_getenv (bs "LD_PRELOAD") e' = Some (bs "/lib/bb.so") /\
    real_getenv (bs "BB_DISABLE_PP") e' = Some (bs "yes").
Proof.
  destruct (env_stays_traced (mk_flags 0 1 0 0 0) (bs "/lib/bb.so") (bs "prog") (bs "LD_PRELOAD")
    [assign (bs "LD_PRELOAD") (bs "/lib/bb.so"); assign (bs "HOME") (bs "/root")]) as [(w & e' & E & H1 & _ & H2 & _) _].
  - left. reflexivity.
  - exists w, e'. split; [exact E |]. split; [exact H1 |].
    exact (H2 (bs "BB_DISABLE_PP") 1 (or_introl eq_refl)).
Defined.
