(* ===== verification/Trace.v ===== *)
(** src/src/trace/trace.c: the first tracing library, which writes its trace as text.

    It is kept in the repository though no target builds it: vfd.c has taken its place,
    and what it used of the other files is gone.  LOG and the pp_ functions that looked
    at the data are no longer defined, so that they are effects here, with the text LOG
    is given; what the pp_ functions leave in the flag they were passed is an argument.

    As in Vfd.v a wrapper takes the kernel's answer.  The wrappers are modelled after
    the first one has run init.  A descriptor set is an fd_set: FD_SET, FD_CLR and
    FD_ISSET outside it are [Undef], and so are the arrays of MAX_FDS entries.  A pointer
    that is only passed on to the real call is a number, and an argument of its effect;
    for an address the wrapper looks at there is what is in it. *)
From S2P Require Import Prelude CInt CString Config Plugin Fcgi Getservice PpId Env.

Inductive t_act :=
| TLog (msg : list byte)
| TReal (f : list byte) (args : list Z) (strs : list (list byte))
| TPp (f : list byte) (args : list Z) (data : list byte)
| TErr (msg : list byte).
Abbreviation t_run := (run t_act).

Definition LOG (msg : list byte) : t_run unit := emit (TLog msg).
Definition t_real (f : list byte) (args : list Z) : t_run unit := emit (TReal f args []).

(** printf of an int; what is passed for it may be wider. *)
Definition pd (n : Z) : list byte := fmt_d (s32 n).

Definition comma (l : list (list byte)) : list byte :=
  match l with [] => [] | x :: l => x ++ concat ((fun y => ","%byte :: y) <$> l) end.

(** f, and a string in quotes and parentheses *)
Definition quoted (f s : list byte) : list byte := f ++ bs "(" ++ x22 :: s ++ x22 :: bs ")".
(** f(a,b,c) *)
Definition call (f : list byte) (args : list Z) : list byte :=
  f ++ bs "(" ++ comma (pd <$> args) ++ bs ")".
(** r=f(a,b,c) *)
Definition res_call (r : Z) (f : list byte) (args : list Z) : list byte := pd r ++ bs "=" ++ call f args.
Definition flagged (m flag : list byte) : list byte := m ++ bs " [" ++ flag ++ bs "]".

Record state := mk_state {
  tracked : gset Z;
  sock_types : gmap Z Z;
  sock_domains : gmap Z Z;
  sock_ports : gmap Z Z;
  sock_files : gmap Z (list byte);
  listened : Z;                     (* listen's static i *)
  first_init : bool;
  seq_no : Z;
  sock : Z;
  bin_name : list byte;
  prog_name : option (list byte);
  environ : env
}.

Definition set_tracked (st : state) (t : gset Z) : state :=
  mk_state t (sock_types st) (sock_domains st) (sock_ports st) (sock_files st) (listened st)
    (first_init st) (seq_no st) (sock st) (bin_name st) (prog_name st) (environ st).
Definition set_sock (st : state) (s type domain : Z) : state :=
  mk_state (tracked st) (<[s := type]> (sock_types st)) (<[s := domain]> (sock_domains st))
    (sock_ports st) (sock_files st) (listened st) (first_init st) (seq_no st) (sock st)
    (bin_name st) (prog_name st) (environ st).
Definition set_port (st : state) (s port : Z) : state :=
  mk_state (tracked st) (sock_types st) (sock_domains st) (<[s := port]> (sock_ports st))
    (sock_files st) (listened st) (first_init st) (seq_no st) (sock st) (bin_name st)
    (prog_name st) (environ st).
Definition set_file (st : state) (s : Z) (path : list byte) : state :=
  mk_state (tracked st) (sock_types st) (sock_domains st) (sock_ports st)
    (<[s := path]> (sock_files st)) (listened st) (first_init st) (seq_no st) (sock st)
    (bin_name st) (prog_name st) (environ st).
Definition count_listen (st : state) : state :=
  mk_state (tracked st) (sock_types st) (sock_domains st) (sock_ports st) (sock_files st)
    (s32 (listened st + 1)) (first_init st) (seq_no st) (sock st) (bin_name st) (prog_name st)
    (environ st).
Definition set_exec (st : state) (b : list byte) (e : env) : state :=
  mk_state (tracked st) (sock_types st) (sock_domains st) (sock_ports st) (sock_files st)
    (listened st) (first_init st) (seq_no st) (sock st) b (prog_name st) e.
Definition set_first (st : state) (b : bool) : state :=
  mk_state (tracked st) (sock_types st) (sock_domains st) (sock_ports st) (sock_files st)
    (listened st) b (seq_no st) (sock st) (bin_name st) (prog_name st) (environ st).

(** An index of an fd_set or of an array of MAX_FDS. *)
Definition fd_ok (s : Z) : bool := (0 <=? s) && (s <? MAX_FDS).

Definition FD_SET (s : Z) (st : state) : t_run state :=
  check (fd_ok s) ;;; ret (set_tracked st ({[s]} ∪ tracked st)).
Definition FD_CLR (s : Z) (st : state) : t_run state :=
  check (fd_ok s) ;;; ret (set_tracked st (tracked st ∖ {[s]})).
Definition FD_ISSET (s : Z) (st : state) : t_run bool :=
  check (fd_ok s) ;;; ret (bool_decide (s ∈ tracked st)).

Section trace.
(** What the pp_ functions leave in the flag. *)
Context (pp_flag : list byte -> Z -> list byte -> list byte).

Definition pp_dispatch (f : list byte) (s : Z) (data : list byte) : t_run (list byte) :=
  emit (TPp f [s] data) ;;; ret (pp_flag f s data).

(** [fd0] and [fd1]: what filedes holds after the call. *)
Definition pipe (filedes r fd0 fd1 : Z) (st : state) : t_run (Z * state) :=
  t_real (bs "pipe") [filedes] ;;;
  let! st := FD_SET fd0 st in
  let! st := FD_SET fd1 st in
  LOG (res_call r (bs "pipe") [fd0; fd1]) ;;;
  ret (r, st).

Definition dup (oldfd newfd : Z) (st : state) : t_run (Z * state) :=
  t_real (bs "dup") [oldfd] ;;;
  LOG (res_call newfd (bs "dup") [oldfd]) ;;;
  let! st := (if 0 <=? newfd then FD_SET newfd st else ret st) in
  ret (newfd, st).

Definition dup2 (oldfd newfd r : Z) (st : state) : t_run (Z * state) :=
  t_real (bs "dup2") [oldfd; newfd] ;;;
  LOG (res_call r (bs "dup2") [oldfd; newfd]) ;;;
  let! st := (if 0 <=? r then FD_SET r st else ret st) in
  ret (r, st).

Definition socket (domain type protocol s : Z) (st : state) : t_run (Z * state) :=
  t_real (bs "socket") [domain; type; protocol] ;;;
  LOG (res_call s (bs "socket") [domain; type; protocol]) ;;;
  let! st :=
    (if 0 <=? s then let! st := FD_SET s st in ret (set_sock st s type domain) else ret st) in
  ret (s, st).

(** ntohs(sin_port) and the path, read from the address. *)
Definition addr_port (a : sockaddr) : t_run Z :=
  let! b := load (sa_data a) 0 2 in ret (ntohs (le_val b)).
Definition addr_path (a : sockaddr) : t_run (list byte) := of_opt (cstr (sa_data a)).

Definition MAX_SOCK_FN : Z := 256.
Definition real_addr (f : list byte) (s : Z) (a : sockaddr) (addrlen : Z) : t_run unit :=
  emit (TReal f [s; sa_family a; addrlen] [sa_data a]).
Definition file_name (p : list byte) : list byte := snprintf 1023 (bs "[file=" ++ p ++ bs "]").

(** strncpy(sock_files[s], sun_path, 1023) writes to an object of MAX_SOCK_FN bytes. *)
Definition bind_ (s : Z) (my_addr : sockaddr) (addrlen res : Z) (st : state) : t_run (Z * state) :=
  let! t := FD_ISSET s st in
  if negb t then real_addr (bs "bind") s my_addr addrlen ;;; ret (res, st) else
  real_addr (bs "bind") s my_addr addrlen ;;;
  let! (portname, st) :=
    (if is_inet my_addr then
       let! port := addr_port my_addr in
       ret (snprintf 1023 (pd port), set_port st s port)
     else if sa_family my_addr =? AF_FILE then
       let! path := addr_path my_addr in
       let! w := of_opt (strncpy 1023 (sa_data my_addr)) in
       check (zlen w <=? MAX_SOCK_FN) ;;;
       ret (file_name path, set_file st s w)
     else ret (bs "[non-AF_INET,non-AF_FILE]", st)) in
  LOG (bs "bind(" ++ pd s ++ bs ") to port " ++ portname) ;;;
  ret (res, st).

Definition listen (s backlog r : Z) (st : state) : t_run (Z * state) :=
  let! t := FD_ISSET s st in
  if negb t then t_real (bs "listen") [s; backlog] ;;; ret (r, st) else
  let st := count_listen st in
  LOG (call (bs "listen") [s; backlog; listened st]) ;;;
  t_real (bs "listen") [s; backlog] ;;;
  ret (r, st).

Definition getsockname (s name namelen res : Z) (st : state) : t_run (Z * state) :=
  let! t := FD_ISSET s st in
  if negb t then t_real (bs "getsockname") [s; name; namelen] ;;; ret (res, st) else
  t_real (bs "getsockname") [s; name; namelen] ;;;
  LOG (res_call res (bs "getsockname") [s]) ;;;
  ret (res, st).

Definition SOCK_STREAM : Z := 1.

Definition accept (s addr addrlen new_fd : Z) (st : state) : t_run (Z * state) :=
  let! t := FD_ISSET s st in
  if negb t then t_real (bs "accept") [s; addr; addrlen] ;;; ret (new_fd, st) else
  t_real (bs "accept") [s; addr; addrlen] ;;;
  (if (0 <? new_fd) && (default 0 (sock_types st !! s) =? SOCK_STREAM) then
     emit (TPp (bs "accept") [s; new_fd; default 0 (sock_domains st !! s); default 0 (sock_ports st !! s)]
       (default [] (sock_files st !! s)))
   else ret tt) ;;;
  LOG (res_call new_fd (bs "accept") [s]) ;;;
  let! st := (if 0 <=? new_fd then FD_SET new_fd st else ret st) in
  ret (new_fd, st).

Definition connect (s : Z) (serv_addr : sockaddr) (addrlen res : Z) (st : state) : t_run (Z * state) :=
  let! t := FD_ISSET s st in
  if negb t then real_addr (bs "connect") s serv_addr addrlen ;;; ret (res, st) else
  let! portname :=
    (if sa_family serv_addr =? AF_INET then
       let! port := addr_port serv_addr in ret (snprintf 1023 (pd port))
     else if sa_family serv_addr =? AF_FILE then
       let! path := addr_path serv_addr in ret (file_name path)
     else ret (bs "[non-AF_INET,non-AF_FILE]")) in
  LOG (bs "connect_begin(" ++ pd s ++ bs ") to " ++ portname) ;;;
  real_addr (bs "connect") s serv_addr addrlen ;;;
  LOG (bs "connect(" ++ pd s ++ bs ") to " ++ portname) ;;;
  ret (res, st).

Definition close (s res : Z) (st : state) : t_run (Z * state) :=
  let! t := FD_ISSET s st in
  if negb t then t_real (bs "close") [s] ;;; ret (res, st) else
  let! st := FD_CLR s st in
  t_real (bs "close") [s] ;;;
  let! flag := (if res =? 0 then pp_dispatch (bs "close") s [] else ret []) in
  LOG (flagged (call (bs "close") [s]) flag) ;;;
  ret (res, st).

Definition open (pathname : list byte) (oflags res : Z) (st : state) : t_run (Z * state) :=
  emit (TReal (bs "open") [oflags] [pathname]) ;;;
  let! st := (if 0 <? res then FD_SET res st else ret st) in
  LOG (pd res ++ bs "=open(" ++ pathname ++ bs "," ++ pd oflags ++ bs ")") ;;;
  ret (res, st).

Definition creat (pathname : list byte) (mode res : Z) (st : state) : t_run (Z * state) :=
  emit (TReal (bs "creat") [mode] [pathname]) ;;;
  LOG (pd res ++ bs "=creat(" ++ pathname ++ bs ")") ;;;
  ret (res, st).

(** ** Reading and writing

    [data] is what the kernel put into, or took from, the buffer: [res] bytes. *)

Definition dispatch_if (res : Z) (f : list byte) (s : Z) (data : list byte) : t_run (list byte) :=
  if 0 <? res then pp_dispatch f s data else ret [].

Definition read (s buf len res : Z) (data : list byte) (st : state) : t_run (Z * state) :=
  emit (TPp (bs "pipe") [s] (bin_name st)) ;;;
  LOG (call (bs "read_begin") [s; len]) ;;;
  t_real (bs "read") [s; buf; len] ;;;
  let! flag := dispatch_if res (bs "read") s data in
  LOG (flagged (res_call res (bs "read") [s; len]) flag) ;;;
  ret (res, st).

Definition recv (s buf len rflags res : Z) (data : list byte) (st : state) : t_run (Z * state) :=
  let! t := FD_ISSET s st in
  if negb t then t_real (bs "recv") [s; buf; len; rflags] ;;; ret (res, st) else
  LOG (call (bs "recv_begin") [s; len; rflags]) ;;;
  t_real (bs "recv") [s; buf; len; rflags] ;;;
  let! flag := dispatch_if res (bs "read") s data in
  LOG (flagged (call (bs "recv") [s; len; rflags]) flag) ;;;
  ret (res, st).

(** A call logged before and after: [shown] are the numbers in the trace, [args] what is
    passed on. *)
Definition bracketed (f : list byte) (s : Z) (shown args : list Z) (res : Z) (st : state) : t_run (Z * state) :=
  let! t := FD_ISSET s st in
  if negb t then t_real f (s :: args) ;;; ret (res, st) else
  LOG (call (f ++ bs "_begin") (s :: shown)) ;;;
  t_real f (s :: args) ;;;
  LOG (call f (s :: shown)) ;;;
  ret (res, st).
(** A call logged before only. *)
Definition announced (f : list byte) (s : Z) (shown args : list Z) (res : Z) (st : state) : t_run (Z * state) :=
  let! t := FD_ISSET s st in
  if negb t then t_real f (s :: args) ;;; ret (res, st) else
  LOG (call f (s :: shown)) ;;;
  t_real f (s :: args) ;;;
  ret (res, st).

Definition recvfrom (s buf len rflags from fromlen res : Z) (st : state) : t_run (Z * state) :=
  bracketed (bs "recvfrom") s [len; rflags] [buf; len; rflags; from; fromlen] res st.
Definition recvmsg (s msg rflags res : Z) (st : state) : t_run (Z * state) :=
  announced (bs "recvmsg") s [rflags] [msg; rflags] res st.

Definition write (s buf len res : Z) (data : list byte) (st : state) : t_run (Z * state) :=
  LOG (call (bs "write_begin") [s; len]) ;;;
  t_real (bs "write") [s; buf; len] ;;;
  let! flag := dispatch_if res (bs "write") s data in
  LOG (flagged (res_call res (bs "write") [s; len]) flag) ;;;
  ret (res, st).

Definition send (s buf len rflags res : Z) (st : state) : t_run (Z * state) :=
  bracketed (bs "send") s [len; rflags] [buf; len; rflags] res st.
Definition sendto (s buf len rflags to tolen res : Z) (st : state) : t_run (Z * state) :=
  announced (bs "sendto") s [len; rflags] [buf; len; rflags; to; tolen] res st.
Definition sendmsg (s msg rflags res : Z) (st : state) : t_run (Z * state) :=
  announced (bs "sendmsg") s [rflags] [msg; rflags] res st.

Definition mmap (start length prot mflags fd offset res : Z) (st : state) : t_run (Z * state) :=
  LOG (call (bs "mmap") [fd; offset]) ;;;
  t_real (bs "mmap") [start; length; prot; mflags; fd; offset] ;;;
  ret (res, st).
Definition munmap (start length res : Z) (st : state) : t_run (Z * state) :=
  LOG (bs "munmap()") ;;; t_real (bs "munmap") [start; length] ;;; ret (res, st).
Definition select (n readfds writefds exceptfds timeout res : Z) (st : state) : t_run (Z * state) :=
  LOG (call (bs "select") [n]) ;;;
  t_real (bs "select") [n; readfds; writefds; exceptfds; timeout] ;;;
  ret (res, st).
Definition pselect (n readfds writefds exceptfds timeout sigs res : Z) (st : state) : t_run (Z * state) :=
  LOG (call (bs "pselect") [n]) ;;;
  t_real (bs "pselect") [n; readfds; writefds; exceptfds; timeout; sigs] ;;;
  ret (res, st).
Definition gettimeofday (tv tz res : Z) (st : state) : t_run (Z * state) :=
  t_real (bs "gettimeofday") [tv; tz] ;;; ret (res, st).
End trace.

(** ** Start *)

Section start.

Record boot := mk_boot {
  b_pid : Z;          (* getpid *)
  b_socket : Z;
  b_connect : Z;
  b_relay : Z;        (* open of the relay file *)
  b_relay_write : Z
}.
(** inet_addr(3): the four bytes. *)
Context (inet_addr : list byte -> list byte) (TRACE_LIB : list byte).

Definition RELAY_ON : list byte := bs "/mnt/relay/pfdura/on".
Definition LOGD_IP : list byte := bs "127.0.0.1".
Definition O_RDWR : Z := 2.

Definition pfdura_on (pid fd rc : Z) : t_run unit :=
  emit (TReal (bs "open") [O_RDWR] [RELAY_ON]) ;;;
  if fd <? 0 then ret tt else
  let tmp := fmt_d pid in
  emit (TReal (bs "write") [fd; zlen tmp] [tmp]) ;;;
  t_real (bs "close") [fd] ;;;
  if rc <? 0 then emit (TErr (bs "pfdura: write() error on ")) else ret tt.

(** The address of the collector. *)
Definition logd_addr (e : env) : list byte :=
  let host_ip := default LOGD_IP (real_getenv (bs "LIBBTRACE_HOST") e) in
  let host_port := match real_getenv (bs "LIBBTRACE_PORT") e with Some p => atoi p | None => LOGD_PORT end in
  be_bytes 2 (host_port mod 65536) ++ inet_addr host_ip.

(** exit without parentheses is an expression without effect: a failing call is reported and init goes on. *)
Definition init (b : boot) (st : state) : t_run state :=
  if first_init st then ret st else
  let st := mk_state (tracked st) (sock_types st) (sock_domains st) (sock_ports st) (sock_files st)
    (listened st) true 0 (b_socket b) [] (real_getenv (bs "TRACE_FN") (environ st)) (environ st) in
  t_real (bs "socket") [AF_INET; SOCK_STREAM; 0] ;;;
  (if sock st <? 0 then emit (TErr (bs "couldn't create socket")) else ret tt) ;;;
  emit (TReal (bs "connect") [sock st; AF_INET; 16] [logd_addr (environ st)]) ;;;
  (if b_connect b <? 0 then emit (TErr (bs "couldn't connect")) else ret tt) ;;;
  LOG (bs "START") ;;;
  pfdura_on (b_pid b) (b_relay b) (b_relay_write b) ;;;
  LOG (bs "enable_pfdura") ;;;
  let! st := FD_SET 0 st in
  let! st := FD_SET 1 st in
  let! st := FD_SET 2 st in
  FD_CLR (sock st) st.

Definition reinit (b : boot) (st : state) : t_run state := init b (set_first st false).

(** ** fork, exec and exit *)

(** DEBUG_STRACE_KIDS is 0. *)
Definition fork (b : boot) (res : Z) (st : state) : t_run (Z * state) :=
  LOG (bs "fork_begin()") ;;;
  t_real (bs "fork") [] ;;;
  let! st :=
    (if res =? 0 then
       let! st := reinit b st in emit (TPp (bs "init_log") [] []) ;;; ret st
     else ret st) in
  LOG (bs "fork() = " ++ pd res) ;;;
  ret (res, st).

(** The array execve builds: the copy of envp is one entry short, so that the library's
    takes the place of the last.  The name is built in 1024 bytes. *)
Definition hack_envp (lib_path : list byte) (envp : env) : t_run env :=
  let last := zlen envp - 1 in
  let tmp := bs "LD_PRELOAD=" ++ lib_path in
  check (zlen tmp <? 1024) ;;;
  check (0 <=? last) ;;;
  ret (<[Z.to_nat last := tmp]> envp).

Definition execve (filename : list byte) (argv envp : list (list byte)) (res : Z) (st : state) :
    t_run (Z * state) :=
  let lib_path := lib_path TRACE_LIB (environ st) in
  let st := set_exec st (bin_name st) (setenv (bs "LD_PRELOAD") lib_path (environ st)) in
  let! hacked_envp := hack_envp lib_path envp in
  let! st := FD_SET 0 st in
  let! st := FD_SET 1 st in
  let! st := FD_SET 2 st in
  emit (TReal (bs "execve") [] (filename :: argv ++ hacked_envp)) ;;;
  LOG (quoted (bs "execve") filename) ;;;
  ret (res, set_exec st (take 1024 filename)
    (real_unsetenv (bs "LD_PRELOAD") (environ st)).2).

(** The arguments after the first are not passed on; real_execl reads on until it finds
    a NULL. *)
Definition execl (path : list byte) (arg : option (list byte)) (res : Z) (st : state) :
    t_run (Z * state) :=
  LOG (quoted (bs "execl") path) ;;;
  emit (TReal (bs "execl") [] [path]) ;;;
  match arg with None => ret (res, st) | Some _ => stop Undef end.

Definition clearenv (st : state) : t_run (Z * state) :=
  let '(r, e) := real_clearenv (environ st) in
  t_real (bs "clearenv") [] ;;;
  LOG (bs "clearenv()") ;;;
  ret (r, set_exec st (bin_name st) e).

(** return without a value in a function that returns an int: [junk]. *)
Definition unsetenv (name : list byte) (junk : Z) (st : state) : t_run (Z * state) :=
  emit (TReal (bs "unsetenv") [] [name]) ;;;
  ret (junk, set_exec st (bin_name st) (real_unsetenv name (environ st)).2).

Definition exit_ (b : boot) (status : Z) (st : state) : t_run unit :=
  let! _ := init b st in
  LOG (call (bs "exit") [status]) ;;;
  t_real (bs "exit") [status] ;;;
  stop (Exit status).
Definition abort (b : boot) (st : state) : t_run unit :=
  let! _ := init b st in
  LOG (bs "abort()") ;;;
  t_real (bs "abort") [] ;;;
  stop AssertFail.
End start.

(** ** What a wrapper does to its call *)

Section requests.
Context (pp_flag : list byte -> Z -> list byte -> list byte).

Inductive t_request :=
| T_pipe (filedes r fd0 fd1 : Z)
| T_dup (oldfd newfd : Z)
| T_dup2 (oldfd newfd r : Z)
| T_socket (domain type protocol s : Z)
| T_bind (s : Z) (a : sockaddr) (addrlen res : Z)
| T_listen (s backlog r : Z)
| T_getsockname (s name namelen res : Z)
| T_accept (s addr addrlen new_fd : Z)
| T_connect (s : Z) (a : sockaddr) (addrlen res : Z)
| T_close (s res : Z)
| T_open (path : list byte) (oflags : Z) (mode : option Z) (res : Z)
| T_creat (path : list byte) (mode res : Z)
| T_read (s buf len res : Z) (data : list byte)
| T_recv (s buf len rflags res : Z) (data : list byte)
| T_recvfrom (s buf len rflags from fromlen res : Z)
| T_recvmsg (s msg rflags res : Z)
| T_write (s buf len res : Z) (data : list byte)
| T_send (s buf len rflags res : Z)
| T_sendto (s buf len rflags to tolen res : Z)
| T_sendmsg (s msg rflags res : Z)
| T_mmap (start length prot mflags fd offset res : Z)
| T_munmap (start length res : Z)
| T_select (n readfds writefds exceptfds timeout res : Z)
| T_pselect (n readfds writefds exceptfds timeout sigs res : Z)
| T_gettimeofday (tv tz res : Z).

Definition t_serve (rq : t_request) (st : state) : t_run (Z * state) :=
  match rq with
  | T_pipe filedes r fd0 fd1 => pipe filedes r fd0 fd1 st
  | T_dup oldfd newfd => dup oldfd newfd st
  | T_dup2 oldfd newfd r => dup2 oldfd newfd r st
  | T_socket domain type protocol s => socket domain type protocol s st
  | T_bind s a addrlen res => bind_ s a addrlen res st
  | T_listen s backlog r => listen s backlog r st
  | T_getsockname s name namelen res => getsockname s name namelen res st
  | T_accept s addr addrlen new_fd => accept s addr addrlen new_fd st
  | T_connect s a addrlen res => connect s a addrlen res st
  | T_close s res => close pp_flag s res st
  | T_open path oflags _ res => open path oflags res st
  | T_creat path mode res => creat path mode res st
  | T_read s buf len res data => read pp_flag s buf len res data st
  | T_recv s buf len rflags res data => recv pp_flag s buf len rflags res data st
  | T_recvfrom s buf len rflags from fromlen res => recvfrom s buf len rflags from fromlen res st
  | T_recvmsg s msg rflags res => recvmsg s msg rflags res st
  | T_write s buf len res data => write pp_flag s buf len res data st
  | T_send s buf len rflags res => send s buf len rflags res st
  | T_sendto s buf len rflags to tolen res => sendto s buf len rflags to tolen res st
  | T_sendmsg s msg rflags res => sendmsg s msg rflags res st
  | T_mmap start length prot mflags fd offset res => mmap start length prot mflags fd offset res st
  | T_munmap start length res => munmap start length res st
  | T_select n readfds writefds exceptfds timeout res => select n readfds writefds exceptfds timeout res st
  | T_pselect n readfds writefds exceptfds timeout sigs res => pselect n readfds writefds exceptfds timeout sigs res st
  | T_gettimeofday tv tz res => gettimeofday tv tz res st
  end.

(** The mode a program gives open, when there is one. *)
Definition option_list (m : option Z) : list Z := match m with Some x => [x] | None => [] end.

(** The call of the C library it stands for, and the kernel's answer. *)
Definition t_real_of (rq : t_request) : t_act :=
  match rq with
  | T_pipe filedes _ _ _ => TReal (bs "pipe") [filedes] []
  | T_dup oldfd _ => TReal (bs "dup") [oldfd] []
  | T_dup2 oldfd newfd _ => TReal (bs "dup2") [oldfd; newfd] []
  | T_socket domain type protocol _ => TReal (bs "socket") [domain; type; protocol] []
  | T_bind s a addrlen _ => TReal (bs "bind") [s; sa_family a; addrlen] [sa_data a]
  | T_listen s backlog _ => TReal (bs "listen") [s; backlog] []
  | T_getsockname s name namelen _ => TReal (bs "getsockname") [s; name; namelen] []
  | T_accept s addr addrlen _ => TReal (bs "accept") [s; addr; addrlen] []
  | T_connect s a addrlen _ => TReal (bs "connect") [s; sa_family a; addrlen] [sa_data a]
  | T_close s _ => TReal (bs "close") [s] []
  | T_open path oflags mode _ => TReal (bs "open") (oflags :: option_list mode) [path]
  | T_creat path mode _ => TReal (bs "creat") [mode] [path]
  | T_read s buf len _ _ => TReal (bs "read") [s; buf; len] []
  | T_recv s buf len rflags _ _ => TReal (bs "recv") [s; buf; len; rflags] []
  | T_recvfrom s buf len rflags from fromlen _ => TReal (bs "recvfrom") [s; buf; len; rflags; from; fromlen] []
  | T_recvmsg s msg rflags _ => TReal (bs "recvmsg") [s; msg; rflags] []
  | T_write s buf len _ _ => TReal (bs "write") [s; buf; len] []
  | T_send s buf len rflags _ => TReal (bs "send") [s; buf; len; rflags] []
  | T_sendto s buf len rflags to tolen _ => TReal (bs "sendto") [s; buf; len; rflags; to; tolen] []
  | T_sendmsg s msg rflags _ => TReal (bs "sendmsg") [s; msg; rflags] []
  | T_mmap start length prot mflags fd offset _ => TReal (bs "mmap") [start; length; prot; mflags; fd; offset] []
  | T_munmap start length _ => TReal (bs "munmap") [start; length] []
  | T_select n readfds writefds exceptfds timeout _ => TReal (bs "select") [n; readfds; writefds; exceptfds; timeout] []
  | T_pselect n readfds writefds exceptfds timeout sigs _ => TReal (bs "pselect") [n; readfds; writefds; exceptfds; timeout; sigs] []
  | T_gettimeofday tv tz _ => TReal (bs "gettimeofday") [tv; tz] []
  end.

Definition t_answer (rq : t_request) : Z :=
  match rq with
  | T_pipe _ r _ _ | T_dup _ r | T_dup2 _ _ r | T_socket _ _ _ r | T_bind _ _ _ r | T_listen _ _ r
  | T_getsockname _ _ _ r | T_accept _ _ _ r | T_connect _ _ _ r | T_close _ r | T_open _ _ _ r
  | T_creat _ _ r | T_read _ _ _ r _ | T_recv _ _ _ _ r _ | T_recvfrom _ _ _ _ _ _ r | T_recvmsg _ _ _ r
  | T_write _ _ _ r _ | T_send _ _ _ _ r | T_sendto _ _ _ _ _ _ r | T_sendmsg _ _ _ r
  | T_mmap _ _ _ _ _ _ r | T_munmap _ _ r | T_select _ _ _ _ _ r | T_pselect _ _ _ _ _ _ r
  | T_gettimeofday _ _ r => r
  end.

(** A readable address. *)
Definition addr_ok (a : sockaddr) : Prop :=
  if is_inet a then 2 <= zlen (sa_data a)
  else if sa_family a =? AF_FILE then is_Some (cstr (sa_data a)) else True.

(** Descriptors of an fd_set, in the call and in the answer; bind has no room for the
    path of a tracked socket; open's wrapper does not take a mode. *)
Definition t_ok (st : state) (rq : t_request) : Prop :=
  let new r := 0 <= r -> fd_ok r = true in
  match rq with
  | T_pipe _ _ fd0 fd1 => fd_ok fd0 = true /\ fd_ok fd1 = true
  | T_dup _ r | T_dup2 _ _ r | T_socket _ _ _ r => new r
  | T_open _ _ mode r => new r /\ mode = None
  | T_bind s a _ _ => fd_ok s = true /\ addr_ok a /\ (sa_family a = AF_FILE -> s ∉ tracked st)
  | T_connect s a _ _ => fd_ok s = true /\ addr_ok a
  | T_accept s _ _ r => fd_ok s = true /\ new r
  | T_listen s _ _ | T_getsockname s _ _ _ | T_close s _ | T_recv s _ _ _ _ _
  | T_recvfrom s _ _ _ _ _ _ | T_recvmsg s _ _ _ | T_send s _ _ _ _ | T_sendto s _ _ _ _ _ _
  | T_sendmsg s _ _ _ => fd_ok s = true
  | _ => True
  end.

Definition is_real (a : t_act) : bool := if a is TReal _ _ _ then true else false.
Definition t_reals (w : list t_act) : list t_act := List.filter is_real w.

(** The run makes the call, and returns the answer. *)
Definition transparent (m : t_run (Z * state)) (c : t_act) (r : Z) : Prop :=
  exists w st', m = (w, Ok (r, st')) /\ t_reals w = [c].
(** A part of it makes no call. *)
Definition silent {A} (m : t_run A) : Prop := exists w a, m = (w, Ok a) /\ t_reals w = [].

Lemma t_reals_app a b : t_reals (a ++ b) = t_reals a ++ t_reals b.
Proof. apply List.filter_app. Qed.

Lemma silent_bind {A} (m : t_run A) k c r :
  silent m -> (forall a, transparent (k a) c r) -> transparent (bind m k) c r.
Proof.
  intros (w & a & -> & Hw) Hk. destruct (Hk a) as (w' & st' & E & Hw'). exists (w ++ w'), st'.
  cbn [bind]. rewrite E, t_reals_app, Hw, Hw'. done.
Qed.

Lemma silent_ret {A} (a : A) : silent (ret a).
Proof. by exists [], a. Qed.
Lemma silent_log m : silent (LOG m).
Proof. by eexists _, tt. Qed.
Lemma silent_pp f l d : silent (emit (TPp f l d)).
Proof. by eexists _, tt. Qed.

(** After the call. *)
Definition done_ (m : t_run (Z * state)) (r : Z) : Prop :=
  exists w st', m = (w, Ok (r, st')) /\ t_reals w = [].

Lemma done_bind {A} (m : t_run A) k r :
  silent m -> (forall a, done_ (k a) r) -> done_ (bind m k) r.
Proof.
  intros (w & a & -> & Hw) Hk. destruct (Hk a) as (w' & st' & E & Hw'). exists (w ++ w'), st'.
  cbn [bind]. rewrite E, t_reals_app, Hw, Hw'. done.
Qed.
Lemma done_ret r st : done_ (ret (r, st)) r.
Proof. by exists [], st. Qed.

Lemma real_bind f args strs k r :
  done_ (k tt) r -> transparent (bind (emit (TReal f args strs)) k) (TReal f args strs) r.
Proof.
  intros (w & st' & E & Hw). eexists _, st'. cbn [bind emit]. rewrite E. split; [done |].
  cbn [app]. change (t_reals (?a :: w)) with ([a] ++ t_reals w). by rewrite Hw.
Qed.

Lemma silent_check b : b = true -> silent (check b).
Proof. intros ->. apply silent_ret. Qed.
Lemma silent_then {A B} (m : t_run A) (k : A -> t_run B) :
  silent m -> (forall a, silent (k a)) -> silent (bind m k).
Proof.
  intros (w & a & -> & Hw) Hk. destruct (Hk a) as (w' & b & E & Hw'). exists (w ++ w'), b.
  cbn [bind]. by rewrite E, t_reals_app, Hw, Hw'.
Qed.
Lemma silent_set s st : fd_ok s = true -> silent (FD_SET s st).
Proof. intros H. unfold FD_SET. rewrite H. apply silent_ret. Qed.
Lemma silent_clr s st : fd_ok s = true -> silent (FD_CLR s st).
Proof. intros H. unfold FD_CLR. rewrite H. apply silent_ret. Qed.
Lemma silent_dispatch f s d : silent (pp_dispatch pp_flag f s d).
Proof. by eexists _, _. Qed.
Lemma silent_dispatch_if r f s d : silent (dispatch_if pp_flag r f s d).
Proof. unfold dispatch_if. destruct (0 <? r); [apply silent_dispatch | apply silent_ret]. Qed.
Lemma silent_port a : 2 <= zlen (sa_data a) -> silent (addr_port a).
Proof. intros H. unfold addr_port. rewrite load_ok by lia. apply silent_ret. Qed.
Lemma silent_path a : is_Some (cstr (sa_data a)) -> silent (addr_path a).
Proof. intros [p E]. unfold addr_path. rewrite E. apply silent_ret. Qed.

Lemma addr_ok_inet a : addr_ok a -> is_inet a = true \/ (sa_family a =? AF_INET) = true -> 2 <= zlen (sa_data a).
Proof.
  unfold addr_ok, is_inet. intros H [E | E]; rewrite E in H; exact H.
Qed.
Lemma addr_ok_file a : addr_ok a -> (sa_family a =? AF_FILE) = true -> is_Some (cstr (sa_data a)).
Proof.
  unfold addr_ok, is_inet. intros H E. apply Z.eqb_eq in E. by rewrite E in H.
Qed.

(** The test of the set: untracked descriptors only get the call. *)
Lemma isset_bind s st k c r :
  fd_ok s = true -> (forall b, bool_decide (s ∈ tracked st) = b -> transparent (k b) c r) ->
  transparent (bind (FD_ISSET s st) k) c r.
Proof. intros H Hk. unfold FD_ISSET. rewrite check_true, !bind_ret_l by done. by apply Hk. Qed.

Ltac t_solve :=
  repeat match goal with
  | |- silent (if ?b then _ else _) => destruct b eqn:?
  | |- silent (match ?x with _ => _ end) => destruct x eqn:?
  | |- silent (bind _ _) => apply silent_then; [| intros ?]
  | |- transparent (bind (FD_ISSET _ _) _) _ _ => apply isset_bind; [| intros [] ?; cbn [negb]]
  | |- transparent (bind (emit (TReal _ _ _)) _) _ _ => apply real_bind
  | |- transparent (bind (t_real _ _) _) _ _ => apply real_bind
  | |- transparent (bind (real_addr _ _ _ _) _) _ _ => apply real_bind
  | |- transparent (bind _ _) _ _ => apply silent_bind; [| intros ?]
  | |- transparent (let '(_, _) := ?x in _) _ _ => destruct x
  | |- done_ (bind _ _) _ => apply done_bind; [| intros ?]
  | |- done_ (let '(_, _) := ?x in _) _ => destruct x
  | |- done_ (ret (_, _)) _ => apply done_ret
  end;
  try first [apply silent_ret | apply silent_log | apply silent_pp | apply silent_dispatch_if |
    apply silent_dispatch | apply silent_set | apply silent_clr | apply silent_port | apply silent_path].

(** C27: The first library's calls are transparent.  Whatever it has tracked and logged so
    far, each of its wrappers of pipe, dup, dup2, socket, bind, listen, getsockname, accept,
    connect, close, open, creat, read, recv, recvfrom, recvmsg, write, send, sendto,
    sendmsg, mmap, munmap, select, pselect and gettimeofday makes the call it stands for
    exactly once, with all of the program's arguments, the pointers to buffers, addresses,
    lengths, sets and timeouts among them, makes no other, and returns the kernel's answer,
    as long as the descriptors fit an fd_set and an address it looks at can be read.  Left
    out are an open with a mode, which the wrapper does not take and drops, and binding a
    tracked socket to a path, which has too little room; poll, which answers for itself
    (Poll.v), and fork, the exec functions, exit and the environment are not among the
    calls. *)
Theorem trace_calls_transparent rq st :
  t_ok st rq -> transparent (t_serve rq st) (t_real_of rq) (t_answer rq).
Proof.
  intros H. destruct rq; cbn [t_serve t_real_of t_answer t_ok] in *;
    try match goal with mode : option Z |- _ => destruct H as [H ->]; cbn [option_list] end;
    unfold pipe, dup, dup2, socket, bind_, listen, getsockname, accept, connect, close, open, creat, read,
      recv, recvfrom, recvmsg, write, send, sendto, sendmsg, mmap, munmap, select, pselect, gettimeofday,
      bracketed, announced; t_solve.
  all: try tauto; try (apply H; lia).
  all: destruct H as (_ & Ha & Hf) || destruct H as [_ Ha];
    try (exfalso; match goal with E : (sa_family _ =? AF_FILE) = true |- _ => apply Z.eqb_eq in E end;
         match goal with E : bool_decide _ = true |- _ => apply bool_decide_eq_true_1 in E end; by apply Hf);
    first [by apply addr_ok_file | apply addr_ok_inet; auto].
Qed.
End requests.

(** ** Properties *)

Lemma trace_calls_transparent_witness :
  let st := mk_state {[0; 1; 2; 5]} ∅ ∅ ∅ ∅ 0 true 0 79 [] None [] in
  transparent (t_serve (fun _ _ _ => bs "q") (T_recv 5 7000 100 0 3 (bs "GET")) st) (TReal (bs "recv") [5; 7000; 100; 0] []) 3.
Proof.
  intros st. exact (trace_calls_transparent (fun _ _ _ => bs "q") (T_recv 5 7000 100 0 3 (bs "GET")) st ltac:(reflexivity)).
Defined.

(** execve puts the library into the environment of the new program at the cost of the
    program's last variable. *)
Lemma hack_envp_replaces lib init x :
  zlen lib < 1013 -> hack_envp lib (init ++ [x]) = ret (init ++ [bs "LD_PRELOAD=" ++ lib]).
Proof.
  intros Hl. unfold hack_envp. cbv zeta. rewrite (zlen_app init). change (zlen [x]) with 1. pose proof (zlen_nonneg init).
  rewrite check_true by (rewrite zlen_app; change (zlen (bs "LD_PRELOAD=")) with 11; zt).
  rewrite bind_ret_l, check_true, bind_ret_l by zt. f_equal. f_equal.
  replace (Z.to_nat (zlen init + 1 - 1)) with (length init + 0)%nat by (unfold zlen; lia).
  by rewrite insert_app_r.
Qed.

Lemma hack_envp_empty lib : hack_envp lib [] = stop Undef.
Proof. unfold hack_envp. by destruct (_ <? 1024). Qed.

Lemma real_getenv_app name a b :
  real_getenv name (a ++ b) = match real_getenv name a with Some v => Some v | None => real_getenv name b end.
Proof. induction a as [| x a IH]; [done |]. cbn. destruct (env_value name x); [done | apply IH]. Qed.

(** The new program does not have the variable that was last. *)
Theorem trace_execve_loses TRACE_LIB filename argv init name v res st :
  zlen (lib_path TRACE_LIB (environ st)) < 1013 ->
  real_getenv name init = None -> env_value name (bs "LD_PRELOAD=" ++ lib_path TRACE_LIB (environ st)) = None ->
  exists w st' e, execve TRACE_LIB filename argv (init ++ [assign name v]) res st = (w, Ok (res, st')) /\
    TReal (bs "execve") [] (filename :: argv ++ e) ∈ w /\ real_getenv name e = None.
Proof.
  intros Hl Hn Hv. unfold execve. rewrite hack_envp_replaces, bind_ret_l by done.
  eexists _, _, _. split; [reflexivity |]. split; [left |].
  rewrite real_getenv_app, Hn. cbn [real_getenv]. by rewrite Hv.
Qed.

Lemma trace_execve_loses_witness :
  let st := mk_state {[0; 1; 2]} ∅ ∅ ∅ ∅ 0 true 0 79 [] None [] in
  exists w st' e, execve (bs "/lib/t.so") (bs "/bin/sh") [bs "sh"] [bs "A=1"; bs "HOME=/"] 0 st = (w, Ok (0, st')) /\
    TReal (bs "execve") [] (bs "/bin/sh" :: [bs "sh"] ++ e) ∈ w /\ real_getenv (bs "HOME") e = None.
Proof.
  intros st. apply (trace_execve_loses (bs "/lib/t.so") (bs "/bin/sh") [bs "sh"] [bs "A=1"] (bs "HOME") (bs "/") 0 st);
    vm_compute; reflexivity.
Defined.
