(* ===== verification/Poll.v ===== *)
(** src/src/trace/trace.c: poll with serialization.

    The first library answers a program's poll(2) with one event at a time.  It keeps
    the array the kernel filled, and a call first looks there for an event on one of the
    program's descriptors; only when it finds none does it ask the kernel again. *)
From S2P Require Import Prelude CInt CString Config Plugin Fcgi Getservice PpId Env Trace.

Record pollfd := mk_pollfd { p_fd : Z; p_events : Z; p_revents : Z }.

(** The static variables.  [real_ufds] is [None] for NULL, or what has been copied to
    the start of the array of 1000 that malloc gave. *)
Record poll_st := mk_poll {
  real_ufds : option (list pollfd);
  real_nfds : Z;
  real_timeout : Z;
  real_pollret : Z;
  seen_poll : bool
}.
Definition poll_start : poll_st := mk_poll None 0 0 0 false.
Definition POLL_MAX : Z := 1000.

Definition set_revents (v : Z) (p : pollfd) : pollfd := mk_pollfd (p_fd p) (p_events p) v.

(** The array at an index, or [Undef] outside it. *)
Definition at_ (l : list pollfd) (i : Z) : t_run pollfd :=
  check (0 <=? i) ;;; of_opt (l !! Z.to_nat i).

(** for(j...) and for(i...): the first descriptor of the program, of [nfds], with an
    event among the [real_nfds] that are kept. *)
Fixpoint scan_real (n : nat) (j : Z) (p : pollfd) (real : list pollfd) : t_run (option Z) :=
  match n with
  | O => ret None
  | S n' =>
      let! q := at_ real j in
      if (p_fd p =? p_fd q) && negb (p_revents q =? 0) then ret (Some j)
      else scan_real n' (j + 1) p real
  end.

Fixpoint scan_user (n : nat) (i : Z) (ufds real : list pollfd) (rn : Z) : t_run (option (Z * Z)) :=
  match n with
  | O => ret None
  | S n' =>
      let! p := at_ ufds i in
      let! o := scan_real (Z.to_nat rn) 0 p real in
      match o with
      | Some j => ret (Some (i, j))
      | None => scan_user n' (i + 1) ufds real rn
      end
  end.

(** The first event of the array the kernel just filled. *)
Fixpoint first_event (n : nat) (i : Z) (real : list pollfd) : t_run (option Z) :=
  match n with
  | O => ret None
  | S n' =>
      let! q := at_ real i in
      if p_revents q =? 0 then first_event n' (i + 1) real else ret (Some i)
  end.

(** The event [j] that is kept becomes the only one of the program's array, at [i]. *)
Definition hand_over (ufds : list pollfd) (nfds i j : Z) (st : poll_st) :
    t_run (list pollfd * poll_st) :=
  let! real := of_opt (real_ufds st) in
  let! q := at_ real j in
  check (nfds <=? zlen ufds) ;;;
  let ufds := (set_revents 0 <$> take (Z.to_nat nfds) ufds) ++ drop (Z.to_nat nfds) ufds in
  check (i <? zlen ufds) ;;;
  ret (alter (set_revents (p_revents q)) (Z.to_nat i) ufds,
       mk_poll (Some (alter (set_revents 0) (Z.to_nat j) real)) (real_nfds st) (real_timeout st)
         (s32 (real_pollret st - 1)) (seen_poll st)).

(** What poll(2) answers: its result, and the revents it writes unless it fails. *)
Abbreviation poll_answer := (Z * list Z)%type.

Definition real_poll (real : list pollfd) (n : Z) (a : poll_answer) : list pollfd :=
  if a.1 <? 0 then real
  else zip_with set_revents (take (Z.to_nat n) a.2) (take (Z.to_nat n) real) ++ drop (Z.to_nat n) real.

Definition poll_init (malloc_ok : bool) (nfds : Z) (st : poll_st) : t_run poll_st :=
  if seen_poll st then ret st else
  if malloc_ok then ret (mk_poll (Some []) nfds (real_timeout st) 0 true)
  else LOG (bs "ERROR: can't malloc for poll") ;;; ret (mk_poll None nfds (real_timeout st) 0 false).

(** Collecting more events, when the program asks for any. *)
Definition repoll (ufds : list pollfd) (nfds timeout : Z) (ans : list poll_answer) (st : poll_st) :
    t_run (poll_st * list poll_answer) :=
  if nfds =? 0 then ret (st, ans) else
  let! old := of_opt (real_ufds st) in
  check ((nfds <=? zlen ufds) && (nfds <=? POLL_MAX)) ;;;
  let real := take (Z.to_nat nfds) ufds ++ drop (Z.to_nat nfds) old in
  t_real (bs "poll") [nfds; timeout] ;;;
  match ans with
  | [] => stop Pending
  | a :: ans =>
      LOG (bs "[real]" ++ pd a.1 ++ bs "=poll(nfds=" ++ pd nfds ++ bs ",tm=" ++ pd timeout ++ bs ")") ;;;
      ret (mk_poll (Some (real_poll real nfds a)) nfds timeout a.1 (seen_poll st), ans)
  end.

Definition poll_line (tag : list byte) (r nfds timeout : Z) : list byte :=
  tag ++ pd r ++ bs "=poll(nfds=" ++ pd nfds ++ bs ",tm=" ++ pd timeout ++ bs ")".
Definition poll_fd (ufds : list pollfd) (i : Z) : list byte :=
  bs " {fd=" ++ pd (default 0 (p_fd <$> ufds !! Z.to_nat i)) ++ bs "}".

Definition poll (malloc_ok : bool) (ufds : list pollfd) (nfds timeout : Z) (ans : list poll_answer)
    (st : poll_st) : t_run (Z * list pollfd * list poll_answer * poll_st) :=
  LOG (bs "poll_begin(nfds=" ++ pd nfds ++ bs ",tm=" ++ pd timeout ++ bs ")") ;;;
  let! st := poll_init malloc_ok nfds st in
  let! cached :=
    (if 0 <? real_pollret st then
       let! real := of_opt (real_ufds st) in
       scan_user (Z.to_nat nfds) 0 ufds real (real_nfds st)
     else ret None) in
  match cached with
  | Some (i, j) =>
      let! (ufds, st) := hand_over ufds nfds i j st in
      LOG (poll_line (bs "[virtual_cached]") 1 nfds timeout ++ poll_fd ufds i) ;;;
      ret (1, ufds, ans, st)
  | None =>
      let! (st, ans) := repoll ufds nfds timeout ans st in
      let! found :=
        (if 0 <? real_pollret st then
           let! real := of_opt (real_ufds st) in
           first_event (Z.to_nat (real_nfds st)) 0 real
         else ret None) in
      match found with
      | Some i =>
          let! (ufds, st) := hand_over ufds nfds i i st in
          LOG (poll_line (bs "[virtual_repoll]") 1 nfds timeout ++ poll_fd ufds i) ;;;
          ret (1, ufds, ans, st)
      | None =>
          LOG (poll_line (bs "[virtual_trivial]") 0 nfds timeout) ;;;
          ret (0, ufds, ans, st)
      end
  end.

(** A program that polls again and again. *)
Fixpoint run_polls (calls : list (list pollfd)) (timeout : Z) (ans : list poll_answer) (st : poll_st) :
    t_run (list (Z * list pollfd) * list poll_answer * poll_st) :=
  match calls with
  | [] => ret ([], ans, st)
  | ufds :: calls =>
      let! (r, ufds, ans, st) := poll true ufds (zlen ufds) timeout ans st in
      let! (rs, ans, st) := run_polls calls timeout ans st in
      ret ((r, ufds) :: rs, ans, st)
  end.

Example poll_two :
  let u := [mk_pollfd 4 1 0; mk_pollfd 7 1 0; mk_pollfd 9 1 5] in
  (run_polls [u; u; u] 10 [(2, [0; 1; 4]); (0, [0; 0; 0])] poll_start).2 =
    Ok ([(1, [mk_pollfd 4 1 0; mk_pollfd 7 1 1; mk_pollfd 9 1 0]);
         (1, [mk_pollfd 4 1 0; mk_pollfd 7 1 0; mk_pollfd 9 1 4]);
         (0, u)], [], mk_poll (Some [mk_pollfd 4 1 0; mk_pollfd 7 1 0; mk_pollfd 9 1 0]) 3 10 0 true).
Proof. vm_compute. reflexivity. Qed.

(** ** The events of an array *)

(** The positions of what is not 0. *)
Fixpoint events (i : Z) (revs : list Z) : list (Z * Z) :=
  match revs with
  | [] => []
  | v :: revs => if v =? 0 then events (i + 1) revs else (i, v) :: events (i + 1) revs
  end.

Lemma at_mid pre q suf : at_ (pre ++ q :: suf) (zlen pre) = ret q.
Proof.
  unfold at_. pose proof (zlen_nonneg pre). rewrite check_true by zt. rewrite bind_ret_l.
  unfold zlen. rewrite Nat2Z.id, lookup_app_r, Nat.sub_diag by done. done.
Qed.

Lemma zlen_snoc {A} (l : list A) x : zlen l + 1 = zlen (l ++ [x]).
Proof. rewrite zlen_app. done. Qed.

Lemma first_event_eq pre suf :
  first_event (length suf) (zlen pre) (pre ++ suf) =
    ret (fst <$> head (events (zlen pre) (p_revents <$> suf))).
Proof.
  revert pre; induction suf as [| q suf IH]; intros pre; [done |].
  cbn [length first_event]. rewrite at_mid, bind_ret_l, fmap_cons. cbn [events].
  destruct (p_revents q =? 0); [| done].
  specialize (IH (pre ++ [q])). by rewrite <- app_assoc, <- zlen_snoc in IH.
Qed.

Lemma scan_real_eq p pre suf :
  scan_real (length suf) (zlen pre) p (pre ++ suf) =
    ret (fst <$> head (events (zlen pre)
      ((fun q => if p_fd p =? p_fd q then p_revents q else 0) <$> suf))).
Proof.
  revert pre; induction suf as [| q suf IH]; intros pre; [done |].
  cbn [length scan_real]. rewrite at_mid, bind_ret_l, fmap_cons. cbn [events].
  specialize (IH (pre ++ [q])). rewrite <- app_assoc, <- zlen_snoc in IH. cbn [app] in IH.
  destruct (p_fd p =? p_fd q); cbn [andb]; [| exact IH].
  destruct (p_revents q =? 0); cbn [negb]; [exact IH | done].
Qed.

(** A descriptor that is not there, or that has no event. *)
Lemma events_none i revs : Forall (fun v => v = 0) revs -> events i revs = [].
Proof. intros H. revert i. induction H as [| v revs -> _ IH]; intros i; [done | apply IH]. Qed.

Lemma matching_none p suf :
  ~ In (p_fd p) (p_fd <$> suf) ->
  Forall (fun v => v = 0) ((fun q => if p_fd p =? p_fd q then p_revents q else 0) <$> suf).
Proof.
  induction suf as [| q suf IH]; intros H; [constructor |]. cbn in H. rewrite fmap_cons.
  constructor; [| apply IH; tauto]. destruct (Z.eqb_spec (p_fd p) (p_fd q)); [| done].
  exfalso. apply H. by left.
Qed.

Lemma events_app i a b : events i (a ++ b) = events i a ++ events (i + zlen a) b.
Proof.
  revert i; induction a as [| v a IH]; intros i; cbn [app events].
  - by rewrite zlen_nil, Z.add_0_r.
  - rewrite IH, zlen_cons. replace (i + 1 + zlen a) with (i + (1 + zlen a)) by lia.
    by destruct (v =? 0).
Qed.

(** With distinct descriptors, the one at [zlen pre] matches there only. *)
Lemma scan_real_own p pre q suf :
  NoDup (p_fd <$> pre ++ q :: suf) -> p_fd p = p_fd q ->
  scan_real (length (pre ++ q :: suf)) 0 p (pre ++ q :: suf) =
    ret (if p_revents q =? 0 then None else Some (zlen pre)).
Proof.
  intros Hnd Hq. pose proof (scan_real_eq p [] (pre ++ q :: suf)) as E.
  change (zlen []) with 0 in E. cbn [app] in E. rewrite E. f_equal.
  rewrite fmap_app, fmap_cons in Hnd. apply list.NoDup_app in Hnd as (_ & Hpre & Hnd).
  apply list.NoDup_cons in Hnd as [Hsuf _].
  rewrite fmap_app, events_app, fmap_cons, Hq, Z.eqb_refl. cbn [events].
  rewrite events_none.
  2:{ rewrite <- Hq. apply matching_none. rewrite <- list_elem_of_In, Hq. intros H.
      by apply (Hpre _ H); left. }
  rewrite zlen_fmap. cbn [app].
  destruct (p_revents q =? 0); [| done].
  rewrite events_none; [done |]. rewrite <- Hq. apply matching_none. by rewrite <- list_elem_of_In, Hq.
Qed.

Lemma scan_user_eq pu pr suf sr :
  p_fd <$> pu = p_fd <$> pr -> p_fd <$> suf = p_fd <$> sr -> NoDup (p_fd <$> pr ++ sr) ->
  scan_user (length suf) (zlen pu) (pu ++ suf) (pr ++ sr) (zlen (pr ++ sr)) =
    ret ((fun x => (x.1, x.1)) <$> head (events (zlen pu) (p_revents <$> sr))).
Proof.
  revert pu pr sr; induction suf as [| p suf IH]; intros pu pr sr Hp Hs Hnd.
  { by destruct sr. }
  destruct sr as [| q sr]; [done |]. injection Hs as Hq Hs.
  cbn [length scan_user]. rewrite at_mid, bind_ret_l.
  replace (Z.to_nat (zlen (pr ++ q :: sr))) with (length (pr ++ q :: sr)) by (unfold zlen; lia).
  rewrite scan_real_own, bind_ret_l, fmap_cons by done. cbn [events].
  assert (zlen pr = zlen pu) as E by (apply (f_equal zlen) in Hp; by rewrite !zlen_fmap in Hp).
  destruct (p_revents q =? 0); [| by rewrite E].
  rewrite (cons_middle p), (cons_middle q), !app_assoc, (zlen_snoc pu p).
  apply IH; [by rewrite !fmap_app, Hp; cbn; rewrite Hq | done | by rewrite <- app_assoc].
Qed.

Lemma events_inv k real i v evs :
  events k (p_revents <$> real) = (i, v) :: evs ->
  exists pre q suf, real = pre ++ q :: suf /\ i = k + zlen pre /\ p_revents q = v /\
    evs = events (i + 1) (p_revents <$> suf) /\ Forall (fun v => v = 0) (p_revents <$> pre).
Proof.
  revert k; induction real as [| q real IH]; intros k H; [done |]. rewrite fmap_cons in H. cbn [events] in H.
  destruct (Z.eqb_spec (p_revents q) 0) as [E | E].
  - destruct (IH _ H) as (pre & q' & suf & -> & -> & ? & ? & ?).
    exists (q :: pre), q', suf. rewrite zlen_cons, fmap_cons. split_and!; try done; [lia | by constructor].
  - injection H as <- <- <-. exists [], q, real. rewrite zlen_nil, Z.add_0_r. split_and!; try done.
Qed.

Lemma events_taken pre q suf :
  Forall (fun v => v = 0) (p_revents <$> pre) ->
  events 0 (p_revents <$> pre ++ set_revents 0 q :: suf) = events (zlen pre + 1) (p_revents <$> suf).
Proof.
  intros H. rewrite fmap_app, fmap_cons, events_app, events_none by done. cbn [events app p_revents set_revents].
  by rewrite zlen_fmap.
Qed.

Lemma zlen_events i revs : zlen (events i revs) <= zlen revs.
Proof.
  revert i; induction revs as [| v revs IH]; intros i; [done |]. cbn [events].
  specialize (IH (i + 1)). rewrite zlen_cons. destruct (v =? 0); rewrite ?zlen_cons; lia.
Qed.

(** ** One call *)

(** The program's array with one event. *)
Definition only (ufds : list pollfd) (x : Z * Z) : list pollfd :=
  alter (set_revents x.2) (Z.to_nat x.1) (set_revents 0 <$> ufds).

Lemma alter_mid {A} (f : A -> A) pre q suf :
  alter f (Z.to_nat (zlen pre)) (pre ++ q :: suf) = pre ++ f q :: suf.
Proof.
  unfold zlen. rewrite Nat2Z.id. rewrite <- (Nat.add_0_r (length pre)). by rewrite alter_app_r.
Qed.

Lemma hand_over_ok ufds pre q suf st :
  real_ufds st = Some (pre ++ q :: suf) -> zlen (pre ++ q :: suf) = zlen ufds ->
  1 <= real_pollret st <= POLL_MAX ->
  hand_over ufds (zlen ufds) (zlen pre) (zlen pre) st =
    ret (only ufds (zlen pre, p_revents q),
      mk_poll (Some (pre ++ set_revents 0 q :: suf)) (real_nfds st) (real_timeout st)
        (real_pollret st - 1) (seen_poll st)).
Proof.
  intros Hr Hl Hp. unfold hand_over, only, POLL_MAX in *. cbn [fst snd]. rewrite Hr. cbn [of_opt].
  rewrite bind_ret_l, at_mid, bind_ret_l, check_true, bind_ret_l by zt.
  replace (Z.to_nat (zlen ufds)) with (length ufds) by (unfold zlen; lia).
  rewrite take_ge, drop_ge, app_nil_r, zlen_fmap by done.
  rewrite zlen_app, zlen_cons in Hl. pose proof (zlen_nonneg suf).
  rewrite check_true by zt. rewrite bind_ret_l, alter_mid, s32_small by lia. done.
Qed.

(** What the library keeps for a program that polls [fds]: [evs] to be given next. *)
Definition kept (fds : list Z) (st : poll_st) (evs : list (Z * Z)) : Prop :=
  Z.max 0 (real_pollret st) = zlen evs /\ real_pollret st <= POLL_MAX /\
  (seen_poll st = true -> exists old, real_ufds st = Some old /\ zlen old <= zlen fds) /\
  (evs <> [] -> seen_poll st = true /\ real_nfds st = zlen fds /\
    exists real, real_ufds st = Some real /\ p_fd <$> real = fds /\ events 0 (p_revents <$> real) = evs).

(** The next kept event goes out, and the rest is kept. *)
Lemma take_event fds ufds real st x evs :
  real_ufds st = Some real -> p_fd <$> real = fds -> events 0 (p_revents <$> real) = x :: evs ->
  real_pollret st = zlen (x :: evs) -> seen_poll st = true -> real_nfds st = zlen fds ->
  p_fd <$> ufds = fds -> zlen fds <= POLL_MAX ->
  exists st', hand_over ufds (zlen ufds) x.1 x.1 st = ret (only ufds x, st') /\ kept fds st' evs.
Proof.
  intros Hr Hf He Hp Hs Hn Hu Hm. destruct x as [i v].
  pose proof (zlen_events 0 (p_revents <$> real)) as Hz. rewrite He, zlen_fmap, zlen_cons in Hz.
  assert (zlen real = zlen fds) as Hl1 by (rewrite <- Hf; by rewrite zlen_fmap).
  assert (zlen ufds = zlen fds) as Hl2 by (rewrite <- Hu; by rewrite zlen_fmap).
  rewrite zlen_cons in Hp. pose proof (zlen_nonneg evs).
  destruct (events_inv _ _ _ _ _ He) as (pre & q & suf & -> & -> & <- & -> & H0). cbn [fst]. rewrite Z.add_0_l in *.
  rewrite (hand_over_ok ufds pre q suf); try done; try lia. eexists. split; [reflexivity |]. unfold kept.
  cbn [real_pollret real_ufds seen_poll real_nfds]. rewrite !zlen_app, !zlen_cons in *.
  split_and!; try lia.
  - intros _. eexists. split; [done |]. rewrite zlen_app, zlen_cons. lia.
  - intros _. split_and!; try done. eexists. split; [done |]. rewrite events_taken by done.
    split; [| done]. rewrite fmap_app, fmap_cons. by rewrite fmap_app, fmap_cons in Hf.
Qed.

Lemma zlen_nat_len {A} (l : list A) : Z.to_nat (zlen l) = length l.
Proof. unfold zlen. lia. Qed.

Lemma fds_len fds ufds : p_fd <$> ufds = fds -> zlen ufds = zlen fds.
Proof. intros <-. by rewrite zlen_fmap. Qed.

(** A call that finds an event kept. *)
Lemma poll_cached fds ufds tm ans st x evs :
  kept fds st (x :: evs) -> NoDup fds -> zlen fds <= POLL_MAX -> p_fd <$> ufds = fds ->
  exists st', (poll true ufds (zlen ufds) tm ans st).2 = Ok (1, only ufds x, ans, st') /\
    kept fds st' evs.
Proof.
  intros (Hp & Hm & _ & H) Hnd Hmax Hu. destruct H as (Hs & Hn & real & Hr & Hf & He); [done |].
  pose proof (zlen_nonneg evs). rewrite zlen_cons in Hp.
  destruct (take_event fds ufds real st x evs) as (st' & E & Hk); try done; [rewrite zlen_cons; lia |].
  unfold poll, LOG, poll_init. erewrite bind_snd by reflexivity. rewrite Hs, bind_ret_l.
  destruct (Z.ltb_spec 0 (real_pollret st)); [| lia]. rewrite Hr, Hn. cbn [of_opt]. rewrite bind_ret_l.
  rewrite <- (fds_len fds real Hf), zlen_nat_len.
  pose proof (scan_user_eq [] [] ufds real eq_refl) as S. change (zlen []) with 0 in S. cbn [app] in S.
  rewrite S, bind_ret_l, He by congruence. destruct x as [i v]. cbn [head fmap option_fmap option_map fst snd] in *.
  rewrite E, bind_ret_l. exists st'. split; [reflexivity | done].
Qed.

(** What the kernel's answer to a poll of [n] descriptors is like. *)
Definition answer_ok (n : Z) (a : poll_answer) : Prop :=
  zlen a.2 = n /\ (0 < a.1 -> a.1 = zlen (events 0 a.2)).

Lemma real_poll_fills ufds a :
  0 < a.1 -> zlen a.2 = zlen ufds ->
  p_fd <$> real_poll ufds (zlen ufds) a = p_fd <$> ufds /\
  p_revents <$> real_poll ufds (zlen ufds) a = a.2.
Proof.
  intros Ha Hl. unfold real_poll. destruct (Z.ltb_spec a.1 0); [lia |].
  rewrite zlen_nat_len, drop_ge, app_nil_r by done.
  rewrite !take_ge by (unfold zlen in Hl; lia). destruct a as [r revs]. cbn [fst snd] in *.
  clear r Ha H. assert (length revs = length ufds) as E by (unfold zlen in Hl; lia). clear Hl.
  revert revs E; induction ufds as [| p ufds IH]; intros [| v revs] E; try done.
  cbn. injection E as E. destruct (IH revs E) as [-> ->]. done.
Qed.

(** The library's copy of what the kernel answered. *)
Definition asks (ufds : list pollfd) (a : poll_answer) (st1 : poll_st) : Prop :=
  real_pollret st1 = a.1 /\ seen_poll st1 = true /\ real_nfds st1 = zlen ufds /\
  real_ufds st1 = Some (real_poll ufds (zlen ufds) a).

(** Starting the library's cache, or finding it empty. *)
Lemma poll_empty fds ufds tm a ans st :
  kept fds st [] -> zlen fds <= POLL_MAX -> 0 < zlen fds -> p_fd <$> ufds = fds ->
  exists st0 st1, (poll_init true (zlen ufds) st).2 = Ok st0 /\ real_pollret st0 <= 0 /\
    (repoll ufds (zlen ufds) tm (a :: ans) st0).2 = Ok (st1, ans) /\ asks ufds a st1.
Proof.
  intros (Hp & _ & Hs & _) Hm Hpos Hu. pose proof (fds_len fds ufds Hu) as Hl. change (zlen []) with 0 in Hp.
  assert (exists st0 old, (poll_init true (zlen ufds) st).2 = Ok st0 /\ real_pollret st0 <= 0 /\
    seen_poll st0 = true /\ real_ufds st0 = Some old /\ zlen old <= zlen fds) as
    (st0 & old & E & Hp0 & Hs0 & Hr0 & Ho).
  { unfold poll_init. destruct (seen_poll st) eqn:Es.
    - destruct (Hs eq_refl) as (old & Hr & Ho). exists st, old. split_and!; try done. lia.
    - eexists _, []. split; [reflexivity |]. cbn [real_pollret seen_poll real_ufds].
      split_and!; try done. change (zlen []) with 0. lia. }
  exists st0. unfold repoll. destruct (Z.eqb_spec (zlen ufds) 0); [lia |].
  rewrite Hr0. cbn [of_opt]. rewrite bind_ret_l, check_true, bind_ret_l by zt.
  rewrite zlen_nat_len, take_ge, (drop_ge old), app_nil_r by (unfold zlen in *; lia).
  eexists. split_and!; [done | done | reflexivity | done].
Qed.

(** A call that asks the kernel. *)
Lemma poll_asks fds ufds tm a ans st :
  kept fds st [] -> NoDup fds -> 0 < zlen fds <= POLL_MAX -> p_fd <$> ufds = fds ->
  answer_ok (zlen fds) a ->
  exists st', (poll true ufds (zlen ufds) tm (a :: ans) st).2 =
      Ok (match (if 0 <? a.1 then events 0 a.2 else []) with
          | x :: _ => (1, only ufds x)
          | [] => (0, ufds)
          end, ans, st') /\
    kept fds st' (tail (if 0 <? a.1 then events 0 a.2 else [])).
Proof.
  intros Hk Hnd [Hpos Hm] Hu [Hal Har]. pose proof (fds_len fds ufds Hu) as Hl.
  destruct (poll_empty fds ufds tm a ans st Hk Hm Hpos Hu) as
    (st0 & st1 & E0 & Hp0 & E1 & Hp1 & Hs1 & Hn1 & Hr1).
  unfold poll, LOG. erewrite bind_snd by reflexivity. rewrite (bind_snd _ _ _ E0).
  destruct (Z.ltb_spec 0 (real_pollret st0)); [lia |].
  rewrite bind_ret_l, (bind_snd _ _ _ E1). cbv beta iota. rewrite Hp1.
  destruct (Z.ltb_spec 0 a.1) as [Ha | Ha].
  - destruct (real_poll_fills ufds a Ha ltac:(congruence)) as [Ef Er]. set (real := real_poll _ _ _) in *.
    specialize (Har Ha). pose proof (zlen_events 0 a.2) as Hz.
    rewrite Hr1, Hn1. cbn [of_opt]. rewrite bind_ret_l.
    assert (length ufds = length real) as Hlr by (apply (f_equal length) in Ef; by rewrite !length_fmap in Ef).
    pose proof (first_event_eq [] real) as F. change (zlen []) with 0 in F. cbn [app] in F.
    rewrite zlen_nat_len, Hlr, F, Er, bind_ret_l.
    destruct (events 0 a.2) as [| x evs] eqn:Ev; [change (zlen []) with 0 in Har; lia |].
    destruct (take_event fds ufds real st1 x evs) as (st' & E & Hk'); try done;
      [congruence | by rewrite Er | by rewrite Hp1, Har | by rewrite Hn1 |].
    cbn [head fmap option_fmap option_map]. rewrite E, bind_ret_l. cbn [tail].
    exists st'. split; [reflexivity | done].
  - rewrite bind_ret_l. exists st1. split; [reflexivity |]. cbn [tail]. unfold kept.
    rewrite Hp1. change (zlen []) with 0. split_and!; try done; try (unfold POLL_MAX; lia).
    intros _. eexists. split; [done |]. unfold real_poll.
    rewrite zlen_nat_len. case_match; [lia |].
    rewrite drop_ge, app_nil_r by done. unfold zlen in *. rewrite length_zip_with, !length_take. lia.
Qed.

(** ** Properties *)

(** What the polls of a program are answered with: one event each, and nothing for an
    answer of the kernel that has none. *)
Definition serialized (ans : list poll_answer) : list (option (Z * Z)) :=
  ans ≫= fun a => match (if 0 <? a.1 then events 0 a.2 else []) with [] => [None] | evs => Some <$> evs end.

Definition answered (ufds : list pollfd) (o : option (Z * Z)) : Z * list pollfd :=
  match o with Some x => (1, only ufds x) | None => (0, ufds) end.

Lemma run_polls_ok fds calls tm ans st evs :
  NoDup fds -> 0 < zlen fds <= POLL_MAX -> Forall (fun ufds => p_fd <$> ufds = fds) calls ->
  Forall (answer_ok (zlen fds)) ans -> kept fds st evs ->
  length calls = length ((Some <$> evs) ++ serialized ans) ->
  exists st', (run_polls calls tm ans st).2 =
    Ok (zip_with answered calls ((Some <$> evs) ++ serialized ans), [], st').
Proof.
  intros Hnd Hn Hc. revert ans st evs. induction Hc as [| ufds calls Hu _ IH]; intros ans st evs Ha Hk Hl.
  { destruct evs; [| done]. destruct ans as [| a ans]; [by exists st |]. cbn in Hl.
    destruct (if 0 <? a.1 then _ else _); done. }
  cbn [run_polls]. destruct evs as [| x evs].
  - destruct Ha as [| a ans Ha1 Ha]; [done |].
    destruct (poll_asks fds ufds tm a ans st Hk Hnd Hn Hu Ha1) as (st1 & E & Hk1).
    rewrite (bind_snd _ _ _ E). cbn [fmap list_fmap app] in *. unfold serialized in *. rewrite bind_cons in *.
    fold (serialized ans) in *.
    destruct (if 0 <? a.1 then events 0 a.2 else []) as [| x evs]; cbn [tail] in Hk1; cbv beta iota.
    + destruct (IH ans st1 [] Ha Hk1) as (st2 & E2); [by injection Hl |].
      rewrite (bind_snd _ _ _ E2). by exists st2.
    + destruct (IH ans st1 evs Ha Hk1) as (st2 & E2); [by injection Hl |].
      rewrite (bind_snd _ _ _ E2). by exists st2.
  - destruct (poll_cached fds ufds tm ans st x evs Hk Hnd (proj2 Hn) Hu) as (st1 & E & Hk1).
    rewrite (bind_snd _ _ _ E). cbv beta iota.
    destruct (IH ans st1 evs Ha Hk1) as (st2 & E2); [by injection Hl |].
    rewrite (bind_snd _ _ _ E2). by exists st2.
Qed.

(** C18: poll hands the kernel's events over one by one.  A program polls an array of
    distinct descriptors, at most 1000, again and again.  Then each event the kernel
    reports is given to it exactly once, in the order of the array, by a call that
    returns 1 with that event alone set; the kernel is asked again only when none is
    left, so that every answer of it is used; and an answer without an event makes the
    call return 0 and leave the array alone, which is what happens to a failure too. *)
Theorem poll_serializes fds calls tm ans :
  NoDup fds -> 0 < zlen fds <= POLL_MAX -> Forall (fun ufds => p_fd <$> ufds = fds) calls ->
  Forall (answer_ok (zlen fds)) ans -> length calls = length (serialized ans) ->
  exists st', (run_polls calls tm ans poll_start).2 =
    Ok (zip_with answered calls (serialized ans), [], st').
Proof.
  intros Hnd Hn Hc Ha Hl. apply (run_polls_ok fds calls tm ans poll_start []); try done.
Qed.

Definition demo_ufds : list pollfd := [mk_pollfd 4 1 0; mk_pollfd 7 1 0; mk_pollfd 9 1 5].

Lemma poll_serializes_witness :
  exists st', (run_polls (replicate 4 demo_ufds) 10 [(2, [0; 1; 4]); (-1, [0; 0; 0]); (1, [8; 0; 0])] poll_start).2 =
    Ok ([(1, [mk_pollfd 4 1 0; mk_pollfd 7 1 1; mk_pollfd 9 1 0]);
         (1, [mk_pollfd 4 1 0; mk_pollfd 7 1 0; mk_pollfd 9 1 4]);
         (0, demo_ufds); (1, [mk_pollfd 4 1 8; mk_pollfd 7 1 0; mk_pollfd 9 1 0])], [], st').
Proof.
  apply (poll_serializes [4; 7; 9] (replicate 4 demo_ufds) 10 [(2, [0; 1; 4]); (-1, [0; 0; 0]); (1, [8; 0; 0])]).
  - repeat (constructor; [rewrite ?elem_of_cons, ?elem_of_nil; lia |]). constructor.
  - vm_compute. split; [reflexivity | congruence].
  - by apply Forall_replicate.
  - repeat (constructor; [split; [reflexivity | vm_compute; congruence] |]). constructor.
  - reflexivity.
Defined.

(** A program that sleeps with poll(NULL, 0, ms) while events are kept: the library
    stores one of them in the array that is not there. *)
Theorem poll_sleep_overruns malloc_ok tm ans fds st x evs :
  kept fds st (x :: evs) -> (poll malloc_ok [] 0 tm ans st).2 = Crash Undef.
Proof.
  intros (Hp & Hm & _ & H). destruct H as (Hs & Hn & real & Hr & Hf & He); [done |].
  rewrite zlen_cons in Hp. pose proof (zlen_nonneg evs). unfold poll, LOG, poll_init.
  erewrite bind_snd by reflexivity. rewrite Hs, bind_ret_l.
  destruct (Z.ltb_spec 0 (real_pollret st)) as [Hpos |]; [| lia]. rewrite Hr. cbn [of_opt].
  rewrite bind_ret_l. change (scan_user _ _ _ _ _) with (@ret t_act (option (Z * Z)) None).
  rewrite bind_ret_l. unfold repoll. cbn [Z.eqb]. rewrite bind_ret_l. cbv beta iota.
  destruct (Z.ltb_spec 0 (real_pollret st)); [| lia].
  rewrite Hr, Hn, <- (fds_len fds real Hf), zlen_nat_len. cbn [of_opt]. rewrite bind_ret_l.
  pose proof (first_event_eq [] real) as F. change (zlen []) with 0 in F. cbn [app] in F.
  rewrite F, bind_ret_l, He. destruct x as [i v].
  destruct (events_inv _ _ _ _ _ He) as (pre & q & suf & -> & -> & _).
  cbn [head fmap option_fmap option_map fst]. unfold hand_over. rewrite Hr. cbn [of_opt].
  rewrite bind_ret_l, Z.add_0_l, at_mid, bind_ret_l, check_true, bind_ret_l by done.
  unfold check. pose proof (zlen_nonneg pre).
  change (zlen ((set_revents 0 <$> take (Z.to_nat 0) []) ++ drop (Z.to_nat 0) [])) with 0.
  destruct (Z.ltb_spec (zlen pre) 0); [lia | done].
Qed.

Lemma poll_sleep_overruns_witness :
  let st := mk_poll (Some [mk_pollfd 4 1 0; mk_pollfd 7 1 1]) 2 10 1 true in
  (poll true [] 0 500 [] st).2 = Crash Undef.
Proof.
  intros st. apply (poll_sleep_overruns true 500 [] [4; 7] st (1, 1) []).
  split_and!; try done; [intros _; by eexists |]. intros _. split_and!; try done. by eexists.
Defined.
