(* ===== verification/Min.v ===== *)
(** src/src/trace/min.c and min.h: the small tracing library.

    It follows a program's processes only: fork, the exec functions, exit and abort, a
    line of text for each on a named pipe.  It is built by hand, and no longer: it calls
    real_getenv, which nothing declares.

    [pid] and [tv] are what getpid and gettimeofday give, the same at every line of a
    call but in a new process. *)
From S2P Require Import Prelude CInt CString Config Fmt Binlog Plugin Fcgi Getservice PpId Env Trace.

Inductive m_act :=
| MWrite (fd : Z) (b : list byte)
| MReal (f : list byte) (args : list Z) (strs : list (list byte))
| MErr (msg : list byte).
Abbreviation m_run := (run m_act).

Record m_state := mk_min {
  m_first_init : bool;
  m_seq_no : Z;
  pipefd : Z;
  m_environ : env
}.

Definition LOGD_PIPE : list byte := bs "/tmp/fifo".
Definition O_WRONLY : Z := 1.

(** The line of LOG: the macro passes 1 and the string prog_name. *)
Definition log_text (pid : Z) (tv : timeval) (msg : list byte) : list byte :=
  bs "1|" ++ pd pid ++ bs "|" ++ fmt_0 10 (tv_sec tv) ++ bs "." ++ fmt_0 6 (tv_usec tv) ++
  bs "|prog_name|" ++ msg ++ [LF].

Definition MLOG (pid : Z) (tv : timeval) (st : m_state) (msg : list byte) : m_run unit :=
  let outs := snprintf (Z.to_nat MAX_LOG_LINE) (log_text pid tv msg) in
  (if PIPE_BUF <? zlen outs then emit (MErr (bs "big!!!!!!!")) else ret tt) ;;;
  emit (MWrite (pipefd st) outs).

Section min.
Context (TRACE_LIB : list byte) (tv : timeval).

(** [fd]: what open answers. *)
Definition init (pid fd : Z) (st : m_state) : m_run m_state :=
  if m_first_init st then ret st else
  let st := mk_min true 0 fd (m_environ st) in
  emit (MReal (bs "open") [O_WRONLY] [LOGD_PIPE]) ;;;
  (if fd <? 0 then emit (MErr (bs "couldn't connect to named pipe: " ++ LOGD_PIPE)) else ret tt) ;;;
  MLOG pid tv st (bs "start()") ;;;
  ret st.

Definition reinit (pid fd : Z) (st : m_state) : m_run m_state :=
  let st := mk_min false (m_seq_no st) (pipefd st) (m_environ st) in
  (if -1 <? pipefd st then emit (MReal (bs "close") [pipefd st] []) else ret tt) ;;;
  init pid fd st.

(** [child]: the new process' pid, for its own lines. *)
Definition fork (pid child res : Z) (st : m_state) : m_run Z :=
  MLOG pid tv st (bs "fork_begin()") ;;;
  emit (MReal (bs "fork") [] []) ;;;
  (if res =? 0 then MLOG child tv st (bs "fork() = " ++ pd res)
   else MLOG pid tv st (bs "fork() = " ++ pd res)) ;;;
  ret res.

Definition m_hack (lib : list byte) (envp : env) : m_run env :=
  match hack_envp lib envp with (_, Ok e) => ret e | (_, Crash c) => stop c end.

Definition execve (pid : Z) (filename : list byte) (argv envp : list (list byte)) (res : Z) (st : m_state) :
    m_run (Z * m_state) :=
  let lib := lib_path TRACE_LIB (m_environ st) in
  let st := mk_min (m_first_init st) (m_seq_no st) (pipefd st) (setenv (bs "LD_PRELOAD") lib (m_environ st)) in
  let! hacked_envp := m_hack lib envp in
  emit (MReal (bs "execve") [] (filename :: argv ++ hacked_envp)) ;;;
  MLOG pid tv st (quoted (bs "execve") filename) ;;;
  ret (res, st).

(** As trace.c's: real_execl reads on until it finds a NULL. *)
Definition execl (pid : Z) (path : list byte) (arg : option (list byte)) (res : Z) (st : m_state) : m_run Z :=
  MLOG pid tv st (quoted (bs "execl") path) ;;;
  emit (MReal (bs "execl") [] [path]) ;;;
  match arg with None => ret res | Some _ => stop Undef end.

Definition exit_ (pid fd status : Z) (st : m_state) : m_run unit :=
  let! st := init pid fd st in
  MLOG pid tv st (call (bs "exit") [status]) ;;;
  emit (MReal (bs "exit") [status] []) ;;;
  stop (Exit status).

Definition abort (pid fd : Z) (st : m_state) : m_run unit :=
  let! st := init pid fd st in
  MLOG pid tv st (bs "abort()") ;;;
  emit (MReal (bs "abort") [] []) ;;;
  stop AssertFail.
End min.

Example min_line :
  log_text 300 (mk_tv 1144765785 42) (bs "start()") =
    bs "1|300|1144765785.000042|prog_name|start()" ++ [LF].
Proof. vm_compute. reflexivity. Qed.

(** ** The lines of the trace *)

Definition lf_free (l : list byte) : Prop := LF ∉ l.

(** A reader of the pipe: what comes before each LF, and the rest. *)
Fixpoint read_lines (cur : list byte) (l : list byte) : list (list byte) * list byte :=
  match l with
  | [] => ([], cur)
  | b :: l =>
      if Byte.eqb b LF then let '(ls, r) := read_lines [] l in (cur :: ls, r)
      else read_lines (cur ++ [b]) l
  end.

Lemma read_lines_line cur a l :
  lf_free a ->
  read_lines cur (a ++ LF :: l) = let '(ls, r) := read_lines [] l in ((cur ++ a) :: ls, r).
Proof.
  unfold lf_free. revert cur; induction a as [| b a IH]; intros cur Ha; cbn [app read_lines].
  - by rewrite app_nil_r.
  - apply not_elem_of_cons in Ha as [Hb Ha]. destruct (Byte.eqb b LF) eqn:E.
    { apply Byte.byte_dec_bl in E. by subst. }
    rewrite IH by done. by rewrite <- app_assoc.
Qed.

Lemma read_lines_none cur a : lf_free a -> read_lines cur a = ([], cur ++ a).
Proof.
  unfold lf_free. revert cur; induction a as [| b a IH]; intros cur Ha; cbn [read_lines].
  - by rewrite app_nil_r.
  - apply not_elem_of_cons in Ha as [Hb Ha]. destruct (Byte.eqb b LF) eqn:E.
    { apply Byte.byte_dec_bl in E. by subst. }
    rewrite IH by done. by rewrite <- app_assoc.
Qed.

(** The line without its end. *)
Definition log_body (pid : Z) (tv : timeval) (msg : list byte) : list byte :=
  bs "1|" ++ pd pid ++ bs "|" ++ fmt_0 10 (tv_sec tv) ++ bs "." ++ fmt_0 6 (tv_usec tv) ++
  bs "|prog_name|" ++ msg.

Lemma log_text_body pid tv msg : log_text pid tv msg = log_body pid tv msg ++ [LF].
Proof. unfold log_text, log_body. lapp. Qed.

(** What is printed is text: bytes other than NUL and LF. *)
Definition texty (l : list byte) : Prop := Forall (fun b => b <> NUL /\ b <> LF) l.

Lemma texty_app a b : texty (a ++ b) <-> texty a /\ texty b.
Proof. apply Forall_app. Qed.

Lemma digit_texty z : 0 <= z < 10 -> texty [zb (48 + z)].
Proof.
  intros Hz. apply List.Forall_cons; [| constructor].
  split; intros E; apply (f_equal bz) in E; rewrite bz_zb, Z.mod_small in E by lia.
  - change (bz NUL) with 0 in E. lia.
  - change (bz LF) with 10 in E. lia.
Qed.

Lemma dec_digits_texty n x : texty (dec_digits n x).
Proof.
  revert x; induction n as [| n IH]; intros x; [constructor |]. cbn [dec_digits]. apply texty_app. split.
  - destruct (x <? 10); [constructor | apply IH].
  - apply digit_texty, Z.mod_pos_bound. lia.
Qed.

Lemma pd_texty x : texty (pd x).
Proof.
  unfold pd, fmt_d, fmt_u. destruct (_ <? 0); [| apply dec_digits_texty].
  constructor; [split; discriminate | apply dec_digits_texty].
Qed.

Lemma fmt_0_texty w x : texty (fmt_0 w x).
Proof.
  unfold fmt_0, fmt_u. rewrite !texty_app. split_and!; [| | apply dec_digits_texty].
  - destruct (x <? 0); repeat constructor; discriminate.
  - apply Forall_replicate. split; discriminate.
Qed.

Lemma log_body_texty pid tv msg : texty msg -> texty (log_body pid tv msg).
Proof.
  intros Hm. unfold log_body. rewrite !texty_app.
  split_and!; first [apply pd_texty | apply fmt_0_texty | done | repeat constructor; discriminate].
Qed.

Lemma texty_nul_free l : texty l -> nul_free l.
Proof. intros H. eapply List.Forall_impl; [| exact H]. by intros b [? _]. Qed.
Lemma texty_lf_free l : texty l -> lf_free l.
Proof.
  intros H Hin. apply list_elem_of_In in Hin.
  by destruct (proj1 (List.Forall_forall _ _) H _ Hin).
Qed.

Lemma log_text_nul_free pid tv msg : texty msg -> nul_free (log_text pid tv msg).
Proof.
  intros Hm. rewrite log_text_body. apply Forall_app. split; [by apply texty_nul_free, log_body_texty |].
  by repeat constructor.
Qed.

(** A line that fits is written whole, by one write that the pipe does not split. *)
Lemma MLOG_whole pid tv st msg :
  texty msg -> zlen (log_text pid tv msg) < MAX_LOG_LINE ->
  MLOG pid tv st msg = ([MWrite (pipefd st) (log_text pid tv msg)], Ok tt).
Proof.
  intros Hm Hl. unfold MLOG, snprintf. rewrite take_ge by (unfold zlen, MAX_LOG_LINE in *; lia).
  rewrite cbytes_nul_free by (by apply log_text_nul_free). cbv zeta.
  destruct (Z.ltb_spec PIPE_BUF (zlen (log_text pid tv msg))); [| done].
  unfold PIPE_BUF, MAX_LOG_LINE in *. lia.
Qed.

(** ** Properties *)

(** What several processes write to the pipe, each line by one write: (pid, message). *)
Definition pipe_bytes (tv : timeval) (l : list (Z * list byte)) : list byte :=
  concat ((fun x => log_text x.1 tv x.2) <$> l).

(** A reader of the pipe gets the lines back, whichever processes wrote them. *)
Theorem min_lines tv l :
  Forall (fun x => texty x.2) l ->
  read_lines [] (pipe_bytes tv l) = ((fun x => log_body x.1 tv x.2) <$> l, []).
Proof.
  induction 1 as [| [pid msg] l Hm _ IH]; [done |]. unfold pipe_bytes in *. rewrite !fmap_cons. cbn [concat fst snd].
  rewrite log_text_body, <- app_assoc. cbn [app].
  rewrite read_lines_line by (by apply texty_lf_free, log_body_texty). by rewrite IH.
Qed.

Lemma min_lines_witness :
  read_lines [] (pipe_bytes (mk_tv 1 2) [(300, bs "fork_begin()"); (301, bs "fork() = 0"); (300, bs "fork() = 301")]) =
    ([bs "1|300|0000000001.000002|prog_name|fork_begin()"; bs "1|301|0000000001.000002|prog_name|fork() = 0";
      bs "1|300|0000000001.000002|prog_name|fork() = 301"], []).
Proof.
  apply (min_lines (mk_tv 1 2) [(300, bs "fork_begin()"); (301, bs "fork() = 0"); (300, bs "fork() = 301")]).
  repeat (apply List.Forall_cons; [repeat (apply List.Forall_cons; [split; discriminate |]); apply List.Forall_nil |]).
  apply List.Forall_nil.
Defined.

(** A line that does not fit loses its end: what follows on the pipe continues it. *)
Theorem min_long_line pid tv st msg :
  texty msg -> MAX_LOG_LINE <= zlen (log_text pid tv msg) ->
  exists outs, MLOG pid tv st msg = ([MWrite (pipefd st) outs], Ok tt) /\
    zlen outs = MAX_LOG_LINE - 1 /\ read_lines [] outs = ([], outs).
Proof.
  intros Hm Hl. set (outs := take (Z.to_nat MAX_LOG_LINE - 1) (log_text pid tv msg)).
  assert (zlen outs = MAX_LOG_LINE - 1) as Ho.
  { unfold outs, zlen, MAX_LOG_LINE in *. rewrite length_take. lia. }
  assert (texty outs) as Ht.
  { unfold outs. rewrite log_text_body, zlen_app in *. change (zlen [LF]) with 1 in Hl.
    rewrite take_app_le by (unfold zlen in *; lia). apply Forall_take. by apply log_body_texty. }
  exists outs. split_and!; [| done |].
  - unfold MLOG, snprintf. fold outs. rewrite cbytes_nul_free by (by apply texty_nul_free). cbv zeta.
    destruct (Z.ltb_spec PIPE_BUF (zlen outs)); [| done]. unfold PIPE_BUF, MAX_LOG_LINE in *. lia.
  - rewrite read_lines_none by (by apply texty_lf_free). done.
Qed.

Lemma min_long_line_witness :
  exists outs, MLOG 300 (mk_tv 1 2) (mk_min true 0 5 []) (replicate 1000 "x"%byte) = ([MWrite 5 outs], Ok tt) /\
    zlen outs = 1022 /\ read_lines [] outs = ([], outs).
Proof.
  apply (min_long_line 300 (mk_tv 1 2) (mk_min true 0 5 []) (replicate 1000 "x"%byte)).
  - apply Forall_replicate. split; discriminate.
  - vm_compute. congruence.
Defined.
