(* ===== verification/Exec.v ===== *)
(** src/src/trace/vfd.c: the start of the library, fork, exec, exit and threads, and
    ARG2ARGV of wrap.h.

    [lib] is the process-wide state these change.  The environment is as in Env.v;
    what the kernel answers is an argument.  The wrappers are modelled after the
    first call has run vfd_init (START_WRAP). *)
From S2P Require Import Prelude CInt CString Config Plugin Fcgi Getservice PpId Vbuf Vfd Env.

Record lib := mk_lib {
  l_fl : flags;
  l_env : env;
  mypid : Z;
  logfd : Z;
  prog_name : list byte;
  l_proc : proc
}.

Definition with_env (l : lib) (e : env) : lib :=
  mk_lib (l_fl l) e (mypid l) (logfd l) (prog_name l) (l_proc l).
Definition with_fl (l : lib) (fl : flags) : lib :=
  mk_lib fl (l_env l) (mypid l) (logfd l) (prog_name l) (l_proc l).
Definition with_pid (l : lib) (pid : Z) : lib :=
  mk_lib (l_fl l) (l_env l) pid (logfd l) (prog_name l) (l_proc l).
Definition with_prog (l : lib) (p : list byte) : lib :=
  mk_lib (l_fl l) (l_env l) (mypid l) (logfd l) p (l_proc l).
Definition with_proc (l : lib) (st : proc) : lib :=
  mk_lib (l_fl l) (l_env l) (mypid l) (logfd l) (prog_name l) st.
Definition with_logfd (l : lib) (fd : Z) : lib :=
  mk_lib (l_fl l) (l_env l) (mypid l) fd (prog_name l) (l_proc l).

Definition l_disabled (l : lib) : bool := negb (bb_disable_all (l_fl l) =? 0).
Definition l_debug (l : lib) : bool := negb (debug_events (l_fl l) =? 0).

Definition RELAY_ON : list byte := bs "/mnt/relay/pfdura/on".
Definition RELAY_OFF : list byte := bs "/mnt/relay/pfdura/off".
Definition O_RDWR : Z := 2.

(** pfdura(on, pid): [fd] and [rc] answer open and write. *)
Definition pfdura (on : bool) (pid fd rc : Z) : acts unit :=
  emit (AReal (bs "open") [O_RDWR] [if on then RELAY_ON else RELAY_OFF]) ;;;
  if fd <? 0 then ret tt else
  let tmp := fmt_d pid in
  emit (AReal (bs "write") [fd; zlen tmp] [tmp]) ;;;
  real (bs "close") [fd] ;;;
  if rc <? 0 then stop (Exit 1) else ret tt.

(** ** Start *)

Record boot := mk_boot {
  b_pid : Z;          (* getpid *)
  b_socket : Z;
  b_connect : Z;
  b_dup2 : Z;
  b_relay : Z;        (* open of the relay file *)
  b_relay_write : Z
}.

Section lib.
Context (TRACE_LIB : list byte) (stk : list byte).
(** inet_addr(3): the four bytes. *)
Context (inet_addr : list byte -> list byte).

Definition LOGD_IP : list byte := bs "127.0.0.1".
Definition SOCK_STREAM : Z := 1.

(** The address of the collector. *)
Definition logd_addr (e : env) : list byte :=
  let host_ip := default LOGD_IP (real_getenv (bs "LIBBTRACE_HOST") e) in
  let host_port := match real_getenv (bs "LIBBTRACE_PORT") e with Some p => atoi p | None => LOGD_PORT end in
  be_bytes 2 (host_port mod 65536) ++ inet_addr host_ip.

Definition logd_init (b : boot) (l : lib) : acts lib :=
  let! l :=
    (if negb (bb_disable_log (l_fl l) =? 0) || l_disabled l then ret (with_logfd l 79)
     else
       real (bs "socket") [AF_INET; SOCK_STREAM; 0] ;;;
       if b_socket b <? 0 then stop (Exit 1) else
       emit (AReal (bs "connect") [b_socket b; AF_INET] [logd_addr (l_env l)]) ;;;
       if b_connect b <? 0 then stop (Exit 1) else
       real (bs "dup2") [b_socket b; LOGD_FD] ;;;
       real (bs "close") [b_socket b] ;;;
       ret (with_logfd l (b_dup2 b))) in
  check (in_range (logfd l)) ;;;
  let st := l_proc l in
  emit (ACtx (mypid l) (logfd l)) ;;;
  ret (with_proc l (set_tracked st (tracked st ∖ {[logfd l]}))).

Definition fork_init (b : boot) (l : lib) : acts lib :=
  let l := with_pid l (b_pid b) in
  pfdura true (mypid l) (b_relay b) (b_relay_write b) ;;;
  emit (ACtx (mypid l) (logfd l)) ;;;
  ret l.

Definition set_debug (fl : flags) : flags :=
  mk_flags 1 (bb_disable_pp fl) (bb_disable_all fl) (bb_disable_log fl) (lock_rv fl).
Definition set_disable_pp (fl : flags) : flags :=
  mk_flags (debug_events fl) 1 (bb_disable_all fl) (bb_disable_log fl) (lock_rv fl).
Definition set_disable_all (fl : flags) : flags :=
  mk_flags (debug_events fl) (bb_disable_pp fl) 1 (bb_disable_log fl) (lock_rv fl).

Definition is_set (name : list byte) (e : env) : bool := if real_getenv name e is Some _ then true else false.

(** if we came from an exec(), check the env *)
Definition exec_ptid (l : lib) : acts lib :=
  match real_getenv (bs "BB_EXEC_PTID") (l_env l) with
  | None => ret l
  | Some ept =>
      lift (LOGBINli SYS_EXEC_CHILD 0 (strtoull10 ept) (mypid l)) ;;;
      ret (with_env l (real_unsetenv (bs "BB_EXEC_PTID") (l_env l)).2)
  end.
Definition exec_path (l : lib) : acts lib :=
  match real_getenv (bs "BB_EXEC_PATH") (l_env l) with
  | None => ret l
  | Some path =>
      let! d := lift (pp_id_exec (l_fl l) stk (path ++ [NUL])) in
      let st := l_proc l in
      ret (with_env (with_proc l (set_vfd st 0 (set_dispatcher (get_vfd st 0) d)))
        (real_unsetenv (bs "BB_EXEC_PATH") (l_env l)).2)
  end.

Definition vfd_init (b : boot) (l : lib) : acts lib :=
  let l := if is_set (bs "BB_DISABLE_ALL") (l_env l) then with_fl l (set_disable_all (l_fl l)) else l in
  let l := with_pid l (b_pid b) in
  let! l := logd_init b l in
  let! l := fork_init b l in
  let l := with_proc l (vfd_tab_init (l_proc l)) in
  let l := with_prog l (default (bs "__") (real_getenv (bs "TRACE_FN") (l_env l))) in
  let l := if is_set (bs "DEBUG_EVENTS") (l_env l) || is_set (bs "DEBUG_EV") (l_env l)
    then with_fl l (set_debug (l_fl l)) else l in
  let l := if is_set (bs "BB_DISABLE_PP") (l_env l) then with_fl l (set_disable_pp (l_fl l)) else l in
  let! l := exec_ptid l in
  exec_path l.

(** ** End *)

Definition flush_unless_disabled (l : lib) : acts unit :=
  if l_disabled l then ret tt else lift log_flush.

Definition exit_ (status relay relay_write : Z) (l : lib) : acts unit :=
  pfdura false (mypid l) relay relay_write ;;;
  (if l_debug l then lift (LOGBIN0 SYS_EXIT 0) else ret tt) ;;;
  flush_unless_disabled l ;;;
  real (bs "exit") [status] ;;;
  stop (Exit status).

Definition abort_ (l : lib) : acts unit :=
  flush_unless_disabled l ;;;
  real (bs "abort") [] ;;;
  stop AssertFail.

Definition vfd_shutdown (l : lib) : acts unit :=
  if l_disabled l then ret tt else
  lift (LOGBIN0 SYS_SHUTDOWN 0) ;;;
  lift log_flush ;;;
  real (bs "close") [logfd l].

(** ** fork *)

(** [tid] and [ppid] are the forking thread's ids; [b] answers in the child. *)
Definition fork (r tid ppid : Z) (b : boot) (l : lib) : acts (Z * lib) :=
  (if l_debug l && negb (l_disabled l) then lift (LOGBIN0 SYS_FORK_BEGIN 0) else ret tt) ;;;
  flush_unless_disabled l ;;;
  real (bs "fork") [] ;;;
  if negb (r =? 0) then
    (if l_debug l && negb (l_disabled l) then lift (LOGBIN0 SYS_FORK r) else ret tt) ;;;
    ret (r, l)
  else
    let! l := fork_init b l in
    (if l_disabled l then ret tt else lift (LOGBINli SYS_FORK r tid ppid)) ;;;
    ret (r, l).

(** ** exec *)

(** GNU basename(3): what follows the last slash. *)
Definition SLASH : byte := "/"%byte.
Fixpoint basename (path : list byte) : list byte :=
  match path with
  | [] => []
  | c :: path' => if byte_in SLASH path' then basename path' else if Byte.eqb c SLASH then path' else path
  end.

Definition setenv_carry (tid : Z) (path : list byte) (fl : flags) (e : env) : env :=
  let lib_path := lib_path TRACE_LIB e in
  let e := setenv (bs "BB_EXEC_PTID") (fmt_u tid) e in
  let e := setenv (bs "BB_EXEC_PATH") path e in
  let e := setenv (bs "TRACE_FN") (basename path) e in
  carry_flags fl (setenv (bs "LD_PRELOAD") lib_path e).

(** sprintf into one of execve's buffers. *)
Definition sprintf1024 (s : list byte) : acts (list byte) :=
  check (zlen s <? 1024) ;;; ret s.

(** The copy of envp into mod_envp from index [i] on; [room] is calloc's. *)
Fixpoint copy_envp (room i : Z) (envp : env) : acts (env * Z) :=
  check (i <? room) ;;;
  match envp with
  | [] => ret ([], i)
  | x :: envp' => let! (l, n) := copy_envp room (i + 1) envp' in ret (x :: l, n)
  end.

(** Where pn was meant, ldp is stored a second time. *)
Definition mod_envp (tid : Z) (filename : list byte) (envp : env) (l : lib) : acts (env * Z) :=
  let room := zlen envp + 10 in
  let! ldp := sprintf1024 (assign (bs "LD_PRELOAD") (lib_path TRACE_LIB (l_env l))) in
  let! pn := sprintf1024 (assign (bs "TRACE_FN") (basename filename)) in
  let! ept := sprintf1024 (assign (bs "BB_EXEC_PTID") (fmt_u tid)) in
  let! pa := sprintf1024 (assign (bs "BB_EXEC_PATH") filename) in
  let mine := [ldp; ldp; ept; pa] ++
    (if bb_disable_pp (l_fl l) =? 0 then [] else [bs "BB_DISABLE_PP=yes"]) ++
    (if bb_disable_all (l_fl l) =? 0 then [] else [bs "BB_DISABLE_ALL=yes"]) in
  check (zlen mine <=? room) ;;;
  let! (rest, n) := copy_envp room (zlen mine) envp in
  ret (mine ++ rest, n).

Definition execve (tid : Z) (filename : list byte) (argv envp : list (list byte)) (r : Z) (l : lib) :
    acts (Z * env) :=
  let! (menv, i) := mod_envp tid filename envp l in
  lift (LOGBINis SYS_EXEC 0 i filename) ;;;
  flush_unless_disabled l ;;;
  emit (AReal (bs "execve") [zlen argv] (filename :: argv ++ menv)) ;;;
  ret (r, menv).

(** What execv, execvp, execl, execlp and execle have in common. *)
Definition exec_carry (sc : syscall) (name : list byte) (tid : Z) (path : list byte)
    (argv : list (list byte)) (r : Z) (l : lib) : acts (Z * lib) :=
  let l := with_env l (setenv_carry tid path (l_fl l) (l_env l)) in
  (if l_debug l then lift (LOGBINs sc 0 path) else ret tt) ;;;
  flush_unless_disabled l ;;;
  emit (AReal name [zlen argv] (path :: argv)) ;;;
  ret (r, l).

Definition execv := exec_carry SYS_EXECV (bs "execv").
Definition execvp := exec_carry SYS_EXECVP (bs "execvp").

(** *** ARG2ARGV *)

Definition INITIAL_ARGV_MAX : Z := 1024.

(** The while loop at argv[i] = [cur]: [args] are the arguments va_arg still has,
    [argv] the array up to and with index [i], of [max] entries; [more n] says whether
    realloc to [n] entries succeeds.  [None] is the NULL that ends the list, and the
    result when realloc fails. *)
Fixpoint arg2argv_loop (more : Z -> bool) (args : list (option (list byte))) (cur : option (list byte))
    (argv : list (option (list byte))) (max : Z) : acts (option (list (option (list byte)))) :=
  match cur with
  | None => ret (Some argv)
  | Some _ =>
      let i := zlen argv in
      if (i =? max) && negb (more (2 * max)) then ret None else
      let max := if i =? max then 2 * max else max in
      match args with
      | [] => stop Undef
      | a :: args' => check (i <? max) ;;; arg2argv_loop more args' a (argv ++ [a]) max
      end
  end.
Definition ARG2ARGV (more : Z -> bool) (arg : option (list byte)) (args : list (option (list byte))) :
    acts (option (list (option (list byte)))) :=
  arg2argv_loop more args arg [arg] INITIAL_ARGV_MAX.

Definition exec_args (sc : syscall) (name : list byte) (more : Z -> bool) (tid : Z) (path : list byte)
    (arg : option (list byte)) (args : list (option (list byte))) (r : Z) (l : lib) : acts (Z * lib) :=
  let! argv := ARG2ARGV more arg args in
  match argv with
  | None => ret (-1, l)
  | Some argv => exec_carry sc name tid path (omap id argv) r l
  end.

Definition execl := exec_args SYS_EXECL (bs "execv").
Definition execlp := exec_args SYS_EXECLP (bs "execvp").
(** The environment that follows the NULL is not looked at. *)
Definition execle := exec_args SYS_EXECLE (bs "execv").

(** ** Threads *)

(** [body] is the program's start_routine. *)
Definition start_routine_wrapper (b : boot) (body : acts Z) (l : lib) : acts (Z * lib) :=
  let! l := logd_init b l in
  (if l_disabled l then ret tt else lift (LOGBIN0 SYS_PTH_CREATE_CHILD 0)) ;;;
  let! res := body in
  flush_unless_disabled l ;;;
  ret (res, l).

Definition pthread_create (thread r : Z) (l : lib) : acts Z :=
  (if l_disabled l then ret tt else lift (LOGBIN0 SYS_PTH_CREATE_BEGIN 0)) ;;;
  real (bs "pthread_create") [] ;;;
  (if l_disabled l then ret tt else lift (LOGBINli SYS_PTH_CREATE_PARENT 0 thread 0)) ;;;
  ret r.

(** With everything disabled the wrapper calls itself; [fuel] bounds the calls. *)
Fixpoint pthread_atfork (fuel : nat) (l : lib) : acts Z :=
  if l_disabled l then
    match fuel with O => stop Pending | S fuel' => pthread_atfork fuel' l end
  else stop (Exit 1).
End lib.

(** ** What a program hands on *)

Ltac eqf := solve [reflexivity | discriminate].

Section handed.
Context (TRACE_LIB : list byte).

Lemma carry_get n tid path fl e :
  eq_free n -> n <> bs "BB_DISABLE_PP" -> n <> bs "BB_DISABLE_LOG" -> n <> bs "BB_DISABLE_ALL" ->
  real_getenv n (setenv_carry TRACE_LIB tid path fl e) =
  real_getenv n (setenv (bs "LD_PRELOAD") (lib_path TRACE_LIB e)
    (setenv (bs "TRACE_FN") (basename path) (setenv (bs "BB_EXEC_PATH") path
      (setenv (bs "BB_EXEC_PTID") (fmt_u tid) e)))).
Proof. intros. unfold setenv_carry. by rewrite getenv_carry_flags. Qed.

Lemma copy_envp_ok room i envp w e n :
  copy_envp room i envp = (w, Ok (e, n)) -> w = [] /\ e = envp /\ n = i + zlen envp.
Proof.
  revert i w e n; induction envp as [| x envp IH]; intros i w e n H; cbn [copy_envp] in H.
  - inv_run. simplify_eq. split_and!; [done | done | rewrite zlen_nil; lia].
  - inv_runs. simplify_eq.
    match goal with H : copy_envp _ _ _ = _ |- _ => apply IH in H as (-> & -> & ->) end.
    split_and!; [done | done | zl].
Qed.

Lemma copy_envp_returns room i envp : i + zlen envp < room -> returns (copy_envp room i envp).
Proof.
  revert i; induction envp as [| x envp IH]; intros i H; cbn [copy_envp].
  - rewrite check_true by (apply Z.ltb_lt; zl). rewrite bind_ret_l. apply returns_ret.
  - pose proof (zlen_nonneg envp). rewrite zlen_cons in H.
    rewrite check_true by (apply Z.ltb_lt; lia). rewrite bind_ret_l.
    apply returns_bind; [apply IH; lia | intros w [l n] _; apply returns_ret].
Qed.

(** The environment execve builds. *)
Definition handed (tid : Z) (filename : list byte) (envp : env) (l : lib) : env :=
  let ldp := assign (bs "LD_PRELOAD") (lib_path TRACE_LIB (l_env l)) in
  [ldp; ldp; assign (bs "BB_EXEC_PTID") (fmt_u tid); assign (bs "BB_EXEC_PATH") filename] ++
  (if bb_disable_pp (l_fl l) =? 0 then [] else [bs "BB_DISABLE_PP=yes"]) ++
  (if bb_disable_all (l_fl l) =? 0 then [] else [bs "BB_DISABLE_ALL=yes"]) ++ envp.

Lemma mod_envp_ok tid filename envp l w e n :
  mod_envp TRACE_LIB tid filename envp l = (w, Ok (e, n)) -> e = handed tid filename envp l /\ n = zlen e.
Proof.
  unfold mod_envp, sprintf1024. intros H. inv_runs. simplify_eq.
  match goal with H : copy_envp _ _ _ = _ |- _ => apply copy_envp_ok in H as (_ & -> & ->) end.
  unfold handed. rewrite <- !app_assoc. split; [done |]. by rewrite !zlen_app, <- !Z.add_assoc.
Qed.

(** Its buffers are large enough for names of less than 1000 bytes, and mod_envp
    always is. *)
Lemma mod_envp_returns tid filename envp l :
  zlen filename < 1000 -> zlen (lib_path TRACE_LIB (l_env l)) < 1000 ->
  returns (mod_envp TRACE_LIB tid filename envp l).
Proof.
  intros Hf Hl. assert (zlen (basename filename) <= zlen filename) as Hb.
  { clear. induction filename as [| c f IH]; [done |]. cbn [basename].
    repeat case_match; rewrite ?zlen_cons; lia. }
  pose proof (zlen_fmt_u tid). unfold mod_envp, sprintf1024.
  rewrite !check_true, !bind_ret_l; try (apply Z.ltb_lt; unfold assign; rewrite zlen_app, zlen_cons;
    match goal with |- context [zlen (bs ?s)] => let n := eval vm_compute in (zlen (bs s)) in
      change (zlen (bs s)) with n end; lia).
  set (mine := _ ++ _). assert (zlen mine <= 6) as Hm.
  { unfold mine. rewrite !zlen_app. destruct (bb_disable_pp (l_fl l) =? 0), (bb_disable_all (l_fl l) =? 0);
      vm_compute; congruence. }
  pose proof (zlen_nonneg envp).
  rewrite check_true, bind_ret_l by (apply Z.leb_le; lia).
  apply returns_bind; [apply copy_envp_returns; lia | intros w [rest n] _; apply returns_ret].
Qed.

(** The environment a new program starts with, and how it is made. *)
Definition hands_on (tid : Z) (path : list byte) (l : lib) (e : env) : Prop :=
  (exists sc name argv r w l1, exec_carry TRACE_LIB sc name tid path argv r l = (w, Ok (r, l1)) /\ e = l_env l1) \/
  (exists argv envp r w, execve TRACE_LIB tid path argv envp r l = (w, Ok (r, e))).
Definition made_env (tid : Z) (path : list byte) (l : lib) (e : env) : Prop :=
  e = setenv_carry TRACE_LIB tid path (l_fl l) (l_env l) \/
  (exists envp w n, mod_envp TRACE_LIB tid path envp l = (w, Ok (e, n))).

Lemma hands_on_made tid path l e : hands_on tid path l e -> made_env tid path l e.
Proof.
  intros [(sc & name & argv & r & w & l1 & H & ->) | (argv & envp & r & w & H)].
  - left. unfold exec_carry in H. cbv zeta in H. inv_run. by simplify_eq.
  - right. unfold execve in H. inv_runs. simplify_eq. eauto.
Qed.

Lemma handed_get n tid path envp l :
  eq_free n -> n <> bs "BB_DISABLE_PP" -> n <> bs "BB_DISABLE_ALL" -> n <> bs "LD_PRELOAD" ->
  n <> bs "BB_EXEC_PTID" -> n <> bs "BB_EXEC_PATH" ->
  real_getenv n (handed tid path envp l) = real_getenv n envp.
Proof.
  intros Hn H1 H2 H3 H4 H5. unfold handed.
  change (bs "BB_DISABLE_PP=yes") with (assign (bs "BB_DISABLE_PP") (bs "yes")).
  change (bs "BB_DISABLE_ALL=yes") with (assign (bs "BB_DISABLE_ALL") (bs "yes")).
  destruct (bb_disable_pp (l_fl l) =? 0), (bb_disable_all (l_fl l) =? 0); cbn [app real_getenv];
    rewrite !env_value_other by done; done.
Qed.

Lemma made_env_ptid tid path l e :
  made_env tid path l e -> real_getenv (bs "BB_EXEC_PTID") e = Some (fmt_u tid).
Proof.
  intros [-> | (envp & w & n & H)].
  - rewrite carry_get by done. by rewrite !getenv_setenv_other, getenv_setenv by done.
  - apply mod_envp_ok in H as [-> _]. unfold handed. cbn [app real_getenv].
    rewrite !(env_value_other (bs "BB_EXEC_PTID") (bs "LD_PRELOAD")) by done.
    by rewrite env_value_assign.
Qed.

Lemma made_env_path tid path l e :
  made_env tid path l e -> real_getenv (bs "BB_EXEC_PATH") e = Some path.
Proof.
  intros [-> | (envp & w & n & H)].
  - rewrite carry_get by done. by rewrite !getenv_setenv_other, getenv_setenv by done.
  - apply mod_envp_ok in H as [-> _]. unfold handed. cbn [app real_getenv].
    rewrite !(env_value_other (bs "BB_EXEC_PATH") (bs "LD_PRELOAD")) by done.
    rewrite !(env_value_other (bs "BB_EXEC_PATH") (bs "BB_EXEC_PTID")) by done.
    by rewrite env_value_assign.
Qed.

Lemma made_env_preload tid path l e :
  made_env tid path l e -> real_getenv (bs "LD_PRELOAD") e = Some (lib_path TRACE_LIB (l_env l)).
Proof.
  intros [-> | (envp & w & n & H)].
  - rewrite carry_get by done. by rewrite getenv_setenv.
  - apply mod_envp_ok in H as [-> _]. unfold handed. cbn [app real_getenv]. by rewrite env_value_assign.
Qed.
End handed.

(** strstr on a terminated string finds an answer. *)
Lemma c_prefix_total s needle :
  nul_free needle -> exists x, c_prefix needle (s ++ [NUL]) = Some x.
Proof.
  revert s; induction needle as [| c n IH]; intros s Hn; [by eexists |].
  apply List.Forall_cons_iff in Hn as [Hc Hn].
  destruct s as [| b s]; cbn.
  - destruct (Byte.eqb c NUL) eqn:E; [| by eexists]. by apply Byte.byte_dec_bl in E.
  - destruct (Byte.eqb c b); [by apply IH | by eexists].
Qed.

Lemma strstr_total s needle :
  nul_free needle -> exists o, strstr (s ++ [NUL]) needle = Some o.
Proof.
  intros Hn. induction s as [| b s [o IH]]; cbn [strstr app].
  - destruct (c_prefix_total [] needle Hn) as [x Hx]. cbn [app] in Hx. rewrite Hx. destruct x; [by eexists |]. cbn. by eexists.
  - destruct (c_prefix_total (b :: s) needle Hn) as [y Hy]. cbn [app] in Hy. rewrite Hy.
    destruct y; [by eexists |]. destruct (Byte.eqb b NUL); [by eexists |].
    rewrite IH. by eexists.
Qed.

Section started.
Context (TRACE_LIB : list byte) (stk : list byte) (inet_addr : list byte -> list byte).

(** The kernel lets the library start: it reaches the collector, and its descriptor
    is moved to LOGD_FD. *)
Definition boots (b : boot) : Prop :=
  0 <= b_socket b /\ 0 <= b_connect b /\ b_dup2 b = LOGD_FD /\
  (b_relay b < 0 \/ 0 <= b_relay_write b).

Lemma pfdura_ok on pid fd rc :
  fd < 0 \/ 0 <= rc -> exists w, pfdura on pid fd rc = (w, Ok tt) /\ log_of w = [].
Proof.
  intros H. unfold pfdura. destruct (Z.ltb_spec fd 0); [by eexists |].
  destruct (Z.ltb_spec rc 0); [lia | by eexists].
Qed.

Lemma logd_init_ok b l :
  boots b -> exists w, logd_init inet_addr b l =
    (w, Ok (with_proc (with_logfd l 79) (set_tracked (l_proc l) (tracked (l_proc l) ∖ {[79]})))) /\
    log_of w = [].
Proof.
  intros (Hs & Hc & Hd & _). unfold logd_init.
  destruct (negb (bb_disable_log (l_fl l) =? 0) || l_disabled l); [by eexists |].
  destruct (Z.ltb_spec (b_socket b) 0); [lia |]. destruct (Z.ltb_spec (b_connect b) 0); [lia |].
  rewrite Hd. by eexists.
Qed.

Lemma fork_init_ok b l :
  boots b -> exists w, fork_init b l = (w, Ok (with_pid l (b_pid b))) /\ log_of w = [].
Proof.
  intros (_ & _ & _ & Hr). unfold fork_init.
  destruct (pfdura_ok true (mypid (with_pid l (b_pid b))) _ _ Hr) as (w & -> & Hw).
  eexists. split; [reflexivity |]. rewrite log_of_app, Hw. done.
Qed.

Lemma exec_path_ok l path :
  real_getenv (bs "BB_EXEC_PATH") (l_env l) = Some path ->
  exists w l', exec_path stk l = (w, Ok l') /\ l_env l' = (real_unsetenv (bs "BB_EXEC_PATH") (l_env l)).2 /\
    prog_name l' = prog_name l /\ (log_of w = [] \/ log_of w = [LLog (mk_event SYS_PP_ID 0 [] (Some (bs "fcgis")))]).
Proof.
  intros Hp. unfold exec_path. rewrite Hp. unfold pp_id_exec.
  destruct (negb (bb_disable_pp (l_fl l) =? 0)).
  { do 2 eexists. split; [reflexivity |]. split; [done |]. split; [done | by left]. }
  destruct (strstr_total path (bs ".fcgi")) as [[n |] ->]; [by repeat constructor | |].
  - do 2 eexists. split; [reflexivity |]. split; [done |]. split; [done | by right].
  - do 2 eexists. split; [reflexivity |]. split; [done |]. split; [done | by left].
Qed.

(** The start of a program, up to what exec handed on. *)
Lemma vfd_init_start b l : boots b ->
  exists w l1, vfd_init stk inet_addr b l =
    (let '(w2, o) := (let! l := exec_ptid l1 in exec_path stk l) in (w ++ w2, o)) /\
    log_of w = [] /\ l_env l1 = l_env l /\ mypid l1 = b_pid b /\
    prog_name l1 = default (bs "__") (real_getenv (bs "TRACE_FN") (l_env l)).
Proof.
  intros Hb. unfold vfd_init. cbv zeta.
  set (l0 := with_pid _ (b_pid b)). assert (l_env l0 = l_env l) as He.
  { unfold l0. by destruct (is_set (bs "BB_DISABLE_ALL") (l_env l)). }
  destruct (logd_init_ok b l0 Hb) as (w1 & -> & Hw1). cbn [bind].
  set (la := with_proc (with_logfd l0 79) _).
  destruct (fork_init_ok b la Hb) as (w2 & -> & Hw2). cbn [bind].
  set (lb := with_pid la (b_pid b)). assert (l_env lb = l_env l) as He2 by exact He.
  set (lc := with_prog _ _). assert (l_env lc = l_env l /\ mypid lc = b_pid b /\
    prog_name lc = default (bs "__") (real_getenv (bs "TRACE_FN") (l_env l))) as (He3 & Hp3 & Hn3).
  { unfold lc. cbn [l_env with_proc with_prog mypid prog_name]. rewrite He2. done. }
  set (ld := if is_set (bs "DEBUG_EVENTS") (l_env lc) || is_set (bs "DEBUG_EV") (l_env lc) then _ else lc).
  assert (l_env ld = l_env l /\ mypid ld = b_pid b /\
    prog_name ld = default (bs "__") (real_getenv (bs "TRACE_FN") (l_env l))) as (He4 & Hp4 & Hn4)
    by (unfold ld; by destruct (_ || _)).
  set (lf := if is_set (bs "BB_DISABLE_PP") (l_env ld) then _ else ld).
  exists (w1 ++ w2), lf. split.
  - destruct (let! l := exec_ptid lf in exec_path stk l) as [w3 o]. by rewrite <- app_assoc.
  - rewrite log_of_app, Hw1, Hw2. split; [done |].
    unfold lf. by destruct (is_set (bs "BB_DISABLE_PP") (l_env ld)).
Qed.
End started.

(** ** ARG2ARGV and what surrounds the real calls *)

Lemma arg2argv_loop_ok more xs junk cur argv max :
  (forall n, more n = true) -> 0 < zlen argv <= max ->
  arg2argv_loop more ((Some <$> xs) ++ None :: junk) (Some cur) argv max =
    ret (Some (argv ++ (Some <$> xs) ++ [None])).
Proof.
  intros Hm. revert cur argv max; induction xs as [| x xs IH]; intros cur argv max Hl;
    cbn [fmap list_fmap app arg2argv_loop]; rewrite Hm, andb_false_r;
    (rewrite check_true by (apply Z.ltb_lt; case_z; lia)); rewrite bind_ret_l.
  - by destruct junk.
  - rewrite IH; [| destruct (Z.eqb_spec (zlen argv) max); zl]. by rewrite <- app_assoc.
Qed.

Lemma ARG2ARGV_ok more a xs junk :
  (forall n, more n = true) ->
  ARG2ARGV more (Some a) ((Some <$> xs) ++ None :: junk) = ret (Some ((Some <$> a :: xs) ++ [None])).
Proof.
  intros Hm. unfold ARG2ARGV. rewrite arg2argv_loop_ok; [done | done |].
  unfold INITIAL_ARGV_MAX. zl.
Qed.

Lemma omap_argv (xs : list (list byte)) : omap id ((Some <$> xs) ++ [None]) = xs.
Proof. induction xs as [| x xs IH]; [done |]. cbn. by f_equal. Qed.

Lemma flush_enabled l : l_disabled l = false -> flush_unless_disabled l = ([ALog LFlush], Ok tt).
Proof. intros H. unfold flush_unless_disabled. by rewrite H. Qed.

(** A log call or nothing. *)
Lemma maybe_log (b : bool) (m : logged unit) (o : log_op) : m = emit o ->
  exists w, (if b then lift m else ret tt) = (w, Ok tt) /\ reals w = [].
Proof. intros ->. destruct b; by eexists. Qed.

Lemma maybe_log' (b : bool) (m : logged unit) (o : log_op) : m = emit o ->
  exists w, (if b then ret tt else lift m) = (w, Ok tt) /\ reals w = [].
Proof. intros ->. destruct b; by eexists. Qed.

Lemma pfdura_log on pid fd rc w o : pfdura on pid fd rc = (w, o) -> log_of w = [].
Proof.
  unfold pfdura. destruct (fd <? 0); [by intros [= <- <-] |].
  destruct (rc <? 0); by intros [= <- <-].
Qed.

Lemma pthread_atfork_never_returns fuel l : ~ returns (pthread_atfork fuel l).
Proof.
  intros (w & r & H). revert w H; induction fuel as [| f IH]; intros w H; cbn [pthread_atfork] in H;
    destruct (l_disabled l); try discriminate. by eapply IH.
Qed.

Lemma fork_init_inv b l w l' : fork_init b l = (w, Ok l') ->
  exists rs, w = rs ++ [ACtx (b_pid b) (logfd l)] /\ log_of rs = [] /\ l' = with_pid l (b_pid b).
Proof.
  unfold fork_init. intros H. inv_run.
  match goal with H : pfdura _ _ _ _ = (?rs, _) |- _ => exists rs; apply pfdura_log in H end. done.
Qed.

Lemma fork_flushes r tid ppid b l w rv l' :
  l_disabled l = false -> fork r tid ppid b l = (w, Ok (rv, l')) ->
  exists a z, w = a ++ [ALog LFlush; AReal (bs "fork") [] []] ++ z /\ reals a = [] /\
    (r = 0 -> exists rs o, z = rs ++ [ACtx (b_pid b) (logfd l)] ++ o /\ log_of rs = [] /\ reals o = []).
Proof.
  intros Hon H. unfold fork in H.
  destruct (maybe_log (l_debug l && negb (l_disabled l)) (LOGBIN0 SYS_FORK_BEGIN 0) _ eq_refl)
    as (a & Ea & Ha).
  rewrite Ea, (flush_enabled l Hon) in H. cbn [bind real emit] in H. exists a.
  match type of H with context [if ?b then ?x else ?y] => set (m := if b then x else y) in H end.
  destruct m as [z o] eqn:Em. cbn in H. injection H as <- ->. exists z. split; [done |].
  split; [done |]. intros ->. unfold m in Em. change (negb (0 =? 0)) with false in Em. cbn iota in Em.
  apply bind_inv in Em as (l1 & w1 & w2 & Hf & Hk & ->).
  apply fork_init_inv in Hf as (rs & -> & Hrs & ->).
  destruct (maybe_log' (l_disabled (with_pid l (b_pid b))) (LOGBINli SYS_FORK 0 tid ppid) _ (LOGBINli_emit _ _ _ _))
    as (w3 & E3 & Hw3).
  rewrite E3 in Hk. cbn [bind ret] in Hk. injection Hk as <- <- <-.
  exists rs, (w3 ++ []). rewrite <- app_assoc, app_nil_r. done.
Qed.

Lemma exec_carry_flushes TRACE_LIB sc name tid path argv r l :
  l_disabled l = false -> (l_debug l = true -> zlen path <= 4064) -> exists a l', exec_carry TRACE_LIB sc name tid path argv r l =
    (a ++ [ALog LFlush; AReal name [zlen argv] (path :: argv)], Ok (r, l')) /\ reals a = [].
Proof.
  intros Hon Hz. unfold exec_carry. set (l1 := with_env l _).
  assert (exists a, (if l_debug l1 then lift (LOGBINs sc 0 path) else ret tt) = (a, Ok tt) /\ reals a = []) as (a & -> & Ha).
  { change (l_debug l1) with (l_debug l). destruct (l_debug l); [| by exists []].
    apply (maybe_log true _ (LLog (mk_event sc 0 [] (Some path)))), LOGBINs_short. auto. }
  rewrite (flush_enabled l1 Hon). exists a, l1. by split.
Qed.

Lemma execve_flushes TRACE_LIB tid path argv envp r l :
  l_disabled l = false -> zlen path < 1000 -> zlen (lib_path TRACE_LIB (l_env l)) < 1000 ->
  exists a args strs e, execve TRACE_LIB tid path argv envp r l =
    (a ++ [ALog LFlush; AReal (bs "execve") args strs], Ok (r, e)) /\ reals a = [].
Proof.
  intros Hon Hp Hl. destruct (mod_envp_returns TRACE_LIB tid path envp l Hp Hl) as (w & [e n] & E).
  unfold execve. rewrite E, (flush_enabled l Hon). cbn [bind]. rewrite LOGBINis_short by lia. exists (w ++ [ALog (LLog (mk_event SYS_EXEC 0 [n] (Some path)))]).
  do 3 eexists. split; [cbn [bind lift emit fst snd fmap list_fmap ret]; by rewrite <- app_assoc |].
  rewrite reals_app. assert (w = []) as ->; [| done].
  unfold mod_envp, sprintf1024 in E. inv_runs.
  match goal with H : copy_envp _ _ _ = _ |- _ => by apply copy_envp_ok in H as (-> & _) end.
Qed.

(** ** Properties *)

(** C15: An executed program knows the thread that executed it.  Whichever exec
    function a traced thread calls ([hands_on]: execve, or what execv, execvp, execl,
    execlp and execle have in common), and whatever is already in the environment it
    uses, the environment handed on carries the thread's id (below 2^64) and the path.
    When the new program's library starts, the kernel letting it ([boots]), the first
    thing it logs is that id with its own pid, and it takes both marks out of the
    environment again, so that they are never attributed to a later exec.  The preloaded
    library stays. *)
Theorem exec_child_linked TRACE_LIB stk inet_addr tid path l e b l0 :
  hands_on TRACE_LIB tid path l e -> is_u 64 tid -> boots b -> l_env l0 = e ->
  real_getenv (bs "BB_EXEC_PTID") e = Some (fmt_u tid) /\ real_getenv (bs "BB_EXEC_PATH") e = Some path /\
  exists w l' rest, vfd_init stk inet_addr b l0 = (w, Ok l') /\
    log_of w = LLog (mk_event SYS_EXEC_CHILD 0 [b_pid b] (Some (fmt_u tid))) :: rest /\
    (rest = [] \/ rest = [LLog (mk_event SYS_PP_ID 0 [] (Some (bs "fcgis")))]) /\
    real_getenv (bs "BB_EXEC_PTID") (l_env l') = None /\
    real_getenv (bs "BB_EXEC_PATH") (l_env l') = None /\
    real_getenv (bs "LD_PRELOAD") (l_env l') = Some (lib_path TRACE_LIB (l_env l)).
Proof.
  intros He%hands_on_made Ht Hb El. split; [by eapply made_env_ptid |]. split; [by eapply made_env_path |].
  destruct (vfd_init_start stk inet_addr b l0 Hb) as (w & l1 & -> & Hw & He1 & Hp1 & _).
  unfold exec_ptid. rewrite He1, El, (made_env_ptid _ _ _ _ _ He).
  rewrite strtoull10_fmt_u by (unfold is_u in Ht; lia).
  set (l2 := with_env l1 _).
  assert (real_getenv (bs "BB_EXEC_PATH") (l_env l2) = Some path) as Hp2.
  { unfold l2. cbn [l_env with_env]. rewrite getenv_unsetenv_other by done. by eapply made_env_path. }
  destruct (exec_path_ok stk l2 path Hp2) as (w2 & l' & E & El' & _ & Hlog).
  rewrite LOGBINli_emit, u64_small by (unfold is_u in Ht; lia).
  cbn [bind ret emit lift fst snd fmap list_fmap]. rewrite E. cbn [bind].
  do 3 eexists. split; [reflexivity |]. rewrite El'. split_and!.
  - rewrite log_of_app, Hw, Hp1. cbn. reflexivity.
  - destruct Hlog as [Hl | Hl]; [left | right]; exact Hl.
  - rewrite getenv_unsetenv_other by done. by apply getenv_unsetenv.
  - by apply getenv_unsetenv.
  - rewrite getenv_unsetenv_other by done. unfold l2. cbn [l_env with_env].
    rewrite getenv_unsetenv_other by done. by eapply made_env_preload.
Qed.

Definition demo_lib : lib := mk_lib (mk_flags 0 0 0 0 0)
  [bs "PATH=/bin"; bs "BB_EXEC_PTID=42"] 100 79 (bs "sh") (vfd_tab_init (mk_proc ∅ ∅ ∅ ∅ ∅ serv_init)).
Definition demo_boot : boot := mk_boot 200 5 0 79 (-1) 0.

Lemma demo_boots : boots demo_boot.
Proof. split; [| split; [| split]]; [vm_compute; congruence.. | reflexivity | left; reflexivity]. Qed.

(** A stale mark of thread 42 does not matter. *)
Lemma exec_child_linked_witness :
  exists w l' rest,
    vfd_init [] (fun _ => [NUL; NUL; NUL; NUL]) demo_boot
      (with_env demo_lib (setenv_carry (bs "/lib/t.so") 7 (bs "/bin/ls") (l_fl demo_lib) (l_env demo_lib))) =
      (w, Ok l') /\
    log_of w = LLog (mk_event SYS_EXEC_CHILD 0 [200] (Some (bs "7"))) :: rest.
Proof.
  destruct (exec_child_linked (bs "/lib/t.so") [] (fun _ => [NUL; NUL; NUL; NUL]) 7 (bs "/bin/ls") demo_lib
    (setenv_carry (bs "/lib/t.so") 7 (bs "/bin/ls") (l_fl demo_lib) (l_env demo_lib)) demo_boot
    (with_env demo_lib (setenv_carry (bs "/lib/t.so") 7 (bs "/bin/ls") (l_fl demo_lib) (l_env demo_lib))))
    as (_ & _ & w & l' & rest & E & Hlog & _).
  - left. exists SYS_EXECV, (bs "execv"), [bs "ls"], (-1). do 2 eexists. split; [vm_compute; reflexivity |].
    vm_compute. reflexivity.
  - split; vm_compute; congruence.
  - exact demo_boots.
  - reflexivity.
  - exists w, l', rest. split; [exact E | exact Hlog].
Defined.

(** A program run through execve loses its name.  The wrapper formats
    TRACE_FN=<basename> but stores the LD_PRELOAD string a second time in its place:
    the new program takes its name from the caller's environment (its parent's name,
    or "__"), where the other exec functions give it the executed file's. *)
Theorem exec_program_name TRACE_LIB stk inet_addr tid path envp l w e n b l0 :
  mod_envp TRACE_LIB tid path envp l = (w, Ok (e, n)) -> boots b -> l_env l0 = e ->
  (exists w' l', vfd_init stk inet_addr b l0 = (w', Ok l') /\
     prog_name l' = default (bs "__") (real_getenv (bs "TRACE_FN") envp)) /\
  real_getenv (bs "TRACE_FN") (setenv_carry TRACE_LIB tid path (l_fl l) (l_env l)) = Some (basename path).
Proof.
  intros Hm Hb El. split.
  - destruct (vfd_init_start stk inet_addr b l0 Hb) as (w1 & l1 & -> & _ & He1 & _ & Hn1).
    assert (made_env TRACE_LIB tid path l e) as Ho by (right; eauto).
    unfold exec_ptid. rewrite He1, El, (made_env_ptid _ _ _ _ _ Ho), LOGBINli_emit.
    set (l2 := with_env l1 _).
    assert (real_getenv (bs "BB_EXEC_PATH") (l_env l2) = Some path) as Hp2.
    { unfold l2. cbn [l_env with_env]. rewrite getenv_unsetenv_other by done. by eapply made_env_path. }
    destruct (exec_path_ok stk l2 path Hp2) as (w2 & l' & E & _ & Hn & _).
    cbn [bind ret emit lift fst snd fmap list_fmap]. rewrite E. cbn [bind].
    do 2 eexists. split; [reflexivity |]. rewrite Hn. unfold l2. cbn [prog_name with_env].
    rewrite Hn1, El. apply mod_envp_ok in Hm as [-> _]. by rewrite handed_get.
  - rewrite carry_get by done. by rewrite getenv_setenv_other, getenv_setenv by done.
Qed.

Lemma exec_program_name_witness :
  exists w e n w' l',
    mod_envp (bs "/lib/t.so") 7 (bs "/bin/ls") [bs "TRACE_FN=sh"] demo_lib = (w, Ok (e, n)) /\
    vfd_init [] (fun _ => [NUL; NUL; NUL; NUL]) demo_boot (with_env demo_lib e) = (w', Ok l') /\
    prog_name l' = bs "sh".
Proof.
  destruct (mod_envp_returns (bs "/lib/t.so") 7 (bs "/bin/ls") [bs "TRACE_FN=sh"] demo_lib)
    as (w & [e n] & E); [reflexivity | reflexivity |].
  destruct (exec_program_name (bs "/lib/t.so") [] (fun _ => [NUL; NUL; NUL; NUL]) 7 (bs "/bin/ls")
    [bs "TRACE_FN=sh"] demo_lib w e n demo_boot (with_env demo_lib e) E demo_boots eq_refl)
    as [(w' & l' & E' & Hn) _].
  exists w, e, n, w', l'. split; [exact E |]. split; [exact E' | exact Hn].
Defined.

(** C24: Nothing the calling thread has logged is lost or written twice around fork and
    exec.  Unless the library is switched off, the last thing the thread does before the
    real fork, and before every real exec, is to flush its records; a forked child logs
    only after it has been given an empty buffer of its own; a program that is not
    replaced logs nothing more on this path.  For execve this is stated of paths, and of
    paths of the library, of less than 1000 bytes, which fit the buffers it formats them
    in; for the other exec functions, with the library's debugging on, of paths of at
    most 4064 bytes, which fit a record.  The records of the process's other threads are
    not flushed. *)
Theorem records_flushed TRACE_LIB l : l_disabled l = false ->
  (forall r tid ppid b w rv l', fork r tid ppid b l = (w, Ok (rv, l')) ->
     exists a z, w = a ++ [ALog LFlush; AReal (bs "fork") [] []] ++ z /\ reals a = [] /\
       (r = 0 -> exists rs o, z = rs ++ [ACtx (b_pid b) (logfd l)] ++ o /\ log_of rs = [] /\ reals o = [])) /\
  (forall tid path argv envp r, zlen path < 1000 -> zlen (lib_path TRACE_LIB (l_env l)) < 1000 ->
     exists a args strs e, execve TRACE_LIB tid path argv envp r l =
       (a ++ [ALog LFlush; AReal (bs "execve") args strs], Ok (r, e)) /\ reals a = []) /\
  (forall sc name tid path argv r, (l_debug l = true -> zlen path <= 4064) ->
     exists a l', exec_carry TRACE_LIB sc name tid path argv r l =
       (a ++ [ALog LFlush; AReal name [zlen argv] (path :: argv)], Ok (r, l')) /\ reals a = []).
Proof.
  intros Hon. split; [| split]; intros.
  - by eapply fork_flushes.
  - by apply execve_flushes.
  - by apply exec_carry_flushes.
Qed.

Lemma records_flushed_witness :
  exists a l', exec_carry (bs "/lib/t.so") SYS_EXECV (bs "execv") 7 (bs "/bin/ls") [bs "ls"] (-1) demo_lib =
    (a ++ [ALog LFlush; AReal (bs "execv") [1] [bs "/bin/ls"; bs "ls"]], Ok (-1, l')) /\ reals a = [].
Proof. apply (records_flushed (bs "/lib/t.so") demo_lib); [reflexivity | discriminate]. Defined.

(** C28: execl, execlp and execle pass their arguments on.  Whatever their number, the
    array ARG2ARGV builds is never overrun and ends in the NULL, and the program is
    executed with exactly those arguments; what follows the NULL is not looked at,
    which for execle is the environment it was given: it is ignored. *)
Theorem exec_args_passed TRACE_LIB sc name more tid path a xs junk r l :
  (forall n, more n = true) ->
  ARG2ARGV more (Some a) ((Some <$> xs) ++ None :: junk) = ret (Some ((Some <$> a :: xs) ++ [None])) /\
  exec_args TRACE_LIB sc name more tid path (Some a) ((Some <$> xs) ++ None :: junk) r l =
    exec_carry TRACE_LIB sc name tid path (a :: xs) r l.
Proof.
  intros Hm. split; [by apply ARG2ARGV_ok |].
  unfold exec_args. rewrite ARG2ARGV_ok, bind_ret_l by done. by rewrite omap_argv.
Qed.

Lemma exec_args_passed_witness :
  execle (bs "/lib/t.so") (fun _ => true) 7 (bs "/bin/env") (Some (bs "env"))
    [Some (bs "-i"); None; Some (bs "A=1")] (-1) demo_lib =
  exec_carry (bs "/lib/t.so") SYS_EXECLE (bs "execv") 7 (bs "/bin/env") [bs "env"; bs "-i"] (-1) demo_lib.
Proof.
  apply (exec_args_passed (bs "/lib/t.so") SYS_EXECLE (bs "execv") (fun _ => true) 7 (bs "/bin/env") (bs "env")
    [bs "-i"] [Some (bs "A=1")]). reflexivity.
Defined.
