(* ===== verification/Wrap.v ===== *)
(** src/src/trace/wrap.h, START_WRAP and INIT_REAL, wrap_init of vfd.c and the lookups of
    the older libraries' init: how a library finds the functions it stands in for.

    dlsym answers for a name or it does not ([defined]); the names whose real_
    pointer has been set are the state.  exit is the library's own, so that an
    INIT_REAL that fails before the library has started starts it again. *)
From S2P Require Import Prelude CInt CString Config Plugin Fcgi Getservice PpId Vbuf Vfd Env Exec.

(** What INIT_REAL and the start of the library do besides calling. *)
Inductive w_act :=
| WMissing (f : list byte)        (* dlsym: (f) and the error, on stderr *)
| WAct (a : act).
Abbreviation w_run := (run w_act).

Definition wlift {A} (m : acts A) : w_run A := (WAct <$> m.1, m.2).

(** The names of wrap_init, in its order. *)
Definition wrapped : list (list byte) :=
  [bs "exit"; bs "abort"; bs "pipe"; bs "dup"; bs "dup2"; bs "fcntl"; bs "socket"; bs "bind"; bs "listen";
   bs "accept"; bs "connect"; bs "close"; bs "open"; bs "creat"; bs "read"; bs "readv"; bs "recv";
   bs "recvfrom"; bs "write"; bs "writev"; bs "send"; bs "sendto"; bs "sendfile"; bs "sendfile64";
   bs "select"; bs "poll"; bs "fork"; bs "execve"; bs "execl"; bs "execle"; bs "execv"; bs "execlp";
   bs "execvp"; bs "getenv"; bs "clearenv"; bs "unsetenv"; bs "pthread_create"].

(** What vfd_init looks up, in its order: getenv is the first. *)
Definition vfd_names : list (list byte) := bs "getenv" :: wrapped.

(** trace.c's init, and min.c's. *)
Definition trace_names : list (list byte) :=
  [bs "pipe"; bs "dup"; bs "dup2"; bs "socket"; bs "bind"; bs "listen"; bs "accept"; bs "connect"; bs "close";
   bs "getsockname"; bs "open"; bs "creat"; bs "read"; bs "recv"; bs "recvfrom"; bs "recvmsg"; bs "write";
   bs "send"; bs "sendto"; bs "sendmsg"; bs "select"; bs "pselect"; bs "poll"; bs "gettimeofday"; bs "fork";
   bs "execve"; bs "execl"; bs "clearenv"; bs "unsetenv"; bs "mmap"; bs "munmap"; bs "exit"; bs "abort"].
Definition min_names : list (list byte) := [bs "fork"; bs "execve"; bs "execl"; bs "exit"; bs "abort"].

(** The names whose pointer is set. *)
Abbreviation pointers := (list (list byte)).

Section wrap.
Context (defined : list byte -> bool).

(** [exit1] is the call of exit(1). *)
Definition INIT_REAL (exit1 : pointers -> w_run pointers) (f : list byte) (set : pointers) : w_run pointers :=
  if bool_decide (f ∈ set) then ret set
  else if defined f then ret (f :: set)
  else emit (WMissing f) ;;; exit1 set.

Fixpoint wrap_init (exit1 : pointers -> w_run pointers) (names : list (list byte)) (set : pointers) :
    w_run pointers :=
  match names with
  | [] => ret set
  | f :: names => let! set := INIT_REAL exit1 f set in wrap_init exit1 names set
  end.

(** The start of a library up to its last lookup.  first_init is still 0, so that exit
    starts the library. *)
Fixpoint init_reals (names : list (list byte)) (fuel : nat) (set : pointers) : w_run pointers :=
  match fuel with
  | O => stop Pending
  | S fuel => wrap_init (init_reals names fuel) names set
  end.

(** START_WRAP: a wrapper's first call starts the library. *)
Section start.
Context (stk : list byte) (inet_addr : list byte -> list byte).

Definition start_wrap {A} (fuel : nat) (first_init : bool) (b : boot) (l : lib) (set : pointers)
    (body : lib -> acts A) : w_run A :=
  let! l :=
    (if first_init then ret l
     else let! _ := init_reals vfd_names fuel set in wlift (vfd_init stk inet_addr b l)) in
  wlift (body l).
End start.

(** ** Properties *)

(** Looking names up only adds to what is set. *)
Lemma INIT_REAL_defined exit1 f set :
  defined f = true -> exists set', INIT_REAL exit1 f set = ret set' /\ f ∈ set' /\ set ⊆ set'.
Proof.
  intros H. unfold INIT_REAL. case_bool_decide as E; [by exists set |]. rewrite H.
  exists (f :: set). split_and!; [done | left | by intros x; right].
Qed.

Lemma wrap_init_defined exit1 names set :
  Forall (fun f => defined f = true) names ->
  exists set', wrap_init exit1 names set = ret set' /\ names ⊆ set' /\ set ⊆ set'.
Proof.
  intros H. revert set. induction H as [| f names Hf _ IH]; intros set; cbn [wrap_init].
  - exists set. split_and!; [done | by intros x ?%not_elem_of_nil | done].
  - destruct (INIT_REAL_defined exit1 f set Hf) as (s1 & E1 & F1 & S1). rewrite E1, bind_ret_l.
    destruct (IH s1) as (s2 & E2 & F2 & S2). exists s2. split_and!; [done | | by etrans].
    intros x [-> | Hx]%elem_of_cons; [by apply S2 | by apply F2].
Qed.

(** A start that finds every function leaves every pointer set. *)
Theorem wrap_init_finds names fuel set :
  Forall (fun f => defined f = true) names ->
  exists set', init_reals names (S fuel) set = ret set' /\ names ⊆ set'.
Proof.
  intros H. cbn [init_reals].
  destruct (wrap_init_defined (init_reals names fuel) names set H) as (s2 & E2 & F2 & _).
  by exists s2.
Qed.

Lemma wlift_bind {A B} (m : acts A) (k : A -> acts B) :
  wlift (bind m k) = bind (wlift m) (fun a => wlift (k a)).
Proof.
  destruct m as [w [a | c]]; [| done]. cbn [bind wlift fst snd]. destruct (k a) as [w' r].
  unfold wlift. cbn [fst snd]. by rewrite fmap_app.
Qed.

(** A program's first wrapped call starts the library and then does its work; later
    ones only do theirs.  No lookup shows. *)
Theorem start_wrap_once stk inet_addr {A} fuel b l set (body : lib -> acts A) :
  Forall (fun f => defined f = true) vfd_names ->
  start_wrap stk inet_addr (S fuel) false b l set body =
    wlift (let! l := vfd_init stk inet_addr b l in body l) /\
  start_wrap stk inet_addr fuel true b l set body = wlift (body l).
Proof.
  intros H. unfold start_wrap. split; [| by rewrite bind_ret_l].
  destruct (wrap_init_finds vfd_names fuel set H) as (set' & E & _). rewrite E, bind_ret_l.
  by rewrite wlift_bind.
Qed.

Definition never (m : w_run pointers) : Prop := exists w, m = (w, Crash Pending).

Lemma never_emit a m : never m -> never (emit a ;;; m).
Proof. intros [w ->]. by eexists. Qed.
Lemma never_bind (m : w_run pointers) k : never m -> never (bind m k).
Proof. intros [w ->]. by eexists. Qed.

(** One name, when exit does not come back as long as [f] has no pointer. *)
Lemma INIT_REAL_missing exit1 g set f :
  (forall s, f ∉ s -> never (exit1 s)) -> defined f = false -> f ∉ set ->
  never (INIT_REAL exit1 g set) \/ g <> f /\ exists set', INIT_REAL exit1 g set = ret set' /\ f ∉ set'.
Proof.
  intros He Hd Hs. unfold INIT_REAL. case_bool_decide as Eg.
  - right. split; [by intros -> | by exists set].
  - destruct (defined g) eqn:Dg; [| left; by apply never_emit, He].
    right. assert (g <> f) by congruence. split; [done |]. exists (g :: set). split; [done |].
    by apply not_elem_of_cons.
Qed.

Lemma wrap_init_missing exit1 names set f :
  (forall s, f ∉ s -> never (exit1 s)) -> f ∈ names -> defined f = false -> f ∉ set ->
  never (wrap_init exit1 names set).
Proof.
  intros He Hf Hd. revert set. induction names as [| g names IH]; intros set Hs; [by apply not_elem_of_nil in Hf |].
  cbn [wrap_init]. destruct (INIT_REAL_missing exit1 g set f He Hd Hs) as [H | (Hg & set' & E & Hs')].
  - by apply never_bind.
  - rewrite E, bind_ret_l. apply elem_of_cons in Hf as [-> | Hf]; [done | by apply IH].
Qed.

(** C38: A library that misses a function.  exit is one of the functions the libraries
    stand in for, and it starts the library when it has not started.  So when dlsym does
    not know one of the names, INIT_REAL's exit(1) looks the names up again, fails again
    at that name and calls exit again: no depth of calls is enough for the program to
    end.  It holds of the names of each of the three libraries, and of any others. *)
Theorem missing_function_recurses names fuel f set :
  f ∈ names -> defined f = false -> f ∉ set -> never (init_reals names fuel set).
Proof.
  intros Hf Hd. revert set. induction fuel as [| fuel IH]; intros set Hs; [by eexists |]. cbn [init_reals].
  by apply (wrap_init_missing _ _ _ f).
Qed.
End wrap.

Lemma wrap_init_finds_witness :
  exists set', init_reals (fun _ => true) vfd_names 1 [] = ret set' /\ vfd_names ⊆ set'.
Proof. apply (wrap_init_finds (fun _ => true) vfd_names 0 []). by_eval. Defined.

Lemma start_wrap_once_witness stk inet_addr b l :
  start_wrap (fun _ => true) stk inet_addr 1 false b l [] (fun l => ret (mypid l)) =
    wlift (let! l := vfd_init stk inet_addr b l in ret (mypid l)) /\
  start_wrap (fun _ => true) stk inet_addr 0 true b l [] (fun l => ret (mypid l)) = wlift (ret (mypid l)).
Proof. apply (start_wrap_once (fun _ => true) stk inet_addr 0 b l []). by_eval. Defined.

(** A C library without sendfile64. *)
Lemma missing_function_recurses_witness :
  never (init_reals (fun f => negb (bool_decide (f = bs "sendfile64"))) vfd_names 1000 []).
Proof.
  apply (missing_function_recurses _ vfd_names 1000 (bs "sendfile64")).
  - by_eval.
  - vm_compute. reflexivity.
  - apply not_elem_of_nil.
Defined.

(** The three lists name no function twice. *)
Example names_distinct : NoDup wrapped /\ NoDup trace_names /\ NoDup min_names.
Proof. by_eval. Qed.
