(* ===== verification/PfduraMod.v ===== *)
(** src/src/pfdura/pfdura-mod.c and pfdura.h: the kernel module that reports the
    begin and the end of the page faults of chosen processes.

    The module's calls of the kernel are effects and the kernel's answers are
    arguments.  The kernel's bit operations and simple_strtol are parameters
    ([KernelApi]) with what the module relies on as their laws ([KernelLaw]).
    [serve_mod] is one entry into the module: loading and unloading it, a write to
    one of its two files, a probe that fires.  A probe or a write is one step (the
    kernel may interleave them; set_bit and clear_bit are atomic). *)
From S2P Require Import Prelude CInt CString Binlog.

(** pfdura.h.  [pfd_bytes] is the object relay_write copies: three 4-byte fields,
    4 bytes of padding ([pad], what the stack held) and the 16-byte timeval. *)
Record pfdura_t := mk_pfd { pfd_tgid : Z; pfd_pid : Z; pfd_complete : Z; pfd_tv : timeval }.

Definition sizeof_pfd : Z := 32.
Definition pfd_bytes (pad : Z) (r : pfdura_t) : list byte :=
  le_bytes 4 (pfd_tgid r) ++ le_bytes 4 (pfd_pid r) ++ le_bytes 4 (pfd_complete r) ++
  le_bytes 4 pad ++ le_bytes 8 (tv_sec (pfd_tv r)) ++ le_bytes 8 (tv_usec (pfd_tv r)).

Definition EINVAL : Z := 22.
Definition EFAULT : Z := 14.
Definition ENOMEM : Z := 12.

(** The module's calls: printk, relay_write, and the others by name. *)
Inductive kact :=
| KPrintk (s : list byte)
| KRelay (chan : Z) (b : list byte)
| KCall (f : list byte) (args : list Z) (strs : list (list byte)).

Abbreviation kernel := (run kact).
Definition printk (s : list byte) : kernel unit := emit (KPrintk s).
Definition kcall (f : list byte) (args : list Z) : kernel unit := emit (KCall f args []).

(** ** What the kernel provides

    [simple_strtol] is given the bytes of the object that holds the string: [None]
    when it reads past its end, otherwise the value and the offset of [endp]. *)
Class KernelApi := {
  PID_MAX_DEFAULT : Z;
  set_bit : Z -> list Z -> list Z;
  clear_bit : Z -> list Z -> list Z;
  test_bit : Z -> list Z -> bool;
  simple_strtol : list byte -> option (Z * Z)
}.

Definition BITS_PER_LONG : Z := 64.
Definition in_bits (nr : Z) (addr : list Z) : Prop := 0 <= nr < BITS_PER_LONG * zlen addr.

Class KernelLaw `{!KernelApi} := {
  pid_max_words : 0 < PID_MAX_DEFAULT /\ PID_MAX_DEFAULT mod BITS_PER_LONG = 0;
  zlen_set_bit n w : zlen (set_bit n w) = zlen w;
  zlen_clear_bit n w : zlen (clear_bit n w) = zlen w;
  test_set_bit n m w : in_bits n w -> in_bits m w ->
    test_bit m (set_bit n w) = (n =? m) || test_bit m w;
  test_clear_bit n m w : in_bits n w -> in_bits m w ->
    test_bit m (clear_bit n w) = negb (n =? m) && test_bit m w;
  test_bit_zero n k : test_bit n (replicate k 0) = false;
  strtol_dec n rest : is_s 32 n ->
    simple_strtol (fmt_d n ++ NUL :: rest) = Some (n, zlen (fmt_d n))
}.

(** ** The module's state *)

(** Pointers are numbers, NULL is 0.  The two [suspended] variables are the
    probes' static ones. *)
Record pfmod := mk_pfmod {
  chan : Z;
  dir : Z;
  pid_on : Z;
  pid_off : Z;
  track_pids : list Z;
  entry_suspended : Z;
  exit_suspended : Z
}.

Definition set_track (m : pfmod) (w : list Z) : pfmod :=
  mk_pfmod (chan m) (dir m) (pid_on m) (pid_off m) w (entry_suspended m) (exit_suspended m).
Definition set_files (m : pfmod) (d on off : Z) : pfmod :=
  mk_pfmod (chan m) d on off (track_pids m) (entry_suspended m) (exit_suspended m).
Definition set_kchan (m : pfmod) (c : Z) : pfmod :=
  mk_pfmod c (dir m) (pid_on m) (pid_off m) (track_pids m) (entry_suspended m) (exit_suspended m).
Definition set_entry_suspended (m : pfmod) (s : Z) : pfmod :=
  mk_pfmod (chan m) (dir m) (pid_on m) (pid_off m) (track_pids m) s (exit_suspended m).
Definition set_exit_suspended (m : pfmod) (s : Z) : pfmod :=
  mk_pfmod (chan m) (dir m) (pid_on m) (pid_off m) (track_pids m) (entry_suspended m) s.

(** current: the task a probe interrupts. *)
Record task := mk_task { t_tgid : Z; t_pid : Z }.

Section module.
Context {api : KernelApi}.
(** The probed addresses, from the generated config.h. *)
Context (ENTRY_ADDR EXIT_ADDR : Z).

(** memset(track_pids, 0, sizeof (track_pids)). *)
Definition no_pids : list Z := replicate (Z.to_nat (PID_MAX_DEFAULT / 8 / 8)) 0.

(** The state the loader leaves: the static variables are zero. *)
Definition mod_loaded : pfmod := mk_pfmod 0 0 0 0 no_pids 0 0.

(** A bit operation outside the array is undefined. *)
Definition check_bit (nr : Z) (addr : list Z) : kernel unit :=
  check ((0 <=? nr) && (nr <? BITS_PER_LONG * zlen addr)).

(** ** Writes to the files "on" and "off" *)

(** [fault]: copy_from_user(9) fails.  The second result is what [*pid] holds,
    [None] when it is left unset. *)
Definition get_pid_from_buf (buffer : list byte) (count : Z) (fault : bool) :
    kernel (Z * option Z) :=
  if 16 <? count then ret (u64 (- EINVAL), None) else
  if fault then ret (u64 (- EFAULT), None) else
  let! b := load buffer 0 count in
  let! buf := store (replicate 16 NUL) 0 b in
  let! (v, tmp) := of_opt (simple_strtol buf) in
  if tmp =? 0 then ret (u64 (- EINVAL), Some v) else
  ret (count, Some v).

Definition pid_on_write (m : pfmod) (buffer : list byte) (count : Z) (fault : bool) :
    kernel (Z * pfmod) :=
  let! (r, pid) := get_pid_from_buf buffer count fault in
  let r := s64 r in
  if negb (u64 r =? count) then ret (r, m) else
  let! pid := of_opt pid in
  if PID_MAX_DEFAULT <=? pid then
    printk (bs "pfdura-mod: invalid PID" ++ [LF]) ;;;
    ret (- EINVAL, m)
  else
  check_bit pid (track_pids m) ;;;
  let m := set_track m (set_bit pid (track_pids m)) in
  printk (bs "pfdura-mod: tracking " ++ fmt_d pid ++ [LF]) ;;;
  ret (count, m).

Definition pid_off_write (m : pfmod) (buffer : list byte) (count : Z) (fault : bool) :
    kernel (Z * pfmod) :=
  let! (r, pid) := get_pid_from_buf buffer count fault in
  let r := s64 r in
  if negb (u64 r =? count) then ret (r, m) else
  let! pid := of_opt pid in
  if PID_MAX_DEFAULT <=? pid then
    printk (bs "pfdura-mod: invalid PID" ++ [LF]) ;;;
    ret (- EINVAL, m)
  else if pid =? 0 then
    let m := set_track m no_pids in
    printk (bs "pfdura-mod: stopped tracking all PIDs" ++ [LF]) ;;;
    ret (count, m)
  else
  check_bit pid (track_pids m) ;;;
  if negb (test_bit pid (track_pids m)) then
    printk (bs "pfdura-mod: error: not tracking PID " ++ fmt_d pid ++ [LF]) ;;;
    ret (- EINVAL, m)
  else
  let m := set_track m (clear_bit pid (track_pids m)) in
  printk (bs "pfdura-mod: stopped tracking " ++ fmt_d pid ++ [LF]) ;;;
  ret (count, m).

(** ** The probes *)

(** relay_write(9) through NULL is undefined. *)
Definition relay_write (c : Z) (b : list byte) : kernel unit :=
  check (negb (c =? 0)) ;;; emit (KRelay c b).

Definition entry_probe (m : pfmod) (current : task) (now : timeval) (pad : Z) : kernel pfmod :=
  if PID_MAX_DEFAULT <=? t_tgid current then
    if entry_suspended m =? 0 then
      printk (bs "pfdura-mod: current PID is out of range!" ++ [LF]) ;;;
      ret (set_entry_suspended m 1)
    else ret m
  else
  let m := set_entry_suspended m 0 in
  check_bit (t_tgid current) (track_pids m) ;;;
  if negb (test_bit (t_tgid current) (track_pids m)) then ret m else
  relay_write (chan m) (pfd_bytes pad (mk_pfd (t_tgid current) (t_pid current) 0 now)) ;;;
  ret m.

Definition exit_probe (m : pfmod) (current : task) (now : timeval) (pad : Z) : kernel pfmod :=
  if PID_MAX_DEFAULT <=? t_tgid current then
    if exit_suspended m =? 0 then
      printk (bs "pfdura-mod: current PID is out of range!" ++ [LF]) ;;;
      ret (set_exit_suspended m 1)
    else ret m
  else
  let m := set_exit_suspended m 0 in
  check_bit (t_tgid current) (track_pids m) ;;;
  if negb (test_bit (t_tgid current) (track_pids m)) then ret m else
  relay_write (chan m) (pfd_bytes pad (mk_pfd (t_tgid current) (t_pid current) 1 now)) ;;;
  ret m.

(** ** Loading and unloading *)

Definition remove (d : Z) : kernel Z :=
  if d =? 0 then ret d else kcall (bs "debugfs_remove") [d] ;;; ret 0.

Definition cleanup_all (m : pfmod) : kernel pfmod :=
  let! on := remove (pid_on m) in
  let! off := remove (pid_off m) in
  let! d := remove (dir m) in
  ret (set_files m d on off).

(** The relay_open(9) callbacks: the channel's file is created and removed through
    debugfs. *)
Definition create_buf_file_handler (filename : list byte) (parent answer : Z) : kernel Z :=
  emit (KCall (bs "debugfs_create_file") [420; parent] [filename]) ;;; ret answer.
Definition remove_buf_file_handler (dentry : Z) : kernel Z :=
  kcall (bs "debugfs_remove") [dentry] ;;; ret 0.

(** What debugfs_create_dir, debugfs_create_file (twice), relay_open and the two
    register_kprobe answer. *)
Record load_answers := mk_load {
  la_dir : Z; la_on : Z; la_off : Z; la_chan : Z; la_kp_entry : Z; la_kp_exit : Z
}.

Definition SUBBUF_SIZE : Z := sizeof_pfd * 1024.
Definition N_SUBBUFS : Z := 4.

Definition init_fail (m : pfmod) (why : list byte) : kernel (Z * pfmod) :=
  printk (bs "pfdura-mod: " ++ why ++ bs " failed" ++ [LF]) ;;;
  let! m := cleanup_all m in
  ret (- ENOMEM, m).

Definition init_module (m : pfmod) (a : load_answers) : kernel (Z * pfmod) :=
  let m := set_track m no_pids in
  emit (KCall (bs "debugfs_create_dir") [0] [bs "pfdura"]) ;;;
  let m := set_files m (la_dir a) (pid_on m) (pid_off m) in
  if dir m =? 0 then init_fail m (bs "debugfs_create_dir()") else
  emit (KCall (bs "debugfs_create_file") [438; dir m] [bs "on"]) ;;;
  let m := set_files m (dir m) (la_on a) (pid_off m) in
  if pid_on m =? 0 then init_fail m (bs "debugfs_create_file()") else
  emit (KCall (bs "debugfs_create_file") [438; dir m] [bs "off"]) ;;;
  let m := set_files m (dir m) (pid_on m) (la_off a) in
  if pid_off m =? 0 then init_fail m (bs "debugfs_create_file()") else
  emit (KCall (bs "relay_open") [dir m; SUBBUF_SIZE; N_SUBBUFS] [bs "cpu"]) ;;;
  let m := set_kchan m (la_chan a) in
  if chan m =? 0 then init_fail m (bs "relay_open()") else
  kcall (bs "register_kprobe") [ENTRY_ADDR] ;;;
  kcall (bs "register_kprobe") [EXIT_ADDR] ;;;
  printk (bs "pfdura-mod: probes registered" ++ [LF]) ;;;
  ret (0, m).

Definition cleanup_module (m : pfmod) : kernel pfmod :=
  kcall (bs "unregister_kprobe") [ENTRY_ADDR] ;;;
  kcall (bs "unregister_kprobe") [EXIT_ADDR] ;;;
  let m := set_track m no_pids in
  kcall (bs "relay_close") [chan m] ;;;
  let m := set_kchan m 0 in
  let! m := cleanup_all m in
  printk (bs "pfdura-mod: probes unregistered" ++ [LF]) ;;;
  ret m.

(** ** The module in the kernel *)

Inductive kin :=
| KInit (a : load_answers)
| KCleanup
| KOn (buffer : list byte) (count : Z) (fault : bool)
| KOff (buffer : list byte) (count : Z) (fault : bool)
| KProbe (complete : bool) (current : task) (now : timeval) (pad : Z).

(** [None]: not loaded.  The result of a write is returned to the writer; what the
    kernel cannot do in a state (a probe without the module) changes nothing. *)
Definition serve_mod (s : option pfmod) (i : kin) : kernel (Z * option pfmod) :=
  match s, i with
  | None, KInit a =>
      let! (r, m) := init_module mod_loaded a in
      ret (r, if r =? 0 then Some m else None)
  | Some m, KCleanup => let! m := cleanup_module m in ret (0, None)
  | Some m, KOn b n f => let! (r, m) := pid_on_write m b n f in ret (r, Some m)
  | Some m, KOff b n f => let! (r, m) := pid_off_write m b n f in ret (r, Some m)
  | Some m, KProbe c t now pad =>
      let! m := (if c then exit_probe m t now pad else entry_probe m t now pad) in
      ret (0, Some m)
  | _, _ => ret (-1, s)
  end.

Fixpoint run_mod (s : option pfmod) (ins : list kin) : kernel (list Z * option pfmod) :=
  match ins with
  | [] => ret ([], s)
  | i :: ins =>
      let! (r, s) := serve_mod s i in
      let! (rs, s) := run_mod s ins in
      ret (r :: rs, s)
  end.

(** ** What the module promises

    [tracked] is the set of processes it reports.  A write of a pid's decimal text
    to "on" or "off" changes the set, a probe reports its task when it is in. *)

Inductive request :=
| On (p : Z)
| Off (p : Z)
| Probe (complete : bool) (current : task) (now : timeval) (pad : Z).

Definition kin_of (q : request) : kin :=
  match q with
  | On p => KOn (fmt_d p) (zlen (fmt_d p)) false
  | Off p => KOff (fmt_d p) (zlen (fmt_d p)) false
  | Probe c t now pad => KProbe c t now pad
  end.

(** Pids are not negative. *)
Definition request_in (q : request) : Prop :=
  match q with
  | On p | Off p => 0 <= p < 2147483648
  | Probe _ t _ _ => 0 <= t_tgid t
  end.

Definition tracks_task (S : gset Z) (t : task) : bool :=
  bool_decide (t_tgid t < PID_MAX_DEFAULT /\ t_tgid t ∈ S).

Definition tracked_after (S : gset Z) (q : request) : gset Z :=
  match q with
  | On p => if PID_MAX_DEFAULT <=? p then S else {[p]} ∪ S
  | Off p => if p =? 0 then ∅ else S ∖ {[p]}
  | Probe _ _ _ _ => S
  end.

Definition answer_of (S : gset Z) (q : request) : Z :=
  match q with
  | On p => if PID_MAX_DEFAULT <=? p then - EINVAL else zlen (fmt_d p)
  | Off p =>
      if (p =? 0) || ((p <? PID_MAX_DEFAULT) && bool_decide (p ∈ S)) then zlen (fmt_d p)
      else - EINVAL
  | Probe _ _ _ _ => 0
  end.

Definition reported (S : gset Z) (q : request) : list (list byte) :=
  match q with
  | Probe c t now pad =>
      if tracks_task S t then
        [pfd_bytes pad (mk_pfd (t_tgid t) (t_pid t) (if c then 1 else 0) now)]
      else []
  | _ => []
  end.

(** The sequences. *)
Fixpoint tracked_all (S : gset Z) (qs : list request) : gset Z :=
  match qs with [] => S | q :: qs => tracked_all (tracked_after S q) qs end.
Fixpoint answers_all (S : gset Z) (qs : list request) : list Z :=
  match qs with [] => [] | q :: qs => answer_of S q :: answers_all (tracked_after S q) qs end.
Fixpoint reported_all (S : gset Z) (qs : list request) : list (list byte) :=
  match qs with [] => [] | q :: qs => reported S q ++ reported_all (tracked_after S q) qs end.

(** What goes to the relay channel. *)
Definition relayed (w : list kact) : list (list byte) :=
  omap (fun a => if a is KRelay _ b then Some b else None) w.

(** The calls of a function named [f], with their arguments. *)
Definition calls (f : list byte) (w : list kact) : list (list Z) :=
  omap (fun a => if a is KCall g args _ then if decide (f = g) then Some args else None else None) w.
Definition is_call (a : kact) : bool := if a is KCall _ _ _ then true else false.

(** What the module holds of the kernel. *)
Definition handles (m : pfmod) : list Z := [pid_on m; pid_off m; dir m; chan m].

(** ** The bit vector is the set *)

Definition mod_wf (m : pfmod) : Prop :=
  BITS_PER_LONG * zlen (track_pids m) = PID_MAX_DEFAULT /\ chan m <> 0.
Definition tracks (m : pfmod) (S : gset Z) : Prop :=
  forall n, 0 <= n < PID_MAX_DEFAULT -> test_bit n (track_pids m) = bool_decide (n ∈ S).
Definition mod_abs (m : pfmod) (S : gset Z) : Prop := mod_wf m /\ tracks m S.

Context {law : KernelLaw}.

Lemma zlen_no_pids : BITS_PER_LONG * zlen no_pids = PID_MAX_DEFAULT.
Proof.
  destruct pid_max_words as [Hpos Hm]. unfold no_pids, BITS_PER_LONG in *.
  rewrite zlen_replicate, Z.div_div by lia. change (8 * 8) with 64.
  pose proof (Z.div_mod PID_MAX_DEFAULT 64). pose proof (Z.div_pos PID_MAX_DEFAULT 64). lia.
Qed.

Lemma abs_none m : chan m <> 0 -> mod_abs (set_track m no_pids) ∅.
Proof.
  intros Hc. split; [split; [apply zlen_no_pids | done] |].
  intros n _. cbn [set_track track_pids]. unfold no_pids. rewrite test_bit_zero.
  by rewrite bool_decide_eq_false_2 by set_solver.
Qed.

Lemma abs_set m S p :
  mod_abs m S -> 0 <= p < PID_MAX_DEFAULT ->
  mod_abs (set_track m (set_bit p (track_pids m))) ({[p]} ∪ S).
Proof.
  intros [[Hl Hc] Ht] Hp. split; [split; [| done] |]; cbn [set_track track_pids].
  - by rewrite zlen_set_bit.
  - intros n Hn. cbn [set_track track_pids]. rewrite test_set_bit, Ht by (unfold in_bits; lia).
    case_z; case_bool_decide; case_bool_decide; set_solver.
Qed.

Lemma abs_clear m S p :
  mod_abs m S -> 0 <= p < PID_MAX_DEFAULT ->
  mod_abs (set_track m (clear_bit p (track_pids m))) (S ∖ {[p]}).
Proof.
  intros [[Hl Hc] Ht] Hp. split; [split; [| done] |]; cbn [set_track track_pids].
  - by rewrite zlen_clear_bit.
  - intros n Hn. cbn [set_track track_pids]. rewrite test_clear_bit, Ht by (unfold in_bits; lia).
    case_z; case_bool_decide; case_bool_decide; set_solver.
Qed.

(** A pid that cannot be in the vector can be left out of the set. *)
Lemma abs_drop m S p :
  mod_abs m S -> ~ (0 <= p < PID_MAX_DEFAULT /\ p ∈ S) -> mod_abs m (S ∖ {[p]}).
Proof.
  intros [Hw Ht] Hp. split; [done |]. intros n Hn. rewrite Ht by done.
  destruct (decide (n = p)) as [-> |]; do 2 case_bool_decide; set_solver.
Qed.

Lemma abs_eq m m' S :
  chan m' = chan m -> track_pids m' = track_pids m -> mod_abs m S -> mod_abs m' S.
Proof. unfold mod_abs, mod_wf, tracks. by intros -> ->. Qed.

Lemma check_bit_ok m S p : mod_abs m S -> 0 <= p < PID_MAX_DEFAULT -> check_bit p (track_pids m) = ret tt.
Proof. intros [[Hl _] _] Hp. apply check_true. rewrite Hl. zt. Qed.

(** The text of a pid is read back. *)
Lemma get_pid_ok p :
  is_s 32 p ->
  get_pid_from_buf (fmt_d p) (zlen (fmt_d p)) false = ret (zlen (fmt_d p), Some p) /\
  s64 (zlen (fmt_d p)) = zlen (fmt_d p) /\ u64 (zlen (fmt_d p)) = zlen (fmt_d p).
Proof.
  intros Hp. pose proof (zlen_fmt_int p Hp) as Hl.
  split; [| split; [apply wraps_small; [done | split; lia] | apply u64_small; lia]].
  unfold get_pid_from_buf. destruct (Z.ltb_spec 16 (zlen (fmt_d p))); [lia |].
  rewrite load_ok, bind_ret_l, zdrop_0, ztake_all by lia.
  rewrite store_ok, bind_ret_l, ztake_0, app_nil_l by (rewrite ?zlen_replicate; lia).
  unfold zdrop. rewrite drop_replicate.
  destruct (16 - Z.to_nat (0 + zlen (fmt_d p)))%nat as [| k] eqn:E; [lia |].
  cbn [replicate]. rewrite strtol_dec by done. cbn [of_opt]. rewrite bind_ret_l.
  destruct (Z.eqb_spec (zlen (fmt_d p)) 0); [lia | done].
Qed.

Lemma is_s_pid p : 0 <= p < 2147483648 -> is_s 32 p.
Proof. unfold is_s. simpl. lia. Qed.

(** One request, served. *)
Definition serves (m : pfmod) (S : gset Z) (q : request) : Prop :=
  exists w m', serve_mod (Some m) (kin_of q) = (w, Ok (answer_of S q, Some m')) /\
    relayed w = reported S q /\ forallb (fun a => negb (is_call a)) w = true /\
    handles m' = handles m /\ mod_abs m' (tracked_after S q).

Ltac serve_eq := do 2 eexists; split; [reflexivity | do 3 (split; [reflexivity |])].

Lemma on_serves m S p : mod_abs m S -> request_in (On p) -> serves m S (On p).
Proof.
  cbn [request_in]. intros Ha Hp. destruct (get_pid_ok p (is_s_pid p Hp)) as (E & E1 & E2).
  unfold serves. cbn [kin_of serve_mod answer_of tracked_after]. unfold pid_on_write.
  rewrite E, bind_ret_l, E1, E2, Z.eqb_refl. cbn [negb of_opt]. rewrite bind_ret_l.
  destruct (Z.leb_spec PID_MAX_DEFAULT p); [by serve_eq |].
  rewrite (check_bit_ok m S) by (done || lia). rewrite bind_ret_l.
  serve_eq. apply abs_set; [done | lia].
Qed.

Lemma off_serves m S p : mod_abs m S -> request_in (Off p) -> serves m S (Off p).
Proof.
  cbn [request_in]. intros Ha Hp. destruct (get_pid_ok p (is_s_pid p Hp)) as (E & E1 & E2).
  destruct pid_max_words as [Hpos _].
  unfold serves. cbn [kin_of serve_mod answer_of tracked_after]. unfold pid_off_write.
  rewrite E, bind_ret_l, E1, E2, Z.eqb_refl. cbn [negb of_opt]. rewrite bind_ret_l.
  destruct (Z.leb_spec PID_MAX_DEFAULT p).
  { destruct (Z.eqb_spec p 0), (Z.ltb_spec p PID_MAX_DEFAULT); try lia.
    serve_eq. apply abs_drop; [done | lia]. }
  destruct (Z.eqb_spec p 0); [serve_eq; apply abs_none, Ha |].
  rewrite (check_bit_ok m S), bind_ret_l by (done || lia).
  destruct Ha as [Hw Ht] eqn:EHa. rewrite (Ht p) by lia.
  destruct (Z.ltb_spec p PID_MAX_DEFAULT); [| lia]. cbn [orb andb].
  case_bool_decide; cbn [negb]; serve_eq;
    [apply abs_clear; [done | lia] | by apply abs_drop; [| naive_solver]].
Qed.

Lemma probe_serves m S c t now pad :
  mod_abs m S -> request_in (Probe c t now pad) -> serves m S (Probe c t now pad).
Proof.
  cbn [request_in]. intros Ha Hp. unfold serves.
  cbn [kin_of serve_mod answer_of tracked_after reported]. unfold tracks_task.
  assert ((chan m =? 0) = false) as Hc by (apply Z.eqb_neq, Ha).
  unfold exit_probe, entry_probe. destruct (Z.leb_spec PID_MAX_DEFAULT (t_tgid t)).
  { rewrite bool_decide_eq_false_2 by lia.
    destruct c; case_z; serve_eq; done || by apply (abs_eq m). }
  cbn [set_exit_suspended set_entry_suspended track_pids chan].
  rewrite (check_bit_ok m S), bind_ret_l by (done || lia).
  destruct Ha as [Hw Ht] eqn:EHa. rewrite (Ht (t_tgid t)) by lia.
  destruct (decide (t_tgid t ∈ S)).
  - rewrite !bool_decide_eq_true_2 by done. cbn [negb].
    unfold relay_write. rewrite Hc. cbn [negb]. rewrite check_true, bind_ret_l by done.
    destruct c; serve_eq; by apply (abs_eq m).
  - rewrite !bool_decide_eq_false_2 by naive_solver. cbn [negb].
    destruct c; serve_eq; by apply (abs_eq m).
Qed.

Lemma request_serves m S q : mod_abs m S -> request_in q -> serves m S q.
Proof. destruct q; [apply on_serves | apply off_serves | apply probe_serves]. Qed.

Lemma relayed_app a b : relayed (a ++ b) = relayed a ++ relayed b.
Proof. apply omap_app. Qed.

Lemma run_mod_cons s i ins w1 r s1 w2 rs s2 :
  serve_mod s i = (w1, Ok (r, s1)) -> run_mod s1 ins = (w2, Ok (rs, s2)) ->
  run_mod s (i :: ins) = (w1 ++ w2, Ok (r :: rs, s2)).
Proof.
  intros E1 E2. cbn [run_mod]. rewrite E1. cbn [bind]. rewrite E2. cbn [bind ret].
  by rewrite app_nil_r.
Qed.

Lemma run_mod_app s a b w1 r1 s1 w2 r2 s2 :
  run_mod s a = (w1, Ok (r1, s1)) -> run_mod s1 b = (w2, Ok (r2, s2)) ->
  run_mod s (a ++ b) = (w1 ++ w2, Ok (r1 ++ r2, s2)).
Proof.
  revert s w1 r1; induction a as [| i a IH]; intros s w1 r1.
  - intros H. apply ret_inv in H as [H ->]. simplify_eq. done.
  - cbn [run_mod]. intros H E2. inv_runs. simplify_eq. cbn [app].
    rewrite app_nil_r, <- app_assoc.
    apply (run_mod_cons _ _ _ _ _ _ _ _ _ Hm). by apply (IH _ _ _ Hm0).
Qed.

Lemma run_mod_serves m S qs :
  mod_abs m S -> Forall request_in qs ->
  exists w m', run_mod (Some m) (kin_of <$> qs) = (w, Ok (answers_all S qs, Some m')) /\
    relayed w = reported_all S qs /\ forallb (fun a => negb (is_call a)) w = true /\
    handles m' = handles m /\ mod_abs m' (tracked_all S qs).
Proof.
  intros Ha Hq. revert m S Ha. induction Hq as [| q qs Hin _ IH]; intros m S Ha.
  - by exists [], m.
  - destruct (request_serves m S q Ha Hin) as (w1 & m1 & E1 & W1 & C1 & H1 & A1).
    destruct (IH _ _ A1) as (w2 & m2 & E2 & W2 & C2 & H2 & A2).
    exists (w1 ++ w2), m2. rewrite fmap_cons. cbn [answers_all reported_all tracked_all].
    rewrite (run_mod_cons _ _ _ _ _ _ _ _ _ E1 E2).
    rewrite relayed_app, forallb_app, W1, W2, C1, C2, H2, H1. done.
Qed.

(** ** Loading and unloading *)

Lemma calls_app f a b : calls f (a ++ b) = calls f a ++ calls f b.
Proof. apply omap_app. Qed.

Lemma calls_none f w : forallb (fun a => negb (is_call a)) w = true -> calls f w = [].
Proof.
  intros H. induction w as [| a w IH]; [done |]. apply andb_prop in H as [Ha Hw].
  unfold calls in *. cbn [omap list_omap]. destruct a; try done; by apply IH.
Qed.

(** The dentries an initialisation obtained before it failed, in the order
    cleanup_all removes them. *)
Definition obtained (a : load_answers) : list Z :=
  if la_dir a =? 0 then [] else
  if la_on a =? 0 then [la_dir a] else
  if la_off a =? 0 then [la_on a; la_dir a] else [la_on a; la_off a; la_dir a].

Definition granted (a : load_answers) : bool :=
  negb (la_dir a =? 0) && negb (la_on a =? 0) && negb (la_off a =? 0) && negb (la_chan a =? 0).

Definition REMOVE : list byte := bs "debugfs_remove".
Definition REGISTER : list byte := bs "register_kprobe".
Definition UNREGISTER : list byte := bs "unregister_kprobe".
Definition CLOSE : list byte := bs "relay_close".

Lemma init_ok a :
  granted a = true ->
  exists w m, init_module mod_loaded a = (w, Ok (0, m)) /\ relayed w = [] /\
    calls REMOVE w = [] /\ calls REGISTER w = [[ENTRY_ADDR]; [EXIT_ADDR]] /\
    calls UNREGISTER w = [] /\ calls CLOSE w = [] /\
    handles m = [la_on a; la_off a; la_dir a; la_chan a] /\ mod_abs m ∅.
Proof.
  unfold granted. intros G. apply andb_prop in G as [G Hc]. apply andb_prop in G as [G Hf].
  apply andb_prop in G as [Hd Ho]. apply negb_true_iff in Hd, Ho, Hf, Hc.
  unfold init_module. cbn [set_track set_files set_kchan dir pid_on pid_off chan].
  rewrite Hd, Ho, Hf, Hc. do 2 eexists.
  do 7 (split; [reflexivity |]).
  apply (abs_none (mk_pfmod (la_chan a) (la_dir a) (la_on a) (la_off a) [] 0 0)).
  by apply Z.eqb_neq.
Qed.

Lemma remove_ok d :
  exists w, remove d = (w, Ok 0) /\ relayed w = [] /\
    calls REMOVE w = (if d =? 0 then [] else [[d]]) /\ calls REGISTER w = [].
Proof.
  unfold remove. destruct (Z.eqb_spec d 0) as [-> |]; [by exists [] |].
  by exists [KCall REMOVE [d] []].
Qed.

(** The entries of a list of handles that are set. *)
Definition set_ones (l : list Z) : list (list Z) := (fun d => [d]) <$> filter (.≠ 0) l.

Lemma cleanup_all_ok m :
  exists w, cleanup_all m = (w, Ok (set_files m 0 0 0)) /\ relayed w = [] /\
    calls REMOVE w = set_ones [pid_on m; pid_off m; dir m] /\ calls REGISTER w = [].
Proof.
  destruct (remove_ok (pid_on m)) as (w1 & E1 & R1 & C1 & G1).
  destruct (remove_ok (pid_off m)) as (w2 & E2 & R2 & C2 & G2).
  destruct (remove_ok (dir m)) as (w3 & E3 & R3 & C3 & G3).
  exists (w1 ++ w2 ++ w3). unfold cleanup_all.
  rewrite (bind_ok _ _ _ _ E1), (bind_ok _ _ _ _ E2), (bind_ok _ _ _ _ E3).
  rewrite !relayed_app, !calls_app, R1, R2, R3, C1, C2, C3, G1, G2, G3.
  cbn [fst snd ret]. rewrite app_nil_r. split_and!; try done.
  unfold set_ones. rewrite !filter_cons, filter_nil. by repeat case_z; repeat case_decide.
Qed.

Lemma init_fail_ok m why :
  exists w, init_fail m why = (w, Ok (- ENOMEM, set_files m 0 0 0)) /\ relayed w = [] /\
    calls REMOVE w = set_ones [pid_on m; pid_off m; dir m] /\ calls REGISTER w = [].
Proof.
  destruct (cleanup_all_ok m) as (w & E & R & C & G). unfold init_fail, printk.
  eexists. rewrite (bind_ok (emit _) _ _ _ eq_refl). cbn beta. rewrite (bind_ok _ _ _ _ E).
  cbn [fst snd ret]. split; [reflexivity |].
  rewrite !relayed_app, !calls_app, R, C, G. by rewrite !app_nil_r.
Qed.

Lemma init_refused a :
  granted a = false ->
  exists w m, init_module mod_loaded a = (w, Ok (- ENOMEM, m)) /\ relayed w = [] /\
    calls REMOVE w = set_ones (obtained a) /\ calls REGISTER w = [] /\ handles m = [0; 0; 0; 0].
Proof.
  intros G. unfold init_module, granted, obtained in *.
  cbn [set_track set_files set_kchan dir pid_on pid_off chan mod_loaded].
  repeat case_z; cbn [negb andb] in G; try discriminate G;
    match goal with |- context [init_fail ?m ?why] =>
      destruct (init_fail_ok m why) as (w & E & R & C & G') end;
    rewrite E; do 2 eexists; (split; [reflexivity |]); (split; [exact R |]);
    (split; [etransitivity; [exact C |] | split; [exact G' |]]); unfold set_ones, handles;
    cbn [set_track set_files set_kchan dir pid_on pid_off chan];
    rewrite ?filter_cons, ?filter_nil; try (by repeat case_decide); congruence.
Qed.

Lemma cleanup_module_ok m :
  Forall (.≠ 0) (handles m) ->
  exists w m', cleanup_module m = (w, Ok m') /\ relayed w = [] /\ calls REGISTER w = [] /\
    calls REMOVE w = [[pid_on m]; [pid_off m]; [dir m]] /\
    calls UNREGISTER w = [[ENTRY_ADDR]; [EXIT_ADDR]] /\ calls CLOSE w = [[chan m]] /\
    handles m' = [0; 0; 0; 0].
Proof.
  intros Hh. unfold handles in Hh. rewrite !List.Forall_cons_iff in Hh.
  destruct Hh as (Ho & Hf & Hd & _).
  unfold cleanup_module, cleanup_all, remove.
  cbn [set_track set_files set_kchan dir pid_on pid_off chan].
  apply Z.eqb_neq in Ho, Hf, Hd. rewrite Ho, Hf, Hd. do 2 eexists.
  do 6 (split; [reflexivity |]). reflexivity.
Qed.

Lemma serve_init a w m :
  init_module mod_loaded a = (w, Ok (0, m)) -> serve_mod None (KInit a) = (w, Ok (0, Some m)).
Proof. intros E. cbn [serve_mod]. rewrite E. cbn. by rewrite app_nil_r. Qed.

Lemma serve_cleanup m w m' :
  cleanup_module m = (w, Ok m') -> run_mod (Some m) [KCleanup] = (w, Ok ([0], None)).
Proof. intros E. cbn [run_mod serve_mod]. rewrite E. cbn. by rewrite !app_nil_r. Qed.

(** ** Properties *)

(** C16: From the moment it is loaded the kernel module is a set of pids.  Whatever
    sequence of pids (numbers from 0 to 2147483647) is written to its files and
    whatever probes fire, each write is answered as the set says (its length, or
    -EINVAL for a pid out of range or not tracked), writing 0 to "off" empties the
    set, and the relay channel gets one object per probe whose process is in the set
    at that moment, in order, with its ids and the time. *)
Theorem module_tracks a qs :
  granted a = true -> Forall request_in qs ->
  exists w m, run_mod None (KInit a :: (kin_of <$> qs)) = (w, Ok (0 :: answers_all ∅ qs, Some m)) /\
    relayed w = reported_all ∅ qs /\ mod_abs m (tracked_all ∅ qs).
Proof.
  intros G Hq. destruct (init_ok a G) as (w1 & m1 & E1 & R1 & _ & _ & _ & _ & _ & A1).
  destruct (run_mod_serves _ _ qs A1 Hq) as (w2 & m2 & E2 & R2 & _ & _ & A2).
  exists (w1 ++ w2), m2.
  rewrite (run_mod_cons _ _ _ _ _ _ _ _ _ (serve_init a _ _ E1) E2), relayed_app, R1, R2. done.
Qed.

(** The kernel module gives back what it took.  Loaded, used in any way and
    unloaded, it has registered each probe once and unregistered it, closed its
    channel once and removed its two files and then their directory, each once; in
    between it made no other such call, and only tracked processes were reported. *)
Theorem module_life a qs :
  granted a = true -> Forall request_in qs ->
  exists w, run_mod None (KInit a :: (kin_of <$> qs) ++ [KCleanup]) =
    (w, Ok (0 :: answers_all ∅ qs ++ [0], None)) /\
    calls REGISTER w = [[ENTRY_ADDR]; [EXIT_ADDR]] /\
    calls UNREGISTER w = [[ENTRY_ADDR]; [EXIT_ADDR]] /\
    calls CLOSE w = [[la_chan a]] /\
    calls REMOVE w = [[la_on a]; [la_off a]; [la_dir a]] /\
    relayed w = reported_all ∅ qs.
Proof.
  intros G Hq. destruct (init_ok a G) as (w1 & m1 & E1 & R1 & D1 & G1 & U1 & L1 & H1 & A1).
  destruct (run_mod_serves _ _ qs A1 Hq) as (w2 & m2 & E2 & R2 & C2 & H2 & A2).
  rewrite H1 in H2.
  destruct (cleanup_module_ok m2) as (w3 & m3 & E3 & R3 & G3 & D3 & U3 & C3 & _).
  { rewrite H2. unfold granted in G. repeat apply andb_prop in G as [G ?]. zbool. by repeat constructor. }
  exists (w1 ++ w2 ++ w3). injection H2 as Eo Ef Ed Ec. rewrite Eo, Ef, Ed in D3. rewrite Ec in C3.
  rewrite (run_mod_cons _ _ _ _ _ _ _ _ _ (serve_init a _ _ E1)
    (run_mod_app _ _ _ _ _ _ _ _ _ E2 (serve_cleanup _ _ _ E3))).
  rewrite !calls_app, !(calls_none _ w2 C2), !relayed_app, D1, G1, U1, L1, R1, R2, R3, D3, G3, U3, C3.
  by rewrite !app_nil_r.
Qed.

(** A refused initialisation leaves nothing behind.  When the kernel refuses the
    directory, a file or the channel, init_module returns -ENOMEM, every dentry it
    had got is removed, once, the files before their directory, its pointers are
    NULL, and no probe was registered. *)
Theorem init_fails_clean a :
  granted a = false ->
  exists w m, init_module mod_loaded a = (w, Ok (- ENOMEM, m)) /\
    calls REMOVE w = set_ones (obtained a) /\ calls REGISTER w = [] /\
    relayed w = [] /\ handles m = [0; 0; 0; 0].
Proof.
  intros G. destruct (init_refused a G) as (w & m & E & R & C & D & Hh). by exists w, m.
Qed.

(** A negative pid.  Both files are writable by everybody (mode 0666) and only
    the upper bound of the pid is tested: writing "-1", or any negative number, to
    either sets or tests a bit in front of the vector, in the kernel. *)
Theorem negative_pid_overruns m p :
  is_s 32 p -> p < 0 ->
  pid_on_write m (fmt_d p) (zlen (fmt_d p)) false = ([], Crash Undef) /\
  pid_off_write m (fmt_d p) (zlen (fmt_d p)) false = ([], Crash Undef).
Proof.
  intros Hs Hp. destruct (get_pid_ok p Hs) as (E & E1 & E2).
  destruct pid_max_words as [Hpos _].
  unfold pid_on_write, pid_off_write. rewrite E, !bind_ret_l, E1, E2, Z.eqb_refl.
  cbn [negb of_opt]. rewrite !bind_ret_l.
  destruct (Z.leb_spec PID_MAX_DEFAULT p); [lia |]. destruct (Z.eqb_spec p 0); [lia |].
  unfold check_bit. destruct (Z.leb_spec 0 p); [lia |]. done.
Qed.

End module.

(** ** A kernel

    The bit operations on the words, and a simple_strtol: the laws can be met. *)

Fixpoint digit_run (l : list byte) : Z :=
  match l with b :: l' => if is_digit b then 1 + digit_run l' else 0 | [] => 0 end.

Definition c_strtol (mem : list byte) : option (Z * Z) :=
  s ← cstr mem;
  Some (match s with
        | "-"%byte :: l => (- digits_val 0 l, 1 + digit_run l)
        | _ => (digits_val 0 s, digit_run s)
        end).

Definition linux : KernelApi := {|
  PID_MAX_DEFAULT := 32768;
  set_bit n w := alter (fun x => Z.setbit x (n mod 64)) (Z.to_nat (n / 64)) w;
  clear_bit n w := alter (fun x => Z.clearbit x (n mod 64)) (Z.to_nat (n / 64)) w;
  test_bit n w := Z.testbit (default 0 (w !! Z.to_nat (n / 64))) (n mod 64);
  simple_strtol := c_strtol
|}.

Lemma bit_index_inj n m :
  0 <= n -> 0 <= m -> Z.to_nat (n / 64) = Z.to_nat (m / 64) -> n mod 64 = m mod 64 -> n = m.
Proof.
  intros. pose proof (Z.div_mod n 64). pose proof (Z.div_mod m 64).
  pose proof (Z.div_pos n 64). pose proof (Z.div_pos m 64). lia.
Qed.

Lemma alter_bit (f : Z -> Z -> Z) (g : bool -> bool) n m w :
  (forall x i j, 0 <= i -> 0 <= j -> Z.testbit (f x i) j = if i =? j then g (Z.testbit x j) else Z.testbit x j) ->
  in_bits n w -> in_bits m w ->
  Z.testbit (default 0 (alter (fun x => f x (n mod 64)) (Z.to_nat (n / 64)) w !! Z.to_nat (m / 64))) (m mod 64) =
  let b := Z.testbit (default 0 (w !! Z.to_nat (m / 64))) (m mod 64) in
  if n =? m then g b else b.
Proof.
  unfold in_bits, BITS_PER_LONG. intros Hf Hn Hm. cbv zeta.
  pose proof (Z.mod_pos_bound n 64 eq_refl). pose proof (Z.mod_pos_bound m 64 eq_refl).
  assert (exists x, w !! Z.to_nat (m / 64) = Some x) as [x Hx].
  { apply lookup_lt_is_Some_2. unfold zlen in *.
    pose proof (Z.div_lt_upper_bound m 64 (Z.of_nat (length w))). pose proof (Z.div_pos m 64). lia. }
  destruct (decide (Z.to_nat (n / 64) = Z.to_nat (m / 64))) as [E | E].
  - rewrite E, list_lookup_alter_eq, Hx. simpl. rewrite Hf by lia.
    destruct (Z.eqb_spec n m) as [-> |]; [by rewrite Z.eqb_refl |].
    destruct (Z.eqb_spec (n mod 64) (m mod 64)); [| done].
    exfalso. by apply (bit_index_inj n m) in E; [| lia | lia |].
  - rewrite list_lookup_alter_ne by done. destruct (Z.eqb_spec n m) as [-> |]; [done |]. done.
Qed.

Lemma digits_run l : Forall (fun b => is_digit b = true) l -> digit_run l = zlen l.
Proof. induction 1 as [| b l Hb _ IH]; [done |]. cbn [digit_run]. rewrite Hb, IH. zl. Qed.

Lemma digits_nul_free l : Forall (fun b => is_digit b = true) l -> nul_free l.
Proof. apply List.Forall_impl. by intros b H ->. Qed.

Lemma c_strtol_dec n rest : is_s 32 n -> c_strtol (fmt_d n ++ NUL :: rest) = Some (n, zlen (fmt_d n)).
Proof.
  unfold is_s. simpl. intros Hn.
  assert (forall m, 0 <= m < 2 ^ 64 ->
    Forall (fun b => is_digit b = true) (fmt_u m) /\ digits_val 0 (fmt_u m) = m) as Hu.
  { intros m Hm. apply dec_digits_ok; [simpl; lia | lia]. }
  unfold c_strtol, fmt_d. destruct (Z.ltb_spec n 0).
  - destruct (Hu (- n)) as [Hd Hv]; [lia |].
    rewrite cstr_app by (constructor; [done | by apply digits_nul_free]).
    cbn [mbind option_bind]. rewrite Hv, digits_run by done. do 2 f_equal; [lia | zl].
  - destruct (Hu n) as [Hd Hv]; [lia |]. rewrite cstr_app by by apply digits_nul_free.
    cbn [mbind option_bind]. rewrite digits_run, Hv by done.
    destruct (fmt_u n) as [| b l]; [done |].
    apply Forall_inv in Hd. destruct b; done || discriminate Hd.
Qed.

Lemma linux_law : @KernelLaw linux.
Proof.
  split; cbn [linux PID_MAX_DEFAULT set_bit clear_bit test_bit simple_strtol].
  - done.
  - intros. unfold zlen. by rewrite length_alter.
  - intros. unfold zlen. by rewrite length_alter.
  - intros n m w Hn Hm. rewrite (alter_bit Z.setbit (fun _ => true)); [cbv zeta; by case_z | | done | done].
    intros x i j Hi Hj. rewrite Z.setbit_eqb by done. by case_z.
  - intros n m w Hn Hm.
    rewrite (alter_bit Z.clearbit (fun _ => false)); [cbv zeta; by case_z | | done | done].
    intros x i j Hi Hj. rewrite Z.clearbit_eqb by done. case_z; cbn; [by rewrite andb_false_r | by rewrite andb_true_r].
  - intros n k. destruct (replicate k 0 !! Z.to_nat (n / 64)) as [x |] eqn:E; cbn.
    + apply lookup_replicate in E as [-> _]. apply Z.testbit_0_l.
    + apply Z.testbit_0_l.
  - intros n rest H. by apply c_strtol_dec.
Qed.

Definition demo_load : load_answers := mk_load 5 6 7 8 0 0.
Definition demo_requests : list request :=
  [On 300; Probe false (mk_task 300 301) (mk_tv 10 20) 0;
   Probe false (mk_task 400 401) (mk_tv 10 21) 0; Off 300;
   Probe true (mk_task 300 301) (mk_tv 10 22) 0; Off 300].

Lemma demo_requests_in : Forall request_in demo_requests.
Proof. repeat constructor; simpl; lia. Qed.

(** The model runs: the tracked task's probe is reported, the others are not. *)
Example demo_run :
  let '(w, r) := run_mod (api := linux) 1 2 None (KInit demo_load :: (kin_of <$> demo_requests)) in
  relayed w = [pfd_bytes 0 (mk_pfd 300 301 0 (mk_tv 10 20))] /\
  match r with Ok (rs, _) => rs = [0; 3; 0; 0; 3; 0; -22] | _ => False end.
Proof. vm_compute. done. Qed.

Lemma module_tracks_witness :
  exists w m, run_mod (api := linux) 1 2 None (KInit demo_load :: (kin_of <$> demo_requests)) =
      (w, Ok (0 :: answers_all (api := linux) ∅ demo_requests, Some m)) /\
    relayed w = reported_all (api := linux) ∅ demo_requests /\
    mod_abs (api := linux) m (tracked_all (api := linux) ∅ demo_requests).
Proof.
  apply (module_tracks (api := linux) 1 2 (law := linux_law) demo_load demo_requests);
    [reflexivity | apply demo_requests_in].
Defined.

Lemma module_life_witness :
  exists w, run_mod (api := linux) 1 2 None (KInit demo_load :: (kin_of <$> demo_requests) ++ [KCleanup]) =
    (w, Ok (0 :: answers_all (api := linux) ∅ demo_requests ++ [0], None)) /\
    calls REGISTER w = [[1]; [2]] /\ calls UNREGISTER w = [[1]; [2]] /\ calls CLOSE w = [[8]] /\
    calls REMOVE w = [[6]; [7]; [5]] /\
    relayed w = reported_all (api := linux) ∅ demo_requests.
Proof.
  apply (module_life (api := linux) 1 2 (law := linux_law) demo_load demo_requests);
    [reflexivity | apply demo_requests_in].
Defined.

Lemma init_fails_clean_witness :
  exists w m, init_module (api := linux) 1 2 (mod_loaded (api := linux)) (mk_load 5 6 0 8 0 0) =
      (w, Ok (- ENOMEM, m)) /\
    calls REMOVE w = [[6]; [5]] /\ calls REGISTER w = [] /\ relayed w = [] /\
    handles m = [0; 0; 0; 0].
Proof.
  apply (init_fails_clean (api := linux) 1 2 (mk_load 5 6 0 8 0 0)); reflexivity.
Defined.

Lemma negative_pid_overruns_witness :
  pid_on_write (api := linux) (mod_loaded (api := linux)) (bs "-1") 2 false = ([], Crash Undef) /\
  pid_off_write (api := linux) (mod_loaded (api := linux)) (bs "-1") 2 false = ([], Crash Undef).
Proof.
  apply (negative_pid_overruns (api := linux) (law := linux_law) (mod_loaded (api := linux)) (-1));
    [unfold is_s; simpl; lia | lia].
Defined.
