(* ===== verification/Pf.v ===== *)
(** src/src/trace/pf.c: the program that turns the kernel module's reports into log
    records, and its composition with the module (PfduraMod.v).

    [reader_thr] is given the answers of the kernel; a read that fails comes with
    the value of errno.  read(2) fills [pfd] from its start and only a whole object
    is looked at, so what a short read left in it is not modelled.  The array
    [last_tvs] is the map of its entries that are not zero. *)
From Stdlib Require Import Sorting.Sorted.
From S2P Require Import Prelude CInt CString Config Fmt Binlog PpId Env Exec PfduraMod.

Definition EINTR : Z := 4.
Definition N_TVS : Z := 65536.
Definition RELAY_FEED : list byte := bs "/mnt/relay/pfdura/cpu0".
Definition O_RDONLY : Z := 0.

(** The object read(2) filled. *)
Definition pfd_of (b : list byte) : pfdura_t :=
  mk_pfd (s32 (le_val (fld b 0 4))) (s32 (le_val (fld b 4 4))) (s32 (le_val (fld b 8 4)))
    (mk_tv (s64 (le_val (fld b 16 8))) (s64 (le_val (fld b 24 8)))).

Definition zero_tv : timeval := mk_tv 0 0.
Definition tv_at (last : gmap Z timeval) (i : Z) : timeval := default zero_tv (last !! i).

(** An access to [last_tvs]. *)
Definition check_tvs {W} (i : Z) : run W unit := check ((0 <=? i) && (i <? N_TVS)).

(** The microseconds between the two times. *)
Definition elapsed (b e : timeval) : Z :=
  let diff_sec := s64 (tv_sec e - tv_sec b) in
  let us := if 0 <? diff_sec then s64 (s64 (diff_sec * 1000) * 1000) else 0 in
  s64 (us + s64 (tv_usec e - tv_usec b)).

Section pf.
(** The event numbers of syscalls.h, inet_addr(3) and the bytes malloc(3) leaves. *)
Context (num : syscall -> Z) (inet_addr : list byte -> list byte) (fresh : byte).

(** The entry: memset to zero, then filled. *)
Definition pf_entry (pfd : pfdura_t) (t : timeval) (sc : syscall) : logentry_thaw :=
  mk_thaw (mk_frozen (u64 (pfd_pid pfd)) (u32 (pfd_tgid pfd)) (u32 (tv_sec t)) (u32 (tv_usec t))
    (s16 (num sc)) 0 (char_val "_"%byte) 0 0 (replicate 4 NUL)) None [0; 0; 0].

Definition log_fault (logfd : Z) (pfd : pfdura_t) (last : timeval) : acts unit :=
  let le := pf_entry pfd last SYS_PAGEFAULT_BEGIN in
  let sz := frozen_size (th_fz le) in
  let buf := replicate (Z.to_nat sz) fresh in
  let! buf := freeze buf le sz in
  emit (AReal (bs "write") [logfd; sz] [buf]) ;;;
  let le := pf_entry pfd (pfd_tv pfd) SYS_PAGEFAULT_END in
  let! buf := freeze buf le sz in
  emit (AReal (bs "write") [logfd; sz] [buf]).

(** One report, read whole. *)
Definition on_report (logfd : Z) (last_tvs : gmap Z timeval) (pfd : pfdura_t) :
    acts (gmap Z timeval) :=
  check_tvs (pfd_tgid pfd) ;;;
  if pfd_complete pfd =? 0 then ret (<[pfd_tgid pfd := pfd_tv pfd]> last_tvs) else
  let last := tv_at last_tvs (pfd_tgid pfd) in
  (if 100 <? elapsed last (pfd_tv pfd) then log_fault logfd pfd last else ret tt) ;;;
  ret last_tvs.

Definition kerrno : Type := option (list byte) * Z.

Fixpoint reader_loop (fd logfd : Z) (last_tvs : gmap Z timeval) (ans : list kerrno) : acts unit :=
  match ans with
  | [] => stop Pending
  | (r, errno) :: ans =>
      real (bs "read") [fd; sizeof_pfd] ;;;
      let rc := match kread r sizeof_pfd with Some b => zlen b | None => -1 end in
      if negb (rc =? sizeof_pfd) then
        if (rc =? 0) || (errno =? EINTR) then
          real (bs "usleep") [100] ;;;
          reader_loop fd logfd last_tvs ans
        else stop (Exit 1)
      else
      let pfd := pfd_of (default [] (kread r sizeof_pfd)) in
      let! last_tvs := on_report logfd last_tvs pfd in
      reader_loop fd logfd last_tvs ans
  end.

(** [sock] and [conn] answer socket and connect (LOGD_USE_SOCK is set). *)
Definition reader_thr (fd sock conn : Z) (e : env) (ans : list kerrno) : acts unit :=
  real (bs "socket") [AF_INET; SOCK_STREAM; 0] ;;;
  if sock <? 0 then stop (Exit (-1)) else
  emit (AReal (bs "connect") [sock; AF_INET] [logd_addr inet_addr e]) ;;;
  if conn <? 0 then stop (Exit (-1)) else
  reader_loop fd sock ∅ ans.

(** ** What the reader is for *)

Definition write_to (fd : Z) (a : act) : list byte :=
  match a with
  | AReal f (fd' :: _) [b] => if decide (f = bs "write" /\ fd' = fd) then b else []
  | _ => []
  end.

(** The bytes sent to a descriptor. *)
Definition sent (fd : Z) (w : list act) : list byte := concat (write_to fd <$> w).

(** The entries of one fault that took longer than 100us. *)
Definition fault_entries (pfd : pfdura_t) (b : timeval) : list logentry_thaw :=
  if 100 <? micros (pfd_tv pfd) - micros b then
    [pf_entry pfd b SYS_PAGEFAULT_BEGIN; pf_entry pfd (pfd_tv pfd) SYS_PAGEFAULT_END]
  else [].

(** The entries of a sequence of reports. *)
Fixpoint entries (last : gmap Z timeval) (rs : list pfdura_t) : list logentry_thaw :=
  match rs with
  | [] => []
  | r :: rs =>
      if pfd_complete r =? 0 then entries (<[pfd_tgid r := pfd_tv r]> last) rs
      else fault_entries r (tv_at last (pfd_tgid r)) ++ entries last rs
  end.

(** A report the module makes. *)
Definition time_in (t : timeval) : Prop := 0 <= tv_sec t < 2 ^ 32 /\ normal t.
Definition report_in (r : pfdura_t) : Prop :=
  0 <= pfd_tgid r < N_TVS /\ 0 <= pfd_pid r < 2147483648 /\
  (pfd_complete r = 0 \/ pfd_complete r = 1) /\ time_in (pfd_tv r).

(** Answers that deliver the objects one by one, with empty or interrupted reads
    in between; what object is a report's. *)
Inductive feeds : list kerrno -> list (list byte) -> Prop :=
| feeds_nil : feeds [] []
| feeds_report o ans os errno : feeds ans os -> feeds ((Some o, errno) :: ans) (o :: os)
| feeds_empty ans os errno : feeds ans os -> feeds ((Some [], errno) :: ans) os
| feeds_intr ans os : feeds ans os -> feeds ((None, EINTR) :: ans) os.

Definition is_report (o : list byte) (r : pfdura_t) : Prop := exists pad, o = pfd_bytes pad r.

(** The clock does not go back. *)
Definition before (a b : pfdura_t) : Prop := micros (pfd_tv a) <= micros (pfd_tv b).

(** ** Reading a report back *)

Lemma zlen_pfd_bytes pad r : zlen (pfd_bytes pad r) = 32.
Proof. unfold pfd_bytes. zl. Qed.

Lemma pfd_of_bytes pad r : report_in r -> pfd_of (pfd_bytes pad r) = r.
Proof.
  unfold report_in, time_in, normal, N_TVS. intros (Ht & Hp & Hc & Hs & Hu).
  destruct r as [tg pi co [sec us]]. cbn [pfd_tgid pfd_pid pfd_complete pfd_tv tv_sec tv_usec] in *.
  unfold pfd_of, pfd_bytes. cbn [pfd_tgid pfd_pid pfd_complete pfd_tv tv_sec tv_usec].
  rewrite <- (app_nil_r (le_bytes 8 us)).
  f_equal; [..| f_equal]; fld_norm; (apply le_val_s; [done | done | unfold is_s; simpl in *; lia]).
Qed.

(** ** The computation of the duration *)

Lemma elapsed_micros b e :
  time_in b -> time_in e -> micros b <= micros e -> elapsed b e = micros e - micros b.
Proof.
  unfold time_in, normal, micros, elapsed. intros [? ?] [? ?] ?. cbv zeta.
  assert (forall z, - 2 ^ 63 <= z < 2 ^ 63 -> s64 z = z) as S64 by (intros; by apply wraps_small).
  rewrite !(S64 (tv_sec e - tv_sec b)), !(S64 (tv_usec e - tv_usec b)) by lia.
  case_z; [rewrite (S64 ((tv_sec e - tv_sec b) * 1000)),
    (S64 ((tv_sec e - tv_sec b) * 1000 * 1000)) by lia |]; rewrite S64 by lia; lia.
Qed.

(** ** One fault's entries *)

Lemma pf_entry_wf r t sc : wf_entry (pf_entry r t sc).
Proof.
  unfold wf_entry, wf_frozen, pf_entry. cbn.
  assert (forall w z, 0 < w -> is_u w (wrapu w z)) as U by (intros; apply wrapu_range; lia).
  split_and!; try (by apply U); try (by apply wraps_range); unfold is_s; simpl; try lia; try done.
  repeat constructor; lia.
Qed.

Lemma sent_app fd a b : sent fd (a ++ b) = sent fd a ++ sent fd b.
Proof. unfold sent. by rewrite fmap_app, concat_app. Qed.

Lemma sent_write fd n b : sent fd [AReal (bs "write") [fd; n] [b]] = b.
Proof. unfold sent. cbn [fmap list_fmap write_to concat]. by rewrite decide_True, app_nil_r. Qed.

Lemma log_fault_ok fd r b :
  exists w, log_fault fd r b = (w, Ok tt) /\
    sent fd w = entry_bytes (pf_entry r b SYS_PAGEFAULT_BEGIN) ++
      entry_bytes (pf_entry r (pfd_tv r) SYS_PAGEFAULT_END).
Proof.
  unfold log_fault. set (le1 := pf_entry r b _). set (le2 := pf_entry r (pfd_tv r) _).
  assert (frozen_size (th_fz le1) = 32) as E1 by done.
  assert (frozen_size (th_fz le2) = 32) as E2 by done.
  pose proof (zlen_entry_bytes le1 (pf_entry_wf _ _ _)) as L1.
  rewrite freeze_ok by (apply pf_entry_wf || (rewrite E1; zl)). rewrite bind_ret_l.
  rewrite E1 in *. rewrite <- E2. rewrite freeze_ok by (apply pf_entry_wf || congruence).
  rewrite bind_ret_l. eexists. split; [reflexivity |].
  rewrite sent_app, !sent_write. done.
Qed.

(** ** The loop *)

(** Every entry of the table is a time before all that is to come. *)
Definition table_in (last : gmap Z timeval) (rs : list pfdura_t) : Prop :=
  forall i, time_in (tv_at last i) /\ Forall (fun r => micros (tv_at last i) <= micros (pfd_tv r)) rs.

Lemma tv_at_insert last i t : tv_at (<[i := t]> last) i = t.
Proof. unfold tv_at. by rewrite lookup_insert_eq. Qed.
Lemma tv_at_insert_ne last i j t : i <> j -> tv_at (<[i := t]> last) j = tv_at last j.
Proof. intros. unfold tv_at. by rewrite lookup_insert_ne. Qed.

Lemma table_in_cons last r rs :
  table_in last (r :: rs) -> StronglySorted before (r :: rs) -> report_in r ->
  table_in last rs /\ table_in (<[pfd_tgid r := pfd_tv r]> last) rs /\
  time_in (tv_at last (pfd_tgid r)) /\ micros (tv_at last (pfd_tgid r)) <= micros (pfd_tv r).
Proof.
  intros H Hs Hr. apply StronglySorted_inv in Hs as [_ Hb].
  assert (table_in last rs) as Ht.
  { intros i. destruct (H i) as [Hi Hall]. split; [done | by apply Forall_inv_tail in Hall]. }
  split; [done |]. split.
  - intros i. destruct (decide (pfd_tgid r = i)) as [<- | E].
    + rewrite tv_at_insert. split; [apply Hr | exact Hb].
    + rewrite tv_at_insert_ne by done. apply Ht.
  - destruct (H (pfd_tgid r)) as [Hi Hall]. split; [done | by apply Forall_inv in Hall].
Qed.

Lemma table_in_empty rs : Forall report_in rs -> table_in ∅ rs.
Proof.
  intros H i. unfold tv_at. rewrite lookup_empty. cbn [default]. split; [done |].
  apply (List.Forall_impl _ (P := report_in)); [| done]. intros r (_ & _ & _ & Hs & Hu).
  unfold normal in Hu. unfold micros. simpl. lia.
Qed.

Definition bytes_of (les : list logentry_thaw) : list byte := concat (entry_bytes <$> les).

(** One report: the table after it and what is sent. *)
Lemma on_report_ok fd last r rs :
  table_in last (r :: rs) -> StronglySorted before (r :: rs) -> report_in r ->
  exists w last', on_report fd last r = (w, Ok last') /\ table_in last' rs /\
    bytes_of (entries last (r :: rs)) = sent fd w ++ bytes_of (entries last' rs).
Proof.
  intros Ht Hs Hr. destruct (table_in_cons _ _ _ Ht Hs Hr) as (T1 & T2 & Hb & Hle).
  unfold on_report, check_tvs. pose proof Hr as (Hg & _ & _ & He).
  rewrite check_true, bind_ret_l by zt. cbn [entries].
  destruct (pfd_complete r =? 0); [by do 2 eexists |].
  rewrite elapsed_micros by done. unfold fault_entries. destruct (100 <? _).
  - destruct (log_fault_ok fd r (tv_at last (pfd_tgid r))) as (w & E & S).
    exists w, last. rewrite E. cbn [bind ret]. rewrite app_nil_r. split; [done |]. split; [done |].
    rewrite S. unfold bytes_of. by rewrite fmap_app, concat_app; cbn; rewrite app_nil_r.
  - exists [], last. done.
Qed.

Lemma sent_real fd f args : sent fd [AReal f args []] = [].
Proof. unfold sent. cbn. by destruct args. Qed.

Lemma reader_loop_ok rfd fd last ans os rs :
  feeds ans os -> Forall2 is_report os rs -> Forall report_in rs ->
  StronglySorted before rs -> table_in last rs ->
  exists w, reader_loop rfd fd last ans = (w, Crash Pending) /\
    sent fd w = bytes_of (entries last rs).
Proof.
  intros Hf. revert last rs. induction Hf as [| o ans os errno _ IH | ans os errno _ IH | ans os _ IH];
    intros last rs Ho Hr Hs Ht.
  - apply Forall2_nil_inv_l in Ho as ->. by exists [].
  - apply Forall2_cons_inv_l in Ho as (r & rs' & [pad ->] & Ho & ->).
    apply List.Forall_cons_iff in Hr as [Hr Hrs].
    destruct (on_report_ok fd last r rs' Ht Hs Hr) as (w1 & last' & E1 & T1 & S1).
    apply StronglySorted_inv in Hs as [Hs _].
    destruct (IH last' rs' Ho Hrs Hs T1) as (w2 & E2 & S2).
    eexists. cbn [reader_loop]. unfold kread. cbn [fmap option_fmap option_map].
    rewrite ztake_all, zlen_pfd_bytes by (rewrite zlen_pfd_bytes; done). cbn [Z.eqb sizeof_pfd negb default].
    unfold real at 1. rewrite (bind_ok (emit _) _ _ _ eq_refl). cbn [id Pos.eqb negb].
    rewrite pfd_of_bytes by done. rewrite (bind_ok _ _ _ _ E1), E2. cbn [fst snd].
    split; [reflexivity |]. rewrite !sent_app, sent_real, S1, S2. done.
  - destruct (IH last rs Ho Hr Hs Ht) as (w & E & S). eexists. cbn. rewrite E. cbn.
    split; [reflexivity |]. exact S.
  - destruct (IH last rs Ho Hr Hs Ht) as (w & E & S). eexists. cbn. rewrite E. cbn.
    split; [reflexivity |]. exact S.
Qed.

Lemma entries_wf last rs : Forall wf_entry (entries last rs).
Proof.
  revert last; induction rs as [| r rs IH]; intros last; cbn [entries]; [constructor |].
  destruct (_ =? _); [done |]. apply Forall_app; split; [| done].
  unfold fault_entries. destruct (_ <? _); [| done].
  do 2 (constructor; [apply pf_entry_wf |]). constructor.
Qed.

(** ** One process *)

(** A page fault of a thread of process [p]. *)
Record fault := mk_fault { f_tid : Z; f_begin : timeval; f_end : timeval }.

Definition fault_reports (p : Z) (f : fault) : list pfdura_t :=
  [mk_pfd p (f_tid f) 0 (f_begin f); mk_pfd p (f_tid f) 1 (f_end f)].
Definition fault_log (p : Z) (f : fault) : list logentry_thaw :=
  fault_entries (mk_pfd p (f_tid f) 1 (f_end f)) (f_begin f).

(** Reports of faults one after the other, perhaps with one that has not ended. *)
Definition in_turn (p : Z) (fs : list fault) (rs : list pfdura_t) : Prop :=
  exists last, rs = (fs ≫= fault_reports p) ++ last /\ Forall (fun r => pfd_complete r = 0) last.

Definition of_process (p : Z) : list pfdura_t -> list pfdura_t := filter (fun r => pfd_tgid r = p).
Definition logged_for (p : Z) : list logentry_thaw -> list logentry_thaw :=
  filter (fun le => fz_pid (th_fz le) = p).

Lemma entries_ext last last' p rs :
  tv_at last p = tv_at last' p -> Forall (fun r => pfd_tgid r = p) rs ->
  entries last rs = entries last' rs.
Proof.
  intros E Hp. revert last last' E. induction Hp as [| r rs Hr _ IH]; intros last last' E; [done |].
  cbn [entries]. rewrite Hr, E. destruct (_ =? _); [| f_equal; by apply IH].
  apply IH. by rewrite !tv_at_insert.
Qed.

Lemma of_process_all p rs : Forall (fun r => pfd_tgid r = p) (of_process p rs).
Proof. unfold of_process. induction rs as [| r rs IH]; [done |]. rewrite filter_cons. case_decide; by try constructor. Qed.

Lemma logged_fault_entries p r b :
  0 <= pfd_tgid r < N_TVS ->
  logged_for p (fault_entries r b) = if decide (pfd_tgid r = p) then fault_entries r b else [].
Proof.
  intros Hr. unfold fault_entries, logged_for. destruct (_ <? _); [| by case_decide].
  assert (u32 (pfd_tgid r) = pfd_tgid r) as E by (apply u32_small; unfold N_TVS in *; lia).
  rewrite !filter_cons, filter_nil. cbn [pf_entry th_fz fz_pid]. rewrite E. by case_decide.
Qed.

(** What a process gets depends on its own reports only. *)
Lemma entries_process p last rs :
  Forall report_in rs -> logged_for p (entries last rs) = entries last (of_process p rs).
Proof.
  intros Hr. revert last. induction Hr as [| r rs [Hg _] _ IH]; intros last; [done |].
  cbn [entries]. unfold of_process. rewrite filter_cons. fold (of_process p rs).
  destruct (pfd_complete r =? 0) eqn:Ec.
  - rewrite IH. case_decide; [by cbn [entries]; rewrite Ec |].
    apply (entries_ext _ _ p); [by apply tv_at_insert_ne | apply of_process_all].
  - unfold logged_for. rewrite list.filter_app.
    change (filter _ (fault_entries r ?b)) with (logged_for p (fault_entries r b)).
    rewrite logged_fault_entries by done.
    change (filter _ (entries last rs)) with (logged_for p (entries last rs)). rewrite IH.
    case_decide; [by cbn [entries]; rewrite Ec | done].
Qed.

Lemma entries_in_turn p fs last rs : in_turn p fs rs -> entries last rs = fs ≫= fault_log p.
Proof.
  intros (tl & -> & Htl). revert last. induction fs as [| f fs IH]; intros last; cbn.
  - revert last. induction Htl as [| r tl Hc _ IH]; intros last; [done |].
    cbn [entries]. rewrite Hc. cbn. apply IH.
  - rewrite tv_at_insert. unfold fault_log at 1. f_equal. apply IH.
Qed.

Lemma reader_thr_ok rfd sock conn e ans os rs :
  0 <= sock -> 0 <= conn -> feeds ans os -> Forall2 is_report os rs -> Forall report_in rs ->
  StronglySorted before rs ->
  exists w, reader_thr rfd sock conn e ans = (w, Crash Pending) /\
    sent sock w = bytes_of (entries ∅ rs).
Proof.
  intros Hs Hc Hf Ho Hr Hb. unfold reader_thr.
  destruct (Z.ltb_spec sock 0), (Z.ltb_spec conn 0); try lia.
  destruct (reader_loop_ok rfd sock ∅ ans os rs Hf Ho Hr Hb (table_in_empty _ Hr)) as (w & E & S).
  rewrite E. unfold real, bind, emit. eexists. split; [reflexivity |].
  rewrite !sent_app, sent_real, S. done.
Qed.

(** ** With the module *)

Definition probe : Type := bool * task * timeval * Z.
Definition request_of (x : probe) : request := let '(c, t, now, pad) := x in Probe c t now pad.
Definition report_of (x : probe) : pfdura_t :=
  let '(c, t, now, _) := x in mk_pfd (t_tgid t) (t_pid t) (if c then 1 else 0) now.
(** The probe is of a task with pids an int holds, at a time that fits a record. *)
Definition probe_in (x : probe) : Prop :=
  0 <= pfd_tgid (report_of x) /\ 0 <= pfd_pid (report_of x) < 2147483648 /\
  time_in (pfd_tv (report_of x)).

Section module.
Context {api : KernelApi}.

(** With one process tracked, the channel gets its probes. *)
Lemma reported_one p probes :
  p < PID_MAX_DEFAULT ->
  Forall2 is_report (reported_all {[p]} (request_of <$> probes))
    (of_process p (report_of <$> probes)).
Proof.
  intros Hp. unfold of_process.
  induction probes as [| [[[c t] now] pad] probes IH]; [constructor |].
  rewrite !fmap_cons, filter_cons. cbn [request_of report_of reported_all reported tracked_after pfd_tgid].
  unfold tracks_task. case_decide as E.
  - rewrite bool_decide_eq_true_2 by (split; [lia | set_solver]).
    constructor; [by exists pad | exact IH].
  - rewrite bool_decide_eq_false_2 by set_solver. exact IH.
Qed.

Lemma reports_in p probes :
  0 <= p < N_TVS -> Forall probe_in probes ->
  Forall report_in (of_process p (report_of <$> probes)).
Proof.
  intros Hp. unfold of_process. induction 1 as [| x probes (_ & Hx & Ht) _ IH]; [constructor |].
  rewrite fmap_cons, filter_cons. case_decide as E; [| done]. constructor; [| done].
  unfold report_in. rewrite E. split_and!; try done; try lia; [| apply Ht..].
  destruct x as [[[[|] ?] ?] ?]; [by right | by left].
Qed.

Lemma reports_sorted p probes :
  StronglySorted before (report_of <$> probes) ->
  StronglySorted before (of_process p (report_of <$> probes)).
Proof.
  unfold of_process. induction 1 as [| r rs Hs IH Hb]; [constructor |].
  rewrite filter_cons. case_decide; [| done]. constructor; [done |].
  apply List.Forall_forall. intros y Hy. apply list_elem_of_In, list_elem_of_filter in Hy as [_ Hy].
  rewrite List.Forall_forall in Hb. apply Hb. by apply list_elem_of_In.
Qed.
End module.

(** ** Properties *)

(** pf.c logs every long page fault, whole and once.  Whatever reports the module
    delivers, however reads return empty or interrupted, and however the processes'
    reports are interleaved: for each process whose faults come one after the other
    the records with its pid are, in order, a SYS_PAGEFAULT_BEGIN at the fault's
    begin and a SYS_PAGEFAULT_END at its end for each fault longer than 100us, with
    the faulting thread's id, and none for a shorter one or one that has not ended.
    What is sent is exactly those records' wire format. *)
Theorem pf_logs_faults rfd sock conn e ans os rs :
  0 <= sock -> 0 <= conn -> feeds ans os -> Forall2 is_report os rs -> Forall report_in rs ->
  StronglySorted before rs ->
  exists w les, reader_thr rfd sock conn e ans = (w, Crash Pending) /\
    sent sock w = bytes_of les /\ Forall wf_entry les /\
    forall p fs, in_turn p fs (of_process p rs) -> logged_for p les = fs ≫= fault_log p.
Proof.
  intros Hs Hc Hf Ho Hr Hb.
  destruct (reader_thr_ok rfd sock conn e ans os rs Hs Hc Hf Ho Hr Hb) as (w & E & S).
  exists w, (entries ∅ rs). split_and!; [done | done | apply entries_wf |].
  intros p fs Hp. rewrite entries_process by done. by apply entries_in_turn.
Qed.

(** C14: From the probes to the log.  The module is loaded, the pid of a process,
    below 32768, is written to "on", and probes fire, in any order, for that process
    and any others, at times that do not go back.  When the faults of the process come
    one after the other, none of its threads beginning one before another's has ended
    (pf.c keeps one begin per process), what pf.c, fed with the relay channel, sends
    to the collector is exactly the two records of each of that process's faults
    longer than 100us, in order, and nothing about any other process; a last fault
    that has begun and not ended is not logged. *)
Theorem faults_traced {api : KernelApi} {law : KernelLaw} entry_addr exit_addr a p probes fs rfd sock conn e :
  granted a = true -> 0 <= p < PID_MAX_DEFAULT -> p < N_TVS ->
  Forall probe_in probes -> StronglySorted before (report_of <$> probes) ->
  in_turn p fs (of_process p (report_of <$> probes)) ->
  0 <= sock -> 0 <= conn ->
  exists wk rs m, run_mod entry_addr exit_addr None
      (KInit a :: (kin_of <$> On p :: (request_of <$> probes))) = (wk, Ok (rs, Some m)) /\
    forall ans, feeds ans (relayed wk) ->
    exists w, reader_thr rfd sock conn e ans = (w, Crash Pending) /\
      sent sock w = bytes_of (fs ≫= fault_log p).
Proof.
  intros G Hp Hn Hin Hsort Hfs Hs Hc. unfold N_TVS in Hn.
  destruct (init_ok entry_addr exit_addr a G) as (w1 & m1 & E1 & R1 & _ & _ & _ & _ & _ & A1).
  destruct (run_mod_serves entry_addr exit_addr m1 ∅ (On p :: (request_of <$> probes)) A1)
    as (w2 & m2 & E2 & R2 & _ & _ & A2).
  { constructor; [simpl; lia |]. apply Forall_fmap.
    revert Hin. apply List.Forall_impl. intros [[[c t] now] pad] Hx. apply Hx. }
  do 3 eexists. split; [exact (run_mod_cons _ _ _ _ _ _ _ _ _ _ _ (serve_init _ _ a _ _ E1) E2) |].
  intros ans Hf. rewrite relayed_app, R1, R2 in Hf. cbn [app reported_all reported tracked_after] in Hf.
  destruct (Z.leb_spec PID_MAX_DEFAULT p); [lia |]. rewrite union_empty_r_L in Hf.
  destruct (reader_thr_ok rfd sock conn e ans _ _ Hs Hc Hf (reported_one p probes (proj2 Hp)))
    as (w & E & S).
  - apply reports_in; [unfold N_TVS; lia | done].
  - by apply reports_sorted.
  - exists w. split; [done |]. by rewrite S, (entries_in_turn p fs).
Qed.

(** Threads share their process's entry.  The table is indexed by the process
    only: when a second thread's fault begins before the first one's ends, the first
    is logged as begun when the second did, and its real begin is lost (it is not
    logged at all when that leaves less than 100us). *)
Theorem threads_share_entry rfd sock conn e ans os p t1 t2 b1 b2 e1 :
  0 <= sock -> 0 <= conn -> feeds ans os ->
  Forall2 is_report os [mk_pfd p t1 0 b1; mk_pfd p t2 0 b2; mk_pfd p t1 1 e1] ->
  0 <= p < N_TVS -> 0 <= t1 < 2147483648 -> 0 <= t2 < 2147483648 ->
  time_in b1 -> time_in b2 -> time_in e1 -> micros b1 <= micros b2 <= micros e1 ->
  exists w, reader_thr rfd sock conn e ans = (w, Crash Pending) /\
    sent sock w = bytes_of (fault_log p (mk_fault t1 b2 e1)).
Proof.
  intros Hs Hc Hf Ho Hp H1 H2 Tb1 Tb2 Te1 Hm.
  destruct (reader_thr_ok rfd sock conn e ans _ _ Hs Hc Hf Ho) as (w & E & S).
  - do 3 (constructor; [unfold report_in; cbn; split_and!; try done; try lia; auto; apply Tb1 || apply Tb2 || apply Te1 |]). constructor.
  - repeat constructor; unfold before; cbn; lia.
  - exists w. split; [done |]. rewrite S. cbn [entries pfd_complete pfd_tgid pfd_tv Z.eqb].
    by rewrite tv_at_insert, app_nil_r.
Qed.

End pf.

(** Process 300 faults for 202us, and process 400 in the middle of it for 50us. *)
Definition demo_probes : list probe :=
  [(false, mk_task 300 301, mk_tv 10 20, 0); (false, mk_task 400 400, mk_tv 10 30, 0);
   (true, mk_task 400 400, mk_tv 10 80, 0); (true, mk_task 300 301, mk_tv 10 222, 0)].
Definition demo_reports : list pfdura_t := report_of <$> demo_probes.
Definition demo_fault : fault := mk_fault 301 (mk_tv 10 20) (mk_tv 10 222).
Definition demo_num (sc : syscall) : Z := if sc is SYS_PAGEFAULT_BEGIN then 50 else 51.

Lemma demo_reports_in : Forall report_in demo_reports.
Proof.
  do 4 (constructor; [unfold report_in, time_in, normal, N_TVS; cbn; lia |]). constructor.
Qed.
Lemma demo_sorted : StronglySorted before demo_reports.
Proof.
  cbv [demo_reports demo_probes fmap list_fmap].
  do 4 (constructor; [| repeat constructor; unfold before, micros; cbn; lia]). constructor.
Qed.
Lemma demo_feeds os : feeds ((None, EINTR) :: ((fun o => (Some o, 0)) <$> os)) os.
Proof. constructor. induction os; [constructor | by constructor]. Qed.
Lemma demo_is_report rs : Forall2 is_report (pfd_bytes 0 <$> rs) rs.
Proof. induction rs; constructor; [by exists 0 | done]. Qed.
Lemma demo_in_turn : in_turn 300 [demo_fault] (of_process 300 demo_reports).
Proof. by exists []. Qed.

Lemma pf_logs_faults_witness :
  let ans := (None, EINTR) :: ((fun o => (Some o, 0)) <$> (pfd_bytes 0 <$> demo_reports)) in
  exists w les, reader_thr demo_num (fun _ => []) NUL 3 5 0 [] ans = (w, Crash Pending) /\
    sent 5 w = bytes_of les /\ Forall wf_entry les /\
    forall p fs, in_turn p fs (of_process p demo_reports) ->
      logged_for p les = fs ≫= fault_log demo_num p.
Proof.
  apply (pf_logs_faults demo_num (fun _ => []) NUL 3 5 0 []
    ((None, EINTR) :: ((fun o => (Some o, 0)) <$> (pfd_bytes 0 <$> demo_reports)))
    (pfd_bytes 0 <$> demo_reports) demo_reports); try lia.
  - apply demo_feeds.
  - apply demo_is_report.
  - apply demo_reports_in.
  - apply demo_sorted.
Defined.

(** The reader runs: process 300's fault is logged, the short one is not. *)
Example demo_reader :
  sent 5 (reader_thr demo_num (fun _ => []) NUL 3 5 0 []
    ((fun o => (Some o, 0)) <$> (pfd_bytes 0 <$> demo_reports))).1 =
  bytes_of (fault_log demo_num 300 demo_fault) /\
  length (fault_log demo_num 300 demo_fault) = 2%nat.
Proof. vm_compute. done. Qed.

Lemma faults_traced_witness :
  exists wk rs m, run_mod (api := linux) 1 2 None
      (KInit demo_load :: (kin_of <$> On 300 :: (request_of <$> demo_probes))) = (wk, Ok (rs, Some m)) /\
    forall ans, feeds ans (relayed wk) ->
    exists w, reader_thr demo_num (fun _ => []) NUL 3 5 0 [] ans = (w, Crash Pending) /\
      sent 5 w = bytes_of ([demo_fault] ≫= fault_log demo_num 300).
Proof.
  apply (faults_traced demo_num (fun _ => []) NUL (api := linux) (law := linux_law) 1 2 demo_load 300
    demo_probes [demo_fault] 3 5 0 []); try lia.
  - reflexivity.
  - cbn. lia.
  - unfold N_TVS. lia.
  - repeat constructor; cbn; lia.
  - apply demo_sorted.
  - apply demo_in_turn.
Defined.

Lemma threads_share_entry_witness :
  let os := pfd_bytes 0 <$> [mk_pfd 300 301 0 (mk_tv 10 0); mk_pfd 300 302 0 (mk_tv 10 900);
    mk_pfd 300 301 1 (mk_tv 10 1100)] in
  exists w, reader_thr demo_num (fun _ => []) NUL 3 5 0 []
      ((None, EINTR) :: ((fun o => (Some o, 0)) <$> os)) = (w, Crash Pending) /\
    sent 5 w = bytes_of (fault_log demo_num 300 (mk_fault 301 (mk_tv 10 900) (mk_tv 10 1100))).
Proof.
  apply (threads_share_entry demo_num (fun _ => []) NUL 3 5 0 []
    ((None, EINTR) :: ((fun o => (Some o, 0)) <$> (pfd_bytes 0 <$> [mk_pfd 300 301 0 (mk_tv 10 0);
       mk_pfd 300 302 0 (mk_tv 10 900); mk_pfd 300 301 1 (mk_tv 10 1100)])))
    (pfd_bytes 0 <$> [mk_pfd 300 301 0 (mk_tv 10 0); mk_pfd 300 302 0 (mk_tv 10 900);
       mk_pfd 300 301 1 (mk_tv 10 1100)]) 300 301 302 (mk_tv 10 0) (mk_tv 10 900) (mk_tv 10 1100));
    [lia | lia | apply demo_feeds | apply demo_is_report |
     unfold time_in, normal, micros, N_TVS; cbn; lia ..].
Defined.
