(* ===== verification/Pfdura.v ===== *)
(** src/src/pfdura/pfdura.c, the main function of src/src/trace/pf.c, and who switches
    the kernel module on and off: this program and the library's pfdura (Exec.v).

    [control] reads a program's calls as requests to the module.  pfdura.c's
    reader_thr prints ints with %li: [wide] is the long that printf finds for an int
    passed to it, whose upper half C leaves open. *)
From S2P Require Import Prelude CInt CString Config Binlog PpId Env Exec PfduraMod Pf.

Definition SIGINT : Z := 2.
Definition SIGTERM : Z := 15.

Definition dirname : list byte := bs "/mnt/relay/pfdura".
Definition filname : list byte := bs "cpu0".

(** Whether strtol(3) in base 10 converts anything ([cp != argv[1]]). *)
Definition converts (s : list byte) : bool :=
  match (strip_sign (skip_space s)).2 with b :: _ => is_digit b | [] => false end.

(** [fd] and [rc] answer open and write. *)
Definition control_write (dirname filename : list byte) (val fd rc : Z) : acts unit :=
  emit (AReal (bs "open") [O_RDWR] [dirname ++ bs "/" ++ filename]) ;;;
  if fd <? 0 then stop (Exit 1) else
  let tmp := fmt_d val in
  emit (AReal (bs "write") [fd; zlen tmp] [tmp]) ;;;
  real (bs "close") [fd] ;;;
  if rc <? 0 then stop (Exit 1) else ret tt.

(** What the kernel answers to main. *)
Record control_answers := mk_control {
  ca_rfd : Z;                (* open of the feed *)
  ca_thread : Z;             (* pthread_create *)
  ca_on : Z * Z;             (* open and write of "on" *)
  ca_off : Z * Z;
  ca_signals : list (Z * Z)  (* sigwait: its result and the signal *)
}.

(** The loop of main: [off] is done at the first of the two signals. *)
Fixpoint signal_loop (off : acts Z) (sigs : list (Z * Z)) : acts Z :=
  match sigs with
  | [] => stop Pending
  | (rc, signal) :: sigs =>
      if negb (rc =? 0) then ret 0
      else if (signal =? SIGINT) || (signal =? SIGTERM) then off
      else signal_loop off sigs
  end.

Definition pfdura_main (argv : list (list byte)) (a : control_answers) : acts Z :=
  match argv with
  | [_; arg] =>
      if negb (converts arg) then stop (Exit 0) else
      let pid := strtol10 arg in
      emit (AReal (bs "open") [O_RDONLY] [dirname ++ bs "/" ++ filname]) ;;;
      if ca_rfd a <? 0 then ret (-1) else
      real (bs "pthread_create") [ca_rfd a] ;;;
      if ca_thread a <? 0 then real (bs "close") [ca_rfd a] ;;; ret (-1) else
      control_write dirname (bs "on") pid (ca_on a).1 (ca_on a).2 ;;;
      signal_loop
        (control_write dirname (bs "off") pid (ca_off a).1 (ca_off a).2 ;;;
         real (bs "pthread_cancel") [] ;;;
         real (bs "close") [ca_rfd a] ;;;
         stop (Exit 0))
        (ca_signals a)
  | _ => stop (Exit 0)
  end.

(** pf.c: [logfd] is what reader_thr has set it to when the signal comes. *)
Definition pf_main (rfd thread logfd : Z) (sigs : list (Z * Z)) : acts Z :=
  emit (AReal (bs "open") [O_RDONLY] [RELAY_FEED]) ;;;
  if rfd <? 0 then ret (-1) else
  real (bs "pthread_create") [rfd] ;;;
  if thread <? 0 then real (bs "close") [rfd] ;;; ret (-1) else
  signal_loop
    ((if 0 <? logfd then real (bs "close") [logfd] else ret tt) ;;;
     real (bs "pthread_cancel") [] ;;;
     real (bs "close") [rfd] ;;;
     ret 0)
    sigs.

(** ** The reports printed *)

Definition TAB : byte := x09.

Section printed.
Context (wide : Z -> Z).

(** The text of one report; the microseconds are not padded. *)
Definition report_line (pfd : pfdura_t) : list byte :=
  bs "TGID: " ++ fmt_d (wide (pfd_tgid pfd)) ++ TAB :: bs "PID: " ++ fmt_d (wide (pfd_pid pfd)) ++
  TAB :: (if pfd_complete pfd =? 0 then bs "begin" else bs "end") ++
  TAB :: bs "[" ++ fmt_d (tv_sec (pfd_tv pfd)) ++ bs "." ++ fmt_d (tv_usec (pfd_tv pfd)) ++ bs "]" ++ [LF].

Fixpoint print_thr (fd : Z) (ans : list kerrno) : acts unit :=
  match ans with
  | [] => stop Pending
  | (r, errno) :: ans =>
      real (bs "read") [fd; sizeof_pfd] ;;;
      let rc := match kread r sizeof_pfd with Some b => zlen b | None => -1 end in
      if negb (rc =? sizeof_pfd) then
        if (rc =? 0) || (errno =? EINTR) then
          real (bs "usleep") [100] ;;;
          print_thr fd ans
        else stop (Exit 1)
      else
      emit (AReal (bs "printf") [] [report_line (pfd_of (default [] (kread r sizeof_pfd)))]) ;;;
      print_thr fd ans
  end.

(** What is on stdout. *)
Definition print_of (a : act) : list (list byte) :=
  match a with AReal f _ [s] => if decide (f = bs "printf") then [s] else [] | _ => [] end.
Definition printouts (w : list act) : list (list byte) := w ≫= print_of.

(** The control program prints the module's reports, one line each, in order,
    whatever empty and interrupted reads come between. *)
Theorem pfdura_prints fd ans os rs :
  feeds ans os -> Forall2 is_report os rs -> Forall report_in rs ->
  exists w, print_thr fd ans = (w, Crash Pending) /\ printouts w = report_line <$> rs.
Proof.
  intros Hf. revert rs. induction Hf as [| o ans os errno _ IH | ans os errno _ IH | ans os _ IH]; intros rs Ho Hr.
  - apply Forall2_nil_inv_l in Ho as ->. by exists [].
  - apply Forall2_cons_inv_l in Ho as (r & rs' & [pad ->] & Ho & ->).
    apply List.Forall_cons_iff in Hr as [Hr Hrs].
    destruct (IH rs' Ho Hrs) as (w & E & P). eexists. cbn [print_thr]. unfold kread. cbn [fmap option_fmap option_map].
    rewrite ztake_all, zlen_pfd_bytes by (rewrite zlen_pfd_bytes; done). cbn [Z.eqb Pos.eqb sizeof_pfd negb default id].
    rewrite pfd_of_bytes by done. rewrite E. cbn [bind real emit app].
    split; [reflexivity |]. unfold printouts in *. rewrite !bind_cons, P. done.
  - destruct (IH rs Ho Hr) as (w & E & P). eexists. cbn. rewrite E. split; [reflexivity | exact P].
  - destruct (IH rs Ho Hr) as (w & E & P). eexists. cbn. rewrite E. split; [reflexivity | exact P].
Qed.

(** A read that fails for another reason, or a short one, ends the program. *)
Theorem pfdura_read_fails fd r errno ans :
  match r with Some b => 0 < zlen b < sizeof_pfd | None => True end -> errno <> EINTR ->
  (print_thr fd ((r, errno) :: ans)).2 = Crash (Exit 1).
Proof.
  intros Hr He. cbn [print_thr]. unfold real. rewrite (bind_ok (emit _) _ _ _ eq_refl). cbn [snd].
  destruct (Z.eqb_spec errno EINTR) as [-> | _]; [done |].
  destruct r as [b |]; cbn [kread fmap option_fmap option_map]; [| done].
  rewrite ztake_all by lia. destruct (Z.eqb_spec (zlen b) sizeof_pfd), (Z.eqb_spec (zlen b) 0); by lia || done.
Qed.
End printed.

Lemma pfdura_prints_witness :
  let r := mk_pfd 300 301 0 (mk_tv 7 42) in
  exists w, print_thr (fun n => n) 3 [(Some [], 0); (Some (pfd_bytes 0 r), 0); (None, EINTR)] =
      (w, Crash Pending) /\
    printouts w = [bs "TGID: 300" ++ TAB :: bs "PID: 301" ++ TAB :: bs "begin" ++ TAB :: bs "[7.42]" ++ [LF]].
Proof.
  intros r. apply (pfdura_prints (fun n => n) 3 _ [pfd_bytes 0 r] [r]).
  - repeat constructor.
  - constructor; [by exists 0 | constructor].
  - constructor; [| constructor]. unfold report_in, time_in, normal, N_TVS. cbn. lia.
Defined.

Lemma pfdura_read_fails_witness :
  (print_thr (fun n => n) 3 [(Some [NUL], 11)]).2 = Crash (Exit 1).
Proof. apply (pfdura_read_fails (fun n => n) 3 (Some [NUL]) 11 []); [done | discriminate]. Defined.

(** ** The requests a program makes *)

(** [cur] is the file opened last. *)
Fixpoint control (cur : list byte) (w : list act) : list kin :=
  match w with
  | [] => []
  | AReal f args strs :: w =>
      if decide (f = bs "open") then control (match strs with path :: _ => path | [] => cur end) w
      else if decide (f = bs "write") then
        match args, strs with
        | [_; n], [b] =>
            (if decide (cur = RELAY_ON) then [KOn b n false]
             else if decide (cur = RELAY_OFF) then [KOff b n false] else []) ++ control cur w
        | _, _ => control cur w
        end
      else control cur w
  | _ :: w => control cur w
  end.

Definition switch (on : bool) (pid : Z) : request := if on then On pid else Off pid.

Lemma control_pfdura (on : bool) pid fd rc :
  0 <= fd ->
  exists w, pfdura on pid fd rc = (w, if rc <? 0 then Crash (Exit 1) else Ok tt) /\
    control [] w = [kin_of (switch on pid)].
Proof.
  intros H. unfold pfdura. destruct (Z.ltb_spec fd 0); [lia |].
  destruct (rc <? 0), on; eexists; (split; [reflexivity |]); reflexivity.
Qed.

Lemma control_control_write (on : bool) pid fd rc :
  0 <= fd ->
  exists w, control_write dirname (if on then bs "on" else bs "off") pid fd rc =
      (w, if rc <? 0 then Crash (Exit 1) else Ok tt) /\
    forall cur w', exists cur', control cur (w ++ w') = kin_of (switch on pid) :: control cur' w'.
Proof.
  intros H. unfold control_write. destruct (Z.ltb_spec fd 0); [lia |].
  destruct (rc <? 0), on; eexists; (split; [reflexivity |]);
    intros cur w'; eexists; reflexivity.
Qed.

Lemma fmt_d_read p :
  0 <= p < 2147483648 -> converts (fmt_d p) = true /\ strtol10 (fmt_d p) = p.
Proof.
  intros Hp. unfold fmt_d. destruct (Z.ltb_spec p 0); [lia |].
  destruct (fmt_u_read p ltac:(lia)) as [E V].
  unfold converts, strtol10, dec_value. rewrite E, V. cbn [snd]. unfold LONG_MAX. split; [| lia].
  unfold fmt_u. destruct (dec_digits_ok 20 p) as [Hd _]; [simpl; lia | lia |].
  destruct (dec_digits_head 20 p) as (b & l & Eb); [lia |]. rewrite Eb in *. by apply Forall_inv in Hd.
Qed.

(** Signals that are neither of the two leave the loop where it is. *)
Lemma signal_loop_skip off others sigs :
  Forall (fun x => x.1 = 0 /\ x.2 <> SIGINT /\ x.2 <> SIGTERM) others ->
  signal_loop off (others ++ sigs) = signal_loop off sigs.
Proof.
  induction 1 as [| [rc s] others (H0 & Hi & Ht) _ IH]; [done |]. cbn in *. subst rc.
  apply Z.eqb_neq in Hi, Ht. cbn. by rewrite Hi, Ht.
Qed.

Section controlled.
Context {api : KernelApi} {law : KernelLaw} (entry_addr exit_addr : Z).

Lemma control_one m S q :
  mod_abs m S -> request_in q ->
  exists wk m', run_mod entry_addr exit_addr (Some m) [kin_of q] = (wk, Ok ([answer_of S q], Some m')) /\
    mod_abs m' (tracked_after S q).
Proof.
  intros Ha Hq. destruct (run_mod_serves entry_addr exit_addr m S [q] Ha) as (wk & m' & E & _ & _ & _ & A).
  - by constructor.
  - by exists wk, m'.
Qed.

(** The library's pfdura and the kernel module understand each other.  What it
    writes for its pid is a request the module answers by tracking exactly that
    process more, or less; and it comes back to its caller unless the module refused
    (a pid out of range, or one not tracked), when it ends the program with status 1. *)
Theorem library_switches (on : bool) pid fd m S :
  mod_abs m S -> 0 <= pid < 2147483648 -> 0 <= fd ->
  let rc := answer_of S (switch on pid) in
  exists w wk m', pfdura on pid fd rc = (w, if rc <? 0 then Crash (Exit 1) else Ok tt) /\
    run_mod entry_addr exit_addr (Some m) (control [] w) = (wk, Ok ([rc], Some m')) /\
    mod_abs m' (tracked_after S (switch on pid)).
Proof.
  intros Ha Hp Hf rc. destruct (control_pfdura on pid fd rc Hf) as (w & E & C).
  destruct (control_one m S (switch on pid) Ha) as (wk & m' & R & A); [by destruct on |].
  exists w, wk, m'. by rewrite C.
Qed.

(** A run of the control program.  pfdura PID switches the reporting of that
    process on, waits for SIGINT or SIGTERM whatever other signals come, switches it
    off again and exits with 0: afterwards the module tracks what it did before, less
    that process. *)
Theorem pfdura_session prog p a m S others s rest :
  mod_abs m S -> 0 < p < 2147483648 -> p < PID_MAX_DEFAULT ->
  0 <= ca_rfd a -> 0 <= ca_thread a -> 0 <= (ca_on a).1 -> 0 <= (ca_off a).1 ->
  (ca_on a).2 = answer_of S (On p) -> (ca_off a).2 = answer_of ({[p]} ∪ S) (Off p) ->
  ca_signals a = others ++ (0, s) :: rest ->
  Forall (fun x => x.1 = 0 /\ x.2 <> SIGINT /\ x.2 <> SIGTERM) others ->
  s = SIGINT \/ s = SIGTERM ->
  exists w wk rs m', pfdura_main [prog; fmt_d p] a = (w, Crash (Exit 0)) /\
    run_mod entry_addr exit_addr (Some m) (control [] w) = (wk, Ok (rs, Some m')) /\
    mod_abs m' (S ∖ {[p]}).
Proof.
  intros Ha Hp Hmax Hr Ht Hon Hoff Eon Eoff Esig Hother Hs.
  pose proof (zlen_fmt_int p (is_s_pid p ltac:(lia))) as Hl.
  assert (answer_of S (On p) = zlen (fmt_d p)) as Aon.
  { cbn. destruct (Z.leb_spec PID_MAX_DEFAULT p); [lia | done]. }
  assert (answer_of ({[p]} ∪ S) (Off p) = zlen (fmt_d p)) as Aoff.
  { cbn. destruct (Z.eqb_spec p 0), (Z.ltb_spec p PID_MAX_DEFAULT); try lia.
    rewrite bool_decide_eq_true_2 by set_solver. done. }
  destruct (fmt_d_read p ltac:(lia)) as [Ec Ev].
  destruct (control_control_write true p _ (ca_on a).2 Hon) as (w1 & E1 & C1).
  destruct (control_control_write false p _ (ca_off a).2 Hoff) as (w2 & E2 & C2).
  rewrite Eon, Aon in E1. rewrite Eoff, Aoff in E2.
  destruct (Z.ltb_spec (zlen (fmt_d p)) 0); [lia |].
  unfold pfdura_main. rewrite Ec, Ev. cbn [negb].
  destruct (Z.ltb_spec (ca_rfd a) 0), (Z.ltb_spec (ca_thread a) 0); try lia.
  rewrite Esig, signal_loop_skip by done. cbn [signal_loop].
  assert ((s =? SIGINT) || (s =? SIGTERM) = true) as -> by (destruct Hs as [-> | ->]; done).
  rewrite Eon, Eoff, Aon, Aoff. cbn [negb Z.eqb]. rewrite E1, E2. unfold real, emit, stop.
  cbn [bind app].
  set (feed := dirname ++ bs "/" ++ filname).
  destruct (C1 feed (w2 ++ [AReal (bs "pthread_cancel") [] []; AReal (bs "close") [ca_rfd a] []])) as (cur1 & K1).
  destruct (C2 cur1 [AReal (bs "pthread_cancel") [] []; AReal (bs "close") [ca_rfd a] []]) as (cur2 & K2).
  destruct (run_mod_serves entry_addr exit_addr m S [On p; Off p] Ha) as (wk & m' & R & _ & _ & _ & A).
  { repeat constructor; cbn; lia. }
  do 4 eexists. split; [reflexivity |]. split.
  - cbn [control]. rewrite decide_True by done. cbn [control].
    rewrite decide_False by done. rewrite decide_False by done.
    fold feed. rewrite K1, K2. cbn [control].
    repeat rewrite decide_False by done. exact R.
  - cbn [tracked_all tracked_after] in A. destruct (Z.leb_spec PID_MAX_DEFAULT p), (Z.eqb_spec p 0); try lia.
    replace (S ∖ {[p]}) with (({[p]} ∪ S) ∖ {[p]}) by set_solver. exact A.
Qed.

(** C40: A traced program's exit status.  The exit wrapper first tells the module to
    forget the process: when the module is loaded and does not track it (it was
    loaded after the program started, or the control program has switched the pid or
    everything off) the wrapper ends the program with status 1 instead of the
    program's own. *)
Theorem exit_status_lost status relay l m S :
  mod_abs m S -> 0 < mypid l < 2147483648 -> 0 <= relay -> mypid l ∉ S ->
  exists w wk rs m', exit_ status relay (answer_of S (Off (mypid l))) l = (w, Crash (Exit 1)) /\
    run_mod entry_addr exit_addr (Some m) (control [] w) = (wk, Ok (rs, Some m')) /\
    mod_abs m' S.
Proof.
  intros Ha Hp Hr Hn.
  destruct (control_pfdura false (mypid l) relay (answer_of S (Off (mypid l))) Hr) as (w & E & C).
  assert (answer_of S (Off (mypid l)) = - EINVAL) as Ean.
  { cbn. destruct (Z.eqb_spec (mypid l) 0); [lia |]. cbn.
    rewrite bool_decide_eq_false_2, andb_false_r by done. done. }
  destruct (control_one m S (Off (mypid l)) Ha) as (wk & m' & R & A); [cbn; lia |].
  exists w, wk. do 2 eexists. split; [| split; [rewrite C; exact R |]].
  - unfold exit_. rewrite E, Ean. done.
  - cbn [tracked_after] in A. destruct (Z.eqb_spec (mypid l) 0); [lia |].
    by replace (S ∖ {[mypid l]}) with S in A by set_solver.
Qed.

End controlled.

Definition demo_pfmod : pfmod := set_kchan (mod_loaded (api := linux)) 8.

Lemma demo_pfmod_abs : mod_abs (api := linux) demo_pfmod ∅.
Proof. apply (abs_none (api := linux) (law := linux_law) demo_pfmod). done. Qed.

Lemma library_switches_witness :
  exists w wk m', pfdura true 300 4 3 = (w, Ok tt) /\
    run_mod (api := linux) 1 2 (Some demo_pfmod) (control [] w) = (wk, Ok ([3], Some m')) /\
    mod_abs (api := linux) m' ({[300]} ∪ ∅).
Proof.
  apply (library_switches (api := linux) (law := linux_law) 1 2 true 300 4 demo_pfmod ∅);
    [apply demo_pfmod_abs | lia | lia].
Defined.

Lemma pfdura_session_witness :
  exists w wk rs m',
    pfdura_main [bs "pfdura"; bs "300"] (mk_control 3 0 (4, 3) (4, 3) [(0, 1); (0, SIGTERM)]) =
      (w, Crash (Exit 0)) /\
    run_mod (api := linux) 1 2 (Some demo_pfmod) (control [] w) = (wk, Ok (rs, Some m')) /\
    mod_abs (api := linux) m' (∅ ∖ {[300]}).
Proof.
  apply (pfdura_session (api := linux) (law := linux_law) 1 2 (bs "pfdura") 300
    (mk_control 3 0 (4, 3) (4, 3) [(0, 1); (0, SIGTERM)]) demo_pfmod ∅ [(0, 1)] SIGTERM []);
    [apply demo_pfmod_abs | lia | cbn; lia | cbn; lia | cbn; lia | cbn; lia | cbn; lia | reflexivity |
     vm_compute; reflexivity | reflexivity | repeat constructor; done | by right].
Defined.

Lemma exit_status_lost_witness :
  exists w wk rs m', exit_ 0 4 (answer_of (api := linux) ∅ (Off 100)) demo_lib = (w, Crash (Exit 1)) /\
    run_mod (api := linux) 1 2 (Some demo_pfmod) (control [] w) = (wk, Ok (rs, Some m')) /\
    mod_abs (api := linux) m' ∅.
Proof.
  apply (exit_status_lost (api := linux) (law := linux_law) 1 2 0 4 demo_lib demo_pfmod ∅);
    [apply demo_pfmod_abs | cbn; lia | lia | set_solver].
Defined.
