(* ===== verification/Threads.v ===== *)
(** src/src/logd/binlog.c: the threads' contexts, and the log of a process whose
    threads log at the same time.

    pthread_getspecific finds a thread's context, [ctxs] maps the threads to theirs.
    A step is one entry of a thread into the log: alloc_ctx, a LOGBIN call, lb_flush,
    or the end of the thread, when the key's destructor frees the context with what
    it holds.  A step makes at most one write(2) when the kernel takes writes whole
    ([takes_whole], as it does for a blocking pipe or socket that is not
    interrupted), so that any interleaving of the threads is a sequence of steps. *)
From stdpp Require Import functions.
From S2P Require Import Prelude CInt CString Config Fmt Binlog Vfd Exec.

Abbreviation ctxs := (gmap Z thread_ctx).

(** [now] is the time gettimeofday reports, [junk] what malloc leaves. *)
Inductive thread_op :=
| TStart (pid lfd : Z) (junk : list byte)
| TLog (e : event) (now : timeval)
| TFlush
| TEnd.

Section threads.
Context (sysno : syscall -> Z) (nm : byte).

(** get_ctx; every use of the pointer it returns needs a context. *)
Definition get_ctx (t : Z) (m : ctxs) : writes thread_ctx := of_opt (m !! t).

Definition thread_step (t : Z) (op : thread_op) (m : ctxs) (ans : list Z) :
    writes (ctxs * list Z) :=
  match op with
  | TStart pid lfd junk => ret (<[t := alloc_ctx t pid lfd junk]> m, ans)
  | TLog e now =>
      let! c := get_ctx t m in
      let! (c, ans) := run_event sysno nm now e c ans in
      ret (<[t := c]> m, ans)
  | TFlush =>
      let! c := get_ctx t m in
      let! (c, ans) := lb_flush c ans in
      ret (<[t := c]> m, ans)
  | TEnd => ret (delete t m, ans)
  end.

Fixpoint run_threads (ops : list (Z * thread_op)) (m : ctxs) (ans : list Z) :
    writes (ctxs * list Z) :=
  match ops with
  | [] => ret (m, ans)
  | (t, op) :: ops =>
      let! (m, ans) := thread_step t op m ans in
      run_threads ops m ans
  end.

(** ** What a thread does *)

Definition own (t : Z) (ops : list (Z * thread_op)) : list thread_op :=
  snd <$> filter (fun x => x.1 = t) ops.

(** Without a context; with one, its last call of the log a flush, or not. *)
Inductive phase := Absent | Flushed | Unflushed.

Definition phase_step (p : phase) (op : thread_op) : option phase :=
  match op, p with
  | TStart _ _ _, (Absent | Flushed) => Some Flushed
  | TLog _ _, (Flushed | Unflushed) => Some Unflushed
  | TFlush, (Flushed | Unflushed) => Some Flushed
  | TEnd, Flushed => Some Absent
  | _, _ => None
  end.

(** [None]: the thread logs without a context, or drops one that is not flushed. *)
Fixpoint phases (p : phase) (ops : list thread_op) : option phase :=
  match ops with
  | [] => Some p
  | op :: ops => match phase_step p op with Some p => phases p ops | None => None end
  end.

(** The records of its log calls, with the ids of the context it has then. *)
Inductive thread_records (t : Z) :
    option thread_ctx -> list thread_op -> list logentry_thaw -> Prop :=
| tr_nil c : thread_records t c [] []
| tr_start c pid lfd junk ops es :
    thread_records t (Some (alloc_ctx t pid lfd junk)) ops es ->
    thread_records t c (TStart pid lfd junk :: ops) es
| tr_log c e now pad ops es :
    zlen pad = 4 -> thread_records t (Some c) ops es ->
    thread_records t (Some c) (TLog e now :: ops) (event_entry sysno nm now c e pad :: es)
| tr_flush c ops es : thread_records t c ops es -> thread_records t c (TFlush :: ops) es
| tr_end c ops es : thread_records t None ops es -> thread_records t c (TEnd :: ops) es.

Definition of_thread (t : Z) : list logentry_thaw -> list logentry_thaw :=
  filter (fun le => fz_tid (th_fz le) = t).

(** What the steps are given: one log descriptor, records that fit. *)
Context (lfd : Z).

Definition step_ok (x : Z * thread_op) : Prop :=
  match x.2 with
  | TStart pid fd junk => is_u 64 x.1 /\ fd = lfd /\ zlen junk = PIPE_BUF /\ is_s 32 pid
  | TLog e _ => event_fits e
  | _ => True
  end.

(** One write: whole records of one thread, no more than a pipe takes at once. *)
Definition whole_write (p : Z * list byte) : Prop :=
  p.1 = lfd /\ zlen p.2 <= PIPE_BUF /\
  exists t es, p.2 = stream_bytes es /\ Forall (fun le => fz_tid (th_fz le) = t) es.

(** ** One thread *)

(** The context of [t] holds the records [pend]. *)
Definition holds (t : Z) (c : thread_ctx) (pend : list logentry_thaw) : Prop :=
  ctx_wf c /\ ctx_tid c = t /\ ctx_logfd c = lfd /\ buffered c = stream_bytes pend /\
  Forall wf_entry pend /\ Forall (fun le => fz_tid (th_fz le) = t) pend.

Definition thread_inv (t : Z) (oc : option thread_ctx) (p : phase) (pend : list logentry_thaw) : Prop :=
  match oc, p with
  | None, Absent => pend = []
  | Some c, Flushed => holds t c pend /\ pend = []
  | Some c, Unflushed => holds t c pend /\ pend <> []
  | _, _ => False
  end.

Lemma thread_records_same t c c' ops es :
  same_ids c c' -> thread_records t (Some c') ops es -> thread_records t (Some c) ops es.
Proof.
  intros Hid H. remember (Some c') as oc eqn:E. revert c c' Hid E.
  induction H as [x | x pid fd junk ops es Hr IH | c0 e now pad ops es Hpad Hr IH | x ops es Hr IH |
    x ops es Hr IH]; intros c c' Hid E; simplify_eq.
  - constructor.
  - by constructor.
  - unfold event_entry. rewrite (log_entry_same _ _ c c') by done. constructor; [done |].
    by apply (IH _ c').
  - constructor. by apply (IH _ c').
  - by constructor.
Qed.

Lemma zlen_buffered c : ctx_wf c -> zlen (buffered c) <= PIPE_BUF.
Proof. intros (Hl & Hp & _). unfold buffered. zl. Qed.

Lemma holds_write t c pend : holds t c pend -> whole_write (ctx_logfd c, buffered c).
Proof.
  intros (Hwf & _ & Hl & Hb & _ & Ht). split; [done |]. split; [by apply zlen_buffered |]. by exists t, pend.
Qed.

Lemma stream_bytes_one e : stream_bytes [e] = entry_bytes e.
Proof. apply app_nil_r. Qed.

Lemma event_entry_ok t c pend now e pad :
  holds t c pend -> event_fits e -> zlen pad = 4 ->
  wf_entry (event_entry sysno nm now c e pad) /\
  fz_tid (th_fz (event_entry sysno nm now c e pad)) = t.
Proof.
  intros (Hwf & Ht & _) [Hn Hz] Hp. split; [| exact Ht].
  apply log_entry_wf; try done. split; [apply zlen_nonneg | done].
Qed.

(** A step as the theorem about it needs it: what is sent and what stays are the old
    records and the new ones. *)
Definition steps (t : Z) (op : thread_op) (m : ctxs) (ans : list Z) (pend : list logentry_thaw) (ph' : phase) : Prop :=
  exists out m' ans' snt pend' es,
    thread_step t op m ans = (out, Ok (m', ans')) /\
    zlen ans - zlen ans' <= 1 /\ suffix ans' ans /\
    (forall t', t' <> t -> m' !! t' = m !! t') /\
    Forall whole_write out /\ payload out = stream_bytes snt /\
    Forall wf_entry snt /\ Forall (fun le => fz_tid (th_fz le) = t) snt /\
    snt ++ pend' = pend ++ es /\ thread_inv t (m' !! t) ph' pend' /\
    (forall ops es', thread_records t (m' !! t) ops es' -> thread_records t (m !! t) (op :: ops) (es ++ es')).

Lemma start_steps t pid fd junk m ans :
  step_ok (t, TStart pid fd junk) -> steps t (TStart pid fd junk) m ans [] Flushed.
Proof.
  intros (Ht & -> & Hj & Hp). exists [], (<[t := alloc_ctx t pid lfd junk]> m), ans, [], [], [].
  cbn [thread_step]. rewrite lookup_insert_eq. split_and!; try done; try lia.
  - intros t' Hne. by rewrite lookup_insert_ne.
  - cbn [thread_inv]. split; [| done]. unfold holds.
    split_and!; try done; [by apply alloc_ctx_wf |]. by apply wrapu_small.
  - intros ops es' H. by constructor.
Qed.

Lemma end_steps t m ans : steps t TEnd m ans [] Absent.
Proof.
  exists [], (delete t m), ans, [], [], [].
  cbn [thread_step]. rewrite lookup_delete_eq. split_and!; try done; try lia.
  - intros t' Hne. by rewrite lookup_delete_ne.
  - intros ops es' H. by constructor.
Qed.

Lemma flush_steps t c pend m ans :
  m !! t = Some c -> holds t c pend -> takes_whole ans -> 1 <= zlen ans ->
  steps t TFlush m ans pend Flushed.
Proof.
  intros Hm Hh Ha Hn. pose proof Hh as (Hwf & Htid & Hfd & Hb & Hpw & Hpt).
  destruct (lb_flush_whole c ans Hwf Ha Hn) as (out & ans' & E & Hl & Hs & Ho).
  exists out, (<[t := set_lbptr c 0]> m), ans', pend, [], [].
  cbn [thread_step]. unfold get_ctx. rewrite Hm. cbn [of_opt]. rewrite bind_ret_l, E.
  cbn [bind ret]. rewrite app_nil_r, lookup_insert_eq.
  split_and!; try done; try lia.
  - intros t' Hne. by rewrite lookup_insert_ne.
  - rewrite Ho. destruct (_ =? 0); constructor; [by eapply holds_write | done].
  - rewrite Ho, <- Hb. unfold buffered. destruct (Z.eqb_spec (lbptr c) 0) as [-> |]; [done |].
    rewrite payload_cons, payload_nil, app_nil_r. done.
  - cbn [thread_inv]. split; [| done]. destruct Hwf as (H1 & H2 & H3). unfold holds, ctx_wf.
    cbn [set_lbptr lb lbptr ctx_tid ctx_pid ctx_fz_high ctx_fz_low ctx_logfd].
    split_and!; try done; try lia; apply H3.
  - intros ops es' H. constructor. eapply thread_records_same; [| exact H]. by repeat split.
Qed.

Lemma log_steps t c pend e now m ans :
  m !! t = Some c -> holds t c pend -> event_fits e -> takes_whole ans -> 1 <= zlen ans ->
  steps t (TLog e now) m ans pend Unflushed.
Proof.
  intros Hm Hh [Hn Hz] Ha Hl. pose proof Hh as (Hwf & Htid & Hfd & Hb & Hpw & Hpt).
  assert (0 <= zlen (ev_args e) <= 3) as Hn' by (split; [apply zlen_nonneg | done]).
  destruct (LOGBIN_gen_whole nm now c ans (sysno (ev_sc e)) (ev_rv e)
    (default 0 (ev_args e !! 0%nat)) (default 0 (ev_args e !! 1%nat))
    (default 0 (ev_args e !! 2%nat)) (zlen (ev_args e)) (ev_str e))
    as (out & c' & ans' & E & Hc & Hs & Ho); try done.
  pose proof E as E'. apply LOGBIN_gen_stream in E' as (Hwf' & Hid & _ & pad & Hpad & Hp); try done.
  fold (event_entry sysno nm now c e pad) in Hp. set (le := event_entry sysno nm now c e pad) in *.
  destruct (event_entry_ok t c pend now e pad Hh (conj Hn Hz) Hpad) as [Hlw Hlt]. fold le in Hlw, Hlt.
  pose proof Hid as (_ & Htid' & Hfd' & _).
  assert (forall pend', buffered c' = stream_bytes pend' -> Forall wf_entry pend' ->
    Forall (fun le => fz_tid (th_fz le) = t) pend' -> holds t c' pend') as Hc'.
  { intros pend' ???. unfold holds. rewrite Htid', Hfd'. done. }
  assert (Forall whole_write out /\ exists snt pend', payload out = stream_bytes snt /\
    Forall wf_entry snt /\ Forall (fun le => fz_tid (th_fz le) = t) snt /\
    snt ++ pend' = pend ++ [le] /\ holds t c' pend' /\ pend' <> []) as (Hw & snt & pend' & K).
  { destruct Ho as [-> | ->].
    - split; [done |]. exists [], (pend ++ [le]). split_and!; try done; [| by destruct pend].
      apply Hc'; [| apply Forall_app; split; [done | by constructor] ..].
      rewrite stream_bytes_app, <- Hb, stream_bytes_one. exact Hp.
    - split; [by constructor; [eapply holds_write |] |]. exists pend, [le].
      rewrite payload_cons, payload_nil, app_nil_r in *. cbn [snd] in *. apply app_inv_head in Hp.
      split_and!; try done. apply Hc'; [| by constructor | by constructor].
      by rewrite Hp, stream_bytes_one. }
  destruct K as (K1 & K2 & K3 & K4 & K5 & K6).
  exists out, (<[t := c']> m), ans', snt, pend', [le].
  cbn [thread_step]. unfold get_ctx, run_event. rewrite Hm. cbn [of_opt]. rewrite bind_ret_l.
  cbv beta zeta. rewrite E. cbn [bind ret]. rewrite app_nil_r, lookup_insert_eq.
  split_and!; try done.
  - intros t' Hne. by rewrite lookup_insert_ne.
  - intros ops es' H. cbn [app]. constructor; [done |]. by eapply thread_records_same.
Qed.

Lemma step_steps t op m ans ph ph' pend :
  thread_inv t (m !! t) ph pend -> phase_step ph op = Some ph' -> step_ok (t, op) ->
  takes_whole ans -> 1 <= zlen ans -> steps t op m ans pend ph'.
Proof.
  unfold thread_inv. intros Hi Hp Hok Ha Hn.
  destruct op, ph; simplify_eq/=; destruct (m !! t) as [c |] eqn:Hm; try done.
  - subst pend. by apply start_steps.
  - destruct Hi as [_ ->]. by apply start_steps.
  - destruct Hi as [Hi _]. by eapply log_steps.
  - destruct Hi as [Hi _]. by eapply log_steps.
  - destruct Hi as [Hi _]. by eapply flush_steps.
  - destruct Hi as [Hi _]. by eapply flush_steps.
  - destruct Hi as [_ ->]. by apply end_steps.
Qed.

(** ** All threads *)

Definition all_inv (m : ctxs) (P : Z -> phase) (Q : Z -> list logentry_thaw) : Prop :=
  forall t, thread_inv t (m !! t) (P t) (Q t).

Lemma own_cons_eq t op ops : own t ((t, op) :: ops) = op :: own t ops.
Proof. unfold own. by rewrite filter_cons_True. Qed.
Lemma own_cons_ne t t' op ops : t' <> t -> own t ((t', op) :: ops) = own t ops.
Proof. intros. unfold own. by rewrite filter_cons_False. Qed.

Lemma of_thread_app t a b : of_thread t (a ++ b) = of_thread t a ++ of_thread t b.
Proof. apply list.filter_app. Qed.
Lemma of_thread_own t es : Forall (fun le => fz_tid (th_fz le) = t) es -> of_thread t es = es.
Proof.
  unfold of_thread. induction 1 as [| le es H _ IH]; [done |]. by rewrite filter_cons_True, IH.
Qed.
Lemma of_thread_other t t' es :
  Forall (fun le => fz_tid (th_fz le) = t') es -> t' <> t -> of_thread t es = [].
Proof.
  unfold of_thread. intros H Hne. induction H as [| le es H _ IH]; [done |].
  by rewrite filter_cons_False by congruence.
Qed.

Lemma run_threads_ok ops m P Q ans :
  all_inv m P Q -> Forall step_ok ops -> (forall t, phases (P t) (own t ops) <> None) ->
  takes_whole ans -> zlen ops <= zlen ans ->
  exists out m' ans' les P' Q' R,
    run_threads ops m ans = (out, Ok (m', ans')) /\ Forall whole_write out /\
    payload out = stream_bytes les /\ Forall wf_entry les /\ all_inv m' P' Q' /\
    forall t, phases (P t) (own t ops) = Some (P' t) /\
      of_thread t les ++ Q' t = Q t ++ R t /\ thread_records t (m !! t) (own t ops) (R t).
Proof.
  intros Hi Hok. revert m P Q ans Hi. induction Hok as [| [t op] ops Hop _ IH];
    intros m P Q ans Hi Hph Ha Hn.
  { exists [], m, ans, [], P, Q, (fun _ => []). split_and!; try done.
    intros t. split_and!; [done | by rewrite app_nil_r | constructor]. }
  rewrite zlen_cons in Hn. pose proof (zlen_nonneg ops).
  pose proof (Hph t) as Ht. rewrite own_cons_eq in Ht. cbn [phases] in Ht.
  destruct (phase_step (P t) op) as [ph |] eqn:Eph; [| done].
  destruct (step_steps t op m ans (P t) ph (Q t) (Hi t) Eph Hop Ha) as
    (o1 & m1 & ans1 & snt & pend & es & E1 & Hc1 & Hs1 & Hm1 & W1 & Pay1 & Wf1 & T1 & S1 & I1 & R1); [lia |].
  assert (all_inv m1 (<[t := ph]> P) (<[t := pend]> Q)) as Hi1.
  { intros t'. destruct (decide (t = t')) as [<- | Hne]; [by rewrite !fn_lookup_insert |].
    rewrite !fn_lookup_insert_ne, Hm1 by done. apply Hi. }
  destruct (IH m1 _ _ ans1 Hi1) as (o2 & m2 & ans2 & les & P' & Q' & R & E2 & W2 & Pay2 & Wf2 & I2 & H2).
  - intros t'. destruct (decide (t = t')) as [<- | Hne]; [by rewrite fn_lookup_insert |].
    rewrite fn_lookup_insert_ne by done. specialize (Hph t'). by rewrite own_cons_ne in Hph.
  - destruct Hs1 as [k ->]. by apply Forall_app in Ha as [_ ?].
  - lia.
  - exists (o1 ++ o2), m2, ans2, (snt ++ les), P', Q', (<[t := es ++ R t]> R).
    cbn [run_threads]. rewrite E1. cbn [bind]. rewrite E2.
    rewrite payload_app, Pay1, Pay2, <- stream_bytes_app.
    split_and!; try done; try by apply Forall_app.
    intros t'. destruct (H2 t') as (H2p & H2s & H2r).
    rewrite of_thread_app. destruct (decide (t = t')) as [<- | Hne].
    + rewrite fn_lookup_insert in H2p. rewrite fn_lookup_insert in H2s.
      rewrite own_cons_eq, fn_lookup_insert. cbn [phases]. rewrite Eph.
      split_and!; [done | | by apply R1].
      rewrite (of_thread_own t snt), <- app_assoc, H2s, !app_assoc, S1 by done. done.
    + rewrite fn_lookup_insert_ne in H2p by done. rewrite fn_lookup_insert_ne in H2s by done.
      rewrite Hm1 in H2r by done. rewrite own_cons_ne, fn_lookup_insert_ne by done.
      by rewrite (of_thread_other t' t).
Qed.

(** From a process without threads. *)
Lemma run_threads_logged ops ans :
  Forall step_ok ops -> (forall t, phases Absent (own t ops) <> None) ->
  takes_whole ans -> zlen ops <= zlen ans ->
  exists out m ans' les,
    run_threads ops ∅ ans = (out, Ok (m, ans')) /\ Forall whole_write out /\
    payload out = stream_bytes les /\ Forall wf_entry les /\
    forall t, exists missing,
      thread_records t None (own t ops) (of_thread t les ++ missing) /\
      (missing = [] <-> phases Absent (own t ops) <> Some Unflushed).
Proof.
  intros Hok Hph Ha Hn.
  destruct (run_threads_ok ops ∅ (fun _ => Absent) (fun _ => []) ans) as
    (out & m & ans' & les & P & Q & R & E & W & Pay & Wf & I & H); try done.
  exists out, m, ans', les. split_and!; try done.
  intros t. exists (Q t). destruct (H t) as (Hp & Hs & Hr).
  rewrite Hs. cbn [app]. split; [by rewrite lookup_empty in Hr |].
  rewrite Hp. specialize (I t). unfold thread_inv in I.
  destruct (m !! t), (P t); naive_solver.
Qed.

End threads.

(** ** A thread of the library

    The steps in a sequence of the library's calls (Exec.v). *)

Definition op_of (junk : list byte) (now : timeval) (a : act) : option thread_op :=
  match a with
  | ALog (LLog e) => Some (TLog e now)
  | ALog LFlush => Some TFlush
  | ACtx pid fd => Some (TStart pid fd junk)
  | AReal _ _ _ => None
  end.
Definition thread_ops (junk : list byte) (now : timeval) (w : list act) : list thread_op :=
  omap (op_of junk now) w.

Definition is_ctx (a : act) : bool := if a is ACtx _ _ then true else false.

Lemma phases_app p a b :
  phases p (a ++ b) = match phases p a with Some p' => phases p' b | None => None end.
Proof.
  revert p; induction a as [| op a IH]; intros p; cbn [app phases]; [done |].
  by destruct (phase_step p op).
Qed.

(** With a context, log calls and flushes keep it. *)
Lemma phases_body junk now w p :
  p <> Absent -> Forall (fun a => is_ctx a = false) w ->
  exists p', phases p (thread_ops junk now w) = Some p' /\ p' <> Absent.
Proof.
  intros Hp Hw. revert p Hp. induction Hw as [| a w Ha _ IH]; intros p Hp; [by exists p |].
  unfold thread_ops in *. cbn [omap list_omap].
  destruct a as [[e |] | |]; [| | by apply IH | done]; cbn [op_of phases];
    (destruct p; [done | cbn [phase_step]; by apply IH ..]).
Qed.

Lemma thread_ops_app junk now a b :
  thread_ops junk now (a ++ b) = thread_ops junk now a ++ thread_ops junk now b.
Proof. apply omap_app. Qed.

Lemma logd_init_starts inet_addr b l junk now :
  boots b -> exists w l', logd_init inet_addr b l = (w, Ok l') /\
    l_fl l' = l_fl l /\ thread_ops junk now w = [TStart (mypid l) 79 junk].
Proof.
  intros (Hs & Hc & Hd & _). unfold logd_init.
  destruct (negb (bb_disable_log (l_fl l) =? 0) || l_disabled l); [by do 2 eexists |].
  destruct (Z.ltb_spec (b_socket b) 0); [lia |]. destruct (Z.ltb_spec (b_connect b) 0); [lia |].
  rewrite Hd. by do 2 eexists.
Qed.

(** A thread whose start_routine returns begins with its context and ends flushed:
    nothing it logged is lost with its context. *)
Theorem thread_returns_flushed inet_addr b body l junk now w z l' :
  boots b -> l_disabled l = false ->
  Forall (fun a => is_ctx a = false) body.1 ->
  start_routine_wrapper inet_addr b body l = (w, Ok (z, l')) ->
  phases Absent (thread_ops junk now w ++ [TEnd]) = Some Absent.
Proof.
  intros Hb Hdis Hbody H. destruct (logd_init_starts inet_addr b l junk now Hb) as (w1 & l1 & E1 & Efl & O1).
  assert (l_disabled l1 = false) as Hd1 by (unfold l_disabled in *; by rewrite Efl).
  unfold start_routine_wrapper, flush_unless_disabled in H. rewrite (bind_ok _ _ _ _ E1), Hd1 in H.
  destruct body as [wb [zb | cb]]; [| done].
  unfold LOGBIN0, log_flush, lift, emit in H. cbn [bind fst snd ret fmap list_fmap app] in H.
  injection H as <- _ _. rewrite !thread_ops_app, O1. cbn [app phases phase_step].
  change (thread_ops junk now (ALog ?x :: ?y)) with (option_list (op_of junk now (ALog x)) ++ thread_ops junk now y).
  unfold option_list at 1. cbn [op_of option_rect from_option app phases phase_step].
  destruct (phases_body junk now wb Unflushed) as (p' & E & Hp'); [done | exact Hbody |].
  rewrite thread_ops_app, <- !app_assoc, phases_app, E. by destruct p'.
Qed.

(** ** Properties *)

(** C5: The threads of a process share one log.  Let each thread log only between its
    start and its end, and flush before it ends.  However their steps interleave, with
    a kernel that takes writes whole: no call fails; every write to the log is made of
    whole records of one thread and fits a pipe's atomic size, so that the log is a
    sequence of records; and in it each thread's records are those of its log calls,
    in order.  The only ones missing are the last ones of a thread that has logged
    since it last flushed (exit, which flushes the calling thread only, leaves those
    of the others in their buffers). *)
Theorem threads_log sysno nm lfd ops ans :
  Forall (step_ok lfd) ops -> (forall t, phases Absent (own t ops) <> None) ->
  takes_whole ans -> zlen ops <= zlen ans ->
  exists out m ans' les,
    run_threads sysno nm ops ∅ ans = (out, Ok (m, ans')) /\ Forall (whole_write lfd) out /\
    payload out = stream_bytes les /\ Forall wf_entry les /\
    forall t, exists missing,
      thread_records sysno nm t None (own t ops) (of_thread t les ++ missing) /\
      (missing = [] <-> phases Absent (own t ops) <> Some Unflushed).
Proof. apply run_threads_logged. Qed.

(** Two threads: the first starts the second, both log, only the first flushes. *)
Definition demo_ops : list (Z * thread_op) :=
  [(7, TStart 300 79 (replicate 4096 NUL)); (7, TLog (mk_event SYS_OPEN 3 [0] (Some (bs "a"))) (mk_tv 1 2));
   (8, TStart 300 79 (replicate 4096 NUL)); (8, TLog (mk_event SYS_CLOSE 0 [3] None) (mk_tv 1 3));
   (7, TLog (mk_event SYS_EXIT 0 [] None) (mk_tv 1 4)); (7, TFlush)].

Lemma threads_log_witness :
  exists out m ans' les,
    run_threads (fun _ => 5) "x"%byte demo_ops ∅ (replicate 6 4096) = (out, Ok (m, ans')) /\
    Forall (whole_write 79) out /\ payload out = stream_bytes les /\ Forall wf_entry les /\
    forall t, exists missing,
      thread_records (fun _ => 5) "x"%byte t None (own t demo_ops) (of_thread t les ++ missing) /\
      (missing = [] <-> phases Absent (own t demo_ops) <> Some Unflushed).
Proof.
  apply (threads_log (fun _ => 5) "x"%byte 79 demo_ops (replicate 6 4096)).
  - repeat apply List.Forall_cons; [.. | apply List.Forall_nil];
      first [exact I | split_and!; vm_compute; (done || congruence) | split; vm_compute; congruence].
  - intros t. unfold demo_ops, own.
    destruct (decide (7 = t)) as [<- |]; [vm_compute; discriminate |].
    destruct (decide (8 = t)) as [<- |]; [vm_compute; discriminate |].
    rewrite !filter_cons_False, filter_nil by (cbn; congruence). discriminate.
  - apply Forall_replicate. vm_compute. congruence.
  - vm_compute. congruence.
Defined.
