(* ===== verification/PerTid.v ===== *)
(** src/src/logd/binlog.c and binlog.h under TRACK_PER_TID, which no header sets: a
    descriptor table, a set of tracked descriptors and a select cache for each thread.

    They are the fields of [proc] (Vfd.v), here a part of the thread's context; when it
    is initialised they hold what malloc left. *)
From S2P Require Import Prelude CInt CString Config Plugin Getservice PpId Vbuf Vfd.

(** The loop of vfd_ctx_init from descriptor [i]. *)
Fixpoint vfd_ctx_loop (n : nat) (i : Z) (ctx : proc) : logged proc :=
  match n with
  | O => ret ctx
  | S n' =>
      let v := get_vfd ctx i in
      let! ctx :=
        match dispatcher v with
        | Some d => let! data := pp_shutdown d (ppdata v) in ret (set_vfd ctx i (set_ppdata v data))
        | None => ret ctx
        end in
      assert false ;;;
      vfd_ctx_loop n' (i + 1) (set_vfd ctx i vfd0)
  end.

Definition vfd_ctx_init (ctx : proc) : logged proc :=
  let! ctx := vfd_ctx_loop (Z.to_nat MAX_FDS) 0 (set_tracked ctx {[0; 1; 2]}) in
  ret (set_sel ctx ∅ ∅ ∅).

Definition get_tracked (ctx : proc) : gset Z := tracked ctx.
Definition get_vfd_tab (ctx : proc) (i : Z) : logged vfd :=
  if MAX_FDS <? i then stop (Exit 1) else
  check ((0 <=? i) && (i <? MAX_FDS)) ;;;
  ret (get_vfd ctx i).

(** One turn is never finished. *)
Lemma vfd_ctx_loop_stops n i ctx w ctx' : vfd_ctx_loop (S n) i ctx <> (w, Ok ctx').
Proof.
  cbn [vfd_ctx_loop]. intros H. apply bind_inv in H as (c1 & w1 & w2 & _ & H & _).
  by apply bind_inv in H as (u & w3 & w4 & H & _).
Qed.

Lemma vfd_ctx_loop_aborts n i ctx :
  dispatcher (get_vfd ctx i) = None -> vfd_ctx_loop (S n) i ctx = stop AssertFail.
Proof. intros H. cbn [vfd_ctx_loop]. by rewrite H. Qed.

Lemma max_fds_succ : exists n, Z.to_nat MAX_FDS = S n.
Proof. by exists (Z.to_nat (MAX_FDS - 1)). Qed.

(** ** Properties *)

(** The assert in the loop is reached at once: with TRACK_PER_TID (and without NDEBUG) no
    thread ever gets its context. *)
Theorem per_tid_never_starts ctx w ctx' : vfd_ctx_init ctx <> (w, Ok ctx').
Proof.
  unfold vfd_ctx_init. destruct max_fds_succ as [n ->]. intros H.
  apply bind_inv in H as (c1 & w1 & w2 & H & _). by apply vfd_ctx_loop_stops in H.
Qed.

(** Without a plugin in the first entry it is the assert itself that ends the process. *)
Theorem per_tid_aborts ctx : dispatcher (get_vfd ctx 0) = None -> vfd_ctx_init ctx = stop AssertFail.
Proof.
  intros H. unfold vfd_ctx_init. destruct max_fds_succ as [n ->]. by rewrite vfd_ctx_loop_aborts.
Qed.

(** The test of get_vfd_tab lets the first index behind the table through. *)
Theorem get_vfd_tab_bounds ctx i :
  get_vfd_tab ctx i =
    if (0 <=? i) && (i <? MAX_FDS) then ret (get_vfd ctx i)
    else if MAX_FDS <? i then stop (Exit 1) else stop Undef.
Proof.
  unfold get_vfd_tab, check. destruct (Z.ltb_spec MAX_FDS i), (Z.leb_spec 0 i), (Z.ltb_spec i MAX_FDS);
    cbn [andb]; done || lia.
Qed.

Example get_vfd_tab_at_end ctx : get_vfd_tab ctx 1024 = stop Undef.
Proof. reflexivity. Qed.
