(* ===== verification/System.v ===== *)
(** The whole system, src/src/trace, src/src/logd/logd.c and src/src/logd/expand.c:
    what the threads of several traced processes log comes out of expand.

    Each process is a client of the collector: the bytes its threads write to the log
    descriptor are the stream of one connection. *)
From stdpp Require Import functions.
From S2P Require Import Prelude CInt CString Config Fmt Binlog Common Expand Logd Vfd Exec Threads Collect.


Section system.
Context (sysno : syscall -> Z).















End system.


(** ** Properties *)










